(** * PyExperimentSuite: a shallow embedding of [expsuite.py]

    The development follows the Python source function by function.
    Python values are an inductive type, dictionaries are association lists
    in iteration order, the file system is a finite map from path names to
    file contents together with a set of directories and a working
    directory, and the methods of [PyExperimentSuite] are functions in a
    state-and-exception monad over that world.  A trace records the file
    operations and the calls of the hooks, so that statements such as "the
    log is opened for appending" or "[iterate] is called for the indices
    [M .. iterations-1]" can be made.

    The file has six parts: the embedding ([Str], [FloatFmt], [PyText],
    [Path], [FS], the suite), the vocabulary of the statements, concrete
    suites and worlds (followed by the reading side of the class:
    [progress], [get_exps], [get_history], [get_history_tags], [get_value]),
    facts about the embedding, the claims C1..C10, and further properties
    X1.. of the functions the claims do not reach.

    The reading side has a result type of its own ([Read]), since it can
    raise [ZeroDivisionError] and [IndexError].  [get_exps] is read on an
    explicit directory tree as [os.walk] lists it.  [get_history] and
    [get_value] are read inside a section whose variables are what they take
    from outside: [get_params] (the snapshot read by [ConfigParser]),
    Python's [eval] on a word of the log with the local variables it can
    see, and [min] and [max] on the recorded values.

    Path names matter: [run_rep] changes the working directory to the
    directory of the repetition ([os.chdir]) and goes on using the path it
    joined from [params['path']] and [params['name']].  The embedding reads
    every path against the working directory, as the system does, so a
    relative path stops naming the same place after the first [os.chdir].
    The positive statements about [run_rep] are therefore made for absolute
    paths ([Ready]).

    The file operations fail where the system's fail: [os.makedirs] for the
    empty name, for a name that is taken and below a plain file; [open] for
    writing when the directory of the name is missing or the name is that
    of a directory; [os.path.exists] and [os.chdir] know no empty name.
    Statements that need a directory made or a file written say so
    ([Free], [NoSubdir], a snapshot name that is no directory).

    The hooks of a subclass see and change the state of the subclass, so
    what [iterate] returns at an index may depend on the calls before it.
    The statements about [run_rep] speak of the results [iterate] gives
    when the hooks are called in the order of the loop from the state
    [run_rep] starts them in ([results], [failure], [save_failures]).

    The loop that replaces spaces in the keys of a result changes the
    dictionary it walks over.  When the new name of a key is taken the
    dictionary shrinks and CPython raises [RuntimeError] at the next step
    of the walk; the embedding does the same.  When no new name is taken
    the embedding renames the keys in order, which is what CPython does as
    long as its hash table is not rebuilt during the walk; the statements
    keep to results without spaces in their keys ([spaceless]), for which
    the loop does nothing.

    What lies outside the embedding:
    - diagnostic output ([sys.stderr.write], [print], the [logging] module
      and the [debuglog] file it may open);
    - the worker pool of [multiprocessing]: [do_experiment] is embedded up to
      the point where the work items are handed to the pool, which cannot
      be made for fewer than one process ([ValueError]);
    - the text [ConfigParser] produces for a snapshot and the text of a
      float under [str] and [repr], which are parameters of the environment;
    - what the hooks of a subclass do besides changing the state of the
      subclass and returning or raising; [reset] and [restore_state], whose
      exceptions [run_rep] does not catch, are taken to return. *)

From Stdlib Require Import ZArith Ascii String List Bool Lia.
From Stdlib Require Import Decimal DecimalString.
From Stdlib Require Import Floats.SpecFloat.
From stdpp Require Import gmap strings list fin_maps.

Local Open Scope Z_scope.
Set Warnings "-register-all".

(* ===================================================================== *)
(** * Characters and strings *)
(* ===================================================================== *)

Module Str.

Definition nl : ascii := "010"%char.
Definition slash : ascii := "/"%char.
Definition dquote : ascii := "034"%char.
Definition squote : ascii := "039"%char.
Definition backslash : ascii := "092"%char.

Definition of_char (c : ascii) : string := String c EmptyString.

(** [''.join(l)] *)
Fixpoint join_all (l : list string) : string :=
  match l with
  | [] => ""
  | s :: r => s +:+ join_all r
  end.

(** [sep.join(l)] *)
Fixpoint join_with (sep : string) (l : list string) : string :=
  match l with
  | [] => ""
  | [s] => s
  | s :: r => s +:+ sep +:+ join_with sep r
  end.

(** [s.startswith(p)] *)
Fixpoint startswith (p s : string) : bool :=
  match p, s with
  | EmptyString, _ => true
  | String a p', String b s' => Ascii.eqb a b && startswith p' s'
  | String _ _, EmptyString => false
  end.

(** [needle in hay] for two strings: substring test *)
Fixpoint contains (needle hay : string) : bool :=
  startswith needle hay ||
  match hay with
  | EmptyString => false
  | String _ r => contains needle r
  end.

(** [c in s] for a character *)
Fixpoint has_char (c : ascii) (s : string) : bool :=
  match s with
  | EmptyString => false
  | String a r => Ascii.eqb a c || has_char c r
  end.

(** [s.endswith(c)] for a one-character suffix *)
Fixpoint ends_with_char (c : ascii) (s : string) : bool :=
  match s with
  | EmptyString => false
  | String a EmptyString => Ascii.eqb a c
  | String _ r => ends_with_char c r
  end.

(** [s.replace(a, b)] for single characters *)
Fixpoint replace_char (a b : ascii) (s : string) : string :=
  match s with
  | EmptyString => EmptyString
  | String c r => String (if Ascii.eqb c a then b else c) (replace_char a b r)
  end.

(** [re.sub("[...]", '', s)]: drop every character of a class *)
Fixpoint drop_chars (cls : ascii -> bool) (s : string) : string :=
  match s with
  | EmptyString => EmptyString
  | String c r => if cls c then drop_chars cls r else String c (drop_chars cls r)
  end.

Definition lower_char (c : ascii) : ascii :=
  let n := nat_of_ascii c in
  if (65 <=? n)%nat && (n <=? 90)%nat then ascii_of_nat (n + 32) else c.

(** [s.lower()] *)
Fixpoint lower (s : string) : string :=
  match s with
  | EmptyString => EmptyString
  | String c r => String (lower_char c) (lower r)
  end.

Fixpoint repeat_char (c : ascii) (n : nat) : string :=
  match n with
  | O => EmptyString
  | S k => String c (repeat_char c k)
  end.

(** [file.readlines()]: the text cut after every newline; every line keeps
    its terminator, a last line without terminator is kept as it is. *)
Fixpoint readlines (s : string) : list string :=
  match s with
  | EmptyString => []
  | String c r =>
      if Ascii.eqb c nl then of_char c :: readlines r
      else match readlines r with
           | [] => [of_char c]
           | l :: ls => String c l :: ls
           end
  end.

(** decimal text of an integer, as ['%i' % n] and [str(n)] give it *)
Definition of_Z (n : Z) : string := NilZero.string_of_int (Z.to_int n).
Definition of_nat (n : nat) : string := NilZero.string_of_uint (Nat.to_uint n).

Definition digit_or_minus (c : ascii) : bool :=
  match c with
  | "0" | "1" | "2" | "3" | "4" | "5" | "6" | "7" | "8" | "9" | "-" => true
  | _ => false
  end%char.

(** ['%0*d' % (w, n)] for a natural number *)
Definition zero_pad (w : nat) (n : nat) : string :=
  let s := of_nat n in
  repeat_char "0"%char (w - String.length s) +:+ s.

End Str.

(* ===================================================================== *)
(** * Python values *)
(* ===================================================================== *)

(** The values a parameter can hold after [items_to_params] has evaluated
    the configuration text: [None], integers, floats (IEEE binary64, given by
    sign, mantissa and exponent as in [SpecFloat]), strings, lists and
    dictionaries. *)
Inductive PyVal : Type :=
| VNone
| VInt (n : Z)
| VFloat (f : spec_float)
| VStr (s : string)
| VList (l : list PyVal)
| VDict (d : list (string * PyVal)).

(** A Python [dict] with string keys, in its iteration order. *)
Definition Dict : Type := list (string * PyVal).

Module PyDict.

Fixpoint get {A} (d : list (string * A)) (k : string) : option A :=
  match d with
  | [] => None
  | (k', v) :: r => if String.eqb k' k then Some v else get r k
  end.

(** [k in d] *)
Definition mem {A} (k : string) (d : list (string * A)) : bool :=
  match get d k with Some _ => true | None => false end.

(** [d[k] = v]: an existing key keeps its place, a new one goes last *)
Fixpoint set {A} (d : list (string * A)) (k : string) (v : A) : list (string * A) :=
  match d with
  | [] => [(k, v)]
  | (k', v') :: r => if String.eqb k' k then (k, v) :: r else (k', v') :: set r k v
  end.

(** [del d[k]] *)
Fixpoint del {A} (d : list (string * A)) (k : string) : list (string * A) :=
  match d with
  | [] => []
  | (k', v') :: r => if String.eqb k' k then r else (k', v') :: del r k
  end.

Definition keys {A} (d : list (string * A)) : list string := map fst d.

End PyDict.

(** [hasattr(v, '__iter__') and not isinstance(v, dict)]: in Python 2 a
    string has no [__iter__]; of the values above only lists pass. *)
Definition is_sweep (v : PyVal) : bool :=
  match v with
  | VList _ => true
  | _ => false
  end.

(** Truth value of an optional integer option of [optparse] ([None] when the
    flag is absent). *)
Definition truthy (o : option Z) : bool :=
  match o with
  | None => false
  | Some n => negb (n =? 0)
  end.

(* ===================================================================== *)
(** * Floating point text: ['%f' % x] *)
(* ===================================================================== *)

Module FloatFmt.

Definition prec : Z := 53.
Definition emax : Z := 1024.

(** [float(n)] for an integer: rounding to nearest, ties to even *)
Definition of_Z (n : Z) : spec_float := binary_normalize prec emax n 0 false.

(** the quotient of two integers as a float, correctly rounded: the value a
    decimal literal such as [0.1] denotes *)
Definition of_ratio (a b : Z) : spec_float := SFdiv prec emax (of_Z a) (of_Z b).

(** round [num / den] to the nearest integer, ties to even ([den > 0]) *)
Definition div_half_even (num den : Z) : Z :=
  let q := num / den in
  let r := num mod den in
  if (2 * r >? den) || ((2 * r =? den) && Z.odd q) then q + 1 else q.

(** the non-negative rational [m * 2^e] times [10^k], rounded to an integer *)
Definition scaled (m : positive) (e : Z) (k : Z) : Z :=
  let num := Z.pos m * (if 0 <=? e then 2 ^ e else 1) * (if 0 <=? k then 10 ^ k else 1) in
  let den := (if 0 <=? e then 1 else 2 ^ (- e)) * (if 0 <=? k then 1 else 10 ^ (- k)) in
  div_half_even num den.

Definition sign_text (s : bool) : string := if s then "-" else "".

(** fixed-point text with six decimals *)
Definition fixed6 (s : bool) (m : positive) (e : Z) : string :=
  let n := scaled m e 6 in
  sign_text s +:+ Str.of_Z (n / 10 ^ 6) +:+ "." +:+ Str.zero_pad 6 (Z.to_nat (n mod 10 ^ 6)).

(** number of decimal digits of a positive integer *)
Definition ndigits (n : Z) : nat := String.length (Str.of_Z n).

Fixpoint strip_zeros_rev (l : list ascii) : list ascii :=
  match l with
  | c :: r => if Ascii.eqb c "0"%char then strip_zeros_rev r else l
  | [] => []
  end.

(** drop the zeros at the end of a digit string *)
Definition strip_zeros (s : string) : string :=
  string_of_list_ascii (rev (strip_zeros_rev (rev (list_ascii_of_string s)))).

(** ['%g'] with six significant digits, for a value of at least [1e50]:
    exponent notation, zeros at the end of the fraction removed *)
Definition general6 (s : bool) (m : positive) (e : Z) : string :=
  let v := scaled m e 0 in
  let x0 := Z.of_nat (ndigits v) - 1 in
  let d0 := scaled m e (5 - x0) in
  let '(d, x) := if d0 =? 10 ^ 6 then (10 ^ 5, x0 + 1) else (d0, x0) in
  let digits := Str.of_Z d in
  let frac := strip_zeros (String.substring 1 5 digits) in
  sign_text s +:+ String.substring 0 1 digits
    +:+ (if String.eqb frac "" then "" else "." +:+ frac)
    +:+ "e+" +:+ Str.of_Z x.

(** the float [1e50], above which Python 2 formats ['%f'] as ['%g'] *)
Definition big : spec_float := of_Z (10 ^ 50).

(** ['%f' % x] for a float *)
Definition percent_f (x : spec_float) : string :=
  match x with
  | S754_zero s => sign_text s +:+ "0.000000"
  | S754_infinity s => sign_text s +:+ "inf"
  | S754_nan => "nan"
  | S754_finite s m e =>
      if SFleb big (SFabs x) then general6 s m e else fixed6 s m e
  end.

Fixpoint all_zeros (s : string) : bool :=
  match s with
  | EmptyString => true
  | String c r => Ascii.eqb c "0"%char && all_zeros r
  end.

(** [re.sub("0+$", '0', s)]: the zeros at the end become one zero *)
Fixpoint collapse_zeros (s : string) : string :=
  match s with
  | EmptyString => EmptyString
  | String c r =>
      if Ascii.eqb c "0"%char && all_zeros r then "0"
      else String c (collapse_zeros r)
  end.

End FloatFmt.

(* ===================================================================== *)
(** * Text of values: [str] and [repr] *)
(* ===================================================================== *)

(** The text of a float under [str] and [repr] is left to the interpreter:
    both are parameters. *)
Record FloatText : Type := {
  float_str : spec_float -> string;
  float_repr : spec_float -> string
}.

Module PyText.

Definition hex_digit (n : nat) : ascii :=
  match n with
  | 0 => "0" | 1 => "1" | 2 => "2" | 3 => "3" | 4 => "4" | 5 => "5"
  | 6 => "6" | 7 => "7" | 8 => "8" | 9 => "9" | 10 => "a" | 11 => "b"
  | 12 => "c" | 13 => "d" | 14 => "e" | _ => "f"
  end%nat%char.

(** one character inside the quotes of [repr(s)] *)
Definition repr_char (quote : ascii) (c : ascii) : string :=
  let n := nat_of_ascii c in
  if Ascii.eqb c quote || Ascii.eqb c Str.backslash then String Str.backslash (Str.of_char c)
  else if Ascii.eqb c "009"%char then String Str.backslash "t"
  else if Ascii.eqb c Str.nl then String Str.backslash "n"
  else if Ascii.eqb c "013"%char then String Str.backslash "r"
  else if (n <? 32)%nat || (127 <=? n)%nat
       then String Str.backslash (String "x" (String (hex_digit (n / 16)) (Str.of_char (hex_digit (n mod 16)))))
  else Str.of_char c.

Fixpoint repr_chars (quote : ascii) (s : string) : string :=
  match s with
  | EmptyString => EmptyString
  | String c r => repr_char quote c +:+ repr_chars quote r
  end.

(** [repr(s)] of a [str]: single quotes, unless the text holds a single
    quote and no double quote *)
Definition repr_str (s : string) : string :=
  let quote :=
    if Str.has_char Str.squote s && negb (Str.has_char Str.dquote s)
    then Str.dquote else Str.squote in
  String quote (repr_chars quote s) +:+ Str.of_char quote.

(** [repr(n)]: a value outside the machine word is a [long] and ends in L *)
Definition repr_int (n : Z) : string :=
  if (- 2 ^ 63 <=? n) && (n <? 2 ^ 63) then Str.of_Z n else Str.of_Z n +:+ "L".

Section WithFloats.
Variable ft : FloatText.

Fixpoint repr (v : PyVal) : string :=
  match v with
  | VNone => "None"
  | VInt n => repr_int n
  | VFloat f => float_repr ft f
  | VStr s => repr_str s
  | VList l => "[" +:+ Str.join_with ", " (map repr l) +:+ "]"
  | VDict d =>
      "{" +:+ Str.join_with ", " (map (fun kv => repr_str (fst kv) +:+ ": " +:+ repr (snd kv)) d) +:+ "}"
  end.

(** [str(v)] *)
Definition str (v : PyVal) : string :=
  match v with
  | VStr s => s
  | VInt n => Str.of_Z n
  | VFloat f => float_str ft f
  | _ => repr v
  end.
End WithFloats.

(** [str(l)] for a list of pairs of strings, as [zip] of two string lists
    gives it *)
Definition str_pairs (l : list (string * string)) : string :=
  "[" +:+ Str.join_with ", "
            (map (fun kv => "(" +:+ repr_str (fst kv) +:+ ", " +:+ repr_str (snd kv) +:+ ")") l)
      +:+ "]".

End PyText.

(* ===================================================================== *)
(** * Exceptions and results *)
(* ===================================================================== *)

Inductive PyExn : Type :=
| KeyError (key : string)
| TypeError
| ValueError
| IOError (path : string)
| OSError (path : string)
| OverflowError
| RuntimeError
| SystemExit (msg : string).

Inductive Result (A : Type) : Type :=
| Ok (a : A)
| Raise (e : PyExn).
Arguments Ok {A} a.
Arguments Raise {A} e.

(** [convert_param_to_dirname]: a string as it is, a number as ['%f'] text
    with the zeros at its end collapsed; ['%f'] refuses anything else. *)
Definition convert_param_to_dirname (param : PyVal) : Result string :=
  match param with
  | VStr s => Ok s
  | VInt n =>
      match FloatFmt.of_Z n with
      | S754_infinity _ => Raise OverflowError
      | f => Ok (FloatFmt.collapse_zeros (FloatFmt.percent_f f))
      end
  | VFloat f => Ok (FloatFmt.collapse_zeros (FloatFmt.percent_f f))
  | _ => Raise TypeError
  end.

(* ===================================================================== *)
(** * Path names: [os.path] *)
(* ===================================================================== *)

Module Path.

Definition is_abs (p : string) : bool := Str.startswith "/" p.

(** [os.path.join(a, b)] *)
Definition join (a b : string) : string :=
  if is_abs b then b
  else if String.eqb a "" || Str.ends_with_char Str.slash a then a +:+ b
  else a +:+ "/" +:+ b.

(** [p[:p.rfind('/') + 1]] *)
Fixpoint head (p : string) : string :=
  match p with
  | EmptyString => EmptyString
  | String c r =>
      if Str.has_char Str.slash r then String c (head r)
      else if Ascii.eqb c Str.slash then "/"
      else EmptyString
  end.

Fixpoint all_slashes (s : string) : bool :=
  match s with
  | EmptyString => true
  | String c r => Ascii.eqb c Str.slash && all_slashes r
  end.

(** [s.rstrip('/')] *)
Fixpoint rstrip_slash (s : string) : string :=
  match s with
  | EmptyString => EmptyString
  | String c r => if all_slashes s then EmptyString else String c (rstrip_slash r)
  end.

(** [os.path.dirname(p)] *)
Definition dirname (p : string) : string :=
  let h := head p in
  if negb (String.eqb h "") && negb (all_slashes h) then rstrip_slash h else h.

(** [os.path.basename(p)] *)
Fixpoint basename (p : string) : string :=
  match p with
  | EmptyString => EmptyString
  | String c r => if Str.has_char Str.slash p then basename r else p
  end.

(** an absolute name that does not end in a slash *)
Definition clean (p : string) : Prop :=
  is_abs p = true /\ Str.ends_with_char Str.slash p = false.

(** the directories above [p], nearest first; [fuel] bounds the climb *)
Fixpoint ancestors (fuel : nat) (p : string) : list string :=
  match fuel with
  | O => []
  | S k =>
      let d := dirname p in
      if String.eqb d p || String.eqb d "" then [] else d :: ancestors k d
  end.

End Path.

(* ===================================================================== *)
(** * The world: files, directories, clock, subclass state *)
(* ===================================================================== *)

Inductive Mode : Type := ModeR | ModeW | ModeA.

(** What a run does that the claims speak about: file operations and calls
    of the hooks of the subclass. *)
Inductive Event : Type :=
| EvOpen (path : string) (mode : Mode)
| EvRemove (path : string)
| EvCopy (src dst : string)
| EvChdir (path : string)
| EvMakedirs (path : string)
| EvRmGlob (dir : string)
| EvReset (params : Dict) (rep : Z)
| EvRestore (params : Dict) (rep n : Z)
| EvIterate (params : Dict) (rep n : Z)
| EvSave (params : Dict) (rep n : Z).

(** [datetime.now()] *)
Record DateTime : Type := {
  year : nat; month : nat; day : nat;
  hour : nat; minute : nat; second : nat
}.

(** [strftime("%Y-%m-%d_%H-%M")] *)
Definition stamp_minutes (t : DateTime) : string :=
  Str.zero_pad 4 (year t) +:+ "-" +:+ Str.zero_pad 2 (month t) +:+ "-" +:+ Str.zero_pad 2 (day t)
    +:+ "_" +:+ Str.zero_pad 2 (hour t) +:+ "-" +:+ Str.zero_pad 2 (minute t).

(** [strftime('exception-%Y_%m_%d__%H_%M_%S.stderr')] *)
Definition exception_name (t : DateTime) : string :=
  "exception-" +:+ Str.zero_pad 4 (year t) +:+ "_" +:+ Str.zero_pad 2 (month t) +:+ "_"
    +:+ Str.zero_pad 2 (day t) +:+ "__" +:+ Str.zero_pad 2 (hour t) +:+ "_"
    +:+ Str.zero_pad 2 (minute t) +:+ "_" +:+ Str.zero_pad 2 (second t) +:+ ".stderr".

(** What the program takes from outside: the clock (the time read at the n-th
    call of [datetime.now()]), the text [ConfigParser.write] gives for a
    section and the options set in it, and the text of floats. *)
Record Env : Type := {
  now : nat -> DateTime;
  cfg_text : string -> list (string * PyVal) -> string;
  float_text : FloatText
}.

(** Command line options ([parse_opt]) that the embedded methods read. *)
Record Options : Type := {
  ncores : Z;
  delete : bool;
  rerun : option Z
}.

Section World.
Context {U : Type}.

(** [files] and [dirs] are keyed by absolute path names; names are compared
    as text, components [.] and [..] are not resolved, and no name is meant
    to be both a file and a directory.  [user] is the state of the
    subclass, [ticks] counts the reads of the clock. *)
Record World : Type := mkWorld {
  files : gmap string string;
  dirs : gset string;
  cwd : string;
  user : U;
  key_warning_issued : list string;
  ticks : nat;
  trace : list Event
}.

Definition set_files (f : gmap string string) (w : World) : World :=
  mkWorld f (dirs w) (cwd w) (user w) (key_warning_issued w) (ticks w) (trace w).
Definition set_dirs (d : gset string) (w : World) : World :=
  mkWorld (files w) d (cwd w) (user w) (key_warning_issued w) (ticks w) (trace w).
Definition set_cwd (c : string) (w : World) : World :=
  mkWorld (files w) (dirs w) c (user w) (key_warning_issued w) (ticks w) (trace w).
Definition set_user (u : U) (w : World) : World :=
  mkWorld (files w) (dirs w) (cwd w) u (key_warning_issued w) (ticks w) (trace w).
Definition set_key_warning_issued (k : list string) (w : World) : World :=
  mkWorld (files w) (dirs w) (cwd w) (user w) k (ticks w) (trace w).
Definition set_ticks (n : nat) (w : World) : World :=
  mkWorld (files w) (dirs w) (cwd w) (user w) (key_warning_issued w) n (trace w).
Definition emit (e : Event) (w : World) : World :=
  mkWorld (files w) (dirs w) (cwd w) (user w) (key_warning_issued w) (ticks w) (trace w ++ [e]).

(** ** The monad: state passing with exceptions.  An exception keeps the
    state reached when it was raised. *)
Definition M (A : Type) : Type := World -> Result A * World.

Definition ret {A} (a : A) : M A := fun w => (Ok a, w).
Definition raise {A} (e : PyExn) : M A := fun w => (Raise e, w).
Definition bind {A B} (m : M A) (k : A -> M B) : M B :=
  fun w => match m w with
           | (Ok a, w') => k a w'
           | (Raise e, w') => (Raise e, w')
           end.
Definition lift {A} (r : Result A) : M A := fun w => (r, w).
Definition modify (f : World -> World) : M unit := fun w => (Ok tt, f w).

End World.
Arguments World U : clear implicits.
Arguments M U A : clear implicits.

Declare Scope py_scope.
Delimit Scope py_scope with py.
Notation "x <- m ;; k" := (bind m (fun x => k))
  (at level 200, m at level 99, k at level 200, right associativity) : py_scope.
Notation "m ;;; k" := (bind m (fun _ => k))
  (at level 200, k at level 200, right associativity) : py_scope.
Local Open Scope py_scope.

(** ** File system primitives *)
Module FS.
Section Ops.
Context {U : Type}.

(** how the system reads a path name: against the working directory *)
Definition resolve (w : World U) (p : string) : string := Path.join (cwd w) p.

(** [os.path.exists(p)]: nothing has the empty name *)
Definition exists_ (p : string) : M U bool :=
  fun w => let q := resolve w p in
           (Ok (negb (String.eqb p "")
                && (bool_decide (is_Some (files w !! q)) || bool_decide (q ∈ dirs w))), w).

(** [f = open(p, 'r'); lines = f.readlines(); f.close()] *)
Definition read_lines (p : string) : M U (list string) :=
  fun w => let q := resolve w p in
           match files w !! q with
           | Some text => (Ok (Str.readlines text), emit (EvOpen q ModeR) w)
           | None => (Raise (IOError q), w)
           end.

(** can a file of this absolute name be created or written?  Its
    directory has to exist, and the name must not be that of a directory. *)
Definition writable (w : World U) (q : string) : bool :=
  bool_decide (Path.dirname q ∈ dirs w) && negb (bool_decide (q ∈ dirs w)).

(** [open(p, 'w')]: the handle is the absolute name of the file *)
Definition open_w (p : string) : M U string :=
  fun w => let q := resolve w p in
           if writable w q
           then (Ok q, emit (EvOpen q ModeW) (set_files (<[q := ""]> (files w)) w))
           else (Raise (IOError q), w).

(** [open(p, 'a')] *)
Definition open_a (p : string) : M U string :=
  fun w => let q := resolve w p in
           if writable w q
           then (Ok q, emit (EvOpen q ModeA)
                         (set_files (<[q := default "" (files w !! q)]> (files w)) w))
           else (Raise (IOError q), w).

(** [f.write(text)] on a handle opened for writing or appending *)
Definition write (h : string) (text : string) : M U unit :=
  modify (fun w => set_files (<[h := default "" (files w !! h) +:+ text]> (files w)) w).

(** [os.remove(p)] *)
Definition remove (p : string) : M U unit :=
  fun w => let q := resolve w p in
           match files w !! q with
           | Some _ => (Ok tt, emit (EvRemove q) (set_files (base.delete q (files w)) w))
           | None => (Raise (OSError q), w)
           end.

(** [shutil.copy(src, dst)]; a [dst] that is a directory receives the file
    under its own base name *)
Definition copy (src dst : string) : M U unit :=
  fun w => let s := resolve w src in
           let d0 := resolve w dst in
           let d := if bool_decide (d0 ∈ dirs w) then Path.join d0 (Path.basename s) else d0 in
           match files w !! s with
           | Some text =>
               if writable w d
               then (Ok tt, emit (EvCopy s d) (set_files (<[d := text]> (files w)) w))
               else (Raise (IOError d), w)
           | None => (Raise (IOError s), w)
           end.

(** [os.chdir(p)]: the empty name is no directory *)
Definition chdir (p : string) : M U unit :=
  fun w => let q := resolve w p in
           if negb (String.eqb p "") && bool_decide (q ∈ dirs w)
           then (Ok tt, emit (EvChdir q) (set_cwd q w))
           else (Raise (OSError q), w).

(** [os.makedirs(p)]: the directory and those above it.  It raises
    [OSError], with nothing made, for the empty name, for a name that is
    taken, and when a name above it is that of a plain file. *)
Definition makedirs (p : string) : M U unit :=
  fun w => let q := resolve w p in
           let above := Path.ancestors (String.length q) q in
           if String.eqb p ""
              || bool_decide (is_Some (files w !! q)) || bool_decide (q ∈ dirs w)
              || existsb (fun a => bool_decide (is_Some (files w !! a))) above
           then (Raise (OSError q), w)
           else (Ok tt, emit (EvMakedirs q) (set_dirs (dirs w ∪ {[q]} ∪ list_to_set above) w)).

(** [os.system('rm %s/*' % dir)]: the files right inside [dir] whose names
    do not start with a dot go; the command's failure is not looked at *)
Definition rm_glob (dir : string) : M U unit :=
  fun w => let q := resolve w dir in
           (Ok tt, emit (EvRmGlob q)
                     (set_files
                        (filter (fun kv => ¬ (Path.dirname (fst kv) = q
                                               ∧ Str.startswith "." (Path.basename (fst kv)) = false))
                                (files w)) w)).

(** [datetime.now()] *)
Definition clock (E : Env) : M U DateTime :=
  fun w => (Ok (now E (ticks w)), set_ticks (S (ticks w)) w).

End Ops.
End FS.

(* ===================================================================== *)
(** * The suite *)
(* ===================================================================== *)

(** An exception a hook raised: what [str(exc)] and
    [traceback.format_exc()] give for it.  Only instances of [Exception] are
    meant; [SystemExit] and [KeyboardInterrupt] are not hook failures. *)
Record HookExn : Type := { message : string; traceback : string }.

(** The subclass: the flag and the four methods a user overrides.  The hooks
    work on the subclass state only; [reset] and [restore_state] return
    normally. *)
Record Suite (U : Type) : Type := {
  restore_supported : bool;
  reset : Dict -> Z -> U -> U;
  iterate : Dict -> Z -> Z -> U -> (Dict + HookExn) * U;
  save_state : Dict -> Z -> Z -> U -> option HookExn * U;
  restore_state : Dict -> Z -> Z -> U -> U
}.
Arguments restore_supported {U} _.
Arguments reset {U} _ _ _ _.
Arguments iterate {U} _ _ _ _ _.
Arguments save_state {U} _ _ _ _ _.
Arguments restore_state {U} _ _ _ _ _.

(** The token the runner writes when [iterate] fails. *)
Definition sentinel : string := "exception:error".

(** What [run_rep] returns: [False] when it skips, [None] after the loop. *)
Inductive RunRet : Type := RetFalse | RetNone.

(** What [do_experiment] returns; with more than one core the work items go
    to the worker pool, which is outside the embedding
    ([Pool(processes=n)] itself raises [ValueError] for [n < 1]). *)
Inductive DoRet : Type :=
| DoFalse
| DoTrue
| DoPool (explist : list (Dict * Z)).

(** [xrange(a, b)] *)
Definition xrange (a b : Z) : list Z :=
  map (fun i => a + Z.of_nat i) (seq 0 (Z.to_nat (b - a))).

(** [l[0:t]] *)
Definition slice_to {A} (t : Z) (l : list A) : list A :=
  if 0 <=? t then firstn (Z.to_nat t) l
  else firstn (Z.to_nat (Z.of_nat (length l) + t)) l.

(** [n == v] for an integer [n] and a value *)
Definition int_eq_val (n : Z) (v : PyVal) : bool :=
  match v with
  | VInt m => n =? m
  | VFloat (S754_zero _) => n =? 0
  | VFloat (S754_finite s m e) =>
      let sm := if s then Z.neg m else Z.pos m in
      if 0 <=? e then n =? sm * 2 ^ e else n * 2 ^ (- e) =? sm
  | _ => false
  end.

(** [itertools.product] over the lists [ls]: the last one varies fastest *)
Fixpoint product {A} (ls : list (list A)) : list (list A) :=
  match ls with
  | [] => [[]]
  | l :: r => flat_map (fun x => map (cons x) (product r)) l
  end.

Fixpoint heads {A} (ls : list (list A)) : option (list A) :=
  match ls with
  | [] => Some []
  | [] :: _ => None
  | (x :: _) :: r => option_map (cons x) (heads r)
  end.

Fixpoint izip_n {A} (n : nat) (ls : list (list A)) : list (list A) :=
  match n with
  | O => []
  | S k => match heads ls with
           | Some h => h :: izip_n k (map (@tl A) ls)
           | None => []
           end
  end.

(** [itertools.izip] over the lists [ls]: stops with the shortest list *)
Definition izip {A} (ls : list (list A)) : list (list A) :=
  match ls with
  | [] => []
  | l :: _ => izip_n (length l) ls
  end.

(** [sorted(dic.items())]: the keys of a dictionary differ, so the order is
    that of the keys *)
Fixpoint insert_sorted (kv : string * PyVal) (l : list (string * PyVal)) : list (string * PyVal) :=
  match l with
  | [] => [kv]
  | kv' :: r => if String.leb (fst kv) (fst kv') then kv :: l else kv' :: insert_sorted kv r
  end.

Definition sorted_items (d : Dict) : list (string * PyVal) :=
  fold_right insert_sorted [] d.

(** the class of [re.sub("[' \[\],()]", '', text)] *)
Definition name_noise (c : ascii) : bool :=
  Ascii.eqb c Str.squote || Ascii.eqb c " "%char || Ascii.eqb c "["%char || Ascii.eqb c "]"%char
  || Ascii.eqb c ","%char || Ascii.eqb c "("%char || Ascii.eqb c ")"%char.

Fixpoint map_result {A B} (f : A -> Result B) (l : list A) : Result (list B) :=
  match l with
  | [] => Ok []
  | x :: r => match f x with
              | Ok y => match map_result f r with
                        | Ok ys => Ok (y :: ys)
                        | Raise e => Raise e
                        end
              | Raise e => Raise e
              end
  end.

Section Suite.
Context {U : Type}.
Variable S : Suite U.
Variable E : Env.
Variable options : Options.

(** [params[k]] *)
Definition getitem (params : Dict) (k : string) : M U PyVal :=
  match PyDict.get params k with
  | Some v => ret v
  | None => raise (KeyError k)
  end.

(** a value used where only a string works *)
Definition as_str (v : PyVal) : M U string :=
  match v with
  | VStr s => ret s
  | _ => raise TypeError
  end.

(** a value used where only an integer works ([xrange], [[x] * n]) *)
Definition as_int (v : PyVal) : M U Z :=
  match v with
  | VInt n => ret n
  | _ => raise TypeError
  end.

(** [os.path.join(params['path'], params['name'])] *)
Definition fullpath_of (params : Dict) : M U string :=
  path <- getitem params "path";;
  name <- getitem params "name";;
  path <- as_str path;;
  name <- as_str name;;
  ret (Path.join path name).

(** [mkdir] *)
Definition mkdir (path : string) : M U unit :=
  ex <- FS.exists_ path;;
  if ex then ret tt else FS.makedirs path.

(** the options [write_config_file] sets: every key but [name], string
    values in double quotes *)
Definition config_options (params : Dict) : list (string * PyVal) :=
  map (fun kv => match snd kv with
                 | VStr s => (fst kv, VStr (String Str.dquote s +:+ Str.of_char Str.dquote))
                 | v => (fst kv, v)
                 end)
      (List.filter (fun kv => negb (String.eqb (fst kv) "name")) params).

(** [write_config_file] *)
Definition write_config_file (params : Dict) (path : string) : M U unit :=
  name <- getitem params "name";;
  name <- as_str name;;
  if String.eqb (Str.lower name) "default" then raise ValueError
  else
    f <- FS.open_w (Path.join path "experiment.cfg");;
    FS.write f (cfg_text E name (config_options params)).

(** [create_dir] *)
Definition create_dir (params : Dict) (delete : bool) : M U unit :=
  fullpath <- fullpath_of params;;
  mkdir fullpath;;;
  (if delete then FS.rm_glob fullpath else ret tt);;;
  write_config_file params fullpath.

(** ** Parameter expansion *)

Definition experiment_is (params : Dict) (mode : string) : bool :=
  match PyDict.get params "experiment" with
  | Some (VStr s) => String.eqb s mode
  | _ => false
  end.

(** [[p for p in params if hasattr(params[p], '__iter__') and not
    isinstance(params[p], dict)]] *)
Definition iterparams_of (params : Dict) : list string :=
  List.filter (fun p => match PyDict.get params p with
                   | Some v => is_sweep v
                   | None => false
                   end) (PyDict.keys params).

Definition sweep_values (params : Dict) (p : string) : list PyVal :=
  match PyDict.get params p with
  | Some (VList l) => l
  | _ => []
  end.

(** [for i, ip in enumerate(iterparams): par[ip] = il[i]] *)
Fixpoint assign_all (par : Dict) (ips : list string) (il : list PyVal) : Dict :=
  match ips, il with
  | ip :: ips', v :: il' => assign_all (PyDict.set par ip v) ips' il'
  | _, _ => par
  end.

(** one sub-experiment: the body of the loop over the combinations *)
Definition sub_experiment (params : Dict) (iterparams : list string) (il : list PyVal)
  : M U Dict :=
  texts <- lift (map_result convert_param_to_dirname il);;
  let converted := PyText.str_pairs (combine iterparams texts) in
  name <- getitem params "name";;
  name <- as_str name;;
  let par := PyDict.set params "name" (VStr (name +:+ "/" +:+ Str.drop_chars name_noise converted)) in
  ret (assign_all par iterparams il).

Fixpoint sub_experiments (params : Dict) (iterparams : list string) (ils : list (list PyVal))
  : M U (list Dict) :=
  match ils with
  | [] => ret []
  | il :: r =>
      par <- sub_experiment params iterparams il;;
      pars <- sub_experiments params iterparams r;;
      ret (par :: pars)
  end.

(** the body of the loop of [expand_param_list] for one parameter set *)
Definition expand_one (params : Dict) : M U (list Dict) :=
  if experiment_is params "single" then ret [params]
  else
    let iterparams := iterparams_of params in
    match iterparams with
    | [] => ret [params]
    | _ =>
        fullpath <- fullpath_of params;;
        mkdir fullpath;;;
        write_config_file params fullpath;;;
        iterfunc <-
          (if experiment_is params "list" then ret (@izip PyVal)
           else if negb (PyDict.mem "experiment" params) || experiment_is params "grid"
                then ret (@product PyVal)
           else raise (SystemExit
                  ("unexpected value '"
                     +:+ PyText.str (float_text E) (default VNone (PyDict.get params "experiment"))
                     +:+ "' for parameter 'experiment'. Use 'grid', 'list' or 'single'.")));;
        sub_experiments params iterparams (iterfunc (map (sweep_values params) iterparams))
    end.

(** [expand_param_list], for a list of parameter sets *)
Fixpoint expand_param_list (paramlist : list Dict) : M U (list Dict) :=
  match paramlist with
  | [] => ret []
  | params :: r =>
      here <- expand_one params;;
      later <- expand_param_list r;;
      ret (here ++ later)
  end.

(** ** One repetition *)

(** [os.path.join(fullpath, '%i.log' % rep)] *)
Definition logname_of (fullpath : string) (rep : Z) : string :=
  Path.join fullpath (Str.of_Z rep +:+ ".log").

(** "throw away the line that reports the error": the last line goes when
    the token occurs in it *)
Definition strip_error_line (lines : list string) : list string :=
  match last lines with
  | Some l => if Str.contains sentinel l then removelast lines else lines
  | None => lines
  end.

(** [_print_exception]: the crash report *)
Definition print_exception (exc : HookExn) (fullpath : string) : M U unit :=
  t <- FS.clock E;;
  f <- FS.open_w (Path.join fullpath (exception_name t));;
  FS.write f (Str.of_char Str.nl +:+ "Suite caught exception: " +:+ message exc
                +:+ Str.of_char Str.nl);;;
  FS.write f ("trace" +:+ Str.of_char Str.nl +:+ traceback exc +:+ Str.of_char Str.nl).

(** the calls of the hooks *)
Definition call_reset (params : Dict) (rep : Z) : M U unit :=
  modify (fun w => emit (EvReset params rep) (set_user (reset S params rep (user w)) w)).

Definition call_restore_state (params : Dict) (rep n : Z) : M U unit :=
  modify (fun w => emit (EvRestore params rep n)
                        (set_user (restore_state S params rep n (user w)) w)).

Definition call_iterate (params : Dict) (rep n : Z) : M U (Dict + HookExn) :=
  fun w => let '(r, u) := iterate S params rep n (user w) in
           (Ok r, emit (EvIterate params rep n) (set_user u w)).

Definition call_save_state (params : Dict) (rep n : Z) : M U (option HookExn) :=
  fun w => let '(r, u) := save_state S params rep n (user w) in
           (Ok r, emit (EvSave params rep n) (set_user u w)).

(** "replace all spaces in keys with underscores": one key of the loop *)
Definition rename_key (st : Dict * list string) (k : string) : Dict * list string :=
  let '(dic, warned) := st in
  if Str.has_char " "%char k then
    match PyDict.get dic k with
    | Some v =>
        (PyDict.del (PyDict.set dic (Str.replace_char " "%char "_"%char k) v) k,
         if existsb (String.eqb k) warned then warned else warned ++ [k])
    | None => st
    end
  else st.

(** the new name of the key [k] is taken: [dic[newk] = dic[k]] adds no
    entry and [del dic[k]] leaves the dictionary one entry short *)
Definition clashes (dic : Dict) (k : string) : bool :=
  Str.has_char " "%char k && PyDict.mem k dic
  && PyDict.mem (Str.replace_char " "%char "_"%char k) dic.

(** The loop [for k in dic] changes the dictionary it walks.  A key without
    a space changes nothing.  A renaming onto a name that is free keeps the
    number of entries; a renaming onto a name that is taken loses an entry,
    and the next step of the walk raises [RuntimeError] ("dictionary changed
    size during iteration"), after the warning for the key was issued.  The
    walk is taken over the keys in their order at the start: after a
    renaming CPython may go on in another order, or pass over keys, when the
    table was resized, so for a result with more than one key that holds a
    space the outcome in CPython depends on the table; the statements of this
    file keep to results without spaces in their keys. *)
Fixpoint rename_walk (keys : list string) (st : Dict * list string)
  : Result Dict * list string :=
  match keys with
  | [] => (Ok (fst st), snd st)
  | k :: rest =>
      if clashes (fst st) k then (Raise RuntimeError, snd (rename_key st k))
      else rename_walk rest (rename_key st k)
  end.

Definition rename_keys (dic : Dict) : M U Dict :=
  fun w => let '(r, warned) := rename_walk (PyDict.keys dic) (dic, key_warning_issued w) in
           (r, set_key_warning_issued warned w).

(** "build string from dictionary" *)
Definition outstr (dic : Dict) : string :=
  Str.join_with " " (map (fun kv => fst kv +:+ ":" +:+ PyText.str (float_text E) (snd kv))
                         (sorted_items dic)).

(** the loop over the iterations; an exception of [iterate] ends it *)
Fixpoint iteration_loop (params : Dict) (rep : Z) (fullpath logfile : string) (its : list Z)
  : M U unit :=
  match its with
  | [] => ret tt
  | it :: rest =>
      FS.chdir fullpath;;;
      r <- call_iterate params rep it;;
      match r with
      | inr exc =>
          print_exception exc fullpath;;;
          FS.write logfile sentinel
      | inl dic =>
          (if restore_supported S then
             r' <- call_save_state params rep it;;
             match r' with
             | Some exc => print_exception exc fullpath
             | None => ret tt
             end
           else ret tt);;;
          dic' <- rename_keys dic;;
          FS.write logfile (outstr dic' +:+ Str.of_char Str.nl);;;
          iteration_loop params rep fullpath logfile rest
      end
  end.

(** the first half of [run_rep]: what the log on disk says about where to
    start.  [None] stands for [return False]. *)
Definition resume_point (params : Dict) (logname : string) : M U (option Z) :=
  ex <- FS.exists_ logname;;
  if negb ex then ret (Some 0)
  else
    lines <- FS.read_lines logname;;
    let lines := strip_error_line lines in
    let n := Z.of_nat (length lines) in
    if PyDict.mem "iterations" params
       && int_eq_val n (default VNone (PyDict.get params "iterations"))
       && negb (truthy (rerun options))
    then ret None
    else if negb (restore_supported S) then
      FS.remove logname;;;
      ret (Some 0)
    else if truthy (rerun options) && (n <? default 0 (rerun options)) then ret None
    else if truthy (rerun options) && (n >=? default 0 (rerun options)) then
      t <- FS.clock E;;
      FS.copy logname (logname +:+ "." +:+ stamp_minutes t +:+ ".bak");;;
      let lines := slice_to (default 0 (rerun options)) lines in
      f <- FS.open_w logname;;
      FS.write f (Str.join_all lines);;;
      ret (Some (default 0 (rerun options)))
    else ret (Some n).

(** the second half of [run_rep]: from [self.reset] to the end, for the
    resume point [restore] *)
Definition run_from (params : Dict) (rep : Z) (fullpath logname : string) (restore : Z)
  : M U RunRet :=
  call_reset params rep;;;
  logfile <-
    (if negb (restore =? 0) then
       f <- FS.open_a logname;;
       FS.chdir fullpath;;;
       call_restore_state params rep restore;;;
       ret f
     else FS.open_w logname);;
  iterations <- getitem params "iterations";;
  iterations <- as_int iterations;;
  iteration_loop params rep fullpath logfile (xrange restore iterations);;;
  ret RetNone.

(** [run_rep] *)
Definition run_rep (params : Dict) (rep : Z) : M U RunRet :=
  name <- getitem params "name";;
  fullpath <- fullpath_of params;;
  let logname := logname_of fullpath rep in
  r <- resume_point params logname;;
  match r with
  | None => ret RetFalse
  | Some restore => run_from params rep fullpath logname restore
  end.

(** [haserror] *)
Definition haserror (params : Dict) (rep : Z) : M U bool :=
  fullpath <- fullpath_of params;;
  let logname := logname_of fullpath rep in
  ex <- FS.exists_ logname;;
  if ex then
    lines <- FS.read_lines logname;;
    match last lines with
    | Some l => ret (Str.contains sentinel l)
    | None => ret false
    end
  else ret false.

(** ** The batch *)

Definition has_required_keys (pl : Dict) : bool :=
  PyDict.mem "name" pl && PyDict.mem "iterations" pl
  && PyDict.mem "repetitions" pl && PyDict.mem "path" pl.

(** "create directories, write config files": [false] stands for the
    [return False] inside the loop *)
Fixpoint create_dirs (paramlist : list Dict) : M U bool :=
  match paramlist with
  | [] => ret true
  | pl :: r =>
      if has_required_keys pl then create_dir pl (delete options);;; create_dirs r
      else ret false
  end.

(** "expand paramlist for all repetitions" *)
Fixpoint make_explist (paramlist : list Dict) : M U (list (Dict * Z)) :=
  match paramlist with
  | [] => ret []
  | p :: r =>
      n <- getitem p "repetitions";;
      n <- as_int n;;
      later <- make_explist r;;
      ret (map (fun i => (p, i)) (xrange 0 n) ++ later)
  end.

(** the loop without a worker pool: [for e in explist: mp_runrep(e)] *)
Fixpoint run_explist (explist : list (Dict * Z)) : M U unit :=
  match explist with
  | [] => ret tt
  | (p, rep) :: r => run_rep p rep;;; run_explist r
  end.

(** [do_experiment], for a list of parameter sets *)
Definition do_experiment (params : list Dict) : M U DoRet :=
  paramlist <- expand_param_list params;;
  ok <- create_dirs paramlist;;
  if negb ok then ret DoFalse
  else
    explist <- make_explist paramlist;;
    if ncores options =? 1 then run_explist explist;;; ret DoTrue
    else if ncores options <? 1 then raise ValueError
    else ret (DoPool explist).

End Suite.

(* ===================================================================== *)
(** * Reading a trace, and the vocabulary of the statements *)
(* ===================================================================== *)

(** the calls of [iterate] in a trace, in order *)
Definition iterated (evs : list Event) : list (Dict * Z * Z) :=
  flat_map (fun e => match e with EvIterate p r n => [(p, r, n)] | _ => [] end) evs.

(** the calls of [restore_state] *)
Definition restored (evs : list Event) : list (Dict * Z * Z) :=
  flat_map (fun e => match e with EvRestore p r n => [(p, r, n)] | _ => [] end) evs.

(** the calls of [reset] *)
Definition resets (evs : list Event) : list (Dict * Z) :=
  flat_map (fun e => match e with EvReset p r => [(p, r)] | _ => [] end) evs.

(** the modes in which the file [q] was opened *)
Definition opened (q : string) (evs : list Event) : list Mode :=
  flat_map (fun e => match e with
                     | EvOpen p m => if String.eqb p q then [m] else []
                     | _ => []
                     end) evs.

(** the copies made of the file [q] *)
Definition copies_of (q : string) (evs : list Event) : list string :=
  flat_map (fun e => match e with
                     | EvCopy s d => if String.eqb s q then [d] else []
                     | _ => []
                     end) evs.

Definition is_hook_call (e : Event) : bool :=
  match e with
  | EvReset _ _ | EvRestore _ _ _ | EvIterate _ _ _ | EvSave _ _ _ => true
  | _ => false
  end.

(** the calls of any hook *)
Definition hook_calls (evs : list Event) : list Event := List.filter is_hook_call evs.

(** the text of a crash report *)
Definition report_text (exc : HookExn) : string :=
  (Str.of_char Str.nl +:+ "Suite caught exception: " +:+ message exc +:+ Str.of_char Str.nl)
    +:+ ("trace" +:+ Str.of_char Str.nl +:+ traceback exc +:+ Str.of_char Str.nl).

(** the dictionary after the renaming of its keys *)
Definition renamed (dic : Dict) : Dict :=
  fst (fold_left rename_key (PyDict.keys dic) (dic, [])).

(** the log line of a result *)
Definition log_line (E : Env) (dic : Dict) : string :=
  outstr E (renamed dic) +:+ Str.of_char Str.nl.

(** the three keys [run_rep] reads *)
Definition ParamsOf (params : Dict) (name path : string) (iterations : Z) : Prop :=
  PyDict.get params "name" = Some (VStr name)
  /\ PyDict.get params "path" = Some (VStr path)
  /\ PyDict.get params "iterations" = Some (VInt iterations).

(** the directory of the repetition exists under a clean absolute name *)
Definition Ready {U} (w : World U) (fullpath : string) : Prop :=
  Path.clean fullpath /\ fullpath ∈ dirs w.

(** no name right inside the directory of the repetition is that of a
    directory: the log, its backup and a crash report can be opened for
    writing *)
Definition NoSubdir {U} (w : World U) (fullpath : string) : Prop :=
  forall q, Path.dirname q = fullpath -> q ∉ dirs w.

(** no key of a result holds a space: the renaming loop changes nothing *)
Definition spaceless (dic : Dict) : bool :=
  forallb (fun k => negb (Str.has_char " "%char k)) (PyDict.keys dic).

(** ** The hooks alone

    What the hooks of the subclass do in a run, apart from the file system:
    the state of the subclass is handed from call to call, so what [iterate]
    returns at an index may depend on every call before it. *)

(** the state in which the loop starts: after [reset] and, for a resume
    point other than 0, [restore_state] *)
Definition start_state {U} (S : Suite U) (params : Dict) (rep restore : Z) (u : U) : U :=
  let u0 := reset S params rep u in
  if restore =? 0 then u0 else restore_state S params rep restore u0.

(** the state after a turn of the loop in which [iterate] returns:
    [iterate], then [save_state] when restoring is supported *)
Definition after_turn {U} (S : Suite U) (params : Dict) (rep it : Z) (u : U) : U :=
  let u1 := snd (iterate S params rep it u) in
  if restore_supported S then snd (save_state S params rep it u1) else u1.

(** what [iterate] returns over the indices [its], called in turn from the
    state [u]; the list ends where [iterate] raises *)
Fixpoint results {U} (S : Suite U) (params : Dict) (rep : Z) (its : list Z) (u : U)
  : list Dict :=
  match its with
  | [] => []
  | it :: rest =>
      match fst (iterate S params rep it u) with
      | inl dic => dic :: results S params rep rest (after_turn S params rep it u)
      | inr _ => []
      end
  end.

(** the index at which [iterate] raises, and the exception, if it does *)
Fixpoint failure {U} (S : Suite U) (params : Dict) (rep : Z) (its : list Z) (u : U)
  : option (Z * HookExn) :=
  match its with
  | [] => None
  | it :: rest =>
      match fst (iterate S params rep it u) with
      | inl _ => failure S params rep rest (after_turn S params rep it u)
      | inr exc => Some (it, exc)
      end
  end.

(** the indices at which [iterate] is called: up to the one at which it
    raises *)
Fixpoint called {U} (S : Suite U) (params : Dict) (rep : Z) (its : list Z) (u : U)
  : list Z :=
  match its with
  | [] => []
  | it :: rest =>
      it :: match fst (iterate S params rep it u) with
            | inl _ => called S params rep rest (after_turn S params rep it u)
            | inr _ => []
            end
  end.

(** the state after the turns [its], [iterate] returning in each *)
Definition state_after {U} (S : Suite U) (params : Dict) (rep : Z) (its : list Z) (u : U) : U :=
  fold_left (fun u it => after_turn S params rep it u) its u.

(** the failures of [save_state] over the indices [its], in order *)
Fixpoint save_failures {U} (S : Suite U) (params : Dict) (rep : Z) (its : list Z) (u : U)
  : list (Z * HookExn) :=
  match its with
  | [] => []
  | it :: rest =>
      match fst (iterate S params rep it u) with
      | inl _ =>
          (if restore_supported S then
             match fst (save_state S params rep it (snd (iterate S params rep it u))) with
             | Some exc => [(it, exc)]
             | None => []
             end
           else [])
            ++ save_failures S params rep rest (after_turn S params rep it u)
      | inr _ => []
      end
  end.

(** [w'] comes from [w] by a stretch of the iteration loop: the text [added]
    went to the end of the log, the calls [its] of [iterate] were made, and
    besides the log only crash reports were written *)
Record Extends {U} (logfile fullpath text : string) (w w' : World U)
       (added : string) (its : list (Dict * Z * Z)) : Prop := {
  ext_dirs : dirs w' = dirs w;
  ext_log : files w' !! logfile = Some (text +:+ added);
  ext_frame : forall q, q <> logfile ->
                        (forall t, q <> Path.join fullpath (exception_name t)) ->
                        files w' !! q = files w !! q;
  ext_trace : exists evs, trace w' = trace w ++ evs /\ iterated evs = its
                          /\ restored evs = [] /\ resets evs = []
                          /\ opened logfile evs = [] /\ copies_of logfile evs = []
}.

(** [w'] comes from [w] by the second half of [run_rep] started at the resume
    point [restore]: the log was opened (for appending unless [restore] is
    0), [reset] and, for a resume point other than 0, [restore_state] were
    called once, [iterate] was called for the indices from [restore] up to
    [upto], and the text [added] went to the end of the log *)
Record Ran {U} (params : Dict) (rep : Z) (fullpath : string) (restore : Z)
       (w w' : World U) (added : string) (upto : Z) : Prop := {
  ran_dirs : dirs w' = dirs w;
  ran_log : files w' !! logname_of fullpath rep
            = Some ((if restore =? 0 then "" else default "" (files w !! logname_of fullpath rep))
                      +:+ added);
  ran_frame : forall q, q <> logname_of fullpath rep ->
                        (forall t, q <> Path.join fullpath (exception_name t)) ->
                        files w' !! q = files w !! q;
  ran_trace : exists evs,
      trace w' = trace w ++ evs
      /\ iterated evs = map (fun it => (params, rep, it)) (xrange restore upto)
      /\ restored evs = (if restore =? 0 then [] else [(params, rep, restore)])
      /\ resets evs = [(params, rep)]
      /\ opened (logname_of fullpath rep) evs = [if restore =? 0 then ModeW else ModeA]
      /\ copies_of (logname_of fullpath rep) evs = []
}.

(** the name of the backup of a log: ["{}.{}.bak".format(logname, now)] *)
Definition backup_name (logfile : string) (t : DateTime) : string :=
  logfile +:+ "." +:+ stamp_minutes t +:+ ".bak".

(** the world with more events in its trace and nothing else changed *)
Definition add_events {U} (evs : list Event) (w : World U) : World U :=
  mkWorld (files w) (dirs w) (cwd w) (user w) (key_warning_issued w) (ticks w) (trace w ++ evs).

(** the last line of a log holds the token of a crash *)
Definition ends_in_crash (lines : list string) : bool :=
  match last lines with
  | Some l => Str.contains sentinel l
  | None => false
  end.

(** the name under which the system finds the log of a work item *)
Definition item_log {U} (w : World U) (item : Dict * Z) : string :=
  match PyDict.get (fst item) "path", PyDict.get (fst item) "name" with
  | Some (VStr path), Some (VStr name) =>
      FS.resolve w (logname_of (Path.join path name) (snd item))
  | _, _ => ""
  end.

(** a work item whose log is complete: the log exists, holds as many lines as
    [iterations] says, and its last line is not a crash line *)
Definition is_complete {U} (w : World U) (item : Dict * Z) : bool :=
  match PyDict.get (fst item) "path", PyDict.get (fst item) "name",
        PyDict.get (fst item) "iterations" with
  | Some (VStr path), Some (VStr name), Some (VInt n) =>
      match files w !! FS.resolve w (logname_of (Path.join path name) (snd item)) with
      | Some text =>
          (Z.of_nat (length (Str.readlines text)) =? n)
          && negb (ends_in_crash (Str.readlines text))
      | None => false
      end
  | _, _, _ => false
  end.

(** a result that gives one line of text, with no space in a key *)
Definition one_line (E : Env) (d : Dict) : Prop :=
  spaceless d = true /\ Str.has_char Str.nl (outstr E d) = false.

(** the lines of a log that count: the last line goes when it holds the
    token *)
Definition counted (text : string) : Z :=
  Z.of_nat (length (strip_error_line (Str.readlines text))).

(** a work item that [run_rep] skips when no rerun is forced: the log
    exists and the lines that count are as many as [iterations] says *)
Definition is_done {U} (w : World U) (item : Dict * Z) : bool :=
  match PyDict.get (fst item) "path", PyDict.get (fst item) "name",
        PyDict.get (fst item) "iterations" with
  | Some (VStr path), Some (VStr name), Some (VInt n) =>
      match files w !! FS.resolve w (logname_of (Path.join path name) (snd item)) with
      | Some text => counted text =? n
      | None => false
      end
  | _, _, _ => false
  end.

(** neither the name [q] nor a name above it is that of a plain file *)
Definition Free {U} (w : World U) (q : string) : Prop :=
  forall a, In a (q :: Path.ancestors (String.length q) q) -> files w !! a = None.

(* ===================================================================== *)
(** * Concrete suites, environments and worlds *)
(* ===================================================================== *)

(** [PyExperimentSuite] itself: the hooks of the base class *)
Definition base_suite : Suite unit := {|
  restore_supported := false;
  reset := fun _ _ u => u;
  iterate := fun _ rep n u => (inl [("iteration", VInt n); ("repetition", VInt rep)], u);
  save_state := fun _ _ _ u => (None, u);
  restore_state := fun _ _ _ u => u
|}.

(** a subclass that sets [restore_supported = True] and keeps the hooks *)
Definition resumable_suite : Suite unit := {|
  restore_supported := true;
  reset := fun _ _ u => u;
  iterate := fun _ rep n u => (inl [("iteration", VInt n); ("repetition", VInt rep)], u);
  save_state := fun _ _ _ u => (None, u);
  restore_state := fun _ _ _ u => u
|}.

Definition boom : HookExn := {| message := "boom"; traceback := "Traceback (most recent call last)" |}.

(** a subclass whose [iterate] raises at the index [k] *)
Definition crashing_suite (k : Z) : Suite unit := {|
  restore_supported := true;
  reset := fun _ _ u => u;
  iterate := fun _ rep n u =>
               if n =? k then (inr boom, u)
               else (inl [("iteration", VInt n); ("repetition", VInt rep)], u);
  save_state := fun _ _ _ u => (None, u);
  restore_state := fun _ _ _ u => u
|}.

Definition env0 : Env := {|
  now := fun _ => {| year := 2012; month := 8; day := 27; hour := 9; minute := 5; second := 7 |};
  cfg_text := fun _ _ => "";
  float_text := {| float_str := FloatFmt.percent_f; float_repr := FloatFmt.percent_f |}
|}.

Definition options0 (r : option Z) : Options := {| ncores := 1; delete := false; rerun := r |}.

Definition world_of (fs : list (string * string)) (ds : list string) (dir : string) : World unit :=
  mkWorld (list_to_map fs) (list_to_set ds) dir tt [] 0 [].

(** a line of text with its terminator *)
Definition ln (s : string) : string := s +:+ Str.of_char Str.nl.

Definition params_exp (path : string) (n : Z) : Dict :=
  [("name", VStr "exp"); ("path", VStr path); ("iterations", VInt n); ("repetitions", VInt 1)].

Definition log3 : string :=
  ln "iteration:0 repetition:0" +:+ ln "iteration:1 repetition:0" +:+ ln "iteration:2 repetition:0".

Definition data_dirs : list string := ["/"; "/data"; "/data/exp"].

(** a world in which repetition 0 of [exp] is complete *)
Definition world_done : World unit :=
  world_of [("/data/exp/0.log", log3)] data_dirs "/home/u".

(** the result of [iterate] of the base class *)
Definition step0 (rep it : Z) : Dict := [("iteration", VInt it); ("repetition", VInt rep)].

(** worlds in which repetition 0 of [exp] has logged one iteration, has an
    empty log, has no log *)
Definition world_partial : World unit :=
  world_of [("/data/exp/0.log", ln "iteration:0 repetition:0")] data_dirs "/home/u".
Definition world_empty_log : World unit :=
  world_of [("/data/exp/0.log", "")] data_dirs "/home/u".
Definition world_fresh : World unit := world_of [] data_dirs "/home/u".

(** the lines [run_rep] counts in a log: those of the file, without a crash
    line at the end; none when there is no log *)
Definition logged_lines {U} (w : World U) (log : string) : list string :=
  match files w !! log with
  | Some text => strip_error_line (Str.readlines text)
  | None => []
  end.

(** a world in which the log of repetition 0 holds three lines *)
Definition world_long : World unit := world_done.

(** a world with the working directory [/home/u] and the experiment directory
    [results/exp] below it, for a configuration with the relative path
    [results] *)
Definition world_relative : World unit :=
  world_of [] ["/"; "/home"; "/home/u"; "/home/u/results"; "/home/u/results/exp"] "/home/u".

(** a world in which repetition 0 crashed after one iteration *)
Definition world_crashed : World unit :=
  world_of [("/data/exp/0.log", ln "iteration:0 repetition:0" +:+ sentinel)] data_dirs "/home/u".


(** a world in which the last result line of repetition 0 holds the token
    inside a longer key *)
Definition world_tricky : World unit :=
  world_of [("/data/exp/0.log", ln "a:1" +:+ ln "myexception:errors")] data_dirs "/home/u".

(** a value [convert_param_to_dirname] accepts *)
Definition convertible (v : PyVal) : bool :=
  match convert_param_to_dirname v with
  | Ok _ => true
  | Raise _ => false
  end.

(** the length of the shortest of some lists (0 for no list) *)
Definition shortest {A} (ls : list (list A)) : nat :=
  match ls with
  | [] => O
  | l :: r => fold_right (fun l' m => Nat.min (length l') m) (length l) r
  end.

(** the example of the specification: a sweep over [alpha] *)
Definition params_grid : Dict :=
  [("name", VStr "exp"); ("path", VStr "."); ("iterations", VInt 3); ("repetitions", VInt 1);
   ("alpha", VList [VFloat (FloatFmt.of_ratio 1 10); VFloat (FloatFmt.of_ratio 2 10)])].

(** the two sets the code makes of it *)
Definition params_grid_sub (text : string) (a : Z) : Dict :=
  [("name", VStr ("exp/alpha" +:+ text)); ("path", VStr "."); ("iterations", VInt 3);
   ("repetitions", VInt 1); ("alpha", VFloat (FloatFmt.of_ratio a 10))].

(** a set in list mode whose sequences differ in length *)
Definition params_list_uneven : Dict :=
  [("name", VStr "exp"); ("path", VStr "/data"); ("iterations", VInt 3); ("repetitions", VInt 1);
   ("experiment", VStr "list");
   ("alpha", VList [VInt 1; VInt 2; VInt 3]); ("beta", VList [VInt 10; VInt 20])].

(** a set in list mode whose sequences have the same length *)
Definition params_list_even : Dict :=
  [("name", VStr "exp"); ("path", VStr "/data"); ("iterations", VInt 3); ("repetitions", VInt 1);
   ("experiment", VStr "list");
   ("alpha", VList [VInt 1; VInt 2]); ("beta", VList [VStr "a"; VStr "b"])].

(** a world with an empty [/data] and the working directory [/home/u] *)
Definition world_home : World unit :=
  world_of [] ["/"; "/home"; "/home/u"; "/data"] "/home/u".

(** a computation that calls no hook *)
Definition Quiet {U A} (m : M U A) : Prop :=
  forall w, hook_calls (trace (snd (m w))) = hook_calls (trace w).

(** a parameter set without [iterations] and [repetitions] *)
Definition params_bad : Dict := [("name", VStr "bad"); ("path", VStr "/data")].

(* ===================================================================== *)
(** * More vocabulary and examples, for the further properties *)
(* ===================================================================== *)

(** the number of combinations of some lists *)
Definition combinations {A} (ls : list (list A)) : nat :=
  fold_right (fun l m => (length l * m)%nat) 1%nat ls.

(** a parameter set that [expand_param_list] passes on as it is *)
Definition plain (params : Dict) : bool :=
  experiment_is params "single"
  || match iterparams_of params with [] => true | _ => false end.

(** a set in grid mode with two swept keys *)
Definition params_grid_two : Dict :=
  [("name", VStr "exp"); ("path", VStr "/data"); ("iterations", VInt 3); ("repetitions", VInt 1);
   ("alpha", VList [VInt 1; VInt 2]); ("beta", VList [VStr "a"; VStr "b"; VStr "c"])].

(** the message of the [SystemExit] for a mode that is not known *)
Definition unexpected_mode (E : Env) (params : Dict) : string :=
  "unexpected value '"
    +:+ PyText.str (float_text E) (default VNone (PyDict.get params "experiment"))
    +:+ "' for parameter 'experiment'. Use 'grid', 'list' or 'single'.".

(** a set whose mode is spelled wrongly *)
Definition params_mode_typo : Dict :=
  [("name", VStr "exp"); ("path", VStr "/data"); ("iterations", VInt 3); ("repetitions", VInt 1);
   ("experiment", VStr "Grid"); ("alpha", VList [VInt 1; VInt 2])].

(** a set marked [single] that holds a list *)
Definition params_single_sweep : Dict :=
  [("name", VStr "one"); ("path", VStr "/data"); ("iterations", VInt 3); ("repetitions", VInt 1);
   ("experiment", VStr "single"); ("alpha", VList [VInt 1; VInt 2])].

(** a string value as the snapshot holds it: in double quotes *)
Definition quoted (v : PyVal) : PyVal :=
  match v with
  | VStr s => VStr (String Str.dquote s +:+ Str.of_char Str.dquote)
  | v => v
  end.

(** a file that the pattern [dir/*] of the shell names: right inside [dir],
    with a name that does not start with a dot *)
Definition glob_star (dir q : string) : bool :=
  String.eqb (Path.dirname q) dir && negb (Str.startswith "." (Path.basename q)).

(** a name the shell reads as one word that names itself: letters, digits,
    and the characters [/ . _ -] *)
Definition shell_plain_char (c : ascii) : bool :=
  let n := nat_of_ascii c in
  ((48 <=? n) && (n <=? 57) || (65 <=? n) && (n <=? 90) || (97 <=? n) && (n <=? 122))%nat
  || Ascii.eqb c "/" || Ascii.eqb c "." || Ascii.eqb c "_" || Ascii.eqb c "-".

Fixpoint shell_plain (s : string) : bool :=
  match s with
  | EmptyString => true
  | String c r => shell_plain_char c && shell_plain r
  end.

(** the work items of some parameter sets: for every set, in order, the
    repetitions [0 .. repetitions-1] *)
Definition work_items (paramlist : list Dict) : list (Dict * Z) :=
  flat_map (fun p => match PyDict.get p "repetitions" with
                     | Some (VInt r) => map (fun i => (p, i)) (xrange 0 r)
                     | _ => []
                     end) paramlist.

(** a set that asks for no repetition *)
Definition params_idle : Dict :=
  [("name", VStr "idle"); ("path", VStr "/data"); ("iterations", VInt 3); ("repetitions", VInt 0)].

(** a set that asks for two repetitions *)
Definition params_two_reps : Dict :=
  [("name", VStr "two"); ("path", VStr "/data"); ("iterations", VInt 3); ("repetitions", VInt 2)].

(** the line the base class logs for an iteration *)
Definition base_line (rep it : Z) : string :=
  "iteration:" +:+ Str.of_Z it +:+ " repetition:" +:+ Str.of_Z rep +:+ Str.of_char Str.nl.

(** The functions that read results raise, besides the exceptions of the
    runner, [ZeroDivisionError] and [IndexError]; what [eval] raises on a
    text of a log can be any other exception, given by its name. *)
Inductive ReadExn : Type :=
| Runner (e : PyExn)
| ZeroDivisionError
| IndexError
| OtherError (name : string).

Inductive Read (A : Type) : Type :=
| Got (a : A)
| Failed (e : ReadExn).

Arguments Got {A} a.

Arguments Failed {A} e.

(** the monad of the reading side: state passing, with the wider exceptions *)
Definition R (U A : Type) : Type := World U -> Read A * World U.

Definition rret {U A} (a : A) : R U A := fun w => (Got a, w).

Definition rbind {U A B} (m : R U A) (k : A -> R U B) : R U B :=
  fun w => match m w with
           | (Got a, w') => k a w'
           | (Failed e, w') => (Failed e, w')
           end.

Definition rlift {U A} (r : Read A) : R U A := fun w => (r, w).

(** a computation of the runner's monad, used by a reader *)
Definition reading {U A} (m : M U A) : R U A :=
  fun w => match m w with
           | (Ok a, w') => (Got a, w')
           | (Raise e, w') => (Failed (Runner e), w')
           end.

Notation "x <~ m ;; k" := (rbind m (fun x => k))
  (at level 200, m at level 99, k at level 200, right associativity) : py_scope.

(** [int(x)] for a float: towards zero *)
Definition int_of_float (x : spec_float) : Read Z :=
  match x with
  | S754_zero _ => Got 0
  | S754_infinity _ => Failed (Runner OverflowError)
  | S754_nan => Failed (Runner ValueError)
  | S754_finite s m e =>
      let a := if 0 <=? e then Z.pos m * 2 ^ e else Z.pos m / 2 ^ (- e) in
      Got (if s then - a else a)
  end.

(** [int(100 * k / iterations)], in Python 2: the quotient of two integers
    is rounded down, a float makes it a float division *)
Definition percent (k : nat) (iterations : PyVal) : Read Z :=
  match iterations with
  | VInt n => if n =? 0 then Failed ZeroDivisionError else Got (100 * Z.of_nat k / n)
  | VFloat f =>
      match FloatFmt.of_Z (100 * Z.of_nat k) with
      | S754_infinity _ => Failed (Runner OverflowError)
      | x =>
          match f with
          | S754_zero _ => Failed ZeroDivisionError
          | _ => int_of_float (SFdiv FloatFmt.prec FloatFmt.emax x f)
          end
      end
  | _ => Failed (Runner TypeError)
  end.

(** [progress] *)
Definition progress {U} (params : Dict) (rep : Z) : R U Z :=
  name <~ reading (getitem params "name");;
  fullpath <~ reading (fullpath_of params);;
  let logname := logname_of fullpath rep in
  ex <~ reading (FS.exists_ logname);;
  if ex then
    lines <~ reading (FS.read_lines logname);;
    iterations <~ reading (getitem params "iterations");;
    rlift (percent (length lines) iterations)
  else rret 0.

(** the calls of [save_state] in a trace, in order *)
Definition saved (evs : list Event) : list (Dict * Z * Z) :=
  flat_map (fun e => match e with EvSave p r n => [(p, r, n)] | _ => [] end) evs.

(** a subclass that restores, and whose [save_state] raises at the index [k] *)
Definition unsaved_suite (k : Z) : Suite unit := {|
  restore_supported := true;
  reset := fun _ _ u => u;
  iterate := fun _ rep n u => (inl [("iteration", VInt n); ("repetition", VInt rep)], u);
  save_state := fun _ _ n u => (if n =? k then Some boom else None, u);
  restore_state := fun _ _ _ u => u
|}.

(** the name of the crash report written at the reading [t] of the clock *)
Definition report_name (E : Env) (fullpath : string) (t : nat) : string :=
  Path.join fullpath (exception_name (now E t)).

(** A directory as [os.walk] and [os.listdir] show it: the names of its
    plain files, and its subdirectories by name, in the order of the
    listing.  Symbolic links and directories that cannot be read are not
    meant. *)
Inductive DirTree : Type :=
| Dir (filenames : list string) (subdirs : list (string * DirTree)).

(** [os.walk(path)], top down: every directory with its path *)
Fixpoint walk (path : string) (t : DirTree) : list (string * DirTree) :=
  (path, t) ::
  match t with
  | Dir _ subs => flat_map (fun ns => walk (Path.join path (fst ns)) (snd ns)) subs
  end.

(** ['experiment.cfg' in fn] *)
Definition has_cfg (fn : list string) : bool := existsb (String.eqb "experiment.cfg") fn.

(** [l == []] *)
Definition is_nil {A} (l : list A) : bool :=
  match l with
  | [] => true
  | _ => false
  end.

(** [get_exps]: the method calls itself for the subdirectories of every
    directory the walk reaches; [fuel] bounds the depth of these calls *)
Fixpoint get_exps (fuel : nat) (path : string) (t : DirTree) : list string :=
  match fuel with
  | O => []
  | S k =>
      flat_map (fun node =>
                  match node with
                  | (dp, Dir fn subs) =>
                      if has_cfg fn
                         && forallb (fun ns => is_nil (get_exps k (Path.join dp (fst ns)) (snd ns)))
                                    subs
                      then [dp] else []
                  end)
               (walk path t)
  end.

(** the height of a tree: 1 for a directory without subdirectories *)
Fixpoint height (t : DirTree) : nat :=
  match t with
  | Dir _ subs => S (fold_right (fun ns m => Nat.max (height (snd ns)) m) O subs)
  end.

(** some directory of the tree holds a snapshot *)
Fixpoint holds_exp (t : DirTree) : bool :=
  match t with
  | Dir fn subs => has_cfg fn || existsb (fun ns => holds_exp (snd ns)) subs
  end.

(** a directory that holds a snapshot, with no snapshot anywhere below it *)
Definition is_leaf_exp (t : DirTree) : bool :=
  match t with
  | Dir fn subs => has_cfg fn && forallb (fun ns => negb (holds_exp (snd ns))) subs
  end.

(** the tree a grid over [alpha] leaves behind: a snapshot in [exp] and one
    in each of its two subdirectories, besides a directory without any *)
Definition tree_grid : DirTree :=
  Dir ["notes.txt"]
      [("exp", Dir ["experiment.cfg"]
                   [("alpha0.10", Dir ["experiment.cfg"; "0.log"] []);
                    ("alpha0.20", Dir ["experiment.cfg"; "0.log"] [])]);
       ("empty", Dir [] [])].

(* ===================================================================== *)
(** * Reading the logs: [get_history], [get_history_tags], [get_value] *)
(* ===================================================================== *)

Module Words.

(** the characters [str.split()] takes for white space *)
Definition is_space (c : ascii) : bool :=
  match nat_of_ascii c with
  | 9 | 10 | 11 | 12 | 13 | 32 => true
  | _ => false
  end%nat.

(** [s.split()]: the words between runs of white space *)
Fixpoint split (s : string) : list string :=
  match s with
  | EmptyString => []
  | String c r =>
      if is_space c then split r
      else match r with
           | EmptyString => [Str.of_char c]
           | String d _ =>
               if is_space d then Str.of_char c :: split r
               else match split r with
                    | w :: ws => String c w :: ws
                    | [] => [Str.of_char c]
                    end
           end
  end.

(** [s.split(':')] cut at the first colon; [None] without a colon *)
Fixpoint cut (s : string) : option (string * string) :=
  match s with
  | EmptyString => None
  | String c r =>
      if Ascii.eqb c ":" then Some (EmptyString, r)
      else match cut r with
           | Some (a, b) => Some (String c a, b)
           | None => None
           end
  end.

(** [tag, val = pair.split(':')]: the unpacking works when the pair holds
    exactly one colon *)
Definition tag_val (pair : string) : option (string * string) :=
  match cut pair with
  | Some (tag, val) => if Str.has_char ":" val then None else Some (tag, val)
  | None => None
  end.

End Words.

(** what [eval] makes of a text: a value, [NameError] or [SyntaxError], or
    another exception *)
Inductive Evaluated (V : Type) : Type :=
| Value (v : V)
| NotAnExpression
| EvalRaises (e : ReadExn).

Arguments Value {V} v.

Arguments NotAnExpression {V}.

Arguments EvalRaises {V} e.

(** the [tags] argument: a string or a sequence of strings *)
Inductive Tags : Type :=
| TagStr (s : string)
| TagSeq (l : list string).

(** what [get_history] returns: a list of values, or a dictionary from tags
    to lists of values *)
Inductive History (V : Type) : Type :=
| HList (l : list V)
| HDict (d : list (string * list V)).

Arguments HList {V} l.

Arguments HDict {V} d.

(** the [which] argument of [get_value]: ['last'], ['min'], ['max'], an
    integer, or anything else *)
Inductive Which : Type :=
| WLast
| WMin
| WMax
| WIndex (i : Z)
| WOther.

(** what [get_value] returns: [None], one value, a dictionary of values,
    or, for a [which] it does not know, the dictionary of lists as it is *)
Inductive Picked (V : Type) : Type :=
| PNone
| PValue (v : V)
| PDict (d : list (string * V))
| PHistories (d : list (string * list V)).

Arguments PNone {V}.

Arguments PValue {V} v.

Arguments PDict {V} d.

Arguments PHistories {V} d.

(** The local variables of [get_history] that [eval], called without a
    namespace of its own, can see at the call. *)
Record Locals (V : Type) : Type := {
  l_exp : string;
  l_rep : Z;
  l_tags : Tags;
  l_params : Dict;
  l_results : list (string * list V);
  l_line : string;
  l_pair : string;
  l_tag : string;
  l_val : string
}.

Arguments l_exp {V} _.

Arguments l_rep {V} _.

Arguments l_tags {V} _.

Arguments l_params {V} _.

Arguments l_results {V} _.

Arguments l_line {V} _.

Arguments l_pair {V} _.

Arguments l_tag {V} _.

Arguments l_val {V} _.

(** [l[i]] *)
Definition index {A} (l : list A) (i : Z) : Read A :=
  let j := if 0 <=? i then i else Z.of_nat (length l) + i in
  if j <? 0 then Failed IndexError
  else match nth_error l (Z.to_nat j) with
       | Some x => Got x
       | None => Failed IndexError
       end.

Section History.
Context {U V : Type}.

(** What the reading side takes from outside the embedding: [get_params]
    (it reads the snapshot with [ConfigParser] and evaluates its values;
    [get_history] only calls it), [eval] on the text of a value (its result
    may depend on the local variables; it is taken to have no effect), a
    text kept as a value, and [min] and [max] of a list of values. *)
Variable get_params : string -> R U Dict.
Variable py_eval : Locals V -> string -> Evaluated V.
Variable of_text : string -> V.
Variable py_min : list V -> V.
Variable py_max : list V -> V.

(** [tags = [tags]] unless [tags] is ['all'] or a sequence *)
Definition listed (tags : Tags) : Tags :=
  match tags with
  | TagStr s => if String.eqb s "all" then tags else TagSeq [s]
  | TagSeq _ => tags
  end.

(** [len(tags)] *)
Definition len_tags (tags : Tags) : nat :=
  match tags with
  | TagStr s => String.length s
  | TagSeq l => length l
  end.

(** [tags == 'all' or tag in tags], for [tags] as [listed] gives them *)
Definition wanted (tags : Tags) (tag : string) : bool :=
  match tags with
  | TagStr s => String.eqb s "all" || Str.contains tag s
  | TagSeq l => existsb (String.eqb tag) l
  end.

(** [eval(val)], with the text itself for a [NameError] or [SyntaxError] *)
Definition value_of (loc : Locals V) (val : string) : Read V :=
  match py_eval loc val with
  | Value v => Got v
  | NotAnExpression => Got (of_text val)
  | EvalRaises e => Failed e
  end.

(** [results[tag] = [v]] for a new tag, [results[tag].append(v)] otherwise *)
Definition record (results : list (string * list V)) (tag : string) (v : V)
  : list (string * list V) :=
  match PyDict.get results tag with
  | Some l => PyDict.set results tag (l ++ [v])
  | None => PyDict.set results tag [v]
  end.

Section Call.
Variables (exp : string) (rep : Z) (tags : Tags) (params : Dict).

(** the loop over the pairs of a line *)
Fixpoint scan_pairs (line : string) (pairs : list string) (results : list (string * list V))
  : Read (list (string * list V)) :=
  match pairs with
  | [] => Got results
  | item :: rest =>
      match Words.tag_val item with
      | Some (tag, val) =>
          if wanted tags tag then
            match value_of {| l_exp := exp; l_rep := rep; l_tags := tags; l_params := params;
                              l_results := results; l_line := line; l_pair := item;
                              l_tag := tag; l_val := val |} val with
            | Got v => scan_pairs line rest (record results tag v)
            | Failed e => Failed e
            end
          else scan_pairs line rest results
      | None => scan_pairs line rest results
      end
  end.

(** the loop over the lines of the log *)
Fixpoint scan_lines (lines : list string) (results : list (string * list V))
  : Read (list (string * list V)) :=
  match lines with
  | [] => Got results
  | line :: rest =>
      match scan_pairs line (Words.split line) results with
      | Got results' => scan_lines rest results'
      | Failed e => Failed e
      end
  end.

End Call.

(** the empty result: a list for one tag, a dictionary otherwise *)
Definition no_history (tags : Tags) : History V :=
  if Nat.eqb (len_tags tags) 1 then HList [] else HDict [].

(** [get_history] *)
Definition get_history (exp : string) (rep : Z) (tags : Tags) : R U (History V) :=
  params <~ get_params exp;;
  let tags := listed tags in
  let logfile := Path.join exp (Str.of_Z rep +:+ ".log") in
  fun w =>
    match FS.read_lines logfile w with
    | (Raise _, w') => (Got (no_history tags), w')
    | (Ok lines, w') =>
        match scan_lines exp rep tags params lines [] with
        | Failed e => (Failed e, w')
        | Got results =>
            match results with
            | [] => (Got (no_history tags), w')
            | (_, l) :: _ =>
                if Nat.eqb (len_tags tags) 1 then (Got (HList l), w')
                else (Got (HDict results), w')
            end
        end
    end.

(** [get_history_tags]: the keys of the history of all tags *)
Definition get_history_tags (exp : string) (rep : Z) : R U (list string) :=
  history <~ get_history exp rep (TagStr "all");;
  match history with
  | HDict d => rret (PyDict.keys d)
  | HList _ => rlift (Failed (OtherError "AttributeError"))
  end.

(** one value of a list that is not empty *)
Definition pick (which : Which) (l : list V) : Read (option V) :=
  match which with
  | WLast => match index l (-1) with Got x => Got (Some x) | Failed e => Failed e end
  | WMin => Got (Some (py_min l))
  | WMax => Got (Some (py_max l))
  | WIndex i => match index l i with Got x => Got (Some x) | Failed e => Failed e end
  | WOther => Got None
  end.

(** the loop over the tags of a dictionary of histories *)
Fixpoint pick_all (which : Which) (d : list (string * list V)) : Read (list (string * V)) :=
  match d with
  | [] => Got []
  | (h, l) :: r =>
      match pick which l with
      | Got (Some x) =>
          match pick_all which r with
          | Got r' => Got ((h, x) :: r')
          | Failed e => Failed e
          end
      | Got None => Got []
      | Failed e => Failed e
      end
  end.

(** [get_value] *)
Definition get_value (exp : string) (rep : Z) (tags : Tags) (which : Which) : R U (Picked V) :=
  history <~ get_history exp rep tags;;
  match history with
  | HList [] | HDict [] => rret PNone
  | HDict d =>
      match which with
      | WOther => rret (PHistories d)
      | _ => match pick_all which d with
             | Got d' => rret (PDict d')
             | Failed e => rlift (Failed e)
             end
      end
  | HList l =>
      match pick which l with
      | Got (Some x) => rret (PValue x)
      | Got None => rret PNone
      | Failed e => rlift (Failed e)
      end
  end.

End History.

(** a text with white space in it *)
Fixpoint has_space (s : string) : bool :=
  match s with
  | EmptyString => false
  | String c r => Words.is_space c || has_space r
  end.

(** a text that can stand on either side of the colon of a pair: no white
    space and no colon in it *)
Definition word (s : string) : bool := negb (has_space s) && negb (Str.has_char ":" s).

(** the pair that [run_rep] writes for an item of a result *)
Definition pair_text (E : Env) (kv : string * PyVal) : string :=
  fst kv +:+ ":" +:+ PyText.str (float_text E) (snd kv).

(** the values a reader that takes the text [s] for [ev s] finds under the
    tag [t] in the lines of the results [ds], in order *)
Definition logged_values {V} (E : Env) (ev : string -> V) (t : string) (ds : list Dict) : list V :=
  flat_map (fun d =>
              flat_map (fun kv => if String.eqb (fst kv) t
                                  then [ev (PyText.str (float_text E) (snd kv))] else [])
                       (sorted_items d)) ds.

(** a result all of whose keys and value texts are words *)
Definition wordy (E : Env) (d : Dict) : bool :=
  forallb (fun kv => word (fst kv) && word (PyText.str (float_text E) (snd kv))) (sorted_items d).

(** the values recorded under a tag so far *)
Definition recorded {V} (results : list (string * list V)) (k : string) : list V :=
  default [] (PyDict.get results k).

(** what the loops of [get_history] keep: no tag with an empty list, and
    only tags that were asked for *)
Definition tidy {V} (tags : Tags) (results : list (string * list V)) : Prop :=
  forall k l, PyDict.get results k = Some l -> l <> [] /\ wanted tags k = true.

(** an [eval] for the examples: it knows the decimal integers as [str]
    writes them and takes every other text for a name it does not know *)
Definition eval_int (loc : Locals PyVal) (s : string) : Evaluated PyVal :=
  match NilZero.int_of_string s with
  | Some i => if String.eqb (Str.of_Z (Z.of_int i)) s then Value (VInt (Z.of_int i))
              else NotAnExpression
  | None => NotAnExpression
  end.

(** the value [get_history] keeps for a text under [eval_int] *)
Definition decoded (s : string) : PyVal :=
  match NilZero.int_of_string s with
  | Some i => if String.eqb (Str.of_Z (Z.of_int i)) s then VInt (Z.of_int i) else VStr s
  | None => VStr s
  end.

(** a [get_params] for the examples: the snapshot read gives no parameter *)
Definition get_params_none {U} (exp : string) : R U Dict := rret [].


(** the names of the snapshots of some parameter sets *)
Definition snapshots (params : list Dict) : list string :=
  flat_map (fun p => match PyDict.get p "path", PyDict.get p "name" with
                     | Some (VStr path), Some (VStr name) =>
                         [Path.join (Path.join path name) "experiment.cfg"]
                     | _, _ => []
                     end) params.

(** the directories of some parameter sets *)
Definition fullpaths (params : list Dict) : list string :=
  flat_map (fun p => match PyDict.get p "path", PyDict.get p "name" with
                     | Some (VStr path), Some (VStr name) => [Path.join path name]
                     | _, _ => []
                     end) params.

(** the directories [create_dir] may make for them: those of the sets and
    the ones above them *)
Definition made_dirs (params : list Dict) : list string :=
  flat_map (fun d => d :: Path.ancestors (String.length d) d) (fullpaths params).

(** a parameter set for which [create_dir] works: a name other than
    [default], a clean absolute directory name with no plain file at it or
    above it, and a snapshot name that is not the name of a directory; with
    the delete flag, a directory name the shell reads literally *)
Definition Makeable {U} (w : World U) (del : bool) (p : Dict) : Prop :=
  exists name path,
    PyDict.get p "name" = Some (VStr name)
    /\ PyDict.get p "path" = Some (VStr path)
    /\ String.eqb (Str.lower name) "default" = false
    /\ Path.clean (Path.join path name)
    /\ Free w (Path.join path name)
    /\ (Path.join (Path.join path name) "experiment.cfg" ∉ dirs w)
    /\ (del = true -> shell_plain (Path.join path name) = true).

(** a character that [repr] leaves as it is and the pattern of
    [expand_param_list] leaves in the name *)
Definition name_char (c : ascii) : bool :=
  negb (name_noise c) && negb (Ascii.eqb c Str.backslash)
  && (32 <=? nat_of_ascii c)%nat && (nat_of_ascii c <? 127)%nat.

Fixpoint all_chars (P : ascii -> bool) (s : string) : bool :=
  match s with
  | EmptyString => true
  | String c r => P c && all_chars P r
  end.

(** a text of such characters only *)
Definition plain_text (s : string) : bool := all_chars name_char s.

(** the part of the name of a sub-experiment after the slash, for plain
    keys and texts: every key followed by the text of its value *)
Definition name_piece (keys texts : list string) : string :=
  Str.join_all (map (fun kt => fst kt +:+ snd kt) (combine keys texts)).

(** [sub] is the sub-experiment of [params] in which the swept keys [ips]
    hold the items [il]: the same keys in the same order; under [name] the
    name of [params], a slash, and the text of the list of pairs of a swept
    key and the directory text of its item, without the characters of the
    pattern (for plain keys and texts: key, text, key, text, ...); under
    each swept key its item; under every other key what [params] holds *)
Definition SubOf (params : Dict) (name : string) (ips : list string) (il : list PyVal)
  (sub : Dict) : Prop :=
  exists texts,
    Forall2 (fun x t => convert_param_to_dirname x = Ok t) il texts
    /\ PyDict.keys sub = PyDict.keys params
    /\ PyDict.get sub "name"
       = Some (VStr (name +:+ "/"
                       +:+ Str.drop_chars name_noise (PyText.str_pairs (combine ips texts))))
    /\ (Forall (fun k => plain_text k = true) ips ->
        Forall (fun t => plain_text t = true) texts ->
        PyDict.get sub "name" = Some (VStr (name +:+ "/" +:+ name_piece ips texts)))
    /\ Forall2 (fun ip x => PyDict.get sub ip = Some x) ips il
    /\ (forall k, k <> "name" -> ~ In k ips -> PyDict.get sub k = PyDict.get params k).

(* ===================================================================== *)
(** * Facts about strings and path names *)
(* ===================================================================== *)

Module StrFacts.
Import Str.

Lemma app_cons c (a b : string) : String c a +:+ b = String c (a +:+ b).
Proof. reflexivity. Qed.

Lemma app_nil_l (b : string) : "" +:+ b = b.
Proof. reflexivity. Qed.

Ltac sapp := rewrite ?app_cons, ?app_nil_l in *; simpl in *.

Lemma app_assoc (a b c : string) : (a +:+ b) +:+ c = a +:+ (b +:+ c).
Proof. induction a as [|x a IH]; sapp; congruence. Qed.

Lemma app_nil_r (a : string) : a +:+ "" = a.
Proof. induction a as [|x a IH]; sapp; congruence. Qed.

Lemma length_app (a b : string) :
  String.length (a +:+ b) = (String.length a + String.length b)%nat.
Proof. induction a as [|x a IH]; sapp; congruence. Qed.

Lemma app_inv_head (a b c : string) : a +:+ b = a +:+ c -> b = c.
Proof. induction a as [|x a IH]; sapp; intros H; [assumption | injection H; auto]. Qed.


Lemma has_char_app c (a b : string) : has_char c (a +:+ b) = has_char c a || has_char c b.
Proof.
  induction a as [|x a IH]; sapp; [reflexivity|].
  rewrite IH. now rewrite orb_assoc.
Qed.

Lemma ends_with_char_app c (a b : string) :
  b <> "" -> ends_with_char c (a +:+ b) = ends_with_char c b.
Proof.
  intros Hb. induction a as [|x a IH]; [reflexivity|].
  rewrite app_cons. cbn [ends_with_char]. rewrite IH.
  destruct (a +:+ b) eqn:Hab; [|reflexivity].
  destruct a; [rewrite app_nil_l in Hab; congruence | discriminate].
Qed.

Lemma startswith_app (p s t : string) :
  startswith p s = true -> startswith p (s +:+ t) = true.
Proof.
  revert s. induction p as [|x p IH]; intros [|y s]; sapp; try easy.
  intros [H1 H2]%andb_true_iff. rewrite H1. simpl. auto.
Qed.

Lemma join_all_app (l1 l2 : list string) :
  join_all (l1 ++ l2) = join_all l1 +:+ join_all l2.
Proof.
  induction l1 as [|x l1 IH]; simpl; [reflexivity|].
  rewrite IH. symmetry. apply app_assoc.
Qed.

Lemma readlines_nil (s : string) : readlines s = [] -> s = "".
Proof.
  destruct s as [|c r]; simpl; [reflexivity|].
  destruct (Ascii.eqb c nl); [discriminate|].
  destruct (readlines r); discriminate.
Qed.

(** reading and joining gives the text back *)
Lemma join_all_readlines (s : string) : join_all (readlines s) = s.
Proof.
  induction s as [|c r IH]; simpl; [reflexivity|].
  destruct (Ascii.eqb c nl).
  - simpl. unfold of_char. sapp. now rewrite IH.
  - destruct (readlines r) as [|l ls] eqn:Hr.
    + apply readlines_nil in Hr. subst r. reflexivity.
    + simpl in *. sapp. now rewrite IH.
Qed.

(** text added after a complete last line leaves the lines before it alone *)
Lemma readlines_app (a b : string) :
  ends_with_char nl a = true -> readlines (a +:+ b) = readlines a ++ readlines b.
Proof.
  induction a as [|c r IH]; [discriminate|].
  intros H. rewrite app_cons. simpl.
  destruct r as [|c' r'].
  - simpl in H. rewrite H. reflexivity.
  - assert (Hr : ends_with_char nl (String c' r') = true) by exact H.
    specialize (IH Hr). rewrite IH.
    destruct (Ascii.eqb c nl); [reflexivity|].
    destruct (readlines (String c' r')) as [|l ls] eqn:Hl.
    + apply readlines_nil in Hl. discriminate.
    + reflexivity.
Qed.

Lemma digits_no_slash (d : uint) : has_char slash (NilEmpty.string_of_uint d) = false.
Proof. induction d; simpl; auto. Qed.

Lemma of_nat_no_slash (n : nat) : has_char slash (of_nat n) = false.
Proof.
  unfold of_nat, NilZero.string_of_uint.
  pose proof (digits_no_slash (Nat.to_uint n)) as H.
  destruct (Nat.to_uint n); try reflexivity; exact H.
Qed.

Lemma repeat_char_no_slash (n : nat) : has_char slash (repeat_char "0" n) = false.
Proof. induction n; simpl; auto. Qed.

Lemma zero_pad_no_slash (w n : nat) : has_char slash (zero_pad w n) = false.
Proof.
  unfold zero_pad. now rewrite has_char_app, repeat_char_no_slash, of_nat_no_slash.
Qed.

(** the decimal text of an integer starts with a digit or a minus sign *)
Lemma of_Z_first (n : Z) : exists c r, of_Z n = String c r /\ digit_or_minus c = true.
Proof.
  unfold of_Z, NilZero.string_of_int, NilZero.string_of_uint.
  destruct (Z.to_int n) as [d|d]; destruct d; simpl; eauto.
Qed.

Lemma of_Z_no_slash (n : Z) : has_char slash (of_Z n) = false.
Proof.
  unfold of_Z, NilZero.string_of_int, NilZero.string_of_uint.
  destruct (Z.to_int n) as [d|d].
  - pose proof (digits_no_slash d) as H. destruct d; try reflexivity; exact H.
  - pose proof (digits_no_slash d) as H. simpl. destruct d; try reflexivity; exact H.
Qed.

Lemma app_eqb_r (a b : string) : String.eqb b "" = false -> String.eqb (a +:+ b) "" = false.
Proof. intros H. destruct a as [|c a]; [now rewrite app_nil_l | reflexivity]. Qed.

End StrFacts.

(** ** Substrings *)

Module ContainsFacts.
Import Str StrFacts.

Lemma startswith_refl (s : string) : startswith s s = true.
Proof. induction s as [|c s IH]; [reflexivity|]. cbn [startswith]. now rewrite Ascii.eqb_refl. Qed.

Lemma startswith_split (p s : string) : startswith p s = true -> exists t, s = p +:+ t.
Proof.
  revert s. induction p as [|a p IH]; intros s H.
  - exists s. reflexivity.
  - destruct s as [|b s]; [discriminate|]. cbn [startswith] in H.
    apply andb_true_iff in H as [Hab Hs]. apply Ascii.eqb_eq in Hab. subst b.
    destruct (IH s Hs) as (t & ->). exists t. reflexivity.
Qed.

Lemma contains_app_r (n a b : string) : contains n b = true -> contains n (a +:+ b) = true.
Proof.
  intros H. induction a as [|c a IH]; [exact H|].
  rewrite app_cons. cbn [contains]. rewrite IH. apply orb_true_r.
Qed.

Lemma contains_start (n s : string) : startswith n s = true -> contains n s = true.
Proof. intros H. destruct s; cbn [contains]; now rewrite H. Qed.

Lemma contains_app_l (n a b : string) : contains n a = true -> contains n (a +:+ b) = true.
Proof.
  induction a as [|c a IH]; intros H.
  - cbn [contains] in H. rewrite orb_false_r in H. destruct n; [|discriminate].
    rewrite app_nil_l. now apply contains_start.
  - cbn [contains] in H. rewrite app_cons. cbn [contains].
    apply orb_true_iff in H as [H|H].
    + rewrite <- app_cons. rewrite (startswith_app _ _ b H). reflexivity.
    + rewrite (IH H). apply orb_true_r.
Qed.

Lemma contains_split (n h : string) : contains n h = true -> exists a b, h = a +:+ n +:+ b.
Proof.
  induction h as [|c h IH]; intros H.
  - cbn [contains] in H. rewrite orb_false_r in H. destruct n; [|discriminate].
    exists "", "". reflexivity.
  - cbn [contains] in H. apply orb_true_iff in H as [H|H].
    + apply startswith_split in H as (t & ->). exists "", t. reflexivity.
    + destruct (IH H) as (a & b & ->). exists (String c a), b. reflexivity.
Qed.

Lemma contains_mid (n a b : string) : contains n (a +:+ n +:+ b) = true.
Proof.
  apply contains_app_r, contains_app_l, contains_start, startswith_refl.
Qed.

Lemma contains_trans (a b c : string) :
  contains a b = true -> contains b c = true -> contains a c = true.
Proof.
  intros Hab Hbc. apply contains_split in Hbc as (x & y & ->).
  now apply contains_app_r, contains_app_l.
Qed.

End ContainsFacts.

Module PathFacts.
Import Str StrFacts Path.

Lemma is_abs_app (p x : string) : is_abs p = true -> is_abs (p +:+ x) = true.
Proof. apply startswith_app. Qed.

Lemma join_abs (a b : string) : is_abs b = true -> join a b = b.
Proof. unfold join. now intros ->. Qed.

Lemma clean_nonempty (f : string) : clean f -> f <> "".
Proof. intros [H _] ->. discriminate. Qed.

Lemma join_rel (f b : string) :
  clean f -> is_abs b = false -> join f b = f +:+ "/" +:+ b.
Proof.
  intros Hc Hb. unfold join. rewrite Hb.
  destruct Hc as [Ha He]. rewrite He.
  destruct f; [discriminate | reflexivity].
Qed.

Lemma is_abs_join (f b : string) : clean f -> is_abs (join f b) = true.
Proof.
  intros Hc. destruct (is_abs b) eqn:Hb.
  - now rewrite join_abs.
  - rewrite join_rel by assumption. apply is_abs_app, Hc.
Qed.

Lemma head_app (pre b : string) : has_char slash b = false -> head (pre +:+ b) = head pre.
Proof.
  intros Hb. induction pre as [|c r IH]; sapp.
  - destruct b as [|x b]; [reflexivity|]. simpl in *.
    apply orb_false_iff in Hb as [H1 H2]. rewrite H2, H1. reflexivity.
  - rewrite has_char_app, Hb, orb_false_r, IH. reflexivity.
Qed.

Lemma head_slash (f : string) : head (f +:+ "/") = f +:+ "/".
Proof.
  induction f as [|c r IH]; sapp; [reflexivity|].
  rewrite has_char_app. simpl. rewrite orb_true_r. now rewrite IH.
Qed.

Lemma not_all_slashes (f x : string) :
  f <> "" -> ends_with_char slash f = false -> all_slashes (f +:+ x) = false.
Proof.
  induction f as [|c r IH]; [congruence|].
  intros _ H. sapp. destruct r as [|c' r'].
  - rewrite H. reflexivity.
  - rewrite IH; [apply andb_false_r | congruence | exact H].
Qed.

Lemma rstrip_slash_app (f : string) :
  f <> "" -> ends_with_char slash f = false -> rstrip_slash (f +:+ "/") = f.
Proof.
  induction f as [|c r IH]; [congruence|].
  intros _ H.
  assert (Hn : all_slashes (String c r +:+ "/") = false)
    by (apply not_all_slashes; [congruence | exact H]).
  rewrite app_cons in *. simpl rstrip_slash. simpl all_slashes in Hn. rewrite Hn.
  destruct r as [|c' r'].
  - reflexivity.
  - rewrite IH; [reflexivity | congruence | exact H].
Qed.

(** the directory of a file right inside a clean directory *)
Lemma dirname_inside (f b : string) :
  clean f -> has_char slash b = false -> dirname (f +:+ "/" +:+ b) = f.
Proof.
  intros Hc Hb. pose proof (clean_nonempty _ Hc) as Hne. destruct Hc as [Ha He].
  unfold dirname. rewrite <- app_assoc, head_app, head_slash by assumption.
  rewrite (not_all_slashes f "/") by assumption.
  destruct (String.eqb_spec (f +:+ "/") "") as [Heq|_].
  - destruct f; discriminate.
  - simpl. now apply rstrip_slash_app.
Qed.

Lemma join_inj (f a b : string) :
  clean f -> is_abs a = false -> is_abs b = false -> join f a = join f b -> a = b.
Proof.
  intros Hc Ha Hb. rewrite !join_rel by assumption.
  intros H. apply app_inv_head in H. now apply app_inv_head in H.
Qed.

Lemma head_length (p : string) : (String.length (head p) <= String.length p)%nat.
Proof.
  induction p as [|c r IH]; [reflexivity|]. cbn [head].
  destruct (has_char slash r); [cbn [String.length]; lia|].
  destruct (Ascii.eqb c slash); cbn [String.length]; lia.
Qed.

Lemma rstrip_slash_length (s : string) :
  (String.length (rstrip_slash s) <= String.length s)%nat.
Proof.
  induction s as [|c r IH]; [reflexivity|]. cbn [rstrip_slash].
  destruct (all_slashes (String c r)); cbn [String.length]; lia.
Qed.

Lemma dirname_length (p : string) : (String.length (dirname p) <= String.length p)%nat.
Proof.
  unfold dirname. pose proof (head_length p) as H.
  destruct (negb (String.eqb (head p) "") && negb (all_slashes (head p))); [|exact H].
  pose proof (rstrip_slash_length (head p)). lia.
Qed.

(** the names above a name are not longer than the name *)
Lemma ancestors_length fuel (p a : string) :
  In a (ancestors fuel p) -> (String.length a <= String.length p)%nat.
Proof.
  revert p. induction fuel as [|k IH]; intros p; cbn [ancestors]; [intros []|].
  destruct (String.eqb (dirname p) p || String.eqb (dirname p) ""); [intros []|].
  pose proof (dirname_length p) as Hd.
  intros [<-|Hin]; [exact Hd|]. specialize (IH _ Hin). lia.
Qed.

(** a name right inside a directory is neither the directory nor above it *)
Lemma inside_not_above fuel (d b : string) :
  clean d -> is_abs b = false ->
  ~ In (join d b) (d :: ancestors fuel d).
Proof.
  intros Hc Hb Hin. rewrite (join_rel d b Hc Hb) in Hin.
  assert (Hlen : (String.length (d +:+ "/" +:+ b) <= String.length d)%nat).
  { destruct Hin as [<-|Hin]; [lia|]. now apply ancestors_length in Hin. }
  rewrite !length_app in Hlen. cbn [String.length] in Hlen. lia.
Qed.

Lemma clean_eqb (f : string) : clean f -> String.eqb f "" = false.
Proof. intros [H _]. destruct f; [discriminate | reflexivity]. Qed.

Lemma join_eqb (a b : string) : String.eqb b "" = false -> String.eqb (join a b) "" = false.
Proof.
  intros H. unfold join. destruct (is_abs b); [exact H|].
  destruct (String.eqb a "" || ends_with_char slash a).
  - now apply app_eqb_r.
  - apply app_eqb_r. reflexivity.
Qed.

End PathFacts.

(** ** Dictionaries *)

Module DictFacts.

Lemma get_set_eq {A} (d : list (string * A)) k v : PyDict.get (PyDict.set d k v) k = Some v.
Proof.
  induction d as [|[k' v'] r IH]; cbn [PyDict.set PyDict.get].
  - now rewrite String.eqb_refl.
  - destruct (String.eqb k' k) eqn:H; cbn [PyDict.get].
    + now rewrite String.eqb_refl.
    + now rewrite H.
Qed.

Lemma get_set_ne {A} (d : list (string * A)) k k' v :
  k <> k' -> PyDict.get (PyDict.set d k v) k' = PyDict.get d k'.
Proof.
  intros Hne. induction d as [|[k0 v0] r IH]; cbn [PyDict.set PyDict.get].
  - apply String.eqb_neq in Hne. now rewrite Hne.
  - destruct (String.eqb k0 k) eqn:H; cbn [PyDict.get].
    + apply String.eqb_eq in H. subst k0. apply String.eqb_neq in Hne. now rewrite Hne.
    + destruct (String.eqb k0 k'); [reflexivity | exact IH].
Qed.

Lemma get_first {A} (d : list (string * A)) k v r : d = (k, v) :: r -> PyDict.get d k = Some v.
Proof. intros ->. cbn [PyDict.get]. now rewrite String.eqb_refl. Qed.

Lemma get_In {A} (d : list (string * A)) k v : PyDict.get d k = Some v -> In (k, v) d.
Proof.
  induction d as [|[k' v'] r IH]; cbn [PyDict.get]; [discriminate|].
  destruct (String.eqb k' k) eqn:H.
  - apply String.eqb_eq in H. subst k'. intros [= ->]. now left.
  - intros Hg. right. now apply IH.
Qed.

Lemma In_keys_get {A} (d : list (string * A)) k :
  In k (PyDict.keys d) <-> exists v, PyDict.get d k = Some v.
Proof.
  unfold PyDict.keys. induction d as [|[k' v'] r IH]; cbn [map PyDict.get fst].
  - split; [intros [] | intros [? ?]; discriminate].
  - destruct (String.eqb k' k) eqn:H.
    + apply String.eqb_eq in H. subst k'. split; [eauto | intros _; now left].
    + apply String.eqb_neq in H. rewrite <- IH. cbn [In].
      split; [intros [?|?]; [congruence|assumption] | now right].
Qed.

Lemma keys_set_there {A} (d : list (string * A)) k v :
  In k (PyDict.keys d) -> PyDict.keys (PyDict.set d k v) = PyDict.keys d.
Proof.
  unfold PyDict.keys. induction d as [|[k' v'] r IH]; [intros []|].
  cbn [PyDict.set map fst]. destruct (String.eqb k' k) eqn:H.
  - apply String.eqb_eq in H. subst. reflexivity.
  - intros [Hk|Hk]; [apply String.eqb_neq in H; congruence|]. cbn [map fst]. now rewrite IH.
Qed.

End DictFacts.

(** ** The names of sub-experiments *)

Module NameFacts.
Import Str StrFacts.

Lemma name_char_spec (c : ascii) :
  name_char c = true ->
  name_noise c = false /\ PyText.repr_char squote c = of_char c /\ Ascii.eqb c squote = false.
Proof.
  destruct c as [[] [] [] [] [] [] [] []]; vm_compute; intros H;
    first [discriminate H | repeat split].
Qed.

Lemma drop_chars_app P (a b : string) :
  drop_chars P (a +:+ b) = drop_chars P a +:+ drop_chars P b.
Proof.
  induction a as [|c a IH]; [reflexivity|].
  rewrite app_cons. cbn [drop_chars]. rewrite IH. now destruct (P c).
Qed.

Lemma plain_drop (s : string) : plain_text s = true -> drop_chars name_noise s = s.
Proof.
  induction s as [|c s IH]; [reflexivity|]. cbn [plain_text all_chars].
  intros [Hc Hs]%andb_true_iff. cbn [drop_chars].
  destruct (name_char_spec c Hc) as (-> & _). now rewrite (IH Hs).
Qed.

Lemma plain_repr_chars (s : string) : plain_text s = true -> PyText.repr_chars squote s = s.
Proof.
  induction s as [|c s IH]; [reflexivity|]. cbn [plain_text all_chars].
  intros [Hc Hs]%andb_true_iff. cbn [PyText.repr_chars].
  destruct (name_char_spec c Hc) as (_ & -> & _). now rewrite (IH Hs).
Qed.

Lemma plain_no_squote (s : string) : plain_text s = true -> has_char squote s = false.
Proof.
  induction s as [|c s IH]; [reflexivity|]. cbn [plain_text all_chars].
  intros [Hc Hs]%andb_true_iff. cbn [has_char].
  destruct (name_char_spec c Hc) as (_ & _ & ->). now apply IH.
Qed.

Lemma plain_repr_str (s : string) :
  plain_text s = true -> PyText.repr_str s = String squote s +:+ of_char squote.
Proof.
  intros H. unfold PyText.repr_str. rewrite (plain_no_squote s H). cbn [andb].
  now rewrite (plain_repr_chars s H).
Qed.

Lemma drop_quoted (s : string) :
  plain_text s = true -> drop_chars name_noise (PyText.repr_str s) = s.
Proof.
  intros H. rewrite (plain_repr_str s H).
  change (String squote s +:+ of_char squote) with (of_char squote +:+ s +:+ of_char squote).
  rewrite !drop_chars_app. rewrite (plain_drop s H).
  change (drop_chars name_noise (of_char squote)) with "". rewrite app_nil_l. apply app_nil_r.
Qed.

Lemma drop_pair (k t : string) :
  plain_text k = true -> plain_text t = true ->
  drop_chars name_noise ("(" +:+ PyText.repr_str k +:+ ", " +:+ PyText.repr_str t +:+ ")")
  = k +:+ t.
Proof.
  intros Hk Ht. rewrite !drop_chars_app. rewrite (drop_quoted k Hk), (drop_quoted t Ht).
  change (drop_chars name_noise "(") with "". change (drop_chars name_noise ", ") with "".
  change (drop_chars name_noise ")") with "". rewrite !app_nil_l. now rewrite app_nil_r.
Qed.

Lemma drop_join_with P (sep : string) (l : list string) :
  drop_chars P sep = "" ->
  drop_chars P (join_with sep l) = join_all (map (drop_chars P) l).
Proof.
  intros Hsep. induction l as [|x l IH]; [reflexivity|].
  destruct l as [|y l].
  - cbn [map join_with join_all]. now rewrite app_nil_r.
  - change (join_with sep (x :: y :: l)) with (x +:+ sep +:+ join_with sep (y :: l)).
    rewrite !drop_chars_app, Hsep, app_nil_l, IH. reflexivity.
Qed.

Lemma drop_str_pairs (l : list (string * string)) :
  Forall (fun kt => plain_text (fst kt) = true /\ plain_text (snd kt) = true) l ->
  drop_chars name_noise (PyText.str_pairs l) = join_all (map (fun kt => fst kt +:+ snd kt) l).
Proof.
  intros Hl. unfold PyText.str_pairs. rewrite !drop_chars_app.
  change (drop_chars name_noise "[") with "". change (drop_chars name_noise "]") with "".
  rewrite app_nil_l, app_nil_r. rewrite drop_join_with by reflexivity.
  f_equal. rewrite map_map. apply map_ext_in. intros [k t] Hin.
  rewrite List.Forall_forall in Hl. destruct (Hl _ Hin) as [Hk Ht].
  now apply drop_pair.
Qed.

Lemma Forall_combine {A B} (P : A -> Prop) (Q : B -> Prop) (l : list A) (r : list B) :
  Forall P l -> Forall Q r -> Forall (fun ab => P (fst ab) /\ Q (snd ab)) (combine l r).
Proof.
  intros Hl. revert r. induction Hl as [|a l Ha Hl IH]; intros r Hr; [constructor|].
  destruct Hr as [|b r Hb Hr]; [constructor|]. cbn [combine]. constructor; [now split | now apply IH].
Qed.

Lemma name_piece_spec (keys texts : list string) :
  Forall (fun k => plain_text k = true) keys ->
  Forall (fun t => plain_text t = true) texts ->
  drop_chars name_noise (PyText.str_pairs (combine keys texts)) = name_piece keys texts.
Proof.
  intros Hk Ht. apply drop_str_pairs.
  exact (Forall_combine (fun k => plain_text k = true) (fun t => plain_text t = true) _ _ Hk Ht).
Qed.

End NameFacts.

(* ===================================================================== *)
(** * The sub-experiments of a set do not look at the world *)
(* ===================================================================== *)

Lemma sub_experiment_any_world {U V} params ips il (w : World U) (v : World V) :
  sub_experiment params ips il w = (fst (sub_experiment params ips il v), w).
Proof.
  unfold sub_experiment, bind, lift, getitem.
  destruct (map_result convert_param_to_dirname il); [|reflexivity].
  destruct (PyDict.get params "name") as [[| | |s| |]|]; reflexivity.
Qed.

Lemma sub_experiments_any_world {U V} params ips ils (w : World U) (v : World V) :
  sub_experiments params ips ils w = (fst (sub_experiments params ips ils v), w).
Proof.
  induction ils as [|il ils IH]; [reflexivity|].
  cbn [sub_experiments]. unfold bind.
  rewrite (sub_experiment_any_world params ips il w v).
  rewrite (sub_experiment_any_world params ips il v v).
  destruct (fst (sub_experiment params ips il v)); [|reflexivity].
  rewrite IH.
  destruct (sub_experiments params ips ils v) as [r v'] eqn:Hv. simpl.
  destruct r; reflexivity.
Qed.

(* ===================================================================== *)
(** * The float of the literal 0.1 *)
(* ===================================================================== *)

(** [of_ratio 1 10] is the binary64 number next to one tenth: a mantissa of
    53 bits that misses [2^56 / 10] by less than a half *)
Lemma tenth_is_nearest_double :
  FloatFmt.of_ratio 1 10 = S754_finite false 7205759403792794 (-56)
  /\ 2 ^ 52 <= 7205759403792794 < 2 ^ 53
  /\ Z.abs (10 * 7205759403792794 - 2 ^ 56) <= 5.
Proof. vm_compute. repeat split; intros H; discriminate H. Qed.

(* ===================================================================== *)
(** * Facts about the runner *)
(* ===================================================================== *)

Section RunFacts.
Context {U : Type}.
Variable S : Suite U.
Variable E : Env.
Variable options : Options.
Import Str StrFacts Path PathFacts.

Lemma exception_name_rel t : is_abs (exception_name t) = false.
Proof. reflexivity. Qed.

Lemma exception_name_no_slash t : has_char slash (exception_name t) = false.
Proof.
  unfold exception_name.
  rewrite !has_char_app, !zero_pad_no_slash. reflexivity.
Qed.

Lemma stamp_minutes_no_slash t : has_char slash (stamp_minutes t) = false.
Proof.
  unfold stamp_minutes.
  rewrite !has_char_app, !zero_pad_no_slash. reflexivity.
Qed.

Lemma log_base_rel rep : is_abs (of_Z rep +:+ ".log") = false.
Proof.
  destruct (of_Z_first rep) as (c & r & -> & Hc).
  rewrite app_cons. unfold is_abs. cbn [startswith].
  destruct (Ascii.eqb_spec "/"%char c) as [<-|_]; [discriminate | reflexivity].
Qed.

Lemma log_base_no_slash rep : has_char slash (of_Z rep +:+ ".log") = false.
Proof. rewrite has_char_app, of_Z_no_slash. reflexivity. Qed.

(** a crash report never has the name of a log *)
Lemma crash_not_log fullpath rep t :
  clean fullpath -> Path.join fullpath (exception_name t) <> logname_of fullpath rep.
Proof.
  intros Hc H. unfold logname_of in H.
  apply join_inj in H; auto using exception_name_rel, log_base_rel.
  destruct (of_Z_first rep) as (c & r & Hr & Hd). rewrite Hr in H.
  unfold exception_name in H. rewrite !app_cons in H. injection H as <- _.
  discriminate.
Qed.

Lemma resolve_abs (w : World U) p : is_abs p = true -> FS.resolve w p = p.
Proof. apply join_abs. Qed.

Lemma nosub_inside (w : World U) fullpath b :
  clean fullpath -> NoSubdir w fullpath -> is_abs b = false -> has_char slash b = false ->
  Path.join fullpath b ∉ dirs w.
Proof.
  intros Hc Hn Hb Hs. apply Hn. rewrite join_rel by assumption. now apply dirname_inside.
Qed.

Lemma writable_inside (w : World U) fullpath b :
  Ready w fullpath -> Path.join fullpath b ∉ dirs w ->
  is_abs b = false -> has_char slash b = false ->
  FS.writable w (Path.join fullpath b) = true.
Proof.
  intros [Hc Hd] Hn Hb Hs. unfold FS.writable.
  rewrite (bool_decide_eq_false_2 _ Hn).
  rewrite join_rel, dirname_inside by assumption.
  now rewrite bool_decide_eq_true_2.
Qed.

Lemma print_exception_spec exc fullpath (w : World U) :
  Ready w fullpath -> NoSubdir w fullpath ->
  print_exception E exc fullpath w =
    (Ok tt,
     mkWorld (<[Path.join fullpath (exception_name (now E (ticks w))) := report_text exc]> (files w))
             (dirs w) (cwd w) (user w) (key_warning_issued w) (Datatypes.S (ticks w))
             (trace w ++ [EvOpen (Path.join fullpath (exception_name (now E (ticks w)))) ModeW])).
Proof.
  intros HR HN. destruct w as [f d c u k t tr].
  unfold print_exception, bind, FS.clock, FS.open_w, FS.write, modify. simpl.
  rewrite resolve_abs by (apply is_abs_join, HR).
  pose proof (writable_inside _ _ (exception_name (now E t)) HR
                (nosub_inside _ _ _ (proj1 HR) HN (exception_name_rel _)
                              (exception_name_no_slash _))
                (exception_name_rel _) (exception_name_no_slash _)) as Hw.
  unfold FS.writable in *. simpl in *. rewrite Hw. simpl.
  unfold set_files, emit. simpl.
  rewrite !lookup_insert_eq, !insert_insert_eq. simpl.
  unfold report_text. rewrite app_nil_l. reflexivity.
Qed.

(** ** Reading traces *)

Lemma iterated_app a b : iterated (a ++ b) = iterated a ++ iterated b.
Proof. apply flat_map_app. Qed.
Lemma restored_app a b : restored (a ++ b) = restored a ++ restored b.
Proof. apply flat_map_app. Qed.
Lemma resets_app a b : resets (a ++ b) = resets a ++ resets b.
Proof. apply flat_map_app. Qed.
Lemma opened_app q a b : opened q (a ++ b) = opened q a ++ opened q b.
Proof. apply flat_map_app. Qed.
Lemma copies_of_app q a b : copies_of q (a ++ b) = copies_of q a ++ copies_of q b.
Proof. apply flat_map_app. Qed.
Lemma hook_calls_app a b : hook_calls (a ++ b) = hook_calls a ++ hook_calls b.
Proof. apply List.filter_app. Qed.

(** ** The renaming of keys does not look at the warnings issued *)

Lemma rename_key_fst d k1 k2 x :
  fst (rename_key (d, k1) x) = fst (rename_key (d, k2) x).
Proof.
  unfold rename_key. destruct (has_char " " x); [|reflexivity].
  destruct (PyDict.get d x); reflexivity.
Qed.

Lemma rename_keys_fst ks d k1 k2 :
  fst (fold_left rename_key ks (d, k1)) = fst (fold_left rename_key ks (d, k2)).
Proof.
  revert d k1 k2. induction ks as [|x ks IH]; intros d k1 k2; cbn [fold_left]; [reflexivity|].
  pose proof (rename_key_fst d k1 k2 x) as H.
  destruct (rename_key (d, k1) x) as [d1 k1'], (rename_key (d, k2) x) as [d2 k2'].
  simpl in H. subst d2. apply IH.
Qed.

(** ** Keys without spaces: the renaming loop changes nothing *)

Lemma rename_walk_spaceless ks dic warned :
  forallb (fun k => negb (has_char " " k)) ks = true ->
  rename_walk ks (dic, warned) = (Ok dic, warned)
  /\ fold_left rename_key ks (dic, warned) = (dic, warned).
Proof.
  induction ks as [|k ks IH]; [intros _; split; reflexivity|].
  cbn [forallb]. intros [Hk Hr]%andb_true_iff. apply negb_true_iff in Hk.
  cbn [rename_walk fold_left]. unfold clashes, rename_key. cbn [fst]. rewrite Hk. cbn [andb].
  now apply IH.
Qed.

Lemma rename_keys_spaceless dic (w : World U) :
  spaceless dic = true -> rename_keys dic w = (Ok dic, w).
Proof.
  intros H. unfold rename_keys.
  destruct (rename_walk_spaceless (PyDict.keys dic) dic (key_warning_issued w) H) as [-> _].
  now destruct w.
Qed.

Lemma renamed_spaceless dic : spaceless dic = true -> renamed dic = dic.
Proof.
  intros H. unfold renamed.
  now destruct (rename_walk_spaceless (PyDict.keys dic) dic [] H) as [_ ->].
Qed.

Lemma log_line_spaceless dic :
  spaceless dic = true -> log_line E dic = outstr E dic +:+ of_char nl.
Proof. intros H. unfold log_line. now rewrite renamed_spaceless. Qed.

(** ** A stretch of the loop *)

Lemma Extends_refl logfile fullpath text (w : World U) :
  files w !! logfile = Some text -> Extends logfile fullpath text w w "" [].
Proof.
  intros H. constructor; auto.
  - now rewrite app_nil_r.
  - exists []. now rewrite List.app_nil_r.
Qed.

Lemma Extends_trans logfile fullpath text (w w1 w2 : World U) a b i j :
  Extends logfile fullpath text w w1 a i ->
  Extends logfile fullpath (text +:+ a) w1 w2 b j ->
  Extends logfile fullpath text w w2 (a +:+ b) (i ++ j).
Proof.
  intros [d1 l1 f1 (e1 & t1 & i1 & r1 & s1 & o1 & c1)] [d2 l2 f2 (e2 & t2 & i2 & r2 & s2 & o2 & c2)].
  constructor.
  - congruence.
  - now rewrite l2, app_assoc.
  - intros q Hq Hc. rewrite f2, f1; auto.
  - exists (e1 ++ e2). rewrite t2, t1, List.app_assoc.
    rewrite iterated_app, restored_app, resets_app, opened_app, copies_of_app.
    rewrite i1, i2, r1, r2, s1, s2, o1, o2, c1, c2. repeat split; reflexivity.
Qed.

Lemma Extends_ready logfile fullpath text (w w' : World U) a i :
  Extends logfile fullpath text w w' a i -> Ready w fullpath -> Ready w' fullpath.
Proof. intros [d _ _ _] [Hc Hd]. split; [assumption | now rewrite d]. Qed.

Lemma Extends_nosub logfile fullpath text (w w' : World U) a i :
  Extends logfile fullpath text w w' a i -> NoSubdir w fullpath -> NoSubdir w' fullpath.
Proof. intros [d _ _ _] H q Hq. rewrite d. now apply H. Qed.

Lemma crash_eqb_log fullpath rep t :
  clean fullpath ->
  String.eqb (Path.join fullpath (exception_name t)) (logname_of fullpath rep) = false.
Proof. intros Hc. apply String.eqb_neq. now apply crash_not_log. Qed.

(** ** [xrange] *)

Lemma xrange_nil a b : b <= a -> xrange a b = [].
Proof. intros H. unfold xrange. replace (Z.to_nat (b - a)) with 0%nat by lia. reflexivity. Qed.

Lemma xrange_cons a b : a < b -> xrange a b = a :: xrange (a + 1) b.
Proof.
  intros H. unfold xrange.
  replace (Z.to_nat (b - a)) with (Datatypes.S (Z.to_nat (b - (a + 1)))) by lia.
  cbn [seq map]. f_equal; [lia|].
  rewrite <- seq_shift, map_map. apply map_ext. intros i. lia.
Qed.

Lemma xrange_split a k b : a <= k <= b -> xrange a b = xrange a k ++ xrange k b.
Proof.
  intros H. remember (Z.to_nat (k - a)) as m eqn:Hm.
  revert a H Hm. induction m as [|m IH]; intros a H Hm.
  - assert (k = a) by lia. subst k. now rewrite (xrange_nil a a) by lia.
  - rewrite (xrange_cons a b), (xrange_cons a k) by lia.
    cbn [app]. f_equal. apply IH; lia.
Qed.

Lemma In_xrange it a b : In it (xrange a b) -> a <= it < b.
Proof.
  unfold xrange. rewrite in_map_iff. intros (i & <- & Hi). apply in_seq in Hi. lia.
Qed.

(** ** The hooks alone *)

Section Hooks.
Variables (params : Dict) (rep : Z).

Lemma results_app its1 its2 u :
  failure S params rep its1 u = None ->
  results S params rep (its1 ++ its2) u
  = results S params rep its1 u
      ++ results S params rep its2 (state_after S params rep its1 u).
Proof.
  revert u. induction its1 as [|it its1 IH]; intros u H; [reflexivity|].
  cbn [app results failure state_after fold_left] in *.
  destruct (fst (iterate S params rep it u)); [|discriminate].
  cbn [app]. f_equal. now apply IH.
Qed.

Lemma failure_app its1 its2 u :
  failure S params rep its1 u = None ->
  failure S params rep (its1 ++ its2) u
  = failure S params rep its2 (state_after S params rep its1 u).
Proof.
  revert u. induction its1 as [|it its1 IH]; intros u H; [reflexivity|].
  cbn [app failure state_after fold_left] in *.
  destruct (fst (iterate S params rep it u)); [|discriminate].
  now apply IH.
Qed.

(** [iterate] returns throughout: it is called at every index and there is
    a result for each *)
Lemma failure_none its u :
  failure S params rep its u = None ->
  called S params rep its u = its
  /\ length (results S params rep its u) = length its.
Proof.
  revert u. induction its as [|it its IH]; intros u H; [split; reflexivity|].
  cbn [failure called results] in *.
  destruct (fst (iterate S params rep it u)); [|discriminate].
  destruct (IH _ H) as [-> Hl]. cbn [length]. now rewrite Hl.
Qed.

Lemma results_full its u :
  length (results S params rep its u) = length its ->
  failure S params rep its u = None.
Proof.
  revert u. induction its as [|it its IH]; intros u H; [reflexivity|].
  cbn [failure results] in *.
  destruct (fst (iterate S params rep it u)); [|discriminate H].
  apply IH. cbn [length] in H. congruence.
Qed.

(** [iterate] raises at [k]: it was called up to and including [k], there
    is a result for each index before [k], and none after *)
Lemma failure_some its u k exc :
  failure S params rep its u = Some (k, exc) ->
  exists pre post,
    its = pre ++ k :: post
    /\ called S params rep its u = pre ++ [k]
    /\ length (results S params rep its u) = length pre
    /\ failure S params rep pre u = None
    /\ fst (iterate S params rep k (state_after S params rep pre u)) = inr exc.
Proof.
  revert u. induction its as [|it its IH]; intros u H; [discriminate|].
  cbn [failure called results] in *.
  destruct (fst (iterate S params rep it u)) as [dic|e] eqn:Hit.
  - destruct (IH _ H) as (pre & post & -> & Hc & Hl & Hf & Hk).
    exists (it :: pre), post. cbn [app length failure state_after fold_left].
    rewrite Hit, Hc, Hl. repeat split; auto.
  - injection H as <- <-. exists [], its. repeat split; auto.
Qed.

(** the turns of a range in which [iterate] raises at [k] *)
Lemma xrange_at a n pre k post :
  xrange a n = pre ++ k :: post -> a <= k < n /\ pre = xrange a k.
Proof.
  revert a. induction pre as [|x pre IH]; intros a H.
  - cbn [app] in H. destruct (Z.lt_ge_cases a n) as [Hlt|Hge].
    + rewrite xrange_cons in H by lia. injection H as <- _.
      split; [lia|]. now rewrite xrange_nil by lia.
    + rewrite xrange_nil in H by lia. discriminate.
  - cbn [app] in H. destruct (Z.lt_ge_cases a n) as [Hlt|Hge].
    + rewrite xrange_cons in H by lia. injection H as <- H.
      destruct (IH _ H) as [Hk ->]. split; [lia|].
      now rewrite (xrange_cons a k) by lia.
    + rewrite xrange_nil in H by lia. discriminate.
Qed.

Lemma failure_in_range a n u k exc :
  failure S params rep (xrange a n) u = Some (k, exc) ->
  a <= k < n
  /\ called S params rep (xrange a n) u = xrange a (k + 1)
  /\ results S params rep (xrange a n) u = results S params rep (xrange a k) u
  /\ failure S params rep (xrange a k) u = None
  /\ fst (iterate S params rep k (state_after S params rep (xrange a k) u)) = inr exc.
Proof.
  intros H. destruct (failure_some _ _ _ _ H) as (pre & post & Heq & Hc & Hl & Hf & Hk).
  destruct (xrange_at _ _ _ _ _ Heq) as [Hr ->].
  split; [exact Hr|]. split; [|split; [|split; assumption]].
  - rewrite Hc. rewrite (xrange_split a k (k + 1)) by lia.
    now rewrite (xrange_cons k (k + 1)), (xrange_nil (k + 1) (k + 1)) by lia.
  - rewrite Heq. rewrite results_app by exact Hf.
    cbn [results]. rewrite Hk. now rewrite List.app_nil_r.
Qed.

(** a step hook whose result depends on the index alone *)
Lemma results_by_index (step : Z -> Dict) its u :
  (forall it, In it its -> forall u', fst (iterate S params rep it u') = inl (step it)) ->
  results S params rep its u = map step its
  /\ failure S params rep its u = None.
Proof.
  revert u. induction its as [|it its IH]; intros u H; [split; reflexivity|].
  cbn [results failure map]. rewrite (H it (or_introl eq_refl)).
  destruct (IH (after_turn S params rep it u)) as [-> ->]; [|split; reflexivity].
  intros it' Hin. apply H. now right.
Qed.

End Hooks.

Section Loop.
Variables (params : Dict) (rep : Z) (fullpath : string).
Let logfile := logname_of fullpath rep.

Lemma chdir_ready (w : World U) :
  Ready w fullpath ->
  FS.chdir fullpath w = (Ok tt, emit (EvChdir fullpath) (set_cwd fullpath w)).
Proof.
  intros [Hc Hd]. unfold FS.chdir. rewrite resolve_abs by apply Hc.
  rewrite (clean_eqb _ Hc). now rewrite bool_decide_eq_true_2.
Qed.

(** one turn of the loop in which [iterate] returns *)
Lemma loop_step_returns it rest text dic (w : World U) :
  Ready w fullpath -> NoSubdir w fullpath ->
  files w !! logfile = Some text ->
  fst (iterate S params rep it (user w)) = inl dic ->
  spaceless dic = true ->
  exists w1,
    iteration_loop S E params rep fullpath logfile (it :: rest) w
      = iteration_loop S E params rep fullpath logfile rest w1
    /\ Extends logfile fullpath text w w1 (log_line E dic) [(params, rep, it)]
    /\ user w1 = after_turn S params rep it (user w).
Proof.
  intros HR HN Hlog Hit Hsp.
  assert (Hcl : clean fullpath) by apply HR.
  cbn [iteration_loop]. unfold bind at 1. rewrite chdir_ready by assumption.
  unfold bind at 1. unfold call_iterate, after_turn.
  destruct w as [f d c u k t tr]. simpl in *.
  destruct (iterate S params rep it u) as [r u1]. simpl in Hit. subst r.
  unfold emit, set_user, set_cwd. simpl.
  pose proof (log_line_spaceless dic Hsp) as Hline.
  destruct (restore_supported S).
  - unfold bind at 1. unfold bind at 1. unfold call_save_state. simpl.
    destruct (save_state S params rep it u1) as [[exc|] u2]; simpl.
    + rewrite print_exception_spec by (first [exact HN | split; [exact Hcl | apply HR]]).
      simpl. unfold bind at 1. rewrite rename_keys_spaceless by exact Hsp.
      unfold bind at 1. unfold FS.write, modify. simpl.
      eexists. split; [reflexivity|]. split; [|reflexivity].
      constructor; simpl.
      * reflexivity.
      * rewrite lookup_insert_eq, lookup_insert_ne by (now apply crash_not_log).
        rewrite Hlog. simpl. now rewrite Hline.
      * intros q Hq Hc. rewrite !lookup_insert_ne; auto.
      * eexists. split; [rewrite <- !List.app_assoc; reflexivity|].
        simpl. unfold opened, copies_of. simpl.
        fold logfile. unfold logfile at 1.
        rewrite (crash_eqb_log fullpath rep _ Hcl). repeat split; reflexivity.
    + unfold bind at 1. rewrite rename_keys_spaceless by exact Hsp.
      unfold bind at 1. unfold FS.write, modify. simpl.
      eexists. split; [reflexivity|]. split; [|reflexivity].
      constructor; simpl.
      * reflexivity.
      * rewrite lookup_insert_eq, Hlog. simpl. now rewrite Hline.
      * intros q Hq Hc. rewrite !lookup_insert_ne; auto.
      * eexists. split; [rewrite <- !List.app_assoc; reflexivity|].
        simpl. auto.
  - unfold bind at 1. unfold ret at 1. unfold bind at 1.
    rewrite rename_keys_spaceless by exact Hsp.
    unfold bind at 1. unfold FS.write, modify. simpl.
    eexists. split; [reflexivity|]. split; [|reflexivity].
    constructor; simpl.
    * reflexivity.
    * rewrite lookup_insert_eq, Hlog. simpl. now rewrite Hline.
    * intros q Hq Hc. rewrite !lookup_insert_ne; auto.
    * eexists. split; [rewrite <- !List.app_assoc; reflexivity|].
      simpl. auto.
Qed.

(** the turn of the loop in which [iterate] raises: the crash report,
    the sentinel, and the end of the loop *)
Lemma loop_step_raises it rest text exc (w : World U) :
  Ready w fullpath -> NoSubdir w fullpath ->
  files w !! logfile = Some text ->
  fst (iterate S params rep it (user w)) = inr exc ->
  exists w1,
    iteration_loop S E params rep fullpath logfile (it :: rest) w = (Ok tt, w1)
    /\ Extends logfile fullpath text w w1 sentinel [(params, rep, it)]
    /\ files w1 !! Path.join fullpath (exception_name (now E (ticks w)))
       = Some (report_text exc).
Proof.
  intros HR HN Hlog Hit.
  assert (Hcl : clean fullpath) by apply HR.
  cbn [iteration_loop]. unfold bind at 1. rewrite chdir_ready by assumption.
  unfold bind at 1. unfold call_iterate.
  destruct w as [f d c u k t tr]. simpl in *.
  destruct (iterate S params rep it u) as [r u1]. simpl in Hit. subst r.
  unfold emit, set_user, set_cwd. simpl.
  unfold bind at 1.
  rewrite print_exception_spec by (first [exact HN | split; [exact Hcl | apply HR]]).
  simpl. unfold FS.write, modify. simpl.
  eexists. split; [reflexivity|]. split.
  - constructor; simpl.
    + reflexivity.
    + rewrite lookup_insert_eq, lookup_insert_ne by (now apply crash_not_log).
      now rewrite Hlog.
    + intros q Hq Hc. rewrite !lookup_insert_ne; auto.
    + eexists. split; [rewrite <- !List.app_assoc; reflexivity|].
      simpl. unfold opened, copies_of. simpl.
      fold logfile. unfold logfile at 1.
      rewrite (crash_eqb_log fullpath rep _ Hcl). repeat split; reflexivity.
  - simpl. rewrite lookup_insert_ne.
    + apply lookup_insert_eq.
    + intros Heq. symmetry in Heq. exact (crash_not_log fullpath rep _ Hcl Heq).
Qed.

(** the loop over the indices [its]: a line for every result of [iterate],
    in order, and the token after them when [iterate] raises *)
Lemma loop_results its : forall text (w : World U),
  Ready w fullpath -> NoSubdir w fullpath ->
  files w !! logfile = Some text ->
  Forall (fun d => spaceless d = true) (results S params rep its (user w)) ->
  exists w1,
    iteration_loop S E params rep fullpath logfile its w = (Ok tt, w1)
    /\ Extends logfile fullpath text w w1
         (join_all (map (log_line E) (results S params rep its (user w)))
            +:+ match failure S params rep its (user w) with
                | Some _ => sentinel
                | None => ""
                end)
         (map (fun it => (params, rep, it)) (called S params rep its (user w)))
    /\ match failure S params rep its (user w) with
       | Some (_, exc) =>
           exists t, files w1 !! Path.join fullpath (exception_name t) = Some (report_text exc)
       | None => user w1 = state_after S params rep its (user w)
       end.
Proof.
  induction its as [|it its IH]; intros text w HR HN Hlog Hsp.
  - exists w. split; [reflexivity|]. split; [now apply Extends_refl | reflexivity].
  - cbn [results failure called state_after fold_left] in *.
    destruct (fst (iterate S params rep it (user w))) as [dic|exc] eqn:Hit.
    + inversion Hsp as [|d ds Hd Hds]; subst.
      destruct (loop_step_returns it its text dic w HR HN Hlog Hit Hd)
        as (w1 & Heq & Hext & Hu).
      rewrite <- Hu in *.
      destruct (IH (text +:+ log_line E dic) w1) as (w2 & Heq2 & Hext2 & Hend).
      * eapply Extends_ready; eassumption.
      * eapply Extends_nosub; eassumption.
      * apply Hext.
      * exact Hds.
      * exists w2. split; [now rewrite Heq|]. split; [|exact Hend].
        cbn [map join_all]. rewrite app_assoc.
        exact (Extends_trans _ _ _ _ _ _ _ _ _ _ Hext Hext2).
    + destruct (loop_step_raises it its text exc w HR HN Hlog Hit) as (w1 & Heq & Hext & Hrep).
      exists w1. split; [exact Heq|]. split; [|eauto].
      cbn [map join_all]. now rewrite app_nil_l.
Qed.

End Loop.

(** ** The second half of [run_rep] *)

Section RunFrom.
Variables (params : Dict) (rep : Z) (fullpath : string) (n : Z).
Hypothesis Hn : PyDict.get params "iterations" = Some (VInt n).
Let logfile := logname_of fullpath rep.

Lemma logfile_writable (w : World U) :
  Ready w fullpath -> NoSubdir w fullpath ->
  FS.resolve w logfile = logfile /\ FS.writable w logfile = true.
Proof.
  intros HR HN. split.
  - apply resolve_abs. apply is_abs_join, HR.
  - apply writable_inside; auto using log_base_rel, log_base_no_slash.
    apply nosub_inside; auto using log_base_rel, log_base_no_slash. apply HR.
Qed.

(** up to the loop: the calls of [reset] and [restore_state] and the
    opening of the log *)
Lemma run_from_opens restore (w : World U) :
  Ready w fullpath -> NoSubdir w fullpath ->
  exists w1,
    run_from S E params rep fullpath logfile restore w
      = bind (iteration_loop S E params rep fullpath logfile (xrange restore n))
             (fun _ => ret RetNone) w1
    /\ Ready w1 fullpath
    /\ NoSubdir w1 fullpath
    /\ user w1 = start_state S params rep restore (user w)
    /\ dirs w1 = dirs w
    /\ files w1 !! logfile
       = Some (if restore =? 0 then "" else default "" (files w !! logfile))
    /\ (forall q, q <> logfile -> files w1 !! q = files w !! q)
    /\ exists evs,
        trace w1 = trace w ++ evs /\ iterated evs = []
        /\ restored evs = (if restore =? 0 then [] else [(params, rep, restore)])
        /\ resets evs = [(params, rep)]
        /\ opened logfile evs = [if restore =? 0 then ModeW else ModeA]
        /\ copies_of logfile evs = [].
Proof.
  intros HR HN. destruct (logfile_writable w HR HN) as [Hres Hw].
  unfold run_from. unfold bind at 1. unfold call_reset, modify.
  unfold bind at 1. unfold start_state.
  destruct (restore =? 0) eqn:Hz; cbn [negb].
  - unfold FS.open_w.
    assert (Hres' : FS.resolve (emit (EvReset params rep) (set_user (reset S params rep (user w)) w)) logfile = logfile)
      by (apply resolve_abs, is_abs_join, HR).
    rewrite Hres'.
    assert (Hw' : FS.writable (emit (EvReset params rep) (set_user (reset S params rep (user w)) w)) logfile = true)
      by exact Hw.
    rewrite Hw'. unfold bind at 1. unfold getitem. rewrite Hn.
    unfold ret at 1. unfold bind at 1. cbn [as_int]. unfold ret at 1.
    eexists. split; [reflexivity|].
    destruct w as [f d c u k t tr]. simpl. repeat split.
    + apply HR.
    + apply HR.
    + apply HR.
    + exact HN.
    + simpl. apply lookup_insert_eq.
    + intros q Hq. now rewrite lookup_insert_ne.
    + eexists. split; [rewrite <- !List.app_assoc; reflexivity|].
      simpl. unfold opened, copies_of. simpl. rewrite String.eqb_refl.
      repeat split; reflexivity.
  - unfold bind at 1. unfold FS.open_a.
    assert (Hres' : FS.resolve (emit (EvReset params rep) (set_user (reset S params rep (user w)) w)) logfile = logfile)
      by (apply resolve_abs, is_abs_join, HR).
    rewrite Hres'.
    assert (Hw' : FS.writable (emit (EvReset params rep) (set_user (reset S params rep (user w)) w)) logfile = true)
      by exact Hw.
    rewrite Hw'. unfold bind at 1.
    rewrite chdir_ready by (destruct w; apply HR).
    unfold bind at 1. unfold call_restore_state, modify. unfold ret at 1.
    unfold bind at 1. unfold getitem. rewrite Hn.
    unfold ret at 1. unfold bind at 1. cbn [as_int]. unfold ret at 1.
    eexists. split; [reflexivity|].
    destruct w as [f d c u k t tr]. simpl. repeat split.
    + apply HR.
    + apply HR.
    + apply HR.
    + exact HN.
    + simpl. apply lookup_insert_eq.
    + intros q Hq. now rewrite lookup_insert_ne.
    + eexists. split; [rewrite <- !List.app_assoc; reflexivity|].
      simpl. unfold opened, copies_of. simpl. rewrite String.eqb_refl.
      repeat split; reflexivity.
Qed.

Lemma Ran_of restore (w w1 w' : World U) added its upto :
  files w1 !! logfile
    = Some (if restore =? 0 then "" else default "" (files w !! logfile)) ->
  (forall q, q <> logfile -> files w1 !! q = files w !! q) ->
  dirs w1 = dirs w ->
  (exists evs,
        trace w1 = trace w ++ evs /\ iterated evs = []
        /\ restored evs = (if restore =? 0 then [] else [(params, rep, restore)])
        /\ resets evs = [(params, rep)]
        /\ opened logfile evs = [if restore =? 0 then ModeW else ModeA]
        /\ copies_of logfile evs = []) ->
  Extends logfile fullpath (if restore =? 0 then "" else default "" (files w !! logfile))
          w1 w' added its ->
  its = map (fun it => (params, rep, it)) (xrange restore upto) ->
  Ran params rep fullpath restore w w' added upto.
Proof.
  intros Hlog Hfr Hd (e0 & t0 & i0 & r0 & s0 & o0 & c0)
         [d1 l1 f1 (e1 & t1 & i1 & r1 & s1 & o1 & c1)] Hits.
  unfold logfile in *.
  constructor.
  - congruence.
  - exact l1.
  - intros q Hq Hc. rewrite f1, Hfr; auto.
  - exists (e0 ++ e1). rewrite t1, t0, List.app_assoc.
    rewrite iterated_app, restored_app, resets_app, opened_app, copies_of_app.
    rewrite i0, i1, r0, r1, s0, s1, o0, o1, c0, c1, Hits, !List.app_nil_r.
    repeat split; reflexivity.
Qed.

(** the run in which [iterate] returns at every index: the subclass state
    is handed on from call to call, and the log receives the line of every
    result *)
Lemma run_from_returns restore (w : World U) :
  let u0 := start_state S params rep restore (user w) in
  let out := results S params rep (xrange restore n) u0 in
  Ready w fullpath -> NoSubdir w fullpath ->
  failure S params rep (xrange restore n) u0 = None ->
  Forall (fun d => spaceless d = true) out ->
  exists w',
    run_from S E params rep fullpath logfile restore w = (Ok RetNone, w')
    /\ Ran params rep fullpath restore w w' (join_all (map (log_line E) out)) n
    /\ user w' = state_after S params rep (xrange restore n) u0.
Proof.
  intros u0 out HR HN Hfail Hsp.
  destruct (run_from_opens restore w HR HN)
    as (w1 & Heq & HR1 & HN1 & Hu & Hd & Hlog & Hfr & Hev).
  fold u0 in Hu.
  destruct (loop_results params rep fullpath (xrange restore n) _ w1 HR1 HN1 Hlog)
    as (w2 & Hloop & Hext & Hend).
  { rewrite Hu. exact Hsp. }
  rewrite Hu in Hext, Hend. rewrite Hfail in Hext, Hend.
  destruct (failure_none params rep _ _ Hfail) as [Hcalled _].
  rewrite Hcalled in Hext. rewrite app_nil_r in Hext.
  exists w2. split; [|split; [|exact Hend]].
  - rewrite Heq. unfold bind, logfile. rewrite Hloop. reflexivity.
  - eapply Ran_of; eauto.
Qed.

(** the run in which [iterate] raises at the index [k] *)
Lemma run_from_crashes exc restore k (w : World U) :
  let u0 := start_state S params rep restore (user w) in
  let out := results S params rep (xrange restore k) u0 in
  Ready w fullpath -> NoSubdir w fullpath ->
  failure S params rep (xrange restore n) u0 = Some (k, exc) ->
  Forall (fun d => spaceless d = true) out ->
  exists w',
    run_from S E params rep fullpath logfile restore w = (Ok RetNone, w')
    /\ restore <= k < n
    /\ Ran params rep fullpath restore w w'
           (join_all (map (log_line E) out) +:+ sentinel) (k + 1)
    /\ exists t, files w' !! Path.join fullpath (exception_name t) = Some (report_text exc).
Proof.
  intros u0 out HR HN Hfail Hsp.
  destruct (run_from_opens restore w HR HN)
    as (w1 & Heq & HR1 & HN1 & Hu & Hd & Hlog & Hfr & Hev).
  fold u0 in Hu.
  destruct (failure_in_range params rep _ _ _ _ _ Hfail) as (Hk & Hcalled & Hres & _ & _).
  destruct (loop_results params rep fullpath (xrange restore n) _ w1 HR1 HN1 Hlog)
    as (w2 & Hloop & Hext & Hend).
  { rewrite Hu, Hres. exact Hsp. }
  rewrite Hu in Hext, Hend. rewrite Hfail, Hcalled, Hres in Hext. rewrite Hfail in Hend.
  exists w2. split; [|split; [exact Hk|split; [|exact Hend]]].
  - rewrite Heq. unfold bind, logfile. rewrite Hloop. reflexivity.
  - eapply Ran_of; eauto.
Qed.

End RunFrom.

(** ** The first half of [run_rep] *)

Lemma run_rep_unfold params rep name path n (w : World U) :
  ParamsOf params name path n ->
  run_rep S E options params rep w
  = bind (resume_point S E options params (logname_of (Path.join path name) rep))
         (fun r => match r with
                   | None => ret RetFalse
                   | Some restore =>
                       run_from S E params rep (Path.join path name)
                                (logname_of (Path.join path name) rep) restore
                   end) w.
Proof.
  intros (Hname & Hpath & _).
  unfold run_rep, fullpath_of, getitem. rewrite Hname, Hpath. reflexivity.
Qed.

Lemma strip_error_line_eq lines :
  strip_error_line lines = if ends_in_crash lines then removelast lines else lines.
Proof. unfold strip_error_line, ends_in_crash. now destruct (last lines). Qed.

Lemma log_eqb fullpath rep : String.eqb (logname_of fullpath rep) "" = false.
Proof. unfold logname_of. apply join_eqb, app_eqb_r. reflexivity. Qed.

Lemma exists_file (w : World U) p text :
  String.eqb p "" = false ->
  files w !! FS.resolve w p = Some text -> FS.exists_ p w = (Ok true, w).
Proof.
  intros Hp H. unfold FS.exists_. rewrite Hp, H.
  rewrite bool_decide_eq_true_2 by eauto. reflexivity.
Qed.

Lemma read_lines_file (w : World U) p text :
  files w !! FS.resolve w p = Some text ->
  FS.read_lines p w = (Ok (readlines text), emit (EvOpen (FS.resolve w p) ModeR) w).
Proof. intros H. unfold FS.read_lines. now rewrite H. Qed.

(** a complete log and no forced rerun: [return False] *)
Lemma resume_point_complete params logname n text (w : World U) :
  String.eqb logname "" = false ->
  PyDict.get params "iterations" = Some (VInt n) ->
  files w !! FS.resolve w logname = Some text ->
  Z.of_nat (length (strip_error_line (readlines text))) = n ->
  truthy (rerun options) = false ->
  resume_point S E options params logname w
  = (Ok None, emit (EvOpen (FS.resolve w logname) ModeR) w).
Proof.
  intros Hne Hn Hf Hlen Hr.
  unfold resume_point. unfold bind at 1. rewrite (exists_file _ _ _ Hne Hf). cbn [negb].
  unfold bind at 1. rewrite (read_lines_file _ _ _ Hf).
  unfold PyDict.mem. rewrite Hn. cbn [from_option id int_eq_val]. rewrite Hlen, Z.eqb_refl, Hr.
  reflexivity.
Qed.

Lemma is_complete_inv (w : World U) item :
  is_complete w item = true ->
  exists name path n text,
    ParamsOf (fst item) name path n
    /\ item_log w item = FS.resolve w (logname_of (Path.join path name) (snd item))
    /\ files w !! FS.resolve w (logname_of (Path.join path name) (snd item)) = Some text
    /\ Z.of_nat (length (readlines text)) = n
    /\ ends_in_crash (readlines text) = false.
Proof.
  unfold is_complete, item_log, ParamsOf.
  destruct (PyDict.get item.1 "path") as [[| | |path| |]|]; try discriminate.
  destruct (PyDict.get item.1 "name") as [[| | |name| |]|]; try discriminate.
  destruct (PyDict.get item.1 "iterations") as [[|n| | | |]|]; try discriminate.
  destruct (files w !! _) as [text|] eqn:Hf; try discriminate.
  intros [H1 H2]%andb_true_iff. apply Z.eqb_eq in H1. apply negb_true_iff in H2.
  exists name, path, n, text. auto 10.
Qed.

(** a complete repetition is skipped: the log is read and nothing else
    happens *)
Lemma run_rep_complete params rep (w : World U) :
  truthy (rerun options) = false ->
  is_complete w (params, rep) = true ->
  run_rep S E options params rep w
  = (Ok RetFalse, add_events [EvOpen (item_log w (params, rep)) ModeR] w).
Proof.
  intros Hr Hc.
  destruct (is_complete_inv _ _ Hc) as (name & path & n & text & HP & Hl & Hf & Hlen & Hno).
  simpl in *. rewrite (run_rep_unfold _ _ _ _ _ _ HP). unfold bind.
  rewrite (resume_point_complete params _ n text w); auto using log_eqb.
  - now rewrite Hl.
  - apply HP.
  - now rewrite strip_error_line_eq, Hno.
Qed.


(** ** Repetitions that are skipped, and those that are not *)

Lemma is_done_inv (w : World U) item :
  is_done w item = true ->
  exists name path n text,
    ParamsOf (fst item) name path n
    /\ item_log w item = FS.resolve w (logname_of (Path.join path name) (snd item))
    /\ files w !! FS.resolve w (logname_of (Path.join path name) (snd item)) = Some text
    /\ counted text = n.
Proof.
  unfold is_done, item_log, ParamsOf.
  destruct (PyDict.get item.1 "path") as [[| | |path| |]|]; try discriminate.
  destruct (PyDict.get item.1 "name") as [[| | |name| |]|]; try discriminate.
  destruct (PyDict.get item.1 "iterations") as [[|n| | | |]|]; try discriminate.
  destruct (files w !! _) as [text|] eqn:Hf; try discriminate.
  intros H. apply Z.eqb_eq in H.
  exists name, path, n, text. auto 10.
Qed.

(** a complete log is one that counts as done *)
Lemma is_complete_done (w : World U) item :
  is_complete w item = true -> is_done w item = true.
Proof.
  unfold is_complete, is_done.
  destruct (PyDict.get item.1 "path") as [[| | |path| |]|]; try discriminate.
  destruct (PyDict.get item.1 "name") as [[| | |name| |]|]; try discriminate.
  destruct (PyDict.get item.1 "iterations") as [[|n| | | |]|]; try discriminate.
  destruct (files w !! _) as [text|] eqn:Hf; try discriminate.
  intros [H1 H2]%andb_true_iff. apply negb_true_iff in H2.
  unfold counted. now rewrite strip_error_line_eq, H2.
Qed.

Lemma run_rep_done params rep (w : World U) :
  truthy (rerun options) = false ->
  is_done w (params, rep) = true ->
  run_rep S E options params rep w
  = (Ok RetFalse, add_events [EvOpen (item_log w (params, rep)) ModeR] w).
Proof.
  intros Hr Hc.
  destruct (is_done_inv _ _ Hc) as (name & path & n & text & HP & Hl & Hf & Hlen).
  simpl in *. rewrite (run_rep_unfold _ _ _ _ _ _ HP). unfold bind.
  rewrite (resume_point_complete params _ n text w); auto using log_eqb.
  - now rewrite Hl.
  - apply HP.
Qed.


Lemma bind_never {A B} (m : M U A) (k : A -> M U B) (b : B) (w : World U) :
  (forall a w', fst (k a w') <> Ok b) -> fst (bind m k w) <> Ok b.
Proof.
  intros H. unfold bind. destruct (m w) as [[a|e] w']; [apply H | discriminate].
Qed.

(** the second half of [run_rep] never returns [False] *)
Lemma run_from_not_false params rep fullpath logname restore (w : World U) :
  fst (run_from S E params rep fullpath logname restore w) <> Ok RetFalse.
Proof.
  unfold run_from. repeat (apply bind_never; intros). discriminate.
Qed.

(** a log whose lines that count are not as many as [iterations] says is
    not skipped *)
Lemma run_rep_not_skipped params rep name path n text (w : World U) :
  ParamsOf params name path n ->
  truthy (rerun options) = false ->
  files w !! FS.resolve w (logname_of (Path.join path name) rep) = Some text ->
  counted text <> n ->
  fst (run_rep S E options params rep w) <> Ok RetFalse.
Proof.
  intros HP Hr Hf Hne.
  assert (Hn : PyDict.get params "iterations" = Some (VInt n)) by apply HP.
  rewrite (run_rep_unfold _ _ _ _ _ _ HP).
  unfold bind at 1.
  destruct (resume_point S E options params (logname_of (Path.join path name) rep) w)
    as [[[R|]|e] w1] eqn:Hrp; [apply run_from_not_false | | discriminate].
  exfalso. revert Hrp.
  unfold resume_point. unfold bind at 1. rewrite (exists_file _ _ _ (log_eqb _ _) Hf). cbn [negb].
  unfold bind at 1. rewrite (read_lines_file _ _ _ Hf).
  unfold PyDict.mem. rewrite Hn. cbn [from_option id int_eq_val andb].
  unfold counted in Hne. apply Z.eqb_neq in Hne. rewrite Hne, Hr. cbn [andb negb].
  destruct (restore_supported S); cbn [negb].
  - discriminate.
  - unfold bind. destruct (FS.remove _ _) as [[[]|e] w2]; discriminate.
Qed.

(** ** The branches of the first half *)

Section Resume.
Variables (params : Dict) (rep : Z) (fullpath : string) (n : Z).
Hypothesis Hn : PyDict.get params "iterations" = Some (VInt n).
Let logfile := logname_of fullpath rep.

(** no log: start at 0 *)
Lemma resume_point_fresh (w : World U) :
  files w !! FS.resolve w logfile = None ->
  FS.resolve w logfile ∉ dirs w ->
  resume_point S E options params logfile w = (Ok (Some 0), w).
Proof.
  intros Hf Hd. unfold resume_point, bind, FS.exists_.
  rewrite Hf. rewrite bool_decide_eq_false_2 by (intros [? ?]; discriminate).
  rewrite bool_decide_eq_false_2 by assumption. now rewrite andb_false_r.
Qed.

(** the subclass cannot restore: the log goes, start at 0 *)
Lemma resume_point_unsupported text (w : World U) :
  files w !! FS.resolve w logfile = Some text ->
  restore_supported S = false ->
  (Z.of_nat (length (strip_error_line (readlines text))) =? n)
    && negb (truthy (rerun options)) = false ->
  resume_point S E options params logfile w
  = (Ok (Some 0),
     mkWorld (base.delete (FS.resolve w logfile) (files w)) (dirs w) (cwd w) (user w)
             (key_warning_issued w) (ticks w)
             (trace w ++ [EvOpen (FS.resolve w logfile) ModeR; EvRemove (FS.resolve w logfile)])).
Proof.
  intros Hf Hs Hc.
  unfold resume_point. unfold bind at 1. rewrite (exists_file _ logfile _ (log_eqb _ _) Hf). cbn [negb].
  unfold bind at 1. rewrite (read_lines_file _ _ _ Hf).
  unfold PyDict.mem. rewrite Hn. cbn [from_option id int_eq_val andb].
  rewrite Hc, Hs. cbn [negb]. unfold bind, FS.remove.
  destruct w as [f d c u k t tr]. simpl in *. unfold FS.resolve in *. simpl in *.
  rewrite Hf. unfold emit, set_files. simpl. now rewrite <- List.app_assoc.
Qed.

(** a forced rerun beyond what the log holds: [return False] *)
Lemma resume_point_rerun_short text T (w : World U) :
  files w !! FS.resolve w logfile = Some text ->
  restore_supported S = true ->
  rerun options = Some T -> T <> 0 ->
  Z.of_nat (length (strip_error_line (readlines text))) < T ->
  resume_point S E options params logfile w
  = (Ok None, emit (EvOpen (FS.resolve w logfile) ModeR) w).
Proof.
  intros Hf Hs Hr HT Hlt.
  unfold resume_point. unfold bind at 1. rewrite (exists_file _ logfile _ (log_eqb _ _) Hf). cbn [negb].
  unfold bind at 1. rewrite (read_lines_file _ _ _ Hf).
  rewrite Hr, Hs. cbn [truthy from_option id negb].
  replace (T =? 0) with false by (symmetry; now apply Z.eqb_neq).
  cbn [negb]. rewrite andb_false_r. cbn [andb].
  replace (_ <? T) with true by (symmetry; now apply Z.ltb_lt).
  reflexivity.
Qed.

(** resumption where the log ends: no forced rerun, the log not complete *)
Lemma resume_point_auto text (w : World U) :
  files w !! FS.resolve w logfile = Some text ->
  restore_supported S = true ->
  truthy (rerun options) = false ->
  Z.of_nat (length (strip_error_line (readlines text))) <> n ->
  resume_point S E options params logfile w
  = (Ok (Some (Z.of_nat (length (strip_error_line (readlines text))))),
     emit (EvOpen (FS.resolve w logfile) ModeR) w).
Proof.
  intros Hf Hs Hr Hne.
  unfold resume_point. unfold bind at 1. rewrite (exists_file _ logfile _ (log_eqb _ _) Hf). cbn [negb].
  unfold bind at 1. rewrite (read_lines_file _ _ _ Hf).
  unfold PyDict.mem. rewrite Hn. cbn [from_option id int_eq_val andb].
  replace (_ =? n) with false by (symmetry; now apply Z.eqb_neq).
  rewrite Hs, Hr. reflexivity.
Qed.

Lemma backup_name_inside t :
  clean fullpath ->
  backup_name logfile t = fullpath +:+ "/" +:+ ((of_Z rep +:+ ".log") +:+ "." +:+ stamp_minutes t +:+ ".bak").
Proof.
  intros Hc. unfold backup_name, logfile, logname_of.
  rewrite join_rel by auto using log_base_rel. now rewrite !app_assoc.
Qed.



(** a forced rerun the log reaches: backup, truncation, start at the
    target *)
Lemma resume_point_rerun_backup text T (w : World U) :
  Ready w fullpath -> NoSubdir w fullpath ->
  files w !! logfile = Some text ->
  restore_supported S = true ->
  rerun options = Some T -> T <> 0 ->
  T <= Z.of_nat (length (strip_error_line (readlines text))) ->
  resume_point S E options params logfile w
  = (Ok (Some T),
     mkWorld (<[logfile := join_all (slice_to T (strip_error_line (readlines text)))]>
                (<[backup_name logfile (now E (ticks w)) := text]> (files w)))
             (dirs w) (cwd w) (user w) (key_warning_issued w) (Datatypes.S (ticks w))
             (trace w ++ [EvOpen logfile ModeR;
                          EvCopy logfile (backup_name logfile (now E (ticks w)));
                          EvOpen logfile ModeW])).
Proof.
  intros HR HN Hf Hs Hr HT Hle.
  assert (Hcl : clean fullpath) by apply HR.
  assert (Habs : is_abs logfile = true) by (apply is_abs_join, Hcl).
  assert (Hres : forall w' : World U, FS.resolve w' logfile = logfile)
    by (intros; now apply resolve_abs).
  assert (Hresb : forall (w' : World U) t, FS.resolve w' (backup_name logfile t) = backup_name logfile t).
  { intros. apply resolve_abs. unfold backup_name. now apply is_abs_app. }
  assert (Hdb : forall t, dirname (backup_name logfile t) = fullpath).
  { intros t. rewrite backup_name_inside by assumption.
    rewrite dirname_inside; [reflexivity | assumption |].
    rewrite !has_char_app, of_Z_no_slash, stamp_minutes_no_slash. reflexivity. }
  assert (Hb : forall t, backup_name logfile t ∉ dirs w) by (intros t; apply HN, Hdb).
  assert (Hwb : forall t, FS.writable w (backup_name logfile t) = true).
  { intros t. unfold FS.writable. rewrite Hdb.
    rewrite (bool_decide_eq_false_2 _ (Hb t)). now rewrite bool_decide_eq_true_2 by apply HR. }
  assert (Hwl : FS.writable w logfile = true).
  { apply writable_inside; auto using log_base_rel, log_base_no_slash.
    apply nosub_inside; auto using log_base_rel, log_base_no_slash. }
  assert (Hf' : files w !! FS.resolve w logfile = Some text) by now rewrite Hres.
  unfold resume_point. unfold bind at 1. rewrite (exists_file _ logfile _ (log_eqb _ _) Hf'). cbn [negb].
  unfold bind at 1. rewrite (read_lines_file _ _ _ Hf').
  rewrite Hr, Hs. cbn [truthy from_option id negb].
  replace (T =? 0) with false by (symmetry; now apply Z.eqb_neq).
  cbn [negb]. rewrite andb_false_r. cbn [andb].
  replace (_ <? T) with false by (symmetry; apply Z.ltb_ge; lia).
  replace (_ >=? T) with true by (symmetry; apply Z.geb_le; lia).
  unfold bind at 1. unfold FS.clock. unfold bind at 1. unfold FS.copy.
  fold (backup_name logfile (now E (ticks (emit (EvOpen (FS.resolve w logfile) ModeR) w)))).
  rewrite !Hres, Hresb.
  specialize (Hb (now E (ticks w))). specialize (Hwb (now E (ticks w))).
  destruct w as [f d c u k t tr]. unfold FS.writable in *. simpl in *.
  rewrite (bool_decide_eq_false_2 _ Hb), Hf. simpl.
  rewrite Hwb. unfold bind at 1. unfold FS.open_w. rewrite Hres. unfold FS.writable.
  simpl. rewrite Hwl. unfold bind at 1. unfold FS.write, modify. simpl.
  unfold ret, emit, set_files. simpl.
  rewrite lookup_insert_eq, insert_insert_eq. simpl.
  rewrite <- !List.app_assoc. reflexivity.
Qed.

End Resume.

Lemma run_rep_from params rep name path n R (w w1 : World U) :
  ParamsOf params name path n ->
  resume_point S E options params (logname_of (Path.join path name) rep) w = (Ok (Some R), w1) ->
  run_rep S E options params rep w
  = run_from S E params rep (Path.join path name) (logname_of (Path.join path name) rep) R w1.
Proof. intros HP H. rewrite (run_rep_unfold _ _ _ _ _ _ HP). unfold bind. now rewrite H. Qed.

Lemma run_rep_false params rep name path n (w w1 : World U) :
  ParamsOf params name path n ->
  resume_point S E options params (logname_of (Path.join path name) rep) w = (Ok None, w1) ->
  run_rep S E options params rep w = (Ok RetFalse, w1).
Proof. intros HP H. rewrite (run_rep_unfold _ _ _ _ _ _ HP). unfold bind. now rewrite H. Qed.

Lemma Ready_emit (w : World U) fullpath e : Ready w fullpath -> Ready (emit e w) fullpath.
Proof. intros H. exact H. Qed.

Lemma log_abs fullpath rep : clean fullpath -> is_abs (logname_of fullpath rep) = true.
Proof. intros Hc. now apply is_abs_join. Qed.

(** from the resume point to the calls of [iterate] *)
Lemma run_rep_iterates params rep name path n R (w w1 : World U) :
  let u0 := start_state S params rep R (user w1) in
  ParamsOf params name path n ->
  resume_point S E options params (logname_of (Path.join path name) rep) w = (Ok (Some R), w1) ->
  Ready w1 (Path.join path name) -> NoSubdir w1 (Path.join path name) ->
  iterated (trace w1) = iterated (trace w) ->
  failure S params rep (xrange R n) u0 = None ->
  Forall (fun d => spaceless d = true) (results S params rep (xrange R n) u0) ->
  exists w',
    run_rep S E options params rep w = (Ok RetNone, w')
    /\ iterated (trace w')
       = iterated (trace w) ++ map (fun it => (params, rep, it)) (xrange R n).
Proof.
  intros u0 HP Hrp HR1 HN1 Hit Hfail Hsp.
  assert (Hn : PyDict.get params "iterations" = Some (VInt n)) by apply HP.
  destruct (run_from_returns params rep (Path.join path name) n Hn R w1 HR1 HN1 Hfail Hsp)
    as (w' & Hrun & [_ _ _ (evs & Ht & Hi & _)] & _).
  exists w'. split.
  - rewrite (run_rep_from _ _ _ _ _ _ _ _ HP Hrp). exact Hrun.
  - now rewrite Ht, iterated_app, Hit, Hi.
Qed.

Lemma length_strip_le lines : (length (strip_error_line lines) <= length lines)%nat.
Proof.
  rewrite strip_error_line_eq. destruct (ends_in_crash lines); [|lia].
  destruct lines as [|x l] using rev_ind; [simpl; lia|].
  rewrite removelast_last, List.length_app. simpl. lia.
Qed.

(** a failure of [iterate] under an absolute path: the crash report is
    written, the sentinel ends the log, no line stands for the failed
    index, [iterate] is not called again, and [run_rep] returns as usual;
    besides the log and the crash reports no file changes *)
Lemma run_rep_crash_contained params rep name path n R k exc (w w1 : World U) :
  let u0 := start_state S params rep R (user w1) in
  let out := results S params rep (xrange R k) u0 in
  ParamsOf params name path n ->
  resume_point S E options params (logname_of (Path.join path name) rep) w = (Ok (Some R), w1) ->
  Ready w1 (Path.join path name) -> NoSubdir w1 (Path.join path name) ->
  failure S params rep (xrange R n) u0 = Some (k, exc) ->
  Forall (fun d => spaceless d = true) out ->
  exists w',
    run_rep S E options params rep w = (Ok RetNone, w')
    /\ R <= k < n
    /\ Ran params rep (Path.join path name) R w1 w'
           (join_all (map (log_line E) out) +:+ sentinel) (k + 1)
    /\ exists t, files w' !! Path.join (Path.join path name) (exception_name t)
                 = Some (report_text exc).
Proof.
  intros u0 out HP Hrp HR1 HN1 Hfail Hsp.
  assert (Hn : PyDict.get params "iterations" = Some (VInt n)) by apply HP.
  destruct (run_from_crashes params rep (Path.join path name) n Hn exc R k w1
              HR1 HN1 Hfail Hsp) as (w' & Hrun & Hk & Hran & Hrep).
  exists w'. split; [|split; [|split]]; try assumption.
  rewrite (run_rep_from _ _ _ _ _ _ _ _ HP Hrp). exact Hrun.
Qed.

Lemma length_strip lines :
  Z.of_nat (length (strip_error_line lines))
  = Z.of_nat (length lines) - (if ends_in_crash lines then 1 else 0).
Proof.
  rewrite strip_error_line_eq. destruct (ends_in_crash lines) eqn:H; [|lia].
  destruct lines as [|x l _] using rev_ind; [discriminate H|].
  rewrite removelast_last, List.length_app. simpl. lia.
Qed.

Lemma haserror_spec params rep name path n text (w : World U) :
  ParamsOf params name path n ->
  files w !! FS.resolve w (logname_of (Path.join path name) rep) = Some text ->
  haserror params rep w
  = (Ok (ends_in_crash (readlines text)),
     add_events [EvOpen (FS.resolve w (logname_of (Path.join path name) rep)) ModeR] w).
Proof.
  intros (Hname & Hpath & _) Hf.
  unfold haserror, fullpath_of, getitem. rewrite Hname, Hpath.
  unfold bind at 1. unfold ret at 1. unfold bind at 1. unfold ret at 1.
  unfold bind at 1. cbn [as_str]. unfold ret at 1. unfold bind at 1. unfold ret at 1.
  unfold bind at 1. unfold ret at 1.
  unfold bind at 1. rewrite (exists_file _ _ _ (log_eqb _ _) Hf).
  unfold bind. rewrite (read_lines_file _ _ _ Hf).
  unfold ends_in_crash. destruct (last (readlines text)); reflexivity.
Qed.

(** ** Directories and snapshots *)

Lemma Free_self (w : World U) q : Free w q -> files w !! q = None.
Proof. intros H. apply H. now left. Qed.

Lemma Free_above (w : World U) q :
  Free w q ->
  existsb (fun a => bool_decide (is_Some (files w !! a)))
          (ancestors (String.length q) q) = false.
Proof.
  intros H. apply not_true_is_false. intros Hex. apply existsb_exists in Hex as (a & Hin & Ha).
  apply bool_decide_eq_true_1 in Ha. rewrite (H a (or_intror Hin)) in Ha.
  destruct Ha as [? Ha]. discriminate Ha.
Qed.

(** a clean name is not the reading of the empty name *)
Lemma resolve_nonempty (w : World U) p : clean (FS.resolve w p) -> p <> "".
Proof.
  intros [Ha He] ->. unfold FS.resolve, Path.join in *. cbn [is_abs startswith] in *.
  destruct (String.eqb (cwd w) "" || ends_with_char slash (cwd w)) eqn:Hc.
  - rewrite app_nil_r in *. apply orb_true_iff in Hc as [Hc|Hc]; [|congruence].
    apply String.eqb_eq in Hc. rewrite Hc in Ha. discriminate Ha.
  - rewrite ends_with_char_app in He by discriminate. discriminate He.
Qed.

Lemma mkdir_there p (w : World U) :
  p <> "" ->
  is_Some (files w !! FS.resolve w p) \/ FS.resolve w p ∈ dirs w ->
  mkdir p w = (Ok tt, w).
Proof.
  intros Hp H. unfold mkdir, bind, FS.exists_.
  apply String.eqb_neq in Hp. rewrite Hp. cbn [negb andb].
  replace (bool_decide (is_Some (files w !! FS.resolve w p)) || bool_decide (FS.resolve w p ∈ dirs w))
    with true; [reflexivity|].
  symmetry. apply orb_true_iff. destruct H; [left | right]; now apply bool_decide_eq_true_2.
Qed.

Lemma mkdir_missing p (w : World U) :
  p <> "" -> Free w (FS.resolve w p) -> FS.resolve w p ∉ dirs w ->
  mkdir p w
  = (Ok tt, emit (EvMakedirs (FS.resolve w p))
              (set_dirs (dirs w ∪ {[FS.resolve w p]}
                           ∪ list_to_set (Path.ancestors (String.length (FS.resolve w p))
                                                         (FS.resolve w p))) w)).
Proof.
  intros Hp Hfree Hd. unfold mkdir, bind, FS.exists_.
  rewrite (Free_self _ _ Hfree).
  rewrite (bool_decide_eq_false_2 (is_Some None)) by (intros [? ?]; discriminate).
  rewrite (bool_decide_eq_false_2 _ Hd). cbn [orb]. rewrite andb_false_r. unfold FS.makedirs.
  rewrite (Free_self _ _ Hfree), (Free_above _ _ Hfree).
  rewrite (bool_decide_eq_false_2 (is_Some None)) by (intros [? ?]; discriminate).
  rewrite (bool_decide_eq_false_2 _ Hd).
  apply String.eqb_neq in Hp. now rewrite Hp.
Qed.

(** [mkdir] where it has to make something and cannot: the empty name, or
    a plain file above the name *)
Lemma mkdir_empty (w : World U) : mkdir "" w = (Raise (OSError (FS.resolve w "")), w).
Proof. reflexivity. Qed.

Lemma mkdir_blocked p (w : World U) :
  files w !! FS.resolve w p = None -> FS.resolve w p ∉ dirs w ->
  p = "" \/ (exists a, In a (Path.ancestors (String.length (FS.resolve w p)) (FS.resolve w p))
                       /\ is_Some (files w !! a)) ->
  mkdir p w = (Raise (OSError (FS.resolve w p)), w).
Proof.
  intros Hf Hd Hbad. unfold mkdir, bind, FS.exists_. rewrite Hf.
  rewrite (bool_decide_eq_false_2 (is_Some None)) by (intros [? ?]; discriminate).
  rewrite (bool_decide_eq_false_2 _ Hd). cbn [orb]. rewrite andb_false_r. unfold FS.makedirs.
  destruct Hbad as [->|(a & Hin & Ha)]; [reflexivity|].
  replace (existsb _ _) with true; [now rewrite orb_true_r|].
  symmetry. apply existsb_exists. exists a. split; [exact Hin|].
  now apply bool_decide_eq_true_2.
Qed.

(** [mkdir] where nothing is in the way: afterwards the directory exists;
    what is new among the directories is the name and the names above it *)
Lemma mkdir_made p (w : World U) :
  p <> "" -> Free w (FS.resolve w p) ->
  exists w0,
    mkdir p w = (Ok tt, w0)
    /\ FS.resolve w p ∈ dirs w0
    /\ dirs w ⊆ dirs w0
    /\ (forall q, q ∈ dirs w0 ->
                  q ∈ dirs w
                  \/ In q (FS.resolve w p
                             :: Path.ancestors (String.length (FS.resolve w p)) (FS.resolve w p)))
    /\ files w0 = files w /\ cwd w0 = cwd w /\ user w0 = user w
    /\ hook_calls (trace w0) = hook_calls (trace w).
Proof.
  intros Hp Hfree. destruct (decide (FS.resolve w p ∈ dirs w)) as [Hd|Hd].
  - exists w. rewrite mkdir_there by (first [exact Hp | now right]). repeat split; auto.
  - rewrite mkdir_missing by assumption.
    eexists. split; [reflexivity|]. destruct w as [f dd c u k t tr]. simpl.
    split; [set_solver|]. split; [set_solver|]. split.
    + intros q Hq. apply elem_of_union in Hq as [Hq|Hq].
      * apply elem_of_union in Hq as [Hq|Hq]; [now left|].
        apply elem_of_singleton in Hq. right. now left.
      * right. right. apply elem_of_list_to_set in Hq. now apply list_elem_of_In.
    + repeat split. rewrite hook_calls_app. simpl. now rewrite List.app_nil_r.
Qed.

Lemma write_config_file_ok params name dir (w : World U) :
  PyDict.get params "name" = Some (VStr name) ->
  String.eqb (lower name) "default" = false ->
  FS.writable w (FS.resolve w (Path.join dir "experiment.cfg")) = true ->
  write_config_file E params dir w
  = (Ok tt,
     emit (EvOpen (FS.resolve w (Path.join dir "experiment.cfg")) ModeW)
          (set_files (<[FS.resolve w (Path.join dir "experiment.cfg")
                         := cfg_text E name (config_options params)]> (files w)) w)).
Proof.
  intros Hname Hdef Hw.
  unfold write_config_file, getitem. rewrite Hname.
  unfold bind at 1. unfold ret at 1. unfold bind at 1. cbn [as_str]. unfold ret at 1.
  rewrite Hdef. unfold bind at 1. unfold FS.open_w. rewrite Hw.
  unfold FS.write, modify. destruct w as [f dd c u k t tr]. cbn.
  rewrite lookup_insert_eq. cbn [from_option id]. rewrite insert_insert_eq, app_nil_l.
  reflexivity.
Qed.

(** [mkdir] and then [write_config_file], as [expand_param_list] and (with
    the delete flag off) [create_dir] do them: the names are read against
    the working directory *)
Lemma snapshot_made params name p (w : World U) :
  let d := FS.resolve w p in
  let cfg := Path.join d "experiment.cfg" in
  PyDict.get params "name" = Some (VStr name) ->
  String.eqb (lower name) "default" = false ->
  clean d ->
  FS.resolve w (Path.join p "experiment.cfg") = cfg ->
  Free w d ->
  cfg ∉ dirs w ->
  exists w1,
    bind (mkdir p) (fun _ => write_config_file E params p) w = (Ok tt, w1)
    /\ d ∈ dirs w1
    /\ dirs w ⊆ dirs w1
    /\ (forall q, q ∈ dirs w1 ->
                  q ∈ dirs w \/ In q (d :: Path.ancestors (String.length d) d))
    /\ files w1 = <[cfg := cfg_text E name (config_options params)]> (files w)
    /\ cwd w1 = cwd w /\ user w1 = user w
    /\ hook_calls (trace w1) = hook_calls (trace w).
Proof.
  intros d cfg Hname Hdef Hcl Hcfg Hfree Hnd.
  destruct (mkdir_made p w (resolve_nonempty _ _ Hcl) Hfree)
    as (w0 & Hmk & Hin & Hsub & Hnew & Hfiles & Hcwd & Huser & Hq).
  fold d in Hin, Hnew.
  assert (Hres0 : FS.resolve w0 (Path.join p "experiment.cfg") = cfg).
  { unfold FS.resolve in *. now rewrite Hcwd. }
  assert (Hnd0 : cfg ∉ dirs w0).
  { intros H. destruct (Hnew _ H) as [H'|H']; [now apply Hnd|].
    revert H'. now apply inside_not_above. }
  unfold bind. rewrite Hmk.
  rewrite (write_config_file_ok params name p w0 Hname Hdef).
  2:{ rewrite Hres0. apply writable_inside; [split; assumption | exact Hnd0 | reflexivity..]. }
  rewrite Hres0.
  eexists. split; [reflexivity|]. destruct w0 as [f dd c u k t tr]. cbn in *. subst.
  repeat split; auto.
  rewrite hook_calls_app. simpl. now rewrite List.app_nil_r.
Qed.

(** ** Facts about the expansion *)

(** up to the combinations: the directory of the set and its snapshot.
    The system has to read the path of the set as a clean absolute name,
    with no plain file at it or above it, and the snapshot as a name right
    inside it that is not the name of a directory. *)
Lemma expand_one_prelude params name path (w : World U) :
  let d := FS.resolve w (Path.join path name) in
  let cfg := Path.join d "experiment.cfg" in
  PyDict.get params "name" = Some (VStr name) ->
  PyDict.get params "path" = Some (VStr path) ->
  experiment_is params "single" = false ->
  iterparams_of params <> [] ->
  String.eqb (lower name) "default" = false ->
  clean d ->
  FS.resolve w (Path.join (Path.join path name) "experiment.cfg") = cfg ->
  Free w d ->
  cfg ∉ dirs w ->
  exists w1,
    expand_one E params w
    = bind (if experiment_is params "list" then ret (@izip PyVal)
            else if negb (PyDict.mem "experiment" params) || experiment_is params "grid"
                 then ret (@product PyVal)
            else raise (SystemExit
                   ("unexpected value '"
                      +:+ PyText.str (float_text E) (default VNone (PyDict.get params "experiment"))
                      +:+ "' for parameter 'experiment'. Use 'grid', 'list' or 'single'.")))
           (fun iterfunc =>
              sub_experiments params (iterparams_of params)
                              (iterfunc (map (sweep_values params) (iterparams_of params)))) w1
    /\ d ∈ dirs w1
    /\ dirs w ⊆ dirs w1
    /\ (forall q, q ∈ dirs w1 ->
                  q ∈ dirs w \/ In q (d :: Path.ancestors (String.length d) d))
    /\ files w1 = <[cfg := cfg_text E name (config_options params)]> (files w)
    /\ cwd w1 = cwd w /\ user w1 = user w
    /\ hook_calls (trace w1) = hook_calls (trace w).
Proof.
  intros d cfg Hname Hpath Hsingle Hips Hdef Hcl Hcfg Hfree Hnd.
  destruct (snapshot_made params name (Path.join path name) w Hname Hdef Hcl Hcfg Hfree Hnd)
    as (w1 & Hsnap & Hrest).
  exists w1. split; [|exact Hrest].
  unfold expand_one. rewrite Hsingle.
  destruct (iterparams_of params) as [|ip ips] eqn:Hip; [congruence|].
  rewrite <- Hip. clear Hip Hips ip ips.
  unfold fullpath_of, getitem. rewrite Hname, Hpath.
  unfold bind at 1. unfold bind at 1. unfold ret at 1.
  unfold bind at 1. unfold ret at 1. unfold bind at 1. cbn [as_str]. unfold ret at 1.
  unfold bind at 1. unfold ret at 1. unfold ret at 1.
  unfold bind in Hsnap.
  unfold bind at 1. destruct (mkdir (Path.join path name) w) as [[[]|e] w0]; [|discriminate].
  unfold bind at 1. rewrite Hsnap. reflexivity.
Qed.

(** the zeros at the end of a text become one zero *)
Lemma all_zeros_repeat t : FloatFmt.all_zeros t = true -> t = repeat_char "0" (String.length t).
Proof.
  induction t as [|c r IH]; [reflexivity|]. simpl.
  intros [Hc Hr]%andb_true_iff. apply Ascii.eqb_eq in Hc. subst c. now rewrite <- IH.
Qed.

Lemma collapse_zeros_spec t :
  exists pre k,
    t = pre +:+ repeat_char "0" k
    /\ ends_with_char "0" pre = false
    /\ FloatFmt.collapse_zeros t = pre +:+ (match k with O => "" | _ => "0" end).
Proof.
  induction t as [|c r (pre & k & Hr & He & Hc)].
  - exists "", O. repeat split.
  - cbn [FloatFmt.collapse_zeros].
    destruct (Ascii.eqb c "0" && FloatFmt.all_zeros r) eqn:Hz.
    + apply andb_true_iff in Hz as [H0 Hall]. apply Ascii.eqb_eq in H0. subst c.
      exists "", (Datatypes.S (String.length r)). repeat split.
      rewrite app_nil_l. simpl. f_equal. now apply all_zeros_repeat.
    + exists (String c pre), k. rewrite app_cons, Hc, <- Hr. repeat split.
      destruct pre as [|x pre'].
      * simpl. destruct (Ascii.eqb c "0") eqn:Hc0; [|reflexivity].
        exfalso. rewrite app_nil_l in Hr. subst r. simpl in Hz.
        assert (FloatFmt.all_zeros (repeat_char "0" k) = true)
          by (clear; induction k; simpl; auto).
        congruence.
      * exact He.
Qed.

(** ** The combinations of list mode *)

Lemma minlen_heads_some {A} (r : list (list A)) h a :
  heads r = Some h ->
  fold_right (fun l' m => Nat.min (length l') m) (Datatypes.S a) r
  = Datatypes.S (fold_right (fun l' m => Nat.min (length l') m) a (map (@tl A) r)).
Proof.
  revert h. induction r as [|l r IH]; intros h Hh; [reflexivity|].
  destruct l as [|x l']; [discriminate|]. simpl in Hh.
  destruct (heads r) as [h'|] eqn:Hr; [|discriminate].
  simpl. rewrite (IH h' eq_refl). reflexivity.
Qed.

Lemma minlen_heads_none {A} (r : list (list A)) a :
  heads r = None -> fold_right (fun l' m => Nat.min (length l') m) a r = O.
Proof.
  induction r as [|l r IH]; [discriminate|].
  destruct l as [|x l']; [reflexivity|]. simpl.
  destruct (heads r) as [h'|] eqn:Hr; [discriminate|].
  intros _. rewrite IH by reflexivity. lia.
Qed.

Lemma minlen_zero {A} (r : list (list A)) :
  fold_right (fun l' m => Nat.min (length l') m) O r = O.
Proof. induction r as [|l r IH]; simpl; [reflexivity | rewrite IH; lia]. Qed.

Lemma minlen_le {A} (r : list (list A)) a :
  (fold_right (fun l' m => Nat.min (length l') m) a r <= a)%nat.
Proof. induction r as [|l r IH]; simpl; lia. Qed.

Lemma length_izip_n {A} n (ls : list (list A)) :
  ls <> [] -> length (izip_n n ls) = Nat.min n (shortest ls).
Proof.
  revert ls. induction n as [|n IH]; intros ls Hne; [reflexivity|].
  destruct ls as [|l r]; [congruence|]. cbn [izip_n].
  destruct l as [|x l'].
  - simpl. now rewrite minlen_zero.
  - cbn [heads]. destruct (heads r) as [h'|] eqn:Hr; cbn [option_map].
    + cbn [length map tl]. rewrite IH by discriminate.
      unfold shortest. cbn [length]. rewrite (minlen_heads_some r h' _ Hr). reflexivity.
    + unfold shortest. rewrite minlen_heads_none by assumption. simpl. lia.
Qed.

(** [izip] gives as many combinations as the shortest list has items *)
Lemma length_izip {A} (ls : list (list A)) : length (izip ls) = shortest ls.
Proof.
  destruct ls as [|l r]; [reflexivity|].
  unfold izip. rewrite length_izip_n by discriminate.
  unfold shortest. pose proof (minlen_le r (length l)). lia.
Qed.

Lemma shortest_same {A} (ls : list (list A)) k :
  ls <> [] -> Forall (fun l => length l = k) ls -> shortest ls = k.
Proof.
  destruct ls as [|l r]; [congruence|]. intros _ H.
  apply Forall_cons_iff in H as [Hl Hr]. unfold shortest. rewrite Hl. clear Hl l.
  induction Hr as [|l' r Hl' Hr IH]; simpl; [reflexivity|]. rewrite IH, Hl'. lia.
Qed.

Lemma heads_elems {A} (ls : list (list A)) h x :
  heads ls = Some h -> In x h -> exists l, In l ls /\ In x l.
Proof.
  revert h. induction ls as [|l r IH]; intros h Hh Hx.
  - injection Hh as <-. destruct Hx.
  - destruct l as [|y l']; [discriminate|]. simpl in Hh.
    destruct (heads r) as [h'|] eqn:Hr; [|discriminate]. injection Hh as <-.
    destruct Hx as [<-|Hx].
    + exists (y :: l'). split; now left.
    + destruct (IH h' eq_refl Hx) as (l & Hl & Hxl). exists l. split; [now right | exact Hxl].
Qed.

Lemma izip_n_elems {A} n (ls : list (list A)) il x :
  In il (izip_n n ls) -> In x il -> exists l, In l ls /\ In x l.
Proof.
  revert ls. induction n as [|n IH]; intros ls Hil Hx; [destruct Hil|].
  cbn [izip_n] in Hil. destruct (heads ls) as [h|] eqn:Hh; [|destruct Hil].
  destruct Hil as [<-|Hil].
  - eapply heads_elems; eassumption.
  - destruct (IH _ Hil Hx) as (l' & Hl' & Hxl').
    apply in_map_iff in Hl' as (l & <- & Hl).
    exists l. split; [exact Hl|]. destruct l; [destruct Hxl' | now right].
Qed.

Lemma izip_elems {A} (ls : list (list A)) il x :
  In il (izip ls) -> In x il -> exists l, In l ls /\ In x l.
Proof. destruct ls as [|l r]; [intros []|]. apply izip_n_elems. Qed.

Lemma map_result_convertible il :
  forallb convertible il = true ->
  exists texts, map_result convert_param_to_dirname il = Ok texts.
Proof.
  induction il as [|v il IH]; [eexists; reflexivity|].
  simpl. intros [Hv Hil]%andb_true_iff. destruct (IH Hil) as (texts & ->).
  unfold convertible in Hv. destruct (convert_param_to_dirname v); [|discriminate].
  eexists; reflexivity.
Qed.

Lemma map_result_Forall2 {A B} (f : A -> Result B) l ys :
  map_result f l = Ok ys -> Forall2 (fun x y => f x = Ok y) l ys.
Proof.
  revert ys. induction l as [|x l IH]; intros ys H.
  - injection H as <-. constructor.
  - cbn [map_result] in H. destruct (f x) as [y|e] eqn:Hx; [|discriminate].
    destruct (map_result f l) as [ys'|e]; [|discriminate]. injection H as <-.
    constructor; [exact Hx | now apply IH].
Qed.

Lemma assign_all_other par ips il k :
  ~ In k ips -> PyDict.get (assign_all par ips il) k = PyDict.get par k.
Proof.
  revert par il. induction ips as [|ip ips IH]; intros par il Hk; [reflexivity|].
  destruct il as [|v il]; [reflexivity|]. cbn [assign_all].
  rewrite IH by (intros H; apply Hk; now right).
  apply DictFacts.get_set_ne. intros ->. apply Hk. now left.
Qed.

Lemma assign_all_at par ips il :
  NoDup ips -> length il = length ips ->
  Forall2 (fun ip x => PyDict.get (assign_all par ips il) ip = Some x) ips il.
Proof.
  revert par il. induction ips as [|ip ips IH]; intros par il Hnd Hlen.
  - destruct il; [constructor | discriminate].
  - destruct il as [|v il]; [discriminate|]. cbn [assign_all].
    apply NoDup_cons in Hnd as [Hni Hnd]. rewrite list_elem_of_In in Hni. constructor.
    + rewrite assign_all_other by exact Hni. apply DictFacts.get_set_eq.
    + apply IH; [exact Hnd | now injection Hlen].
Qed.

Lemma assign_all_keys par ips il :
  (forall ip, In ip ips -> In ip (PyDict.keys par)) ->
  PyDict.keys (assign_all par ips il) = PyDict.keys par.
Proof.
  revert par il. induction ips as [|ip ips IH]; intros par il H; [reflexivity|].
  destruct il as [|v il]; [reflexivity|]. cbn [assign_all].
  rewrite IH; [apply DictFacts.keys_set_there, H; now left|].
  intros ip' Hip'. rewrite DictFacts.keys_set_there by (apply H; now left). apply H. now right.
Qed.

(** the swept keys of a set: keys of the set, each once, [name] not among
    them when the name is a string *)
Lemma iterparams_keys params ip :
  In ip (iterparams_of params) -> In ip (PyDict.keys params).
Proof. unfold iterparams_of. intros H. now apply List.filter_In in H as [H _]. Qed.

Lemma iterparams_NoDup params : NoDup (PyDict.keys params) -> NoDup (iterparams_of params).
Proof.
  unfold iterparams_of. generalize (PyDict.keys params) as l.
  intros l Hl. induction Hl as [|k l Hk Hl IH]; [constructor|].
  cbn [List.filter].
  destruct (match PyDict.get params k with Some v => is_sweep v | None => false end);
    [|exact IH].
  constructor; [|exact IH].
  rewrite list_elem_of_In, List.filter_In. intros [Hin _]. apply Hk. now apply list_elem_of_In.
Qed.

Lemma iterparams_not_name params name :
  PyDict.get params "name" = Some (VStr name) -> ~ In "name" (iterparams_of params).
Proof.
  unfold iterparams_of. intros Hn H. apply List.filter_In in H as [_ H].
  rewrite Hn in H. discriminate H.
Qed.

(** one sub-experiment, described by what its keys hold *)
Lemma sub_experiment_ok params name ips il (w : World U) :
  PyDict.get params "name" = Some (VStr name) ->
  NoDup ips -> (forall ip, In ip ips -> In ip (PyDict.keys params)) -> ~ In "name" ips ->
  forallb convertible il = true -> length il = length ips ->
  exists sub, sub_experiment params ips il w = (Ok sub, w) /\ SubOf params name ips il sub.
Proof.
  intros Hname Hnd Hkeys Hnn Hconv Hlen.
  destruct (map_result_convertible il Hconv) as (texts & Ht).
  unfold sub_experiment. unfold bind at 1. unfold lift. rewrite Ht. unfold getitem.
  rewrite Hname. unfold bind at 1. unfold ret at 1. unfold bind at 1. cbn [as_str].
  unfold ret at 1. unfold ret.
  eexists. split; [reflexivity|].
  assert (Hkn : In "name" (PyDict.keys params)) by (apply DictFacts.In_keys_get; eauto).
  assert (Hg : PyDict.get
                 (assign_all
                    (PyDict.set params "name"
                       (VStr (name +:+ "/"
                                +:+ drop_chars name_noise (PyText.str_pairs (combine ips texts)))))
                    ips il) "name"
               = Some (VStr (name +:+ "/"
                               +:+ drop_chars name_noise (PyText.str_pairs (combine ips texts))))).
  { rewrite assign_all_other by exact Hnn. apply DictFacts.get_set_eq. }
  exists texts. split; [now apply map_result_Forall2|]. split.
  { rewrite assign_all_keys.
    - now apply DictFacts.keys_set_there.
    - intros ip Hip. rewrite DictFacts.keys_set_there by exact Hkn. now apply Hkeys. }
  split; [exact Hg|]. split.
  { intros Hpk Hpt. rewrite Hg. now rewrite NameFacts.name_piece_spec. }
  split; [now apply assign_all_at|].
  intros k Hk Hni. rewrite assign_all_other by exact Hni.
  apply DictFacts.get_set_ne. congruence.
Qed.

Lemma sub_experiments_ok params name ips ils (w : World U) :
  PyDict.get params "name" = Some (VStr name) ->
  NoDup ips -> (forall ip, In ip ips -> In ip (PyDict.keys params)) -> ~ In "name" ips ->
  (forall il, In il ils -> forallb convertible il = true /\ length il = length ips) ->
  exists subs,
    sub_experiments params ips ils w = (Ok subs, w)
    /\ length subs = length ils
    /\ Forall2 (SubOf params name ips) ils subs.
Proof.
  intros Hname Hnd Hkeys Hnn. induction ils as [|il ils IH]; intros Hall.
  - exists []. repeat split. constructor.
  - destruct IH as (subs & Hs & Hl & Hf); [intros; apply Hall; now right|].
    destruct (Hall il (or_introl eq_refl)) as [Hc Hlen].
    destruct (sub_experiment_ok params name ips il w Hname Hnd Hkeys Hnn Hc Hlen)
      as (sub & Hsub & Hof).
    cbn [sub_experiments]. unfold bind at 1. rewrite Hsub.
    unfold bind at 1. rewrite Hs. unfold ret.
    exists (sub :: subs). split; [reflexivity|]. split; [simpl; now rewrite Hl|].
    constructor; [exact Hof | exact Hf].
Qed.

(** the sub-experiments of a set with distinct keys whose name is a string *)
Lemma sub_experiments_of params name ils (w : World U) :
  PyDict.get params "name" = Some (VStr name) ->
  NoDup (PyDict.keys params) ->
  (forall il, In il ils ->
              forallb convertible il = true /\ length il = length (iterparams_of params)) ->
  exists subs,
    sub_experiments params (iterparams_of params) ils w = (Ok subs, w)
    /\ length subs = length ils
    /\ Forall2 (SubOf params name (iterparams_of params)) ils subs.
Proof.
  intros Hname Hnd. apply sub_experiments_ok; [exact Hname | now apply iterparams_NoDup | |].
  - apply iterparams_keys.
  - now apply (iterparams_not_name params name).
Qed.

Lemma heads_first {A} (ls : list (list A)) h :
  heads ls = Some h -> Forall2 (fun x l => l !! O = Some x) h ls.
Proof.
  revert h. induction ls as [|l r IH]; intros h Hh.
  - injection Hh as <-. constructor.
  - destruct l as [|y l']; [discriminate|]. simpl in Hh.
    destruct (heads r) as [h'|] eqn:Hr; [|discriminate]. injection Hh as <-.
    constructor; [reflexivity | now apply IH].
Qed.

Lemma izip_n_positions {A} n (ls : list (list A)) i il :
  izip_n n ls !! i = Some il -> Forall2 (fun x l => l !! i = Some x) il ls.
Proof.
  revert ls i. induction n as [|n IH]; intros ls i Hi; [discriminate|].
  cbn [izip_n] in Hi. destruct (heads ls) as [h|] eqn:Hh; [|discriminate].
  destruct i as [|j].
  - injection Hi as <-. now apply heads_first.
  - simpl in Hi. specialize (IH _ _ Hi).
    clear -IH. remember (map (@tl A) ls) as tls eqn:Ht. revert ls Ht.
    induction IH as [|x l' il tls Hx _ IH']; intros ls Ht.
    + destruct ls; [constructor | discriminate].
    + destruct ls as [|l ls]; [discriminate|]. injection Ht as -> ->.
      constructor; [|now apply IH'].
      destruct l; [discriminate Hx | exact Hx].
Qed.

(** the combination number [i] of [izip] holds the items number [i] *)
Lemma izip_positions {A} (ls : list (list A)) i il :
  izip ls !! i = Some il -> Forall2 (fun x l => l !! i = Some x) il ls.
Proof. destruct ls as [|l r]; [discriminate|]. apply izip_n_positions. Qed.

(** the combination number [i] of [izip] over the sequences of some keys *)
Lemma izip_row {A B} (f : B -> list A) (keys : list B) i il :
  izip (map f keys) !! i = Some il -> Forall2 (fun k x => f k !! i = Some x) keys il.
Proof.
  intros H. apply izip_positions in H. revert il H.
  induction keys as [|k keys IH]; intros il H; cbn [map] in H.
  - inversion H. constructor.
  - inversion H as [|x l il' ls' Hx Hrest]; subst. constructor; [exact Hx | now apply IH].
Qed.

Lemma experiment_list_not_single params :
  experiment_is params "list" = true -> experiment_is params "single" = false.
Proof.
  unfold experiment_is. destruct (PyDict.get params "experiment") as [[| | |s| |]|]; try discriminate.
  intros H%String.eqb_eq. now subst s.
Qed.

(** ** What calls no hook *)

Lemma Quiet_ret {A} (a : A) : Quiet (U:=U) (ret a).
Proof. intros w. reflexivity. Qed.

Lemma Quiet_raise {A} e : Quiet (U:=U) (A:=A) (raise e).
Proof. intros w. reflexivity. Qed.

Lemma Quiet_lift {A} (r : Result A) : Quiet (U:=U) (lift r).
Proof. intros w. reflexivity. Qed.

Lemma Quiet_bind {A B} (m : M U A) (k : A -> M U B) :
  Quiet m -> (forall a, Quiet (k a)) -> Quiet (bind m k).
Proof.
  intros Hm Hk w. unfold bind. specialize (Hm w).
  destruct (m w) as [[a|e] w']; simpl in *; [|exact Hm].
  now rewrite Hk.
Qed.

Lemma Quiet_emit {A} (a : A) e (f : World U -> World U) :
  is_hook_call e = false -> (forall w, trace (f w) = trace w) ->
  Quiet (fun w => (Ok a, emit e (f w))).
Proof.
  intros He Hf w. simpl. rewrite Hf, hook_calls_app. simpl. rewrite He.
  apply List.app_nil_r.
Qed.

Lemma Quiet_getitem params k : Quiet (U:=U) (getitem params k).
Proof. unfold getitem. destruct (PyDict.get params k); [apply Quiet_ret | apply Quiet_raise]. Qed.

Lemma Quiet_as_str v : Quiet (U:=U) (as_str v).
Proof. destruct v; first [apply Quiet_ret | apply Quiet_raise]. Qed.

Lemma Quiet_as_int v : Quiet (U:=U) (as_int v).
Proof. destruct v; first [apply Quiet_ret | apply Quiet_raise]. Qed.

Lemma Quiet_exists p : Quiet (U:=U) (FS.exists_ p).
Proof. intros w. reflexivity. Qed.

Lemma Quiet_makedirs p : Quiet (U:=U) (FS.makedirs p).
Proof.
  intros w. unfold FS.makedirs.
  destruct (String.eqb p "" || _ || _ || _); [reflexivity|].
  simpl. rewrite hook_calls_app. apply List.app_nil_r.
Qed.

Lemma Quiet_rm_glob p : Quiet (U:=U) (FS.rm_glob p).
Proof. intros w. unfold FS.rm_glob. simpl. rewrite hook_calls_app. apply List.app_nil_r. Qed.

Lemma Quiet_open_w p : Quiet (U:=U) (FS.open_w p).
Proof.
  intros w. unfold FS.open_w. destruct (FS.writable w (FS.resolve w p)); [|reflexivity].
  simpl. rewrite hook_calls_app. apply List.app_nil_r.
Qed.

Lemma Quiet_write h text : Quiet (U:=U) (FS.write h text).
Proof. intros w. reflexivity. Qed.

Create HintDb quiet.
#[local] Hint Resolve Quiet_ret Quiet_raise Quiet_lift Quiet_getitem Quiet_as_str Quiet_as_int
  Quiet_exists Quiet_makedirs Quiet_rm_glob Quiet_open_w Quiet_write : quiet.

Ltac quiet :=
  repeat first
    [ apply Quiet_bind; [|intros ?]
    | solve [auto with quiet]
    | match goal with
      | |- Quiet (if ?b then _ else _) => destruct b
      | |- Quiet (match ?x with _ => _ end) => destruct x
      end ].

Lemma Quiet_fullpath_of params : Quiet (U:=U) (fullpath_of params).
Proof. unfold fullpath_of. quiet. Qed.

Lemma Quiet_mkdir p : Quiet (U:=U) (mkdir p).
Proof. unfold mkdir. quiet. Qed.

Lemma Quiet_write_config_file params p : Quiet (U:=U) (write_config_file E params p).
Proof. unfold write_config_file. quiet. Qed.

#[local] Hint Resolve Quiet_fullpath_of Quiet_mkdir Quiet_write_config_file : quiet.

Lemma Quiet_create_dir params d : Quiet (U:=U) (create_dir E params d).
Proof. unfold create_dir. quiet. Qed.

Lemma Quiet_create_dirs pl : Quiet (U:=U) (create_dirs E options pl).
Proof.
  induction pl as [|p pl IH]; cbn [create_dirs]; [apply Quiet_ret|].
  destruct (has_required_keys p); [|apply Quiet_ret].
  apply Quiet_bind; [apply Quiet_create_dir | intros _; exact IH].
Qed.

Lemma Quiet_sub_experiments params ips ils : Quiet (U:=U) (sub_experiments params ips ils).
Proof. intros w. now rewrite (sub_experiments_any_world params ips ils w w). Qed.

#[local] Hint Resolve Quiet_sub_experiments : quiet.

Lemma Quiet_expand_one params : Quiet (U:=U) (expand_one E params).
Proof. unfold expand_one. quiet. Qed.

Lemma Quiet_expand_param_list pl : Quiet (U:=U) (expand_param_list E pl).
Proof.
  induction pl as [|p pl IH]; cbn [expand_param_list]; [apply Quiet_ret|].
  apply Quiet_bind; [apply Quiet_expand_one | intros here].
  apply Quiet_bind; [exact IH | intros later; apply Quiet_ret].
Qed.

(** the loop over the sets stops at the first one that lacks a key *)
Lemma create_dirs_stops good bad rest (w : World U) :
  forallb has_required_keys good = true ->
  has_required_keys bad = false ->
  create_dirs E options (good ++ bad :: rest) w
  = (match fst (create_dirs E options good w) with
     | Ok _ => Ok false
     | Raise e => Raise e
     end, snd (create_dirs E options good w)).
Proof.
  intros Hgood Hbad. revert w. induction good as [|p good IH]; intros w.
  - simpl. now rewrite Hbad.
  - simpl in Hgood. apply andb_true_iff in Hgood as [Hp Hg].
    cbn [app create_dirs]. rewrite Hp. unfold bind.
    destruct (create_dir E p (delete options) w) as [[[]|e] w']; [|reflexivity].
    now apply IH.
Qed.

End RunFacts.

(** ** The batch *)

Section Batch.
Context {U : Type}.
Variable S : Suite U.
Variable E : Env.
Variable options : Options.

Lemma xrange_In it a b : a <= it < b -> In it (xrange a b).
Proof.
  intros H. unfold xrange. apply in_map_iff. exists (Z.to_nat (it - a)). split; [lia|].
  apply in_seq. lia.
Qed.

Lemma make_explist_items plist (w : World U) :
  Forall (fun p => exists r, PyDict.get p "repetitions" = Some (VInt r)) plist ->
  make_explist plist w = (Ok (work_items plist), w).
Proof.
  induction 1 as [|p r (n & Hn) Hr IH]; [reflexivity|].
  cbn [make_explist work_items flat_map]. unfold getitem. rewrite Hn.
  unfold bind at 1. unfold ret at 1. unfold bind at 1. cbn [as_int]. unfold ret at 1.
  unfold bind at 1. rewrite IH. reflexivity.
Qed.

Lemma work_items_In plist p i :
  In (p, i) (work_items plist)
  <-> In p plist /\ exists r, PyDict.get p "repetitions" = Some (VInt r) /\ 0 <= i < r.
Proof.
  unfold work_items. rewrite in_flat_map. split.
  - intros (q & Hq & Hin).
    destruct (PyDict.get q "repetitions") as [[|r| | | |]|] eqn:Hr; try destruct Hin.
    apply in_map_iff in Hin as (j & Hj & Hx). injection Hj as -> ->.
    split; [exact Hq|]. exists r. split; [exact Hr|]. now apply In_xrange.
  - intros (Hp & r & Hr & Hi). exists p. split; [exact Hp|]. rewrite Hr.
    apply in_map_iff. exists i. split; [reflexivity|]. now apply xrange_In.
Qed.

End Batch.

Section Again.
Context {U : Type}.
Variable S : Suite U.
Variable E : Env.
Variable options : Options.
Import Str StrFacts Path PathFacts.






Lemma snapshots_In ps q :
  In q (snapshots ps)
  <-> exists p path name,
        In p ps /\ PyDict.get p "path" = Some (VStr path) /\ PyDict.get p "name" = Some (VStr name)
        /\ q = Path.join (Path.join path name) "experiment.cfg".
Proof.
  unfold snapshots. rewrite in_flat_map. split.
  - intros (p & Hp & Hq).
    destruct (PyDict.get p "path") as [[| | |path| |]|] eqn:Hpath; try destruct Hq.
    destruct (PyDict.get p "name") as [[| | |name| |]|] eqn:Hname; try destruct Hq.
    + exists p, path, name. auto.
    + destruct H.
  - intros (p & path & name & Hp & Hpath & Hname & ->). exists p. split; [exact Hp|].
    rewrite Hpath, Hname. now left.
Qed.





End Again.

(** ** Directories of the sets *)

Section Dirs.
Context {U : Type}.
Variable E : Env.
Import Str StrFacts Path PathFacts.

Lemma basename_no_slash b : has_char slash b = false -> basename b = b.
Proof. destruct b as [|c r]; [reflexivity|]. intros H. cbn [basename]. now rewrite H. Qed.

Lemma basename_inside (f b : string) :
  has_char slash b = false -> basename (f +:+ "/" +:+ b) = b.
Proof.
  intros Hb. induction f as [|c r IH].
  - rewrite app_nil_l. change ("/" +:+ b) with (String "/" b). cbn [basename].
    cbn [has_char]. rewrite Ascii.eqb_refl. cbn [orb]. now apply basename_no_slash.
  - rewrite app_cons. cbn [basename].
    replace (has_char slash (String c (r +:+ "/" +:+ b))) with true.
    + exact IH.
    + symmetry. cbn [has_char]. rewrite has_char_app.
      change ("/" +:+ b) with (String "/" b). cbn [has_char].
      rewrite Ascii.eqb_refl. cbn [orb]. now rewrite !orb_true_r.
Qed.

Lemma config_options_get params k :
  PyDict.get (config_options params) k
  = if String.eqb k "name" then None else option_map quoted (PyDict.get params k).
Proof.
  unfold config_options. induction params as [|[k' v] r IH].
  - simpl. now destruct (String.eqb k "name").
  - cbn [List.filter fst]. destruct (String.eqb k' "name") eqn:Hk'.
    + cbn [negb]. rewrite IH. cbn [PyDict.get].
      destruct (String.eqb k "name") eqn:Hk; [reflexivity|].
      apply String.eqb_eq in Hk'. subst k'.
      rewrite String.eqb_sym, Hk. reflexivity.
    + cbn [negb map].
      destruct v; cbn [fst snd PyDict.get quoted option_map];
        (destruct (String.eqb k' k) eqn:Hkk;
         [ apply String.eqb_eq in Hkk; subst k'; rewrite Hk'; reflexivity | exact IH ]).
Qed.

End Dirs.

Section CreateDir.
Context {U : Type}.
Variable E : Env.
Import Str StrFacts Path PathFacts.

Lemma not_dot_of_Z rep : startswith "." (of_Z rep +:+ ".log") = false.
Proof.
  destruct (of_Z_first rep) as (c & r & -> & Hc). rewrite app_cons. cbn [startswith].
  destruct (Ascii.eqb "." c) eqn:H; [|reflexivity].
  apply Ascii.eqb_eq in H. subst c. discriminate Hc.
Qed.

Lemma glob_star_log d rep : clean d -> glob_star d (logname_of d rep) = true.
Proof.
  intros Hcl. unfold glob_star, logname_of.
  rewrite (join_rel d _ Hcl (log_base_rel rep)).
  rewrite (dirname_inside d _ Hcl (log_base_no_slash rep)).
  rewrite (basename_inside d _ (log_base_no_slash rep)).
  now rewrite String.eqb_refl, not_dot_of_Z.
Qed.

Lemma cfg_not_log d rep : clean d -> logname_of d rep <> Path.join d "experiment.cfg".
Proof.
  intros Hcl H. unfold logname_of in H.
  apply (join_inj d _ "experiment.cfg" Hcl (log_base_rel rep) eq_refl) in H.
  destruct (of_Z_first rep) as (c & r & Hz & Hc). rewrite Hz, app_cons in H.
  injection H as -> _. discriminate Hc.
Qed.

Lemma rm_glob_lookup d q (w : World U) :
  FS.resolve w d = d ->
  files (snd (FS.rm_glob d w)) !! q = if glob_star d q then None else files w !! q.
Proof.
  intros Hres. unfold FS.rm_glob. rewrite Hres. cbn [snd]. destruct w as [f dd c u k t tr].
  cbn [files emit set_files]. unfold glob_star.
  destruct (String.eqb (dirname q) d) eqn:Hd; cbn [andb].
  - apply String.eqb_eq in Hd.
    destruct (startswith "." (basename q)) eqn:Hb; cbn [negb].
    + apply option_eq. intros x. rewrite map_lookup_filter_Some. cbn [fst].
      split; [now intros [? _]|]. intros H. split; [exact H|]. intros [_ H']. congruence.
    + apply map_lookup_filter_None. right. intros x _ Hn. apply Hn. cbn [fst]. now split.
  - apply String.eqb_neq in Hd.
    apply option_eq. intros x. rewrite map_lookup_filter_Some. cbn [fst].
    split; [now intros [? _]|]. intros H. split; [exact H|]. intros [H' _]. congruence.
Qed.

Lemma create_dir_world params name path del (w : World U) :
  let d := Path.join path name in
  let cfg := Path.join d "experiment.cfg" in
  PyDict.get params "name" = Some (VStr name) ->
  PyDict.get params "path" = Some (VStr path) ->
  String.eqb (lower name) "default" = false ->
  clean d ->
  Free w d ->
  cfg ∉ dirs w ->
  exists w',
    create_dir E params del w = (Ok tt, w')
    /\ d ∈ dirs w'
    /\ dirs w ⊆ dirs w'
    /\ (forall q, q ∈ dirs w' ->
                  q ∈ dirs w \/ In q (d :: Path.ancestors (String.length d) d))
    /\ cwd w' = cwd w
    /\ hook_calls (trace w') = hook_calls (trace w)
    /\ files w' !! cfg = Some (cfg_text E name (config_options params))
    /\ forall q, q <> cfg ->
                 files w' !! q = if del && glob_star d q then None else files w !! q.
Proof.
  intros d cfg Hname Hpath Hdef Hcl Hfree Hnd.
  assert (Hres : forall (v : World U) p, is_abs p = true -> FS.resolve v p = p)
    by (intros; now apply resolve_abs).
  unfold create_dir, fullpath_of, getitem. rewrite Hname, Hpath.
  unfold bind at 1. unfold bind at 1. unfold ret at 1.
  unfold bind at 1. unfold ret at 1. unfold bind at 1. cbn [as_str]. unfold ret at 1.
  unfold bind at 1. unfold ret at 1. unfold ret at 1. fold d.
  (* the world after [mkdir] *)
  destruct (mkdir_made d w) as (w0 & Hmk & Hin & Hsub & Hnew & Hfiles & Hcwd & _ & Hq).
  { now apply clean_nonempty. }
  { rewrite Hres by apply Hcl. exact Hfree. }
  rewrite Hres in Hin, Hnew by apply Hcl.
  unfold bind at 1. rewrite Hmk.
  (* the world after the removal *)
  assert (Hrm : exists w1,
             (if del then FS.rm_glob d else ret tt) w0 = (Ok tt, w1)
             /\ dirs w1 = dirs w0 /\ cwd w1 = cwd w0
             /\ hook_calls (trace w1) = hook_calls (trace w0)
             /\ forall q, files w1 !! q = if del && glob_star d q then None else files w0 !! q).
  { destruct del.
    - exists (snd (FS.rm_glob d w0)). split; [reflexivity|].
      split; [reflexivity|]. split; [reflexivity|]. split.
      + unfold FS.rm_glob. destruct w0 as [f dd c u k t tr]. simpl.
        rewrite hook_calls_app. simpl. now rewrite List.app_nil_r.
      + intros q. cbn [andb]. apply rm_glob_lookup. apply Hres, Hcl.
    - exists w0. repeat split; auto. }
  destruct Hrm as (w1 & Hrm & Hd1 & Hc1 & Hq1 & Hf1).
  unfold bind at 1. rewrite Hrm.
  assert (Hcfg : FS.resolve w1 (Path.join d "experiment.cfg") = cfg)
    by (apply Hres; now apply is_abs_join).
  assert (Hnd1 : cfg ∉ dirs w1).
  { rewrite Hd1. intros H. destruct (Hnew _ H) as [H'|H']; [now apply Hnd|].
    revert H'. now apply inside_not_above. }
  rewrite (write_config_file_ok E params name d w1 Hname Hdef).
  2:{ rewrite Hcfg. apply writable_inside; [split; [exact Hcl | now rewrite Hd1] | exact Hnd1 | reflexivity..]. }
  rewrite Hcfg.
  eexists. split; [reflexivity|]. destruct w1 as [f dd c u k t tr]. cbn in *. subst dd c.
  split; [exact Hin|]. split; [exact Hsub|]. split; [exact Hnew|].
  split; [exact Hcwd|]. split; [|split].
  - unfold hook_calls in *. rewrite List.filter_app. simpl. rewrite List.app_nil_r. congruence.
  - apply lookup_insert_eq.
  - intros q Hq'. rewrite lookup_insert_ne by congruence. rewrite Hf1. now rewrite Hfiles.
Qed.

Lemma fullpaths_In ps d :
  In d (fullpaths ps)
  <-> exists p path name,
        In p ps /\ PyDict.get p "path" = Some (VStr path) /\ PyDict.get p "name" = Some (VStr name)
        /\ d = Path.join path name.
Proof.
  unfold fullpaths. rewrite in_flat_map. split.
  - intros (p & Hp & Hq).
    destruct (PyDict.get p "path") as [[| | |path| |]|] eqn:Hpath; try destruct Hq.
    destruct (PyDict.get p "name") as [[| | |name| |]|] eqn:Hname; try destruct Hq.
    + exists p, path, name. auto.
    + destruct H.
  - intros (p & path & name & Hp & Hpath & Hname & ->). exists p. split; [exact Hp|].
    rewrite Hpath, Hname. now left.
Qed.

Lemma snapshots_fullpaths ps q :
  In q (snapshots ps) <-> exists d, In d (fullpaths ps) /\ q = Path.join d "experiment.cfg".
Proof.
  rewrite snapshots_In. split.
  - intros (p & path & name & Hp & Hpa & Hna & ->). exists (Path.join path name).
    split; [apply fullpaths_In; eauto 10 | reflexivity].
  - intros (d & Hd & ->). apply fullpaths_In in Hd as (p & path & name & Hp & Hpa & Hna & ->).
    eauto 10.
Qed.

(** the loop of [create_dir] over sets that can be made: every directory
    exists afterwards and every snapshot is there; besides, no directory
    was made but these and the ones above them, and no file was written or
    removed outside the directories of the sets *)
Lemma create_dirs_made options ps : forall w : World U,
  Forall (Makeable w (delete options)) ps ->
  forallb has_required_keys ps = true ->
  (forall q, In q (snapshots ps) -> ~ In q (made_dirs ps)) ->
  exists w',
    create_dirs E options ps w = (Ok true, w')
    /\ (forall d, In d (fullpaths ps) -> d ∈ dirs w')
    /\ dirs w ⊆ dirs w'
    /\ (forall q, q ∈ dirs w' -> q ∈ dirs w \/ In q (made_dirs ps))
    /\ (forall q, In q (snapshots ps) ->
                  exists p path name,
                    In p ps /\ PyDict.get p "path" = Some (VStr path)
                    /\ PyDict.get p "name" = Some (VStr name)
                    /\ q = Path.join (Path.join path name) "experiment.cfg"
                    /\ files w' !! q = Some (cfg_text E name (config_options p)))
    /\ (forall q, ~ In q (snapshots ps) ->
                  (delete options = true -> forall d, In d (fullpaths ps) -> Path.dirname q <> d) ->
                  files w' !! q = files w !! q)
    /\ (forall q, ~ In q (snapshots ps) -> files w !! q = None -> files w' !! q = None)
    /\ cwd w' = cwd w
    /\ hook_calls (trace w') = hook_calls (trace w).
Proof.
  induction ps as [|p ps IH]; intros w Hmk Hkeys Hdis.
  - exists w. split; [reflexivity|]. split; [intros d []|]. split; [set_solver|].
    split; [now left|]. split; [intros q []|]. repeat split; auto.
  - apply Forall_cons in Hmk as [Hp Hps].
    cbn [forallb] in Hkeys. apply andb_true_iff in Hkeys as [Hk Hks].
    destruct Hp as (name & path & Hname & Hpath & Hdef & Hcl & Hfree & Hnd & Hsh).
    set (d := Path.join path name) in *. set (cfg := Path.join d "experiment.cfg") in *.
    assert (Hfp : fullpaths (p :: ps) = d :: fullpaths ps).
    { unfold fullpaths. cbn [flat_map]. now rewrite Hpath, Hname. }
    assert (Hsn : snapshots (p :: ps) = cfg :: snapshots ps).
    { unfold snapshots. cbn [flat_map]. now rewrite Hpath, Hname. }
    assert (Hmd : made_dirs (p :: ps)
                  = (d :: Path.ancestors (String.length d) d) ++ made_dirs ps).
    { unfold made_dirs. rewrite Hfp. reflexivity. }
    rewrite Hsn, Hmd in Hdis.
    destruct (create_dir_world p name path (delete options) w Hname Hpath Hdef Hcl Hfree Hnd)
      as (w1 & Hcd & Hin1 & Hsub1 & Hnew1 & Hcwd1 & Hh1 & Hcfg1 & Hfr1).
    fold d cfg in Hin1, Hnew1, Hcfg1, Hfr1.
    assert (Hdcfg : dirname cfg = d).
    { unfold cfg. rewrite (join_rel d "experiment.cfg" Hcl eq_refl). now apply dirname_inside. }
    destruct (IH w1) as (w' & Hrun & Hall & Hsub & Hnew & Hsnap & Hfr & Hnone & Hcwd & Hh).
    + rewrite List.Forall_forall in Hps. apply List.Forall_forall. intros p' Hp'.
      destruct (Hps p' Hp')
        as (name' & path' & Hname' & Hpath' & Hdef' & Hcl' & Hfree' & Hnd' & Hsh').
      assert (Hd' : In (Path.join path' name') (fullpaths ps)).
      { apply fullpaths_In. exists p', path', name'. auto. }
      exists name', path'.
      split; [exact Hname'|]. split; [exact Hpath'|]. split; [exact Hdef'|].
      split; [exact Hcl'|]. split; [|split; [|exact Hsh']].
      * intros a Ha.
        assert (Hne : a <> cfg).
        { intros ->. apply (Hdis cfg (or_introl eq_refl)). apply in_or_app. right.
          unfold made_dirs. apply in_flat_map. eauto. }
        rewrite (Hfr1 a Hne). destruct (delete options && glob_star d a); [reflexivity|].
        now apply Hfree'.
      * intros Hq. destruct (Hnew1 _ Hq) as [H|H]; [now apply Hnd'|].
        apply (Hdis (Path.join (Path.join path' name') "experiment.cfg")).
        -- right. apply snapshots_fullpaths. eauto.
        -- apply in_or_app. now left.
    + exact Hks.
    + intros q Hq Hm. apply (Hdis q); [now right | apply in_or_app; now right].
    + assert (Hlater : forall q, In q (snapshots ps) ->
                         exists p0 path0 name0,
                           In p0 (p :: ps) /\ PyDict.get p0 "path" = Some (VStr path0)
                           /\ PyDict.get p0 "name" = Some (VStr name0)
                           /\ q = Path.join (Path.join path0 name0) "experiment.cfg"
                           /\ files w' !! q = Some (cfg_text E name0 (config_options p0))).
      { intros q Hq. destruct (Hsnap q Hq) as (p0 & path0 & name0 & Hp0 & H).
        exists p0, path0, name0. split; [now right | exact H]. }
      exists w'. split; [|split; [|split; [|split; [|split; [|split; [|split; [|split]]]]]]].
      * cbn [create_dirs]. rewrite Hk. unfold bind at 1. rewrite Hcd. exact Hrun.
      * rewrite Hfp. intros d0 [<-|Hd0]; [apply Hsub, Hin1 | apply Hall, Hd0].
      * set_solver.
      * intros q Hq. rewrite Hmd. destruct (Hnew q Hq) as [H|H].
        -- destruct (Hnew1 q H) as [H'|H']; [now left | right; apply in_or_app; now left].
        -- right. apply in_or_app. now right.
      * rewrite Hsn. intros q [<-|Hq]; [|apply Hlater, Hq].
        destruct (in_dec string_dec cfg (snapshots ps)) as [Hi|Hni]; [apply Hlater, Hi|].
        exists p, path, name. split; [now left|]. split; [exact Hpath|].
        split; [exact Hname|]. split; [reflexivity|].
        rewrite Hfr; [exact Hcfg1 | exact Hni |].
        intros Hdel d0 Hd0 Heq. apply Hni. apply snapshots_fullpaths.
        exists d0. split; [exact Hd0|]. rewrite <- Heq, Hdcfg. reflexivity.
      * rewrite Hsn, Hfp. intros q Hq Hdel.
        rewrite Hfr;
          [| intros H; apply Hq; now right
           | intros Hd d0 Hd0; apply Hdel; [exact Hd | now right]].
        rewrite Hfr1 by (intros ->; apply Hq; now left).
        destruct (delete options) eqn:Hdl; [|reflexivity]. cbn [andb]. unfold glob_star.
        replace (String.eqb (dirname q) d) with false; [reflexivity|].
        symmetry. apply String.eqb_neq. apply Hdel; [reflexivity | now left].
      * rewrite Hsn. intros q Hq Hn. apply Hnone; [intros H; apply Hq; now right|].
        rewrite Hfr1 by (intros ->; apply Hq; now left).
        destruct (delete options && glob_star d q); [reflexivity | exact Hn].
      * congruence.
      * congruence.
Qed.

End CreateDir.


(* ===================================================================== *)
(** * The claims *)
(* ===================================================================== *)

(** a concrete world whose experiment directory holds no directory *)
Ltac no_subdir :=
  let q := fresh "q" in
  let Hq := fresh "Hq" in
  let Hin := fresh "Hin" in
  intros q Hq Hin; apply elem_of_list_to_set in Hin;
  repeat (apply elem_of_cons in Hin as [->|Hin]; [vm_compute in Hq; discriminate Hq|]);
  inversion Hin.

(** C1 (as amended). With [restore_supported = True], no forced rerun and an
    absolute experiment path whose directory exists and holds no directory:
    if the log of a repetition holds [M] lines with [1 <= M < iterations],
    the last of them without the token, and [iterate], called in turn from
    the state [restore_state] leaves, returns at the indices from [M] on
    (results without spaces in their keys), then [run_rep] opens the log for
    reading and then for appending, calls [restore_state] once, with index
    [M], calls [iterate] exactly for [M .. iterations-1], and the log
    afterwards is the old text followed by the lines of the results.  When
    the old text ends in a newline its [M] lines are the first [M] lines of
    the new log.  When the old text is what a run from scratch writes for
    the first [M] indices and [iterate] returns from the restored state what
    it returns in that run from [M] on (as it does when its result depends
    on the index alone), the new log is the log of the run from scratch. *)
Theorem resume_appends_missing_lines
  {U} (S : Suite U) (E : Env) (options : Options) (w : World U)
  (params : Dict) (rep : Z) (name path : string) (n : Z) (text : string) :
  let fullpath := Path.join path name in
  let log := logname_of fullpath rep in
  let M := Z.of_nat (length (Str.readlines text)) in
  let u0 := start_state S params rep M (user w) in
  let out := results S params rep (xrange M n) u0 in
  let appended := Str.join_all (map (log_line E) out) in
  ParamsOf params name path n ->
  Ready w fullpath ->
  NoSubdir w fullpath ->
  restore_supported S = true ->
  truthy (rerun options) = false ->
  files w !! log = Some text ->
  ends_in_crash (Str.readlines text) = false ->
  1 <= M < n ->
  failure S params rep (xrange M n) u0 = None ->
  Forall (fun d => spaceless d = true) out ->
  exists w',
    run_rep S E options params rep w = (Ok RetNone, w')
    /\ files w' !! log = Some (text +:+ appended)
    /\ length out = length (xrange M n)
    /\ (exists evs,
          trace w' = trace w ++ evs
          /\ opened log evs = [ModeR; ModeA]
          /\ restored evs = [(params, rep, M)]
          /\ iterated evs = map (fun it => (params, rep, it)) (xrange M n))
    /\ (Str.ends_with_char Str.nl text = true ->
        firstn (Z.to_nat M) (Str.readlines (text +:+ appended)) = Str.readlines text)
    /\ (forall w0 : World U,
          let v0 := start_state S params rep 0 (user w0) in
          Ready w0 fullpath -> NoSubdir w0 fullpath ->
          files w0 !! log = None ->
          failure S params rep (xrange 0 M) v0 = None ->
          Forall (fun d => spaceless d = true) (results S params rep (xrange 0 M) v0) ->
          text = Str.join_all (map (log_line E) (results S params rep (xrange 0 M) v0)) ->
          results S params rep (xrange M n) (state_after S params rep (xrange 0 M) v0) = out ->
          exists w0',
            run_rep S E options params rep w0 = (Ok RetNone, w0')
            /\ files w0' !! log = files w' !! log)
    /\ (forall step : Z -> Dict,
          (forall it u, M <= it < n -> fst (iterate S params rep it u) = inl (step it)) ->
          forall u, results S params rep (xrange M n) u = map step (xrange M n)).
Proof.
  intros fullpath log M u0 out appended HP HR HN Hs Hr Hf Hno HM Hfail Hsp.
  assert (Hcl : Path.clean fullpath) by apply HR.
  assert (Hn : PyDict.get params "iterations" = Some (VInt n)) by apply HP.
  assert (Hres : forall w1 : World U, FS.resolve w1 log = log)
    by (intros; apply resolve_abs, log_abs, Hcl).
  assert (Hstrip : strip_error_line (Str.readlines text) = Str.readlines text)
    by (now rewrite strip_error_line_eq, Hno).
  pose proof (resume_point_auto S E options params rep fullpath n Hn text w) as Hrp.
  fold log in Hrp. rewrite Hres, Hstrip in Hrp. fold M in Hrp.
  specialize (Hrp Hf Hs Hr ltac:(lia)).
  destruct (run_from_returns S E params rep fullpath n Hn M
              (emit (EvOpen log ModeR) w) (Ready_emit _ _ _ HR) HN)
    as (w' & Hrun & [Hd Hl Hfr (evs & Ht & Hi & Hre & Hrs & Ho & Hc)] & _).
  { destruct w; exact Hfail. }
  { destruct w; exact Hsp. }
  replace (user (emit (EvOpen log ModeR) w)) with (user w) in Hl by now destruct w.
  fold log in Hrun, Hl, Ho. fold u0 out appended in Hl.
  replace (M =? 0) with false in * by (symmetry; apply Z.eqb_neq; lia).
  assert (Hlog' : files w' !! log = Some (text +:+ appended)).
  { rewrite Hl. destruct w; simpl in *. now rewrite Hf. }
  exists w'. split; [|split; [|split; [|split; [|split; [|split]]]]].
  - rewrite (run_rep_from S E options _ _ _ _ _ _ _ _ HP Hrp). exact Hrun.
  - exact Hlog'.
  - now destruct (failure_none S params rep _ _ Hfail).
  - exists (EvOpen log ModeR :: evs). split; [|split; [|split]].
    + rewrite Ht. destruct w; simpl. now rewrite <- List.app_assoc.
    + change (EvOpen log ModeR :: evs) with ([EvOpen log ModeR] ++ evs).
      rewrite opened_app, Ho. unfold opened. simpl. now rewrite String.eqb_refl.
    + exact Hre.
    + exact Hi.
  - intros Hnl. rewrite StrFacts.readlines_app by exact Hnl.
    unfold M. rewrite Nat2Z.id. apply take_app_length.
  - intros w0 v0 HR0 HN0 Hf0 Hfail0 Hsp0 Htext Hsame.
    assert (Hd0 : log ∉ dirs w0).
    { apply nosub_inside; auto using log_base_rel, log_base_no_slash. }
    pose proof (resume_point_fresh S E options params rep fullpath w0) as Hrp0.
    fold log in Hrp0. rewrite Hres in Hrp0. specialize (Hrp0 Hf0 Hd0).
    assert (Hall : results S params rep (xrange 0 n) v0
                   = results S params rep (xrange 0 M) v0 ++ out).
    { rewrite (xrange_split 0 M n) by lia. rewrite results_app by exact Hfail0.
      now rewrite Hsame. }
    assert (Hfail1 : failure S params rep (xrange 0 n) v0 = None).
    { rewrite (xrange_split 0 M n) by lia. rewrite failure_app by exact Hfail0.
      apply results_full. rewrite Hsame.
      now destruct (failure_none S params rep _ _ Hfail). }
    destruct (run_from_returns S E params rep fullpath n Hn 0 w0 HR0 HN0 Hfail1)
      as (w0' & Hrun0 & [_ Hl0 _ _] & _).
    { fold v0. rewrite Hall. apply Forall_app. split; assumption. }
    exists w0'. split.
    + rewrite (run_rep_from S E options _ _ _ _ _ _ _ _ HP Hrp0). exact Hrun0.
    + fold log v0 in Hl0. rewrite Hl0, Hlog'. cbn [Z.eqb]. f_equal.
      rewrite Hall, map_app, StrFacts.join_all_app, <- Htext. reflexivity.
  - intros step Hstep u. apply results_by_index.
    intros it Hin u'. apply Hstep. now apply In_xrange.
Qed.

Lemma resume_appends_missing_lines_witness :
  exists w',
    run_rep resumable_suite env0 (options0 None) (params_exp "/data" 3) 0 world_partial
    = (Ok RetNone, w')
    /\ files w' !! "/data/exp/0.log" = Some log3.
Proof.
  destruct (resume_appends_missing_lines resumable_suite env0 (options0 None) world_partial
              (params_exp "/data" 3) 0 "exp" "/data" 3 (ln "iteration:0 repetition:0"))
    as (w' & H1 & H2 & _).
  - repeat split; reflexivity.
  - repeat split; reflexivity.
  - no_subdir.
  - reflexivity.
  - reflexivity.
  - reflexivity.
  - reflexivity.
  - vm_compute. split; [intros H; discriminate H | reflexivity].
  - reflexivity.
  - repeat constructor.
  - exists w'. split; [exact H1 | exact H2].
Defined.

(** C1, the case the claim gets wrong: a log that exists and holds no line.
    The resume point is 0, the log is opened for writing, not for appending,
    and [restore_state] is not called. *)
Lemma resume_at_zero_counterexample :
  let r := run_rep resumable_suite env0 (options0 None) (params_exp "/data" 3) 0 world_empty_log in
  files world_empty_log !! "/data/exp/0.log" = Some ""
  /\ fst r = Ok RetNone
  /\ opened "/data/exp/0.log" (trace (snd r)) = [ModeR; ModeW]
  /\ restored (trace (snd r)) = []
  /\ ~ (In ModeA (opened "/data/exp/0.log" (trace (snd r)))
        /\ In (params_exp "/data" 3, 0, 0) (restored (trace (snd r)))).
Proof.
  vm_compute. repeat split; try reflexivity. intros [_ []].
Qed.







(** C4 (as amended). For an absolute experiment path whose directory exists
    and holds no directory, [iterations >= 0] and a forced-rerun target that
    is absent or not negative.  Let [m] be the number of lines of the log
    that count (0 without a log).  [run_rep] returns [False], without a call
    of [iterate], or it computes the resume point [R]: 0 when there is no
    log or [restore_supported] is [False], the rerun target when a rerun is
    forced, and [m] otherwise.  So [0 <= R <= max(iterations, m)], and
    [R <= iterations] whenever [m <= iterations]; a log with more than
    [iterations] lines gives [R = m > iterations] when restoring is
    supported and no rerun is forced.  When [iterate], called in turn from
    the state in which the loop starts, returns at the indices from [R] on
    (results without spaces in their keys), [run_rep] calls it exactly for
    the indices [R <= it < iterations]: for none when [R >= iterations]. *)
Theorem resume_point_bounds_and_loop
  {U} (S : Suite U) (E : Env) (options : Options) (w : World U)
  (params : Dict) (rep : Z) (name path : string) (n : Z) :
  let fullpath := Path.join path name in
  let log := logname_of fullpath rep in
  let m := Z.of_nat (length (logged_lines w log)) in
  let R := match files w !! log with
           | None => 0
           | Some _ => if negb (restore_supported S) then 0
                       else if truthy (rerun options) then default 0 (rerun options)
                       else m
           end in
  let u0 := start_state S params rep R (user w) in
  ParamsOf params name path n ->
  Ready w fullpath ->
  NoSubdir w fullpath ->
  (forall T, rerun options = Some T -> 0 <= T) ->
  0 <= n ->
  exists r w1,
    resume_point S E options params log w = (Ok r, w1)
    /\ match r with
       | None =>
           run_rep S E options params rep w = (Ok RetFalse, w1)
           /\ iterated (trace w1) = iterated (trace w)
       | Some R' =>
           R' = R
           /\ 0 <= R /\ R <= Z.max n m /\ (m <= n -> R <= n)
           /\ (restore_supported S = true -> truthy (rerun options) = false ->
               n < m -> R = m)
           /\ (failure S params rep (xrange R n) u0 = None ->
               Forall (fun d => spaceless d = true) (results S params rep (xrange R n) u0) ->
               exists w',
                 run_rep S E options params rep w = (Ok RetNone, w')
                 /\ iterated (trace w')
                    = iterated (trace w) ++ map (fun it => (params, rep, it)) (xrange R n)
                 /\ (n <= R -> iterated (trace w') = iterated (trace w)))
       end.
Proof.
  intros fullpath log m R u0 HP HR HN HT Hn0.
  assert (Hcl : Path.clean fullpath) by apply HR.
  assert (Hn : PyDict.get params "iterations" = Some (VInt n)) by apply HP.
  assert (Hres : forall w1 : World U, FS.resolve w1 log = log)
    by (intros; apply resolve_abs, log_abs, Hcl).
  assert (Hld : log ∉ dirs w).
  { apply nosub_inside; auto using log_base_rel, log_base_no_slash. }
  assert (Hemit : forall e, iterated (trace (emit e w)) = iterated (trace w) ++ iterated [e])
    by (intros; destruct w; simpl; apply iterated_app).
  (* what is left to do once the resume point and the world [w1] are known *)
  assert (Hgo : forall w1,
             resume_point S E options params log w = (Ok (Some R), w1) ->
             Ready w1 fullpath -> NoSubdir w1 fullpath -> user w1 = user w ->
             iterated (trace w1) = iterated (trace w) ->
             failure S params rep (xrange R n) u0 = None ->
             Forall (fun d => spaceless d = true) (results S params rep (xrange R n) u0) ->
             exists w',
               run_rep S E options params rep w = (Ok RetNone, w')
               /\ iterated (trace w')
                  = iterated (trace w) ++ map (fun it => (params, rep, it)) (xrange R n)
               /\ (n <= R -> iterated (trace w') = iterated (trace w))).
  { intros w1 Hrp HR1 HN1 Hu Hit Hfail Hsp.
    destruct (run_rep_iterates S E options params rep name path n R w w1 HP Hrp HR1 HN1 Hit)
      as (w' & Hrun & Hiter).
    - rewrite Hu. exact Hfail.
    - rewrite Hu. exact Hsp.
    - exists w'. split; [exact Hrun|]. split; [exact Hiter|].
      intros Hge. rewrite Hiter, xrange_nil by lia. apply List.app_nil_r. }
  assert (Hstop : forall w1,
             resume_point S E options params log w = (Ok None, w1) ->
             iterated (trace w1) = iterated (trace w) ->
             run_rep S E options params rep w = (Ok RetFalse, w1)
             /\ iterated (trace w1) = iterated (trace w)).
  { intros w1 Hrp Hit. split; [|exact Hit].
    exact (run_rep_false S E options _ _ _ _ _ _ _ HP Hrp). }
  unfold m, logged_lines in *. clear m. revert R u0 Hgo.
  destruct (files w !! log) as [text|] eqn:Hf.
  - set (lines := strip_error_line (Str.readlines text)) in *.
    assert (Hf' : files w !! FS.resolve w log = Some text) by now rewrite Hres.
    destruct (Z.eqb (Z.of_nat (length lines)) n && negb (truthy (rerun options))) eqn:Hc.
    + (* complete, no forced rerun *)
      intros Hgo.
      apply andb_true_iff in Hc as [Heq Htr].
      apply Z.eqb_eq in Heq. apply negb_true_iff in Htr.
      pose proof (resume_point_complete S E options params log n text w (log_eqb _ _) Hn Hf' Heq Htr) as Hrp.
      rewrite Hres in Hrp. exists None. eexists. split; [exact Hrp|]. apply (Hstop _ Hrp).
      rewrite Hemit. simpl. now rewrite List.app_nil_r.
    + destruct (restore_supported S) eqn:Hs; cbn [negb].
      * destruct (truthy (rerun options)) eqn:Htr.
        -- (* forced rerun at a target other than 0 *)
           destruct (rerun options) as [T|] eqn:Hr; [|discriminate Htr].
           assert (HT0 : T <> 0) by (intros ->; discriminate Htr).
           pose proof (HT T eq_refl) as HTpos. cbn [from_option id].
           intros Hgo.
           destruct (Z.lt_ge_cases (Z.of_nat (length lines)) T) as [Hlt|Hge].
           ++ pose proof (resume_point_rerun_short S E options params rep fullpath text T w) as Hrp.
              fold log in Hrp. rewrite Hres in Hrp.
              specialize (Hrp Hf Hs Hr HT0 Hlt).
              exists None. eexists. split; [exact Hrp|]. apply (Hstop _ Hrp).
              rewrite Hemit. simpl. now rewrite List.app_nil_r.
           ++ pose proof (resume_point_rerun_backup S E options params rep fullpath text T w
                            HR HN Hf Hs Hr HT0 Hge) as Hrp.
              exists (Some T). eexists. split; [exact Hrp|].
              split; [reflexivity|].
              split; [lia|]. split; [lia|]. split; [lia|]. split; [discriminate|].
              apply (Hgo _ Hrp).
              ** destruct w; exact HR.
              ** destruct w; exact HN.
              ** reflexivity.
              ** simpl. rewrite iterated_app. simpl. now rewrite List.app_nil_r.
        -- (* resume where the log ends *)
           intros Hgo.
           rewrite andb_true_r in Hc. apply Z.eqb_neq in Hc.
           pose proof (resume_point_auto S E options params rep fullpath n Hn text w) as Hrp.
           fold log in Hrp. rewrite Hres in Hrp.
           specialize (Hrp Hf Hs Htr Hc).
           exists (Some (Z.of_nat (length lines))). eexists. split; [exact Hrp|].
           split; [reflexivity|].
           split; [lia|]. split; [lia|]. split; [lia|]. split; [reflexivity|].
           apply (Hgo _ Hrp).
           ++ destruct w; exact HR.
           ++ destruct w; exact HN.
           ++ now destruct w.
           ++ rewrite Hemit. simpl. now rewrite List.app_nil_r.
      * (* no restoring: the log is removed, start at 0 *)
        intros Hgo.
        pose proof (resume_point_unsupported S E options params rep fullpath n Hn text w) as Hrp.
        fold log in Hrp. rewrite Hres in Hrp.
        specialize (Hrp Hf Hs Hc).
        exists (Some 0). eexists. split; [exact Hrp|].
        split; [reflexivity|].
        split; [lia|]. split; [lia|]. split; [lia|]. split; [discriminate|].
        apply (Hgo _ Hrp).
        -- destruct w; exact HR.
        -- destruct w; exact HN.
        -- reflexivity.
        -- simpl. rewrite iterated_app. simpl. now rewrite List.app_nil_r.
  - cbv zeta. intros Hgo.
    pose proof (resume_point_fresh S E options params rep fullpath w) as Hrp.
    fold log in Hrp. rewrite Hres in Hrp. specialize (Hrp Hf Hld).
    exists (Some 0), w. split; [exact Hrp|].
    split; [reflexivity|]. simpl.
    split; [lia|]. split; [lia|]. split; [lia|]. split; [lia|].
    apply (Hgo _ Hrp); auto.
Qed.

Lemma resume_point_bounds_and_loop_witness :
  exists w',
    run_rep resumable_suite env0 (options0 None) (params_exp "/data" 3) 0 world_partial
    = (Ok RetNone, w')
    /\ iterated (trace w')
       = [(params_exp "/data" 3, 0, 1); (params_exp "/data" 3, 0, 2)].
Proof.
  destruct (resume_point_bounds_and_loop resumable_suite env0 (options0 None) world_partial
              (params_exp "/data" 3) 0 "exp" "/data" 3)
    as (r & w1 & Hrp & H).
  - repeat split; reflexivity.
  - repeat split; reflexivity.
  - no_subdir.
  - intros T HT. discriminate HT.
  - lia.
  - vm_compute in Hrp. injection Hrp as <- <-.
    destruct H as (_ & _ & _ & _ & _ & H).
    destruct H as (w' & H1 & H2 & _); [reflexivity | repeat constructor |].
    exists w'. split; [exact H1 | exact H2].
Defined.

(** C4, the case the claim gets wrong: a log that holds more lines than
    [iterations].  With three logged lines and [iterations = 2] the resume
    point is 3, and [restore_state] is called with 3. *)
Lemma resume_point_beyond_iterations_counterexample :
  let p := params_exp "/data" 2 in
  fst (resume_point resumable_suite env0 (options0 None) p "/data/exp/0.log" world_long)
  = Ok (Some 3)
  /\ ~ (3 <= 2)
  /\ restored (trace (snd (run_rep resumable_suite env0 (options0 None) p 0 world_long)))
     = [(p, 0, 3)]
  /\ iterated (trace (snd (run_rep resumable_suite env0 (options0 None) p 0 world_long))) = [].
Proof.
  vm_compute. repeat split; try reflexivity. intros H. apply H. reflexivity.
Qed.

(** C5 (as amended).  When a set of the expanded list lacks one of the keys
    [name], [iterations], [repetitions], [path], while the sets before it
    have all four and their directories can be made (absolute paths without
    a trailing slash, no plain file at a directory or above it, no directory
    named like a snapshot, also among the directories to be made, names the
    shell leaves alone when results are deleted), [do_experiment] returns
    [False]: it does not return [True],
    hands nothing to a worker pool and calls no hook of any repetition.
    What it leaves behind is the work of the sets before the offending one:
    each of their directories exists and each holds its snapshot, written
    from one of these sets.  Nothing is made for the offending set or a
    later one: a directory that exists afterwards existed after the
    expansion or is the directory of an earlier set or lies above one, a
    file that did not exist after the expansion and is no snapshot of an
    earlier set does not exist afterwards, and a file that is no such
    snapshot and, when results are deleted, lies in no directory of an
    earlier set is what it was. *)
Theorem missing_key_stops_before_any_repetition
  {U} (S : Suite U) (E : Env) (options : Options) (w w1 : World U)
  (params plist good rest : list Dict) (bad : Dict) :
  expand_param_list E params w = (Ok plist, w1) ->
  plist = good ++ bad :: rest ->
  forallb has_required_keys good = true ->
  has_required_keys bad = false ->
  Forall (Makeable w1 (delete options)) good ->
  (forall q, In q (snapshots good) -> ~ In q (made_dirs good)) ->
  exists w',
    do_experiment S E options params w = (Ok DoFalse, w')
    /\ fst (do_experiment S E options params w) <> Ok DoTrue
    /\ (forall explist, fst (do_experiment S E options params w) <> Ok (DoPool explist))
    /\ hook_calls (trace w') = hook_calls (trace w)
    /\ (forall d, In d (fullpaths good) -> d ∈ dirs w')
    /\ (forall q, In q (snapshots good) ->
                  exists p path name,
                    In p good /\ PyDict.get p "path" = Some (VStr path)
                    /\ PyDict.get p "name" = Some (VStr name)
                    /\ q = Path.join (Path.join path name) "experiment.cfg"
                    /\ files w' !! q = Some (cfg_text E name (config_options p)))
    /\ (forall q, q ∈ dirs w' -> q ∈ dirs w1 \/ In q (made_dirs good))
    /\ (forall q, ~ In q (snapshots good) -> files w1 !! q = None -> files w' !! q = None)
    /\ (forall q, ~ In q (snapshots good) ->
                  (delete options = true ->
                   forall d, In d (fullpaths good) -> Path.dirname q <> d) ->
                  files w' !! q = files w1 !! q).
Proof.
  intros Hexp -> Hgood Hbad Hmk Hdis.
  destruct (create_dirs_made E options good w1 Hmk Hgood Hdis)
    as (w' & Hrun & Hall & _ & Hnew & Hsnap & Hfr & Hnone & _ & Hh).
  assert (Heq : do_experiment S E options params w = (Ok DoFalse, w')).
  { unfold do_experiment. unfold bind at 1. rewrite Hexp. unfold bind at 1.
    rewrite (create_dirs_stops E options good bad rest w1 Hgood Hbad).
    rewrite Hrun. reflexivity. }
  exists w'. split; [exact Heq|]. rewrite Heq. cbn [fst].
  split; [discriminate|]. split; [discriminate|]. split.
  { rewrite Hh. pose proof (Quiet_expand_param_list E params w) as Hq.
    rewrite Hexp in Hq. exact Hq. }
  split; [exact Hall|]. split; [exact Hsnap|]. split; [exact Hnew|].
  split; [exact Hnone | exact Hfr].
Qed.

Lemma missing_key_stops_before_any_repetition_witness :
  exists w',
    do_experiment base_suite env0 (options0 None) [params_exp "/data" 2; params_bad] world_home
    = (Ok DoFalse, w')
    /\ hook_calls (trace w') = []
    /\ "/data/exp" ∈ dirs w'
    /\ is_Some (files w' !! "/data/exp/experiment.cfg")
    /\ files w' !! "/data/bad/experiment.cfg" = None.
Proof.
  destruct (missing_key_stops_before_any_repetition base_suite env0 (options0 None)
              world_home world_home [params_exp "/data" 2; params_bad]
              [params_exp "/data" 2; params_bad] [params_exp "/data" 2] [] params_bad)
    as (w' & H1 & _ & _ & H4 & H5 & H6 & _ & H8 & _).
  - reflexivity.
  - reflexivity.
  - reflexivity.
  - reflexivity.
  - constructor; [|constructor]. exists "exp", "/data".
    split; [reflexivity|]. split; [reflexivity|]. split; [reflexivity|].
    split; [split; reflexivity|]. split; [|split; [|discriminate]].
    + intros a Ha. vm_compute in Ha.
      repeat (destruct Ha as [<-|Ha]; [reflexivity|]). destruct Ha.
    + intros Hin. apply (bool_decide_pack _) in Hin. vm_compute in Hin. exact Hin.
  - intros q Hq Hm. vm_compute in Hq, Hm.
    destruct Hq as [<-|[]]. repeat (destruct Hm as [Hm|Hm]; [discriminate Hm|]). destruct Hm.
  - exists w'. split; [exact H1|]. split; [exact H4|]. split; [apply H5; now left|].
    split.
    + destruct (H6 "/data/exp/experiment.cfg") as (p & path & name & _ & _ & _ & _ & H);
        [now left | rewrite H; eauto].
    + apply H8; [|reflexivity]. vm_compute. intros [H|[]]. discriminate H.
Defined.

(** C5, where the claim goes wrong: the sets before the offending one.  The
    batch is rejected, but the directory of the first set has been made and
    its snapshot written. *)
Lemma partial_side_effects_counterexample :
  let r := do_experiment base_suite env0 (options0 None)
             [params_exp "/data" 2; params_bad] world_home in
  has_required_keys params_bad = false
  /\ fst r = Ok DoFalse
  /\ bool_decide ("/data/exp" ∈ dirs world_home) = false
  /\ bool_decide ("/data/exp" ∈ dirs (snd r)) = true
  /\ files world_home !! "/data/exp/experiment.cfg" = None
  /\ is_Some (files (snd r) !! "/data/exp/experiment.cfg").
Proof.
  vm_compute. repeat split; try reflexivity. eexists; reflexivity.
Qed.

(** C6, where the code fails the claim: a relative experiment path.
    [run_rep] has changed the working directory to the directory of the
    repetition before [iterate] is called; [_print_exception] then joins the
    same relative path again, the crash report cannot be opened, and the
    [IOError] leaves [run_rep]: no crash report, no sentinel in the log, and
    in a batch without worker pool the next repetition is never started. *)
Theorem crash_report_lost_under_relative_path :
  let p := params_exp "results" 3 in
  let r := run_rep (crashing_suite 0) env0 (options0 None) p 0 world_relative in
  let b := run_explist (crashing_suite 0) env0 (options0 None) [(p, 0); (p, 1)] world_relative in
  fst r = Raise (IOError "/home/u/results/exp/results/exp/exception-2012_08_27__09_05_07.stderr")
  /\ map_to_list (files (snd r)) = [("/home/u/results/exp/0.log", "")]
  /\ iterated (trace (snd r)) = [(p, 0, 0)]
  /\ fst b = Raise (IOError "/home/u/results/exp/results/exp/exception-2012_08_27__09_05_07.stderr")
  /\ iterated (trace (snd b)) = [(p, 0, 0)].
Proof.
  vm_compute. repeat split; reflexivity.
Qed.

(** C6 under an absolute path, at a concrete input: the crash report and the
    sentinel are written and [run_rep] returns. *)
Lemma crash_contained_under_absolute_path :
  let p := params_exp "/data" 3 in
  let r := run_rep (crashing_suite 1) env0 (options0 None) p 0 world_fresh in
  fst r = Ok RetNone
  /\ files (snd r) !! "/data/exp/0.log" = Some (ln "iteration:0 repetition:0" +:+ sentinel)
  /\ files (snd r) !! "/data/exp/exception-2012_08_27__09_05_07.stderr" = Some (report_text boom)
  /\ iterated (trace (snd r)) = [(p, 0, 0); (p, 0, 1)].
Proof.
  vm_compute. repeat split; reflexivity.
Qed.

(** C7 (as amended).  Take a parameter set in list mode with distinct keys,
    a string as name (other than [default]) and a string as path, at least
    one sequence-valued field, swept values that are strings or numbers
    ['%f'] accepts, and a directory that can be made: an absolute path
    without a trailing slash, no plain file at it or above it, and no
    directory named like its snapshot.  It expands to as many concrete sets
    as its shortest sequence has items: to exactly [k] sets when all
    sequences have length [k]; sequences of unequal length raise no error,
    the zip stops with the shortest.  The set number [i] has the keys of the
    parameter set; every swept key holds the item number [i] of its
    sequence, [name] holds the old name, a slash and the swept keys each
    followed by the directory text of its item (for keys and texts free of
    quotes, blanks, brackets, commas, parentheses, backslashes and control
    characters), and every other key holds what it held.  The directory of
    the set exists afterwards and its snapshot is written.  The sets that
    follow in the batch are expanded after it, as usual. *)
Theorem list_mode_zips_to_shortest
  {U} (E : Env) (w : World U) (params : Dict) (name path : string) (rest : list Dict) :
  let ips := iterparams_of params in
  let seqs := map (sweep_values params) ips in
  let d := Path.join path name in
  let cfg := Path.join d "experiment.cfg" in
  PyDict.get params "name" = Some (VStr name) ->
  PyDict.get params "path" = Some (VStr path) ->
  NoDup (PyDict.keys params) ->
  experiment_is params "list" = true ->
  ips <> [] ->
  forallb (forallb convertible) seqs = true ->
  String.eqb (Str.lower name) "default" = false ->
  Path.clean d ->
  Free w d ->
  cfg ∉ dirs w ->
  exists subs w',
    expand_one E params w = (Ok subs, w')
    /\ length subs = shortest seqs
    /\ (forall k, Forall (fun l => length l = k) seqs -> length subs = k)
    /\ (forall i, (i < shortest seqs)%nat ->
          exists il sub,
            subs !! i = Some sub
            /\ Forall2 (fun ip x => sweep_values params ip !! i = Some x) ips il
            /\ SubOf params name ips il sub)
    /\ d ∈ dirs w'
    /\ files w' = <[cfg := cfg_text E name (config_options params)]> (files w)
    /\ expand_param_list E (params :: rest) w
       = bind (expand_param_list E rest) (fun later => ret (subs ++ later)) w'.
Proof.
  intros ips seqs d cfg Hname Hpath Hnd Hlist Hips Hconv Hdef Hcl Hfree Hcfg.
  assert (Hres : forall p, Path.is_abs p = true -> FS.resolve w p = p)
    by (intros; now apply resolve_abs).
  destruct (expand_one_prelude E params name path w)
    as (w1 & Heq & Hin & _ & _ & Hfiles & _); auto.
  - now apply experiment_list_not_single.
  - rewrite Hres by apply Hcl. exact Hcl.
  - rewrite !Hres; [reflexivity | apply Hcl | now apply PathFacts.is_abs_join].
  - rewrite Hres by apply Hcl. exact Hfree.
  - rewrite Hres by apply Hcl. exact Hcfg.
  - rewrite Hres in Hin, Hfiles by apply Hcl. fold d cfg in Hin, Hfiles.
    rewrite Hlist in Heq. unfold bind at 1 in Heq. unfold ret at 1 in Heq.
    fold ips seqs in Heq.
    destruct (sub_experiments_of params name (izip seqs) w1 Hname Hnd)
      as (subs & Hs & Hl & Hf).
    { intros il Hil. split.
      - apply forallb_forall. intros x Hx.
        destruct (izip_elems seqs il x Hil Hx) as (l & Hlin & Hxl).
        rewrite forallb_forall in Hconv. specialize (Hconv l Hlin).
        rewrite forallb_forall in Hconv. now apply Hconv.
      - apply list_elem_of_In, list_elem_of_lookup in Hil as [i Hi].
        apply izip_row in Hi. symmetry. exact (Forall2_length _ _ _ Hi). }
    fold ips in Hs, Hf. rewrite Hs in Heq.
    exists subs, w1. split; [exact Heq|]. split; [|split; [|split; [|split; [|split]]]].
    + now rewrite Hl, length_izip.
    + intros k Hk. rewrite Hl, length_izip. apply shortest_same; [|exact Hk].
      unfold seqs. destruct ips; [congruence | discriminate].
    + intros i Hi.
      destruct (lookup_lt_is_Some_2 (izip seqs) i) as [il Hil];
        [now rewrite length_izip|].
      destruct (Forall2_lookup_l _ _ _ _ _ Hf Hil) as (sub & Hsub & Hof).
      exists il, sub. split; [exact Hsub|]. split; [|exact Hof].
      now apply izip_row.
    + exact Hin.
    + exact Hfiles.
    + cbn [expand_param_list]. unfold bind at 1. rewrite Heq. reflexivity.
Qed.

Lemma list_mode_zips_to_shortest_witness :
  exists subs w',
    expand_one env0 params_list_even world_home = (Ok subs, w')
    /\ length subs = 2%nat
    /\ (exists il sub,
          subs !! 1%nat = Some sub /\ il = [VInt 2; VStr "b"]
          /\ SubOf params_list_even "exp" ["alpha"; "beta"] il sub)
    /\ "/data/exp" ∈ dirs w'.
Proof.
  destruct (list_mode_zips_to_shortest env0 world_home params_list_even "exp" "/data" [])
    as (subs & w' & H1 & H2 & _ & H4 & H5 & _).
  - reflexivity.
  - reflexivity.
  - apply (bool_decide_unpack _). vm_compute. exact I.
  - reflexivity.
  - discriminate.
  - reflexivity.
  - reflexivity.
  - split; reflexivity.
  - intros a Ha. vm_compute in Ha.
    repeat (destruct Ha as [<-|Ha]; [reflexivity|]). destruct Ha.
  - intros Hin. apply (bool_decide_pack _) in Hin. vm_compute in Hin. exact Hin.
  - exists subs, w'. split; [exact H1|]. split; [exact H2|]. split; [|exact H5].
    destruct (H4 1%nat) as (il & sub & Hsub & Hrow & Hof); [vm_compute; lia|].
    exists il, sub. split; [exact Hsub|]. split; [|exact Hof].
    change (iterparams_of params_list_even) with ["alpha"; "beta"] in Hrow.
    inversion Hrow as [|k1 x1 ks1 il1 Hx1 Hrow1]; subst.
    inversion Hrow1 as [|k2 x2 ks2 il2 Hx2 Hrow2]; subst.
    inversion Hrow2; subst.
    vm_compute in Hx1, Hx2. now injection Hx1 as <-; injection Hx2 as <-.
Defined.

(** C7, where the claim goes wrong: sequences of unequal length.  The
    expansion does not fail; [izip] stops with the shorter sequence and two
    sets come out. *)
Lemma list_mode_unequal_lengths_counterexample :
  map (sweep_values params_list_uneven) (iterparams_of params_list_uneven)
  = [[VInt 1; VInt 2; VInt 3]; [VInt 10; VInt 20]]
  /\ experiment_is params_list_uneven "list" = true
  /\ map (fun p => PyDict.get p "name")
         (match fst (expand_param_list env0 [params_list_uneven] world_home) with
          | Ok l => l
          | Raise _ => []
          end)
     = [Some (VStr "exp/alpha1.0beta10.0"); Some (VStr "exp/alpha2.0beta20.0")]
  /\ (forall e, fst (expand_param_list env0 [params_list_uneven] world_home) <> Raise e).
Proof.
  vm_compute. repeat split; try reflexivity. intros e H. discriminate H.
Qed.

(** C8 (as amended).  Grid expansion of
    [{name: "exp", path: ".", iterations: 3, repetitions: 1, alpha: [0.1, 0.2]}],
    from a working directory with an absolute name without a slash at its
    end, in which no plain file stands at [./exp] or above it and no
    directory is named [./exp/experiment.cfg], yields exactly two sets,
    named [exp/alpha0.10] and [exp/alpha0.20], each with [iterations = 3] and
    [repetitions = 1]; the directory [./exp] exists afterwards.  In general
    a swept float is rendered as its ['%f'] text in which the run of zeros
    at the end, if there is one, is replaced by a single zero; the ['%f']
    text of a zero is [0.000000] after its sign, which gives [0.0], and
    that of any other finite float below [1e50] in magnitude is its
    fixed-point text with six decimals. *)
Theorem grid_example_expands
  {U} (E : Env) (w : World U) :
  Path.clean (cwd w) ->
  Free w (FS.resolve w "./exp") ->
  Path.join (FS.resolve w "./exp") "experiment.cfg" ∉ dirs w ->
  (exists w',
      expand_param_list E [params_grid] w
      = (Ok [params_grid_sub "0.10" 1; params_grid_sub "0.20" 2], w')
      /\ FS.resolve w "./exp" ∈ dirs w')
  /\ (forall x,
         exists pre k,
           FloatFmt.percent_f x = pre +:+ Str.repeat_char "0" k
           /\ Str.ends_with_char "0" pre = false
           /\ convert_param_to_dirname (VFloat x)
              = Ok (pre +:+ match k with O => "" | _ => "0" end))
  /\ (forall s,
         FloatFmt.percent_f (S754_zero s) = FloatFmt.sign_text s +:+ "0.000000"
         /\ convert_param_to_dirname (VFloat (S754_zero s))
            = Ok (FloatFmt.sign_text s +:+ "0.0"))
  /\ (forall s m e,
         SFleb FloatFmt.big (SFabs (S754_finite s m e)) = false ->
         FloatFmt.percent_f (S754_finite s m e) = FloatFmt.fixed6 s m e).
Proof.
  intros Hcwd Hfree Hnd. split; [|split; [|split]].
  - assert (Hres : forall p, Path.is_abs p = false -> FS.resolve w p = cwd w +:+ "/" +:+ p)
      by (intros p Hp; now apply PathFacts.join_rel).
    destruct (expand_one_prelude E params_grid "exp" "." w) as (w1 & Heq & Hin & _);
      try reflexivity.
    + discriminate.
    + change (Path.join "." "exp") with "./exp". rewrite Hres by reflexivity.
      split.
      * apply PathFacts.is_abs_app, Hcwd.
      * rewrite <- StrFacts.app_assoc. now rewrite StrFacts.ends_with_char_app.
    + change (Path.join (Path.join "." "exp") "experiment.cfg") with "./exp/experiment.cfg".
      change (Path.join "." "exp") with "./exp".
      rewrite !Hres by reflexivity.
      rewrite PathFacts.join_rel; [| | reflexivity].
      * now rewrite !StrFacts.app_assoc.
      * split.
        -- apply PathFacts.is_abs_app, Hcwd.
        -- rewrite <- StrFacts.app_assoc. now rewrite StrFacts.ends_with_char_app.
    + exact Hfree.
    + exact Hnd.
    + exists w1. split; [|exact Hin].
      cbn [expand_param_list]. unfold bind at 1. rewrite Heq.
      unfold bind at 1. cbn [experiment_is PyDict.get params_grid String.eqb Ascii.eqb].
      change (experiment_is params_grid "list") with false.
      change (negb (PyDict.mem "experiment" params_grid) || experiment_is params_grid "grid")
        with true.
      cbn iota. unfold ret at 1.
      rewrite (sub_experiments_any_world _ _ _ w1 world_home).
      unfold bind, ret.
      replace (fst (sub_experiments params_grid (iterparams_of params_grid)
                      (product (map (sweep_values params_grid) (iterparams_of params_grid)))
                      world_home))
        with (Ok [params_grid_sub "0.10" 1; params_grid_sub "0.20" 2] : Result (list Dict))
        by (vm_compute; reflexivity).
      reflexivity.
  - intros x.
    destruct (collapse_zeros_spec (FloatFmt.percent_f x)) as (pre & k & H1 & H2 & H3).
    exists pre, k. repeat split; try assumption.
    cbn [convert_param_to_dirname]. rewrite H3. reflexivity.
  - intros s. split; [reflexivity|]. destruct s; reflexivity.
  - intros s m e Hbig. cbn [FloatFmt.percent_f]. now rewrite Hbig.
Qed.

Lemma grid_example_expands_witness :
  exists w',
    expand_param_list env0 [params_grid] world_home
    = (Ok [params_grid_sub "0.10" 1; params_grid_sub "0.20" 2], w')
    /\ "/home/u/./exp" ∈ dirs w'.
Proof.
  apply (grid_example_expands env0 world_home).
  - split; reflexivity.
  - intros a Ha. vm_compute in Ha.
    repeat (destruct Ha as [<-|Ha]; [reflexivity|]). destruct Ha.
  - intros Hin. apply (bool_decide_pack _) in Hin. vm_compute in Hin. exact Hin.
Defined.

(** C8, where the claim goes wrong: the names.  The fixed-point text of 0.1
    is [0.100000]; its five zeros at the end become one, which gives
    [exp/alpha0.10], not [exp/alpha0.1]. *)
Lemma grid_example_names_counterexample :
  FloatFmt.percent_f (FloatFmt.of_ratio 1 10) = "0.100000"
  /\ convert_param_to_dirname (VFloat (FloatFmt.of_ratio 1 10)) = Ok "0.10"
  /\ map (fun p => PyDict.get p "name")
         (match fst (expand_param_list env0 [params_grid] world_home) with
          | Ok l => l
          | Raise _ => []
          end)
     = [Some (VStr "exp/alpha0.10"); Some (VStr "exp/alpha0.20")]
  /\ VStr "exp/alpha0.10" <> VStr "exp/alpha0.1"
  /\ VStr "exp/alpha0.20" <> VStr "exp/alpha0.2".
Proof.
  vm_compute. repeat split; try reflexivity; intros H; discriminate H.
Qed.

(** C9 (as amended).  Readers: for a log that exists, [haserror] answers
    whether the last line contains the token [exception:error] as a
    substring (the line is some text, the token, some text), and [run_rep]
    drops the last line from the lines it has read under the same test
    before it computes the resume point, which (with [restore_supported =
    True], no forced rerun and a log not complete) is the number of lines
    left.  Writer: when [run_rep] enters its loop at a resume point [R] in a
    directory that exists under an absolute name without a trailing slash
    and that holds no directory, the results of [iterate] before the failing
    index have no space in a key, and [iterate] raises, then [run_rep]
    returns and the log is: what it held (nothing for [R = 0]), the lines of
    the results before the failing index, and the token without a line
    terminator as the last text. *)
Theorem sentinel_written_last_and_read_by_substring
  {U} (S : Suite U) (E : Env) (options : Options) (w : World U)
  (params : Dict) (rep : Z) (name path : string) (n : Z) (text : string) :
  let fullpath := Path.join path name in
  let log := logname_of fullpath rep in
  let lines := Str.readlines text in
  let crashed := exists a b, last lines = Some (a +:+ sentinel +:+ b) in
  ParamsOf params name path n ->
  files w !! FS.resolve w log = Some text ->
  (exists b,
      haserror params rep w = (Ok b, add_events [EvOpen (FS.resolve w log) ModeR] w)
      /\ (b = true <-> crashed))
  /\ (crashed ->
      strip_error_line lines = removelast lines
      /\ counted text = Z.of_nat (length lines) - 1)
  /\ (~ crashed -> strip_error_line lines = lines /\ counted text = Z.of_nat (length lines))
  /\ (restore_supported S = true -> truthy (rerun options) = false -> counted text <> n ->
      fst (resume_point S E options params log w) = Ok (Some (counted text)))
  /\ (forall R k exc (w0 w1 : World U),
         let u0 := start_state S params rep R (user w1) in
         let out := results S params rep (xrange R k) u0 in
         resume_point S E options params log w0 = (Ok (Some R), w1) ->
         Ready w1 fullpath -> NoSubdir w1 fullpath ->
         failure S params rep (xrange R n) u0 = Some (k, exc) ->
         Forall (fun d => spaceless d = true) out ->
         exists w',
           run_rep S E options params rep w0 = (Ok RetNone, w')
           /\ files w' !! log
              = Some ((if R =? 0 then "" else default "" (files w1 !! log))
                        +:+ Str.join_all (map (log_line E) out) +:+ sentinel)).
Proof.
  intros fullpath log lines crashed HP Hf.
  assert (Hn : PyDict.get params "iterations" = Some (VInt n)) by apply HP.
  assert (Hcr : ends_in_crash lines = true <-> crashed).
  { unfold ends_in_crash, crashed. destruct (last lines) as [l|].
    - split.
      + intros H. apply ContainsFacts.contains_split in H as (a & b & ->). eauto.
      + intros (a & b & [= ->]). apply ContainsFacts.contains_mid.
    - split; [discriminate | intros (a & b & [=])]. }
  assert (Hstrip : strip_error_line lines
                   = if ends_in_crash lines then removelast lines else lines).
  { unfold strip_error_line, ends_in_crash. destruct (last lines) as [l|]; reflexivity. }
  split; [|split; [|split; [|split]]].
  - exists (ends_in_crash lines). split; [|exact Hcr].
    exact (haserror_spec _ _ _ _ _ _ _ HP Hf).
  - intros Hc. apply Hcr in Hc. unfold counted. fold lines.
    rewrite length_strip, Hstrip, Hc. split; reflexivity.
  - intros Hc. destruct (ends_in_crash lines) eqn:He; [exfalso; now apply Hc, Hcr|].
    unfold counted. fold lines. rewrite length_strip, Hstrip, He. split; [reflexivity | lia].
  - intros Hs Hr Hne. unfold log.
    now rewrite (resume_point_auto S E options params rep fullpath n Hn text w Hf Hs Hr).
  - intros R k exc w0 w1 u0 out Hrp HR HN Hfail Hsp.
    destruct (run_rep_crash_contained S E options params rep name path n R k exc w0 w1
                HP Hrp HR HN Hfail Hsp) as (w' & Hrun & _ & [_ Hl _ _] & _).
    exists w'. split; [exact Hrun|].
    fold fullpath log in Hl. rewrite Hl. reflexivity.
Qed.

Lemma sentinel_written_last_and_read_by_substring_witness :
  haserror (params_exp "/data" 3) 0 world_crashed
  = (Ok true, add_events [EvOpen "/data/exp/0.log" ModeR] world_crashed)
  /\ fst (resume_point resumable_suite env0 (options0 None) (params_exp "/data" 3)
            "/data/exp/0.log" world_crashed) = Ok (Some 1).
Proof.
  destruct (sentinel_written_last_and_read_by_substring resumable_suite env0 (options0 None)
              world_crashed (params_exp "/data" 3) 0 "exp" "/data" 3
              (ln "iteration:0 repetition:0" +:+ sentinel))
    as ((b & H1 & Hb) & _ & _ & H4 & _).
  - repeat split; reflexivity.
  - reflexivity.
  - split.
    + rewrite H1. f_equal. f_equal. apply Hb. exists "", "". reflexivity.
    + apply H4; [reflexivity | reflexivity |].
      vm_compute. intros H. discriminate H.
Defined.

(** C9, where the claim goes wrong.  Readers: a last line that is a result
    line, not the lone token, is taken for the sentinel because the token
    occurs inside it.  And the sentinel does not stay the last line: a
    resumed run appends right after the token, which the reader had dropped
    from the lines in memory only. *)
Lemma sentinel_by_substring_counterexample :
  let text := ln "a:1" +:+ ln "myexception:errors" in
  let p := params_exp "/data" 3 in
  last (Str.readlines text) = Some (ln "myexception:errors")
  /\ ln "myexception:errors" <> sentinel
  /\ ln "myexception:errors" <> ln sentinel
  /\ fst (haserror p 0 world_tricky) = Ok true
  /\ strip_error_line (Str.readlines text) = [ln "a:1"]
  /\ files (snd (run_rep resumable_suite env0 (options0 None) p 0 world_crashed))
       !! "/data/exp/0.log"
     = Some (ln "iteration:0 repetition:0" +:+ sentinel
               +:+ ln "iteration:1 repetition:0" +:+ ln "iteration:2 repetition:0").
Proof.
  vm_compute. repeat split; try reflexivity; intros H; discriminate H.
Qed.

(** C10 (as amended).  A forced-rerun target of 0 is the same as no forced
    rerun: for every world, [run_rep] with [rerun = 0] does what [run_rep]
    without the option does.  For a log that exists, the repetition is
    skipped exactly when the lines that count, those left after a last line
    holding the token [exception:error] has been dropped, are as many as
    [iterations]; when it is skipped the log has been opened for reading and
    nothing else has happened: no backup, no truncation, no call of
    [restore_state].  A log that holds [iterations] lines is therefore
    skipped exactly when its last line does not hold the token. *)
Theorem rerun_zero_is_no_rerun
  {U} (S : Suite U) (E : Env) (c : Z) (d : bool) (w : World U) (params : Dict) (rep : Z)
  (name path : string) (n : Z) (text : string) :
  let log := FS.resolve w (logname_of (Path.join path name) rep) in
  let zero := {| ncores := c; delete := d; rerun := Some 0 |} in
  ParamsOf params name path n ->
  files w !! log = Some text ->
  (forall (v : World U) params' rep',
      run_rep S E zero params' rep' v
      = run_rep S E {| ncores := c; delete := d; rerun := None |} params' rep' v)
  /\ (counted text = n ->
      run_rep S E zero params rep w = (Ok RetFalse, add_events [EvOpen log ModeR] w))
  /\ (counted text <> n -> fst (run_rep S E zero params rep w) <> Ok RetFalse)
  /\ (Z.of_nat (length (Str.readlines text)) = n ->
      (counted text = n <-> ends_in_crash (Str.readlines text) = false)).
Proof.
  intros log zero HP Hf. split; [|split; [|split]].
  - reflexivity.
  - intros Hc.
    assert (Hd : is_done w (params, rep) = true).
    { unfold is_done. cbn [fst snd]. destruct HP as (Hname & Hpath & Hn).
      rewrite Hname, Hpath, Hn. fold log. rewrite Hf. now apply Z.eqb_eq. }
    rewrite (run_rep_done S E zero params rep w eq_refl Hd).
    unfold item_log. cbn [fst snd]. destruct HP as (Hname & Hpath & _).
    now rewrite Hname, Hpath.
  - intros Hc. exact (run_rep_not_skipped S E zero params rep name path n text w HP eq_refl Hf Hc).
  - intros Hlen. unfold counted. rewrite length_strip.
    destruct (ends_in_crash (Str.readlines text)); split; intros H;
      first [reflexivity | lia | discriminate H].
Qed.

Lemma rerun_zero_is_no_rerun_witness :
  run_rep base_suite env0 (options0 (Some 0)) (params_exp "/data" 3) 0 world_done
  = (Ok RetFalse, add_events [EvOpen "/data/exp/0.log" ModeR] world_done).
Proof.
  destruct (rerun_zero_is_no_rerun base_suite env0 1 false world_done (params_exp "/data" 3) 0
              "exp" "/data" 3 log3) as (_ & H & _).
  - repeat split; reflexivity.
  - reflexivity.
  - apply H. reflexivity.
Defined.

(** C10, where the claim goes wrong: a log that holds [iterations] lines of
    which the last is the token.  With [iterations = 2], a first line and
    the token, the repetition is not skipped under [rerun = 0]: the line of
    the token does not count, [restore_state] is called with 1 and
    [iterate] with 1, and the log grows. *)
Lemma rerun_zero_crashed_log_counterexample :
  let p := params_exp "/data" 2 in
  let text := ln "iteration:0 repetition:0" +:+ sentinel in
  let r := run_rep resumable_suite env0 (options0 (Some 0)) p 0 world_crashed in
  files world_crashed !! "/data/exp/0.log" = Some text
  /\ length (Str.readlines text) = 2%nat
  /\ PyDict.get p "iterations" = Some (VInt 2)
  /\ fst r = Ok RetNone
  /\ fst r <> Ok RetFalse
  /\ restored (trace (snd r)) = [(p, 0, 1)]
  /\ iterated (trace (snd r)) = [(p, 0, 1)]
  /\ opened "/data/exp/0.log" (trace (snd r)) = [ModeR; ModeA]
  /\ files (snd r) !! "/data/exp/0.log" = Some (text +:+ ln "iteration:1 repetition:0").
Proof.
  vm_compute. repeat split; try reflexivity. intros H. discriminate H.
Qed.

(* ===================================================================== *)
(** * Further properties *)
(* ===================================================================== *)

Module LineFacts.
Import Str StrFacts.

Lemma readlines_no_nl (x : string) :
  has_char nl x = false -> x <> "" -> readlines x = [x].
Proof.
  induction x as [|c r IH]; intros H Hne; [congruence|].
  simpl in H. apply orb_false_iff in H as [Hc Hr].
  simpl. rewrite Hc.
  destruct r as [|d r'].
  - reflexivity.
  - rewrite IH by (auto; discriminate). reflexivity.
Qed.

Lemma readlines_line (x : string) :
  has_char nl x = false -> readlines (x +:+ of_char nl) = [x +:+ of_char nl].
Proof.
  induction x as [|c r IH]; intros H.
  - reflexivity.
  - simpl in H. apply orb_false_iff in H as [Hc Hr].
    rewrite app_cons. simpl. rewrite Hc, IH by exact Hr. reflexivity.
Qed.

Lemma ends_with_nl (x : string) : ends_with_char nl (x +:+ of_char nl) = true.
Proof. rewrite ends_with_char_app by discriminate. reflexivity. Qed.

Lemma readlines_lines (l : list string) :
  Forall (fun x => has_char nl x = false) l ->
  readlines (join_all (map (fun x => x +:+ of_char nl) l)) = map (fun x => x +:+ of_char nl) l.
Proof.
  induction 1 as [|x l Hx Hl IH]; [reflexivity|].
  cbn [map join_all]. rewrite readlines_app by apply ends_with_nl.
  rewrite readlines_line by exact Hx. rewrite IH. reflexivity.
Qed.

End LineFacts.

Section More.
Context {U : Type}.
Variable S : Suite U.
Variable E : Env.
Variable options : Options.
Import Str StrFacts Path PathFacts LineFacts.

Lemma length_xrange a b : length (xrange a b) = Z.to_nat (b - a).
Proof. unfold xrange. now rewrite length_map, length_seq. Qed.

Lemma xrange_snoc a b : a < b -> xrange a b = xrange a (b - 1) ++ [b - 1].
Proof.
  intros H. rewrite (xrange_split a (b - 1) b) by lia. f_equal.
  rewrite xrange_cons by lia. rewrite xrange_nil by lia. reflexivity.
Qed.

Lemma readlines_log_lines (out : list Dict) :
  Forall (one_line E) out ->
  readlines (join_all (map (log_line E) out)) = map (log_line E) out.
Proof.
  intros H.
  pose proof (readlines_lines (map (fun d => outstr E (renamed d)) out)) as HL.
  rewrite map_map in HL. apply HL.
  apply List.Forall_forall. intros x Hx. apply in_map_iff in Hx as (d & <- & Hd).
  rewrite List.Forall_forall in H. destruct (H d Hd) as [Hs Hl].
  now rewrite renamed_spaceless.
Qed.

Lemma one_line_spaceless (out : list Dict) :
  Forall (one_line E) out -> Forall (fun d => spaceless d = true) out.
Proof. intros H. eapply Forall_impl; [exact H|]. now intros d [? _]. Qed.

(** a repetition without a log, run to its end *)
Lemma fresh_run_log params rep name path n (w : World U) :
  let u0 := start_state S params rep 0 (user w) in
  let out := results S params rep (xrange 0 n) u0 in
  ParamsOf params name path n ->
  Ready w (Path.join path name) ->
  NoSubdir w (Path.join path name) ->
  files w !! logname_of (Path.join path name) rep = None ->
  failure S params rep (xrange 0 n) u0 = None ->
  Forall (fun d => spaceless d = true) out ->
  exists w',
    run_rep S E options params rep w = (Ok RetNone, w')
    /\ Ran params rep (Path.join path name) 0 w w' (join_all (map (log_line E) out)) n
    /\ user w' = state_after S params rep (xrange 0 n) u0.
Proof.
  intros u0 out HP HR HN Hf Hfail Hsp.
  assert (Hcl : clean (Path.join path name)) by apply HR.
  assert (Hn : PyDict.get params "iterations" = Some (VInt n)) by apply HP.
  assert (Hd : logname_of (Path.join path name) rep ∉ dirs w).
  { apply nosub_inside; auto using log_base_rel, log_base_no_slash. }
  pose proof (resume_point_fresh S E options params rep (Path.join path name) w) as Hrp.
  rewrite resolve_abs in Hrp by (apply log_abs, Hcl). specialize (Hrp Hf Hd).
  destruct (run_from_returns S E params rep (Path.join path name) n Hn 0 w HR HN Hfail Hsp)
    as (w' & Hrun & HRan & Hu).
  exists w'. split; [|split; [exact HRan | exact Hu]].
  rewrite (run_rep_from S E options _ _ _ _ _ _ _ _ HP Hrp). exact Hrun.
Qed.

(** a repetition without a log in which [iterate] raises at the index [k] *)
Lemma fresh_crash_log params rep name path n k exc (w : World U) :
  let u0 := start_state S params rep 0 (user w) in
  let out := results S params rep (xrange 0 k) u0 in
  ParamsOf params name path n ->
  Ready w (Path.join path name) ->
  NoSubdir w (Path.join path name) ->
  files w !! logname_of (Path.join path name) rep = None ->
  failure S params rep (xrange 0 n) u0 = Some (k, exc) ->
  Forall (fun d => spaceless d = true) out ->
  exists w',
    run_rep S E options params rep w = (Ok RetNone, w')
    /\ 0 <= k < n
    /\ Ran params rep (Path.join path name) 0 w w'
           (join_all (map (log_line E) out) +:+ sentinel) (k + 1)
    /\ exists t, files w' !! Path.join (Path.join path name) (exception_name t)
                 = Some (report_text exc).
Proof.
  intros u0 out HP HR HN Hf Hfail Hsp.
  assert (Hcl : clean (Path.join path name)) by apply HR.
  assert (Hd : logname_of (Path.join path name) rep ∉ dirs w).
  { apply nosub_inside; auto using log_base_rel, log_base_no_slash. }
  pose proof (resume_point_fresh S E options params rep (Path.join path name) w) as Hrp.
  rewrite resolve_abs in Hrp by (apply log_abs, Hcl). specialize (Hrp Hf Hd).
  exact (run_rep_crash_contained S E options params rep name path n 0 k exc w w
           HP Hrp HR HN Hfail Hsp).
Qed.

Lemma complete_of_lines params rep name path n (out : list Dict) (w : World U) :
  ParamsOf params name path n ->
  clean (Path.join path name) ->
  Z.of_nat (length out) = n ->
  files w !! logname_of (Path.join path name) rep = Some (join_all (map (log_line E) out)) ->
  Forall (one_line E) out ->
  (forall d, last out = Some d -> contains sentinel (log_line E d) = false) ->
  is_complete w (params, rep) = true
  /\ item_log w (params, rep) = logname_of (Path.join path name) rep.
Proof.
  intros (Hname & Hpath & Hn) Hcl Hlen Hf Hline Hlast.
  unfold is_complete, item_log. cbn [fst snd]. rewrite Hname, Hpath, Hn.
  rewrite resolve_abs by (apply log_abs, Hcl). rewrite Hf.
  split; [|reflexivity].
  rewrite readlines_log_lines by exact Hline.
  rewrite length_map. apply andb_true_iff. split.
  - now apply Z.eqb_eq.
  - apply negb_true_iff. unfold ends_in_crash.
    destruct out as [|d out _] using rev_ind; [reflexivity|].
    rewrite map_app. cbn [map]. rewrite last_snoc. apply Hlast. apply last_snoc.
Qed.

End More.

(** X1. Take an experiment path that is absolute and has no slash at its
    end, whose directory exists and holds no directory, and a repetition
    without a log.  When [iterate], called in turn from the state [reset]
    leaves, returns for every index, each result giving one line of text (no
    space in a key, no line break in a key or value) and the last line not
    holding the crash token, then [run_rep] calls [iterate] for
    [0 .. iterations-1], the log then holds exactly [iterations] lines, the
    lines of the results, the repetition counts as complete, and a second
    [run_rep] (no forced rerun) only reads the log and returns [False]. *)
Theorem finished_repetition_is_skipped_next_time
  {U} (S : Suite U) (E : Env) (options : Options) (w : World U)
  (params : Dict) (rep : Z) (name path : string) (n : Z) :
  let fullpath := Path.join path name in
  let log := logname_of fullpath rep in
  let u0 := start_state S params rep 0 (user w) in
  let out := results S params rep (xrange 0 n) u0 in
  let text := Str.join_all (map (log_line E) out) in
  ParamsOf params name path n ->
  Ready w fullpath ->
  NoSubdir w fullpath ->
  files w !! log = None ->
  0 <= n ->
  failure S params rep (xrange 0 n) u0 = None ->
  Forall (fun d => spaceless d = true /\ Str.has_char Str.nl (outstr E d) = false) out ->
  (forall d, last out = Some d -> Str.contains sentinel (log_line E d) = false) ->
  exists w',
    run_rep S E options params rep w = (Ok RetNone, w')
    /\ files w' !! log = Some text
    /\ Str.readlines text = map (log_line E) out
    /\ Z.of_nat (length (Str.readlines text)) = n
    /\ iterated (trace w') = iterated (trace w) ++ map (fun it => (params, rep, it)) (xrange 0 n)
    /\ is_complete w' (params, rep) = true
    /\ (truthy (rerun options) = false ->
        run_rep S E options params rep w' = (Ok RetFalse, add_events [EvOpen log ModeR] w')).
Proof.
  intros fullpath log u0 out text HP HR HN Hf Hn0 Hfail Hline Hlast.
  destruct (fresh_run_log S E options params rep name path n w HP HR HN Hf Hfail
              (one_line_spaceless E _ Hline))
    as (w' & Hrun & [_ Hl _ (evs & Ht & Hi & _)] & _).
  cbn [Z.eqb] in Hl. rewrite StrFacts.app_nil_l in Hl. fold fullpath log u0 out text in Hl.
  assert (Hlen : Z.of_nat (length out) = n).
  { destruct (failure_none S params rep _ _ Hfail) as [_ H]. fold u0 out in H.
    rewrite H, length_xrange. lia. }
  destruct (complete_of_lines E params rep name path n out w' HP (proj1 HR) Hlen Hl Hline Hlast)
    as [Hc Hitem].
  exists w'. repeat split.
  - exact Hrun.
  - exact Hl.
  - now apply readlines_log_lines.
  - unfold text. rewrite (readlines_log_lines E out Hline). now rewrite length_map.
  - now rewrite Ht, iterated_app, Hi.
  - exact Hc.
  - intros Hr. rewrite (run_rep_complete S E options params rep w' Hr Hc).
    fold fullpath log in Hitem. now rewrite Hitem.
Qed.

Lemma finished_repetition_is_skipped_next_time_witness :
  exists w',
    run_rep base_suite env0 (options0 None) (params_exp "/data" 3) 0 world_fresh = (Ok RetNone, w')
    /\ files w' !! "/data/exp/0.log" = Some log3
    /\ run_rep base_suite env0 (options0 None) (params_exp "/data" 3) 0 w'
       = (Ok RetFalse, add_events [EvOpen "/data/exp/0.log" ModeR] w').
Proof.
  destruct (finished_repetition_is_skipped_next_time base_suite env0 (options0 None) world_fresh
              (params_exp "/data" 3) 0 "exp" "/data" 3)
    as (w' & H1 & H2 & _ & _ & _ & _ & H3).
  - repeat split; reflexivity.
  - repeat split; reflexivity.
  - no_subdir.
  - reflexivity.
  - lia.
  - reflexivity.
  - repeat constructor.
  - intros d Hd. vm_compute in Hd. injection Hd as <-. reflexivity.
  - exists w'. split; [exact H1 | split; [exact H2 | apply H3; reflexivity]].
Defined.








Lemma length_product {A} (ls : list (list A)) : length (product ls) = combinations ls.
Proof.
  induction ls as [|l r IH]; [reflexivity|].
  cbn [product combinations fold_right]. fold (combinations r). rewrite <- IH.
  induction l as [|x l IHl]; [reflexivity|].
  cbn [flat_map]. rewrite List.length_app, length_map, IHl. simpl. reflexivity.
Qed.

Lemma In_product {A} (ls : list (list A)) il :
  In il (product ls) <-> Forall2 (fun x l => In x l) il ls.
Proof.
  revert il. induction ls as [|l r IH]; intros il.
  - simpl. split.
    + intros [<-|[]]. constructor.
    + intros H. inversion H. now left.
  - cbn [product]. rewrite in_flat_map. split.
    + intros (x & Hx & Hin). apply in_map_iff in Hin as (t & <- & Ht).
      constructor; [exact Hx | now apply IH].
    + intros H. inversion H as [|x l' il' r' Hx Hrest]; subst.
      exists x. split; [exact Hx|]. apply in_map_iff. exists il'. split; [reflexivity|].
      now apply IH.
Qed.

Lemma product_empty {A} (ls : list (list A)) : In [] ls -> product ls = [].
Proof.
  induction ls as [|l r IH]; intros H; [destruct H|].
  destruct H as [->|H]; [reflexivity|].
  cbn [product]. rewrite (IH H). induction l; [reflexivity|]. simpl. exact IHl.
Qed.

Section Expand.
Context {U : Type}.
Variable E : Env.
Import Str StrFacts Path PathFacts.

Lemma experiment_is_absent params mode :
  PyDict.mem "experiment" params = false -> experiment_is params mode = false.
Proof.
  unfold PyDict.mem, experiment_is. destruct (PyDict.get params "experiment"); [discriminate|reflexivity].
Qed.

Lemma experiment_is_one params a b :
  experiment_is params a = true -> String.eqb a b = false -> experiment_is params b = false.
Proof.
  unfold experiment_is. destruct (PyDict.get params "experiment") as [[| | |s| |]|]; try discriminate.
  intros H Hab. apply String.eqb_eq in H. subst s. exact Hab.
Qed.

(** the world after the directory of the set has been made and its snapshot
    written: [expand_one_prelude] for an absolute path *)
Lemma expand_one_snapshot params name path (w : World U) :
  let d := Path.join path name in
  let cfg := Path.join d "experiment.cfg" in
  PyDict.get params "name" = Some (VStr name) ->
  PyDict.get params "path" = Some (VStr path) ->
  experiment_is params "single" = false ->
  iterparams_of params <> [] ->
  String.eqb (lower name) "default" = false ->
  clean d ->
  Free w d ->
  cfg ∉ dirs w ->
  exists w1,
    expand_one E params w
    = bind (if experiment_is params "list" then ret (@izip PyVal)
            else if negb (PyDict.mem "experiment" params) || experiment_is params "grid"
                 then ret (@product PyVal)
            else raise (SystemExit
                   ("unexpected value '"
                      +:+ PyText.str (float_text E) (default VNone (PyDict.get params "experiment"))
                      +:+ "' for parameter 'experiment'. Use 'grid', 'list' or 'single'.")))
           (fun iterfunc =>
              sub_experiments params (iterparams_of params)
                              (iterfunc (map (sweep_values params) (iterparams_of params)))) w1
    /\ d ∈ dirs w1
    /\ dirs w ⊆ dirs w1
    /\ (forall q, q ∈ dirs w1 -> q ∈ dirs w \/ In q (d :: Path.ancestors (String.length d) d))
    /\ files w1 = <[cfg := cfg_text E name (config_options params)]> (files w)
    /\ cwd w1 = cwd w
    /\ hook_calls (trace w1) = hook_calls (trace w).
Proof.
  intros d cfg Hname Hpath Hsingle Hips Hdef Hcl Hfree Hnd.
  assert (Hres : forall p, is_abs p = true -> FS.resolve w p = p)
    by (intros; now apply resolve_abs).
  destruct (expand_one_prelude E params name path w)
    as (w1 & Heq & Hin & Hsub & Hnew & Hfiles & Hcwd & _ & Hq); auto.
  - rewrite Hres by apply Hcl. exact Hcl.
  - rewrite !Hres; [reflexivity | apply Hcl | now apply is_abs_join].
  - rewrite Hres by apply Hcl. exact Hfree.
  - rewrite Hres by apply Hcl. exact Hnd.
  - rewrite Hres in Hin, Hnew, Hfiles by apply Hcl.
    exists w1. repeat split; assumption.
Qed.

End Expand.


(** X4. Grid mode (the key [experiment] absent or equal to [grid]).  Take a
    parameter set with distinct keys, a string as name (other than
    [default]) and a string as path, at least one list-valued parameter,
    swept values that are strings or numbers ['%f'] accepts, and a
    directory that can be made: an absolute path without a slash at its end,
    no plain file at it or above it, and no directory named like its
    snapshot.  It expands to one set for every combination of the items of
    its lists, as many as the product of the lengths and in the order of
    [itertools.product] (the last list varies fastest); a parameter whose
    list is empty therefore makes the whole set vanish from the batch.  The
    set of a combination has the keys of the parameter set; every swept key
    holds its item of the combination, [name] holds the old name, a slash
    and the text of the pairs of swept key and directory text, and every
    other key holds what it held.  The directory of the unexpanded set
    exists afterwards and its snapshot is written; no other file changes. *)
Theorem grid_mode_takes_every_combination
  {U} (E : Env) (w : World U) (params : Dict) (name path : string) :
  let ips := iterparams_of params in
  let seqs := map (sweep_values params) ips in
  let d := Path.join path name in
  let cfg := Path.join d "experiment.cfg" in
  PyDict.get params "name" = Some (VStr name) ->
  PyDict.get params "path" = Some (VStr path) ->
  NoDup (PyDict.keys params) ->
  PyDict.mem "experiment" params = false \/ experiment_is params "grid" = true ->
  ips <> [] ->
  forallb (forallb convertible) seqs = true ->
  String.eqb (Str.lower name) "default" = false ->
  Path.clean d ->
  Free w d ->
  cfg ∉ dirs w ->
  exists subs w',
    expand_one E params w = (Ok subs, w')
    /\ length subs = combinations seqs
    /\ Forall2 (SubOf params name ips) (product seqs) subs
    /\ (forall il, In il (product seqs) <-> Forall2 (fun x l => In x l) il seqs)
    /\ (forall l r, product (l :: r) = flat_map (fun x : PyVal => map (cons x) (product r)) l)
    /\ (In [] seqs -> subs = [])
    /\ d ∈ dirs w'
    /\ files w' = <[cfg := cfg_text E name (config_options params)]> (files w).
Proof.
  intros ips seqs d cfg Hname Hpath Hnd Hmode Hips Hconv Hdef Hcl Hfree Hcfg.
  assert (Hsingle : experiment_is params "single" = false).
  { destruct Hmode as [H|H]; [now apply experiment_is_absent|].
    now apply (experiment_is_one params "grid" "single"). }
  assert (Hlist : experiment_is params "list" = false).
  { destruct Hmode as [H|H]; [now apply experiment_is_absent|].
    now apply (experiment_is_one params "grid" "list"). }
  destruct (expand_one_snapshot E params name path w)
    as (w1 & Heq & Hin & _ & _ & Hfiles & _); auto.
  rewrite Hlist in Heq.
  replace (negb (PyDict.mem "experiment" params) || experiment_is params "grid") with true in Heq
    by (destruct Hmode as [-> | ->]; [reflexivity | now rewrite orb_true_r]).
  unfold bind at 1 in Heq. unfold ret at 1 in Heq. fold ips seqs in Heq.
  destruct (sub_experiments_of params name (product seqs) w1 Hname Hnd)
    as (subs & Hs & Hl & Hf).
  { intros il Hil. apply In_product in Hil. split.
    - apply forallb_forall. intros x Hx.
      rewrite forallb_forall in Hconv.
      clear - Hil Hx Hconv. induction Hil as [|y l il' ls' Hy Hrest IH]; [destruct Hx|].
      destruct Hx as [->|Hx].
      + specialize (Hconv l (or_introl eq_refl)). rewrite forallb_forall in Hconv.
        now apply Hconv.
      + apply IH; [|exact Hx]. intros l' Hl'. apply Hconv. now right.
    - rewrite (Forall2_length _ _ _ Hil). unfold seqs. now rewrite length_map. }
  fold ips in Hs, Hf. rewrite Hs in Heq.
  exists subs, w1. split; [exact Heq|]. split; [|split; [|split; [|split; [|split; [|split]]]]].
  - now rewrite Hl, length_product.
  - exact Hf.
  - intros il. apply In_product.
  - reflexivity.
  - intros Hempty. rewrite (product_empty seqs Hempty) in Hl.
    destruct subs; [reflexivity | discriminate].
  - exact Hin.
  - exact Hfiles.
Qed.

Lemma grid_mode_takes_every_combination_witness :
  exists subs w',
    expand_one env0 params_grid_two world_home = (Ok subs, w')
    /\ length subs = 6%nat
    /\ map (fun p => PyDict.get p "name") subs
       = map (fun s => Some (VStr s))
             ["exp/alpha1.0betaa"; "exp/alpha1.0betab"; "exp/alpha1.0betac";
              "exp/alpha2.0betaa"; "exp/alpha2.0betab"; "exp/alpha2.0betac"].
Proof.
  destruct (grid_mode_takes_every_combination env0 world_home params_grid_two "exp" "/data")
    as (subs & w' & H1 & H2 & _).
  - reflexivity.
  - reflexivity.
  - apply (bool_decide_unpack _). vm_compute. exact I.
  - left. reflexivity.
  - discriminate.
  - reflexivity.
  - reflexivity.
  - split; reflexivity.
  - intros a Ha. vm_compute in Ha.
    repeat (destruct Ha as [<-|Ha]; [reflexivity|]). destruct Ha.
  - intros Hin. apply (bool_decide_pack _) in Hin. vm_compute in Hin. exact Hin.
  - exists subs, w'. split; [exact H1|]. split; [exact H2|].
    assert (Hc : fst (expand_one env0 params_grid_two world_home) = Ok subs) by now rewrite H1.
    vm_compute in Hc. injection Hc as <-. reflexivity.
Defined.

(** X5. A value of [experiment] other than [single], [list] and [grid] goes
    unnoticed when the set has no list-valued parameter (the set is passed
    on, nothing is made).  Otherwise, for a set with a string as name
    (other than [default]) and a string as path whose directory can be made
    (an absolute path without a slash at its end, no plain file at it or
    above it, no directory named like its snapshot), [expand_param_list]
    raises [SystemExit] with the message of the source, but only after the
    directory of the set was made and its snapshot written. *)
Theorem unknown_mode_exits_after_the_snapshot
  {U} (E : Env) (w : World U) (params : Dict) (name path : string) :
  let d := Path.join path name in
  let cfg := Path.join d "experiment.cfg" in
  PyDict.get params "name" = Some (VStr name) ->
  PyDict.get params "path" = Some (VStr path) ->
  PyDict.mem "experiment" params = true ->
  experiment_is params "single" = false ->
  experiment_is params "list" = false ->
  experiment_is params "grid" = false ->
  String.eqb (Str.lower name) "default" = false ->
  Path.clean d ->
  Free w d ->
  cfg ∉ dirs w ->
  (iterparams_of params = [] -> expand_one E params w = (Ok [params], w))
  /\ (iterparams_of params <> [] ->
      exists w',
        expand_one E params w = (Raise (SystemExit (unexpected_mode E params)), w')
        /\ d ∈ dirs w'
        /\ files w' = <[cfg := cfg_text E name (config_options params)]> (files w)
        /\ forall later, fst (expand_param_list E (params :: later) w)
                         = Raise (SystemExit (unexpected_mode E params))).
Proof.
  intros d cfg Hname Hpath Hmem Hsingle Hlist Hgrid Hdef Hcl Hfree Hnd. split.
  - intros Hips. unfold expand_one. now rewrite Hsingle, Hips.
  - intros Hips.
    destruct (expand_one_snapshot E params name path w)
      as (w1 & Heq & Hin & _ & _ & Hfiles & _); auto.
    rewrite Hlist, Hmem, Hgrid in Heq. cbn [negb orb] in Heq.
    unfold bind at 1 in Heq. unfold raise at 1 in Heq.
    exists w1. split; [exact Heq|]. split; [exact Hin|]. split; [exact Hfiles|].
    intros later. cbn [expand_param_list]. unfold bind at 1. now rewrite Heq.
Qed.

Lemma unknown_mode_exits_after_the_snapshot_witness :
  exists w',
    expand_one env0 params_mode_typo world_home
    = (Raise (SystemExit "unexpected value 'Grid' for parameter 'experiment'. Use 'grid', 'list' or 'single'."),
       w')
    /\ is_Some (files w' !! "/data/exp/experiment.cfg").
Proof.
  destruct (unknown_mode_exits_after_the_snapshot env0 world_home params_mode_typo "exp" "/data")
    as [_ H]; try reflexivity.
  - split; reflexivity.
  - intros a Ha. vm_compute in Ha.
    repeat (destruct Ha as [<-|Ha]; [reflexivity|]). destruct Ha.
  - intros Hin. apply (bool_decide_pack _) in Hin. vm_compute in Hin. exact Hin.
  - destruct H as (w' & H1 & _ & H3 & _); [discriminate|].
    exists w'. split; [exact H1|]. rewrite H3. rewrite lookup_insert_eq. eauto.
Defined.

(** X6. Sets that are marked [single] or hold no list-valued parameter pass
    [expand_param_list] unchanged and in order, and nothing is done to the
    file system: no directory, no snapshot.  A list inside a [single] set
    stays a list. *)
Theorem plain_sets_pass_unchanged
  {U} (E : Env) (w : World U) (paramlist : list Dict) :
  forallb plain paramlist = true ->
  expand_param_list E paramlist w = (Ok paramlist, w).
Proof.
  revert w. induction paramlist as [|p r IH]; intros w H; [reflexivity|].
  cbn [forallb] in H. apply andb_true_iff in H as [Hp Hr].
  cbn [expand_param_list]. unfold bind at 1.
  assert (Hone : expand_one E p w = (Ok [p], w)).
  { unfold expand_one. unfold plain in Hp.
    destruct (experiment_is p "single"); [reflexivity|].
    cbn [orb] in Hp. destruct (iterparams_of p); [reflexivity | discriminate]. }
  rewrite Hone. unfold bind at 1. rewrite (IH w Hr). reflexivity.
Qed.

Lemma plain_sets_pass_unchanged_witness :
  expand_param_list env0 [params_exp "/data" 3; params_single_sweep] world_home
  = (Ok [params_exp "/data" 3; params_single_sweep], world_home).
Proof.
  apply (plain_sets_pass_unchanged env0 world_home [params_exp "/data" 3; params_single_sweep]).
  reflexivity.
Defined.



(** X7. [mkdir] raises [OSError] for the empty name.  For any other name it
    does nothing when anything, a directory or a plain file, already has
    the name; when nothing has the name, it raises [OSError] and makes
    nothing if a name above it is that of a plain file, and otherwise makes
    the directory and the directories above it (its parent among them):
    afterwards the directories are those there were, the name and the names
    above it, no file is touched, the working directory is the same, and a
    second call changes nothing. *)
Theorem mkdir_makes_what_is_missing
  {U} (w : World U) (p : string) :
  let d := FS.resolve w p in
  let above := Path.ancestors (String.length d) d in
  (p = "" -> mkdir p w = (Raise (OSError d), w))
  /\ (p <> "" -> is_Some (files w !! d) \/ d ∈ dirs w -> mkdir p w = (Ok tt, w))
  /\ (files w !! d = None -> d ∉ dirs w ->
      (exists a, In a above /\ is_Some (files w !! a)) ->
      mkdir p w = (Raise (OSError d), w))
  /\ (p <> "" -> files w !! d = None -> d ∉ dirs w ->
      (forall a, In a above -> files w !! a = None) ->
      exists w',
        mkdir p w = (Ok tt, w')
        /\ d ∈ dirs w'
        /\ (d <> "" -> Path.dirname d <> d -> Path.dirname d <> "" -> Path.dirname d ∈ dirs w')
        /\ (forall q, q ∈ dirs w' <-> q ∈ dirs w \/ q = d \/ In q above)
        /\ files w' = files w
        /\ cwd w' = cwd w
        /\ mkdir p w' = (Ok tt, w')).
Proof.
  intros d above. split; [|split; [|split]].
  - intros ->. apply mkdir_empty.
  - apply mkdir_there.
  - intros Hf Hd Hbad. apply mkdir_blocked; [exact Hf | exact Hd | now right].
  - intros Hp Hf Hd Habove.
    assert (Hfree : Free w d).
    { intros a [<-|Ha]; [exact Hf | now apply Habove]. }
    rewrite (mkdir_missing p w Hp Hfree Hd). fold d above.
    eexists. split; [reflexivity|].
    destruct w as [f dd c u k t tr]. cbn [dirs files cwd emit set_dirs] in *.
    split; [set_solver|]. split; [|split; [|split; [reflexivity|split; [reflexivity|]]]].
    + intros Hne H1 H2. unfold above. destruct d as [|a r] eqn:Hdd; [congruence|].
      cbn [String.length Path.ancestors].
      apply String.eqb_neq in H1, H2. rewrite H1, H2. cbn [orb].
      set_solver.
    + intros q. rewrite !elem_of_union, elem_of_singleton, elem_of_list_to_set, list_elem_of_In.
      tauto.
    + apply mkdir_there; [exact Hp|]. right. unfold FS.resolve. cbn [cwd dirs].
      fold (FS.resolve (mkWorld f dd c u k t tr) p). fold d. set_solver.
Qed.


(** X8. [create_dir], for a parameter set with a string as name (other than
    [default]) and a string as path, an absolute directory name without a
    slash at its end, no plain file at the directory name or above it, no
    directory named like the snapshot, and, when files are deleted, a
    directory name the shell reads literally: it makes the directory (with
    the directories above it and no other), writes the snapshot
    [experiment.cfg], and leaves every file outside the directory alone.
    Without the delete flag every other file stays, the logs of the
    repetitions among them; with it the files right inside the directory
    whose names do not start with a dot are gone, so no repetition has a
    log any more. *)
Theorem create_dir_keeps_or_clears_results
  {U} (E : Env) (w : World U) (params : Dict) (name path : string) (del : bool) :
  let fullpath := Path.join path name in
  let cfg := Path.join fullpath "experiment.cfg" in
  PyDict.get params "name" = Some (VStr name) ->
  PyDict.get params "path" = Some (VStr path) ->
  String.eqb (Str.lower name) "default" = false ->
  Path.clean fullpath ->
  Free w fullpath ->
  cfg ∉ dirs w ->
  (del = true -> shell_plain fullpath = true) ->
  exists w',
    create_dir E params del w = (Ok tt, w')
    /\ fullpath ∈ dirs w'
    /\ dirs w ⊆ dirs w'
    /\ (forall q, q ∈ dirs w' ->
                  q ∈ dirs w
                  \/ In q (fullpath :: Path.ancestors (String.length fullpath) fullpath))
    /\ files w' !! cfg = Some (cfg_text E name (config_options params))
    /\ (forall q, q <> cfg ->
                  files w' !! q
                  = if del && String.eqb (Path.dirname q) fullpath
                       && negb (Str.startswith "." (Path.basename q))
                    then None else files w !! q)
    /\ (forall rep, files w' !! logname_of fullpath rep
                    = if del then None else files w !! logname_of fullpath rep)
    /\ (forall q, Path.dirname q <> fullpath -> files w' !! q = files w !! q).
Proof.
  intros fullpath cfg Hname Hpath Hdef Hcl Hfree Hnd _.
  destruct (create_dir_world E params name path del w Hname Hpath Hdef Hcl Hfree Hnd)
    as (w' & Hrun & Hin & Hsub & Hnew & _ & _ & Hcfg & Hfr).
  fold fullpath cfg in Hin, Hcfg, Hfr, Hnew.
  exists w'. split; [exact Hrun|]. split; [exact Hin|]. split; [exact Hsub|].
  split; [exact Hnew|]. split; [exact Hcfg|]. split; [|split].
  - intros q Hq. rewrite (Hfr q Hq). unfold glob_star. now rewrite andb_assoc.
  - intros rep. rewrite Hfr by (apply cfg_not_log, Hcl).
    rewrite (glob_star_log fullpath rep Hcl). now rewrite andb_true_r.
  - intros q Hq.
    assert (Hne : q <> cfg).
    { intros ->. apply Hq. unfold cfg.
      rewrite (PathFacts.join_rel fullpath "experiment.cfg" Hcl eq_refl).
      now apply PathFacts.dirname_inside. }
    rewrite (Hfr q Hne). unfold glob_star.
    apply String.eqb_neq in Hq. rewrite Hq. now rewrite andb_false_r.
Qed.

Lemma create_dir_keeps_or_clears_results_witness :
  exists w',
    create_dir env0 (params_exp "/data" 3) true world_done = (Ok tt, w')
    /\ files world_done !! "/data/exp/0.log" = Some log3
    /\ files w' !! "/data/exp/0.log" = None.
Proof.
  destruct (create_dir_keeps_or_clears_results env0 world_done (params_exp "/data" 3)
              "exp" "/data" true)
    as (w' & H1 & _ & _ & _ & _ & _ & H2 & _).
  - reflexivity.
  - reflexivity.
  - reflexivity.
  - split; reflexivity.
  - intros a Ha. vm_compute in Ha.
    repeat (destruct Ha as [<-|Ha]; [reflexivity|]). destruct Ha.
  - intros Hin. apply (bool_decide_pack _) in Hin. vm_compute in Hin. exact Hin.
  - intros _. reflexivity.
  - exists w'. split; [exact H1|]. split; [reflexivity|]. exact (H2 0).
Defined.

(** X9. [write_config_file]: a section name that is [default] in any case
    raises [ValueError] and a directory that does not exist [IOError], both
    with nothing written; otherwise, when no directory has the name of the
    snapshot, exactly the file [experiment.cfg] of the directory is
    (over)written.  The options of the snapshot are the
    parameters without [name], each string value in double quotes, every
    other value as it is. *)
Theorem write_config_file_snapshot
  {U} (E : Env) (w : World U) (params : Dict) (name dir : string) :
  let cfg := FS.resolve w (Path.join dir "experiment.cfg") in
  PyDict.get params "name" = Some (VStr name) ->
  (String.eqb (Str.lower name) "default" = true ->
   write_config_file E params dir w = (Raise ValueError, w))
  /\ (String.eqb (Str.lower name) "default" = false ->
      Path.dirname cfg ∉ dirs w ->
      write_config_file E params dir w = (Raise (IOError cfg), w))
  /\ (String.eqb (Str.lower name) "default" = false ->
      Path.dirname cfg ∈ dirs w ->
      cfg ∉ dirs w ->
      exists w',
        write_config_file E params dir w = (Ok tt, w')
        /\ files w' = <[cfg := cfg_text E name (config_options params)]> (files w)
        /\ dirs w' = dirs w)
  /\ PyDict.get (config_options params) "name" = None
  /\ (forall k, k <> "name" ->
                PyDict.get (config_options params) k = option_map quoted (PyDict.get params k)).
Proof.
  intros cfg Hname. split; [|split; [|split; [|split]]].
  - intros Hdef. unfold write_config_file, getitem. rewrite Hname.
    unfold bind at 1. unfold ret at 1. unfold bind at 1. cbn [as_str]. unfold ret at 1.
    now rewrite Hdef.
  - intros Hdef Hd. unfold write_config_file, getitem. rewrite Hname.
    unfold bind at 1. unfold ret at 1. unfold bind at 1. cbn [as_str]. unfold ret at 1.
    rewrite Hdef. unfold bind at 1. unfold FS.open_w, FS.writable. fold cfg.
    now rewrite (bool_decide_eq_false_2 _ Hd).
  - intros Hdef Hd Hnd. rewrite (write_config_file_ok E params name dir w Hname Hdef).
    + fold cfg. eexists. split; [reflexivity|]. destruct w; split; reflexivity.
    + unfold FS.writable. fold cfg. rewrite (bool_decide_eq_true_2 _ Hd).
      now rewrite (bool_decide_eq_false_2 _ Hnd).
  - rewrite config_options_get. reflexivity.
  - intros k Hk. rewrite config_options_get. apply String.eqb_neq in Hk. now rewrite Hk.
Qed.

Lemma write_config_file_snapshot_witness :
  write_config_file env0 (params_exp "/data" 3) "/nowhere" world_done
  = (Raise (IOError "/nowhere/experiment.cfg"), world_done)
  /\ PyDict.get (config_options (params_exp "/data" 3)) "path"
     = Some (VStr (String Str.dquote "/data" +:+ Str.of_char Str.dquote)).
Proof.
  destruct (write_config_file_snapshot env0 world_done (params_exp "/data" 3) "exp" "/nowhere")
    as (_ & H2 & _ & _ & H5).
  - reflexivity.
  - split.
    + apply H2; [reflexivity|].
      intros Hin. apply (bool_decide_pack _) in Hin. vm_compute in Hin. exact Hin.
    + rewrite H5 by discriminate. reflexivity.
Defined.

Lemma mkdir_makes_what_is_missing_witness :
  exists w',
    mkdir "/data/new/exp" world_home = (Ok tt, w')
    /\ "/data/new/exp" ∈ dirs w' /\ "/data/new" ∈ dirs w'.
Proof.
  destruct (mkdir_makes_what_is_missing world_home "/data/new/exp") as (_ & _ & _ & H).
  destruct H as (w' & H1 & H2 & H3 & _).
  - discriminate.
  - reflexivity.
  - intros Hin. apply (bool_decide_pack _) in Hin. vm_compute in Hin. exact Hin.
  - intros a Ha. vm_compute in Ha.
    repeat (destruct Ha as [<-|Ha]; [reflexivity|]). destruct Ha.
  - exists w'. split; [exact H1|]. split; [exact H2|].
    apply H3; discriminate.
Defined.


(** X10. After the directories are made, [do_experiment] builds the work
    list: for every set in order the repetitions [0 .. repetitions-1]
    ([repetitions] an integer), so a set with [repetitions <= 0] gets no
    work item.  With more than one core the list goes to the worker pool
    and no hook is called in the calling process; with fewer than one the
    pool cannot be made: [ValueError], nothing handed over, no hook called;
    with exactly one the items are run one after the other in the calling
    process and, when that loop returns, [True] is returned. *)
Theorem work_list_enumerates_repetitions
  {U} (S : Suite U) (E : Env) (options : Options) (params plist : list Dict)
  (w w1 w2 : World U) :
  expand_param_list E params w = (Ok plist, w1) ->
  create_dirs E options plist w1 = (Ok true, w2) ->
  Forall (fun p => exists r, PyDict.get p "repetitions" = Some (VInt r)) plist ->
  (1 < ncores options ->
   do_experiment S E options params w = (Ok (DoPool (work_items plist)), w2)
   /\ hook_calls (trace w2) = hook_calls (trace w))
  /\ (ncores options < 1 ->
      do_experiment S E options params w = (Raise ValueError, w2)
      /\ hook_calls (trace w2) = hook_calls (trace w))
  /\ (ncores options = 1 ->
      do_experiment S E options params w
      = bind (run_explist S E options (work_items plist)) (fun _ => ret DoTrue) w2
      /\ forall w3, run_explist S E options (work_items plist) w2 = (Ok tt, w3) ->
                    do_experiment S E options params w = (Ok DoTrue, w3))
  /\ (forall p i,
         In (p, i) (work_items plist)
         <-> In p plist /\ exists r, PyDict.get p "repetitions" = Some (VInt r) /\ 0 <= i < r)
  /\ (forall p r, PyDict.get p "repetitions" = Some (VInt r) -> r <= 0 -> work_items [p] = []).
Proof.
  intros Hex Hcd Hrep.
  assert (Hdo : do_experiment S E options params w
                = (if ncores options =? 1
                   then bind (run_explist S E options (work_items plist)) (fun _ => ret DoTrue)
                   else if ncores options <? 1 then raise ValueError
                   else ret (DoPool (work_items plist))) w2).
  { unfold do_experiment. unfold bind at 1. rewrite Hex. unfold bind at 1. rewrite Hcd.
    cbn [negb]. unfold bind at 1. rewrite (make_explist_items plist w2 Hrep). reflexivity. }
  assert (Hq : hook_calls (trace w2) = hook_calls (trace w)).
  { pose proof (Quiet_expand_param_list E params w) as Q1. rewrite Hex in Q1.
    pose proof (Quiet_create_dirs E options plist w1) as Q2. rewrite Hcd in Q2.
    cbn [snd] in Q1, Q2. congruence. }
  split; [|split; [|split; [|split]]].
  - intros Hn. rewrite Hdo.
    replace (ncores options =? 1) with false by (symmetry; apply Z.eqb_neq; lia).
    replace (ncores options <? 1) with false by (symmetry; apply Z.ltb_ge; lia).
    split; [reflexivity | exact Hq].
  - intros Hn. rewrite Hdo.
    replace (ncores options =? 1) with false by (symmetry; apply Z.eqb_neq; lia).
    replace (ncores options <? 1) with true by (symmetry; apply Z.ltb_lt; lia).
    split; [reflexivity | exact Hq].
  - intros Hn. apply Z.eqb_eq in Hn. rewrite Hdo, Hn. split; [reflexivity|].
    intros w3 H3. unfold bind. now rewrite H3.
  - apply work_items_In.
  - intros p r Hr Hle. unfold work_items. cbn [flat_map]. rewrite Hr.
    rewrite xrange_nil by lia. reflexivity.
Qed.

Lemma work_list_enumerates_repetitions_witness :
  exists w2,
    do_experiment base_suite env0 {| ncores := 4; delete := false; rerun := None |}
                  [params_exp "/data" 3; params_idle; params_two_reps] world_home
    = (Ok (DoPool [(params_exp "/data" 3, 0); (params_two_reps, 0); (params_two_reps, 1)]), w2)
    /\ hook_calls (trace w2) = [].
Proof.
  set (o := {| ncores := 4; delete := false; rerun := None |}).
  set (pl := [params_exp "/data" 3; params_idle; params_two_reps]).
  destruct (work_list_enumerates_repetitions base_suite env0 o pl pl world_home world_home
              (snd (create_dirs env0 o pl world_home)))
    as (H & _).
  - reflexivity.
  - vm_compute. reflexivity.
  - repeat constructor; eexists; reflexivity.
  - destruct H as [H1 H2]; [reflexivity|].
    eexists. split; [exact H1 | exact H2].
Defined.

Module CharFacts.
Import Str StrFacts.

Lemma digits_only c (d : uint) :
  digit_or_minus c = false -> has_char c (NilEmpty.string_of_uint d) = false.
Proof.
  intros H. induction d; cbn [NilEmpty.string_of_uint has_char]; rewrite ?IHd; try reflexivity;
    match goal with
    | |- context [Ascii.eqb ?a c] => destruct (Ascii.eqb_spec a c) as [<-|_]; [discriminate H|]
    end; reflexivity.
Qed.

Lemma of_Z_digits c (n : Z) : digit_or_minus c = false -> has_char c (of_Z n) = false.
Proof.
  intros H. unfold of_Z, NilZero.string_of_int, NilZero.string_of_uint.
  destruct (Z.to_int n) as [d|d].
  - pose proof (digits_only c d H) as Hd. destruct d; try exact Hd.
    cbn [has_char]. destruct (Ascii.eqb_spec "0" c) as [<-|_]; [discriminate H | reflexivity].
  - pose proof (digits_only c d H) as Hd. cbn [has_char].
    destruct (Ascii.eqb_spec "-" c) as [<-|_]; [discriminate H|]. cbn [orb].
    destruct d; try exact Hd.
    cbn [has_char]. destruct (Ascii.eqb_spec "0" c) as [<-|_]; [discriminate H | reflexivity].
Qed.

Lemma startswith_chars c (p s : string) :
  startswith p s = true -> has_char c p = true -> has_char c s = true.
Proof.
  revert s. induction p as [|a p IH]; intros s Hs Hc; [discriminate|].
  destruct s as [|b s]; [discriminate|]. cbn [startswith] in Hs.
  apply andb_true_iff in Hs as [Hab Hs]. apply Ascii.eqb_eq in Hab. subst b.
  cbn [has_char] in *. apply orb_true_iff in Hc as [Hc|Hc].
  - now rewrite Hc.
  - rewrite (IH s Hs Hc). apply orb_true_r.
Qed.

(** a text that lacks a character of the needle does not contain the needle *)
Lemma contains_chars c (needle hay : string) :
  has_char c needle = true -> has_char c hay = false -> contains needle hay = false.
Proof.
  intros Hn. induction hay as [|b hay IH]; intros Hh.
  - cbn [contains]. destruct needle; [discriminate | reflexivity].
  - cbn [contains]. apply orb_false_iff. split.
    + destruct (startswith needle (String b hay)) eqn:Hs; [|reflexivity].
      rewrite (startswith_chars c _ _ Hs Hn) in Hh. discriminate.
    + apply IH. cbn [has_char] in Hh. now apply orb_false_iff in Hh as [_ ?].
Qed.

End CharFacts.

Section Base.
Variable E : Env.
Variable options : Options.
Import Str StrFacts CharFacts.

Lemma base_outstr rep it :
  outstr E (renamed (step0 rep it)) = "iteration:" +:+ of_Z it +:+ " repetition:" +:+ of_Z rep.
Proof.
  change (renamed (step0 rep it)) with (step0 rep it).
  unfold outstr. change (sorted_items (step0 rep it)) with (step0 rep it).
  unfold step0. cbn [map join_with fst snd PyText.str].
  rewrite !app_assoc. reflexivity.
Qed.

Lemma base_log_line rep it : log_line E (step0 rep it) = base_line rep it.
Proof. unfold log_line, base_line. rewrite base_outstr, !app_assoc. reflexivity. Qed.

Lemma base_line_absent c rep it :
  digit_or_minus c = false ->
  has_char c "iteration: repetition:" = false ->
  has_char c (outstr E (renamed (step0 rep it))) = false.
Proof.
  intros Hd Hc.
  rewrite base_outstr.
  rewrite !has_char_app, !(of_Z_digits c _ Hd).
  cbn [has_char orb] in *.
  repeat match type of Hc with
         | (_ || _) = false => apply orb_false_iff in Hc as [? Hc]
         end.
  repeat match goal with
         | H : Ascii.eqb _ c = false |- _ => rewrite H; clear H
         end.
  reflexivity.
Qed.

End Base.

(** X11. The hooks of the base class.  With an experiment path that is
    absolute and has no slash at its end, whose directory exists and holds
    no directory, and a repetition without a log: run with
    [PyExperimentSuite] itself, the repetition logs the line
    [iteration:<i> repetition:<rep>] for [i = 0 .. iterations-1], never
    calls [restore_state], and leaves a log that is complete and that
    [haserror] does not report. *)
Theorem base_class_logs_the_indices
  (E : Env) (options : Options) (w : World unit)
  (params : Dict) (rep : Z) (name path : string) (n : Z) :
  let fullpath := Path.join path name in
  let log := logname_of fullpath rep in
  ParamsOf params name path n ->
  Ready w fullpath ->
  NoSubdir w fullpath ->
  files w !! log = None ->
  0 <= n ->
  exists w',
    run_rep base_suite E options params rep w = (Ok RetNone, w')
    /\ files w' !! log = Some (Str.join_all (map (base_line rep) (xrange 0 n)))
    /\ Str.readlines (Str.join_all (map (base_line rep) (xrange 0 n)))
       = map (base_line rep) (xrange 0 n)
    /\ restored (trace w') = restored (trace w)
    /\ is_complete w' (params, rep) = true
    /\ fst (haserror params rep w') = Ok false.
Proof.
  intros fullpath log HP HR HN Hf Hn0.
  set (u0 := start_state base_suite params rep 0 (user w)).
  destruct (results_by_index base_suite params rep (step0 rep) (xrange 0 n) u0)
    as [Hres Hfail]; [reflexivity|].
  assert (Hline : Forall (one_line E) (map (step0 rep) (xrange 0 n))).
  { apply List.Forall_forall. intros d Hd. apply in_map_iff in Hd as (it & <- & _).
    split; [reflexivity|].
    change (step0 rep it) with (renamed (step0 rep it)). now apply base_line_absent. }
  assert (Hlast : forall d, last (map (step0 rep) (xrange 0 n)) = Some d ->
                            Str.contains sentinel (log_line E d) = false).
  { intros d Hd.
    assert (Hin : In d (map (step0 rep) (xrange 0 n))).
    { apply list_elem_of_In. apply last_Some_elem_of. exact Hd. }
    apply in_map_iff in Hin as (it & <- & _).
    apply (CharFacts.contains_chars "x"); [reflexivity|].
    unfold log_line. rewrite StrFacts.has_char_app.
    rewrite base_line_absent by reflexivity. reflexivity. }
  destruct (fresh_run_log base_suite E options params rep name path n w HP HR HN Hf)
    as (w' & Hrun & [_ Hl _ (evs & Ht & _ & Hre & _)] & _).
  { exact Hfail. }
  { fold u0. rewrite Hres. exact (one_line_spaceless E _ Hline). }
  cbn [Z.eqb] in Hl, Hre. rewrite StrFacts.app_nil_l in Hl. fold fullpath log u0 in Hl.
  rewrite Hres in Hl.
  assert (Hmap : map (log_line E) (map (step0 rep) (xrange 0 n))
                 = map (base_line rep) (xrange 0 n))
    by (rewrite map_map; apply map_ext; intros; apply base_log_line).
  destruct (complete_of_lines E params rep name path n (map (step0 rep) (xrange 0 n)) w'
              HP (proj1 HR)) as [Hc _]; auto.
  { rewrite length_map, length_xrange. lia. }
  pose proof (readlines_log_lines E _ Hline) as Hrl.
  rewrite Hmap in Hl, Hrl.
  exists w'. split; [exact Hrun|]. split; [exact Hl|]. split; [|split; [|split]].
  - exact Hrl.
  - now rewrite Ht, restored_app, Hre, List.app_nil_r.
  - exact Hc.
  - destruct (is_complete_inv w' (params, rep) Hc)
      as (name' & path' & n' & text & HP' & _ & Hf' & _ & Hcrash).
    cbn [fst snd] in HP', Hf'.
    rewrite (haserror_spec params rep name' path' n' text w' HP' Hf'). cbn [fst].
    now rewrite Hcrash.
Qed.

Lemma base_class_logs_the_indices_witness :
  exists w',
    run_rep base_suite env0 (options0 None) (params_exp "/data" 3) 0 world_fresh = (Ok RetNone, w')
    /\ files w' !! "/data/exp/0.log" = Some log3.
Proof.
  destruct (base_class_logs_the_indices env0 (options0 None) world_fresh
              (params_exp "/data" 3) 0 "exp" "/data" 3)
    as (w' & H1 & H2 & _).
  - repeat split; reflexivity.
  - repeat split; reflexivity.
  - no_subdir.
  - reflexivity.
  - lia.
  - exists w'. split; [exact H1 | exact H2].
Defined.

Section Progress.
Context {U : Type}.
Import Str StrFacts LineFacts.

Lemma progress_of_log params rep name path n text (w : World U) :
  ParamsOf params name path n ->
  files w !! FS.resolve w (logname_of (Path.join path name) rep) = Some text ->
  progress params rep w
  = (percent (length (readlines text)) (VInt n),
     add_events [EvOpen (FS.resolve w (logname_of (Path.join path name) rep)) ModeR] w).
Proof.
  intros (Hname & Hpath & Hn) Hf.
  unfold progress, fullpath_of, getitem. rewrite Hname, Hpath, Hn.
  unfold rbind at 1. unfold reading at 1. unfold ret at 1.
  unfold rbind at 1. unfold reading at 1.
  unfold bind at 1. unfold ret at 1. unfold bind at 1. unfold ret at 1.
  unfold bind at 1. cbn [as_str]. unfold ret at 1. unfold bind at 1. unfold ret at 1.
  unfold ret at 1.
  unfold rbind at 1. unfold reading at 1. rewrite (exists_file w _ text (log_eqb _ _) Hf).
  unfold rbind at 1. unfold reading at 1. rewrite (read_lines_file w _ text Hf).
  unfold rbind at 1. unfold reading at 1. unfold ret at 1.
  reflexivity.
Qed.

Lemma progress_no_log params rep name path n (w : World U) :
  ParamsOf params name path n ->
  files w !! FS.resolve w (logname_of (Path.join path name) rep) = None ->
  FS.resolve w (logname_of (Path.join path name) rep) ∉ dirs w ->
  progress params rep w = (Got 0, w).
Proof.
  intros (Hname & Hpath & Hn) Hf Hd.
  unfold progress, fullpath_of, getitem. rewrite Hname, Hpath.
  unfold rbind at 1. unfold reading at 1. unfold ret at 1.
  unfold rbind at 1. unfold reading at 1.
  unfold bind at 1. unfold ret at 1. unfold bind at 1. unfold ret at 1.
  unfold bind at 1. cbn [as_str]. unfold ret at 1. unfold bind at 1. unfold ret at 1.
  unfold ret at 1.
  unfold rbind at 1. unfold reading at 1. unfold FS.exists_. rewrite Hf.
  rewrite (bool_decide_eq_false_2 (is_Some None)) by (intros [? ?]; discriminate).
  rewrite (bool_decide_eq_false_2 _ Hd). rewrite andb_false_r. reflexivity.
Qed.

Lemma readlines_lines_app (l : list string) (t : string) :
  Forall (fun x => has_char nl x = false) l ->
  readlines (join_all (map (fun x => x +:+ of_char nl) l) +:+ t)
  = map (fun x => x +:+ of_char nl) l ++ readlines t.
Proof.
  induction 1 as [|x l Hx Hl IH]; [now rewrite app_nil_l|].
  cbn [map join_all]. rewrite app_assoc, readlines_app by apply ends_with_nl.
  rewrite readlines_line by exact Hx. rewrite IH. reflexivity.
Qed.

End Progress.

(** X12. [progress] returns 0, without opening anything, when the repetition has
    no log; for a log of [k] lines and an integer [iterations = n] it returns
    [100 * k / n] rounded down and raises [ZeroDivisionError] when [n = 0].
    For [n > 0] and [k <= n] the result lies between 0 and 100 and is 100
    exactly when [k = n]; a log longer than [iterations] gives 100 or more. *)
Theorem progress_measures_the_log
  {U} (w : World U) (params : Dict) (rep : Z) (name path : string) (n : Z) :
  let log := FS.resolve w (logname_of (Path.join path name) rep) in
  ParamsOf params name path n ->
  (files w !! log = None -> log ∉ dirs w -> progress params rep w = (Got 0, w))
  /\ (forall text,
         files w !! log = Some text ->
         let k := Z.of_nat (length (Str.readlines text)) in
         (n = 0 ->
          progress params rep w = (Failed ZeroDivisionError, add_events [EvOpen log ModeR] w))
         /\ (n <> 0 ->
             progress params rep w = (Got (100 * k / n), add_events [EvOpen log ModeR] w))
         /\ (0 < n -> k <= n -> 0 <= 100 * k / n <= 100 /\ (100 * k / n = 100 <-> k = n))
         /\ (0 < n -> n < k -> 100 <= 100 * k / n)).
Proof.
  intros log HP. split.
  - intros Hf Hd. exact (progress_no_log params rep name path n w HP Hf Hd).
  - intros text Hf k.
    pose proof (progress_of_log params rep name path n text w HP Hf) as Hp.
    fold log in Hp. split; [|split; [|split]].
    + intros ->. exact Hp.
    + intros Hn. rewrite Hp. cbn [percent]. apply Z.eqb_neq in Hn. now rewrite Hn.
    + intros Hn Hk. assert (0 <= k) by apply Nat2Z.is_nonneg. split; [split|split].
      * apply Z.div_pos; lia.
      * apply Z.div_le_upper_bound; lia.
      * intros Heq. destruct (Z.eq_dec k n) as [|Hne]; [assumption|].
        assert (100 * k / n < 100) by (apply Z.div_lt_upper_bound; lia). lia.
      * intros ->. apply Z.div_mul. lia.
    + intros Hn Hk. apply Z.div_le_lower_bound; lia.
Qed.

Lemma progress_measures_the_log_witness :
  progress (params_exp "/data" 3) 0 world_partial
  = (Got 33, add_events [EvOpen "/data/exp/0.log" ModeR] world_partial).
Proof.
  destruct (progress_measures_the_log world_partial (params_exp "/data" 3) 0 "exp" "/data" 3)
    as [_ H].
  - repeat split; reflexivity.
  - destruct (H (ln "iteration:0 repetition:0") eq_refl) as (_ & H2 & _).
    apply H2. discriminate.
Defined.

(** X13. With an experiment path that is absolute and has no slash at its
    end, whose directory exists and holds no directory, and a repetition
    without a log: when [iterate], called in turn from the state [reset]
    leaves, returns before the index [k] results that give one line of text
    each (no space in a key, no line break in a key or value) and raises at
    [k], the log [run_rep] leaves holds the [k] result lines and the crash
    token as a last line without terminator.  The readers then disagree
    about it: [haserror] reports the crash, the repetition is not complete
    and a later [run_rep] (restore supported, no forced rerun) resumes at
    [k], but [progress] counts the token as a line and returns
    [100 * (k + 1) / iterations]: 100 when the last iteration crashed. *)
Theorem crash_as_the_readers_see_it
  {U} (S : Suite U) (E : Env) (options : Options) (w : World U)
  (params : Dict) (rep : Z) (name path : string) (n k : Z) (exc : HookExn) :
  let fullpath := Path.join path name in
  let log := logname_of fullpath rep in
  let u0 := start_state S params rep 0 (user w) in
  let out := results S params rep (xrange 0 k) u0 in
  let lines := map (log_line E) out in
  ParamsOf params name path n ->
  Ready w fullpath ->
  NoSubdir w fullpath ->
  files w !! log = None ->
  failure S params rep (xrange 0 n) u0 = Some (k, exc) ->
  Forall (fun d => spaceless d = true /\ Str.has_char Str.nl (outstr E d) = false) out ->
  exists w',
    run_rep S E options params rep w = (Ok RetNone, w')
    /\ 0 <= k < n
    /\ Z.of_nat (length lines) = k
    /\ files w' !! log = Some (Str.join_all lines +:+ sentinel)
    /\ Str.readlines (Str.join_all lines +:+ sentinel) = lines ++ [sentinel]
    /\ fst (haserror params rep w') = Ok true
    /\ fst (progress params rep w') = Got (100 * (k + 1) / n)
    /\ is_complete w' (params, rep) = false
    /\ (restore_supported S = true -> truthy (rerun options) = false ->
        fst (resume_point S E options params log w') = Ok (Some k)).
Proof.
  intros fullpath log u0 out lines HP HR HN Hf Hfail Hline.
  assert (Hcl : Path.clean fullpath) by apply HR.
  assert (Hn : PyDict.get params "iterations" = Some (VInt n)) by apply HP.
  assert (Hres : forall v : World U, FS.resolve v log = log)
    by (intros; apply resolve_abs, log_abs, Hcl).
  destruct (fresh_crash_log S E options params rep name path n k exc w HP HR HN Hf Hfail
              (one_line_spaceless E _ Hline))
    as (w' & Hrun & Hk & [_ Hl _ _] & _).
  cbn [Z.eqb] in Hl. rewrite StrFacts.app_nil_l in Hl. fold fullpath log u0 out lines in Hl.
  assert (Hlen0 : Z.of_nat (length lines) = k).
  { destruct (failure_in_range S params rep _ _ _ _ _ Hfail) as (_ & _ & _ & Hnone & _).
    destruct (failure_none S params rep _ _ Hnone) as [_ H]. fold u0 out in H.
    unfold lines. rewrite length_map, H, length_xrange. lia. }
  assert (Hrl : Str.readlines (Str.join_all lines +:+ sentinel) = lines ++ [sentinel]).
  { unfold lines.
    pose proof (readlines_lines_app (map (fun d => outstr E (renamed d)) out) sentinel) as HL.
    rewrite map_map in HL. apply HL.
    apply List.Forall_forall. intros x Hx. apply in_map_iff in Hx as (d & <- & Hd).
    rewrite List.Forall_forall in Hline. destruct (Hline d Hd) as [Hs Hnl].
    now rewrite renamed_spaceless. }
  assert (Hlen : Z.of_nat (length (lines ++ [sentinel])) = k + 1).
  { rewrite List.length_app. cbn [length]. lia. }
  assert (Hcrash : ends_in_crash (lines ++ [sentinel]) = true).
  { unfold ends_in_crash. rewrite last_snoc. reflexivity. }
  assert (Hf' : files w' !! FS.resolve w' log = Some (Str.join_all lines +:+ sentinel))
    by now rewrite Hres.
  exists w'. split; [exact Hrun|]. split; [exact Hk|]. split; [exact Hlen0|].
  split; [exact Hl|]. split; [exact Hrl|].
  split; [|split; [|split]].
  - rewrite (haserror_spec params rep name path n _ w' HP Hf'). cbn [fst].
    now rewrite Hrl, Hcrash.
  - rewrite (progress_of_log params rep name path n _ w' HP Hf'). cbn [fst percent].
    replace (n =? 0) with false by (symmetry; apply Z.eqb_neq; lia).
    now rewrite Hrl, Hlen.
  - unfold is_complete. cbn [fst snd].
    destruct HP as (-> & -> & ->). fold fullpath log. rewrite Hf'.
    rewrite Hrl, Hcrash. apply andb_false_r.
  - intros Hs Hr.
    pose proof (resume_point_auto S E options params rep fullpath n Hn _ w' Hf' Hs Hr) as Ha.
    fold log in Ha. rewrite Ha.
    + cbn [fst]. rewrite strip_error_line_eq, Hrl, Hcrash.
      rewrite removelast_last. now rewrite Hlen0.
    + rewrite length_strip, Hrl, Hcrash, Hlen. lia.
Qed.

Lemma crash_as_the_readers_see_it_witness :
  exists w',
    run_rep (crashing_suite 2) env0 (options0 None) (params_exp "/data" 3) 0 world_fresh
    = (Ok RetNone, w')
    /\ fst (haserror (params_exp "/data" 3) 0 w') = Ok true
    /\ fst (progress (params_exp "/data" 3) 0 w') = Got 100
    /\ is_complete w' (params_exp "/data" 3, 0) = false.
Proof.
  destruct (crash_as_the_readers_see_it (crashing_suite 2) env0 (options0 None) world_fresh
              (params_exp "/data" 3) 0 "exp" "/data" 3 2 boom)
    as (w' & H1 & _ & _ & _ & _ & H2 & H3 & H4 & _).
  - repeat split; reflexivity.
  - repeat split; reflexivity.
  - no_subdir.
  - reflexivity.
  - reflexivity.
  - repeat constructor.
  - exists w'. split; [exact H1|]. split; [exact H2|]. split; [exact H3 | exact H4].
Defined.

Section SaveState.
Context {U : Type}.
Variable S : Suite U.
Variable E : Env.
Variables (params : Dict) (rep : Z) (fullpath : string).
Import Str StrFacts Path PathFacts.

Lemma saved_app a b : saved (a ++ b) = saved a ++ saved b.
Proof. apply flat_map_app. Qed.

(** one turn of the loop, for a subclass that restores: what [save_state]
    gives decides whether a crash report is written; the line is logged in
    both cases *)
Lemma turn_with_save it rest text dic (w : World U) :
  let sv := fst (save_state S params rep it (snd (iterate S params rep it (user w)))) in
  Ready w fullpath -> NoSubdir w fullpath ->
  files w !! logname_of fullpath rep = Some text ->
  restore_supported S = true ->
  fst (iterate S params rep it (user w)) = inl dic ->
  spaceless dic = true ->
  exists w1,
    iteration_loop S E params rep fullpath (logname_of fullpath rep) (it :: rest) w
      = iteration_loop S E params rep fullpath (logname_of fullpath rep) rest w1
    /\ dirs w1 = dirs w
    /\ user w1 = after_turn S params rep it (user w)
    /\ files w1
       = <[logname_of fullpath rep := text +:+ log_line E dic]>
           (match sv with
            | Some exc => <[report_name E fullpath (ticks w) := report_text exc]> (files w)
            | None => files w
            end)
    /\ ticks w1 = (match sv with Some _ => Datatypes.S (ticks w) | None => ticks w end)
    /\ trace w1
       = trace w ++ [EvChdir fullpath; EvIterate params rep it; EvSave params rep it]
           ++ (match sv with
               | Some _ => [EvOpen (report_name E fullpath (ticks w)) ModeW]
               | None => []
               end).
Proof.
  intros sv HR HN Hlog Hs Hit Hsp.
  assert (Hcl : clean fullpath) by apply HR.
  cbn [iteration_loop]. unfold bind at 1. rewrite chdir_ready by assumption.
  unfold bind at 1. unfold call_iterate, after_turn. subst sv.
  destruct w as [f d c u k t tr]. simpl in *.
  destruct (iterate S params rep it u) as [r u1]. simpl in Hit. subst r.
  unfold emit, set_user, set_cwd. simpl.
  pose proof (log_line_spaceless E dic Hsp) as Hline.
  rewrite Hs.
  unfold bind at 1. unfold bind at 1. unfold call_save_state. simpl.
  destruct (save_state S params rep it u1) as [[exc|] u2]; simpl.
  - rewrite print_exception_spec by (first [exact HN | split; [exact Hcl | apply HR]]).
    simpl. unfold bind at 1. rewrite rename_keys_spaceless by exact Hsp.
    unfold bind at 1. unfold FS.write, modify. simpl.
    eexists. split; [reflexivity|]. simpl.
    split; [reflexivity|]. split; [reflexivity|]. split; [|split; [reflexivity|]].
    + rewrite lookup_insert_ne by (now apply crash_not_log).
      rewrite Hlog. simpl. now rewrite Hline.
    + rewrite <- !List.app_assoc. reflexivity.
  - unfold bind at 1. rewrite rename_keys_spaceless by exact Hsp.
    unfold bind at 1. unfold FS.write, modify. simpl.
    eexists. split; [reflexivity|]. simpl.
    split; [reflexivity|]. split; [reflexivity|]. split; [|split; [reflexivity|]].
    + rewrite Hlog. simpl. now rewrite Hline.
    + rewrite <- !List.app_assoc. reflexivity.
Qed.

(** turns of the loop in which [save_state] returns: only the log changes *)
Lemma turns_with_save pre : forall rest text (w : World U),
  Ready w fullpath -> NoSubdir w fullpath ->
  files w !! logname_of fullpath rep = Some text ->
  restore_supported S = true ->
  failure S params rep pre (user w) = None ->
  Forall (fun d => spaceless d = true) (results S params rep pre (user w)) ->
  save_failures S params rep pre (user w) = [] ->
  exists w1,
    iteration_loop S E params rep fullpath (logname_of fullpath rep) (pre ++ rest) w
      = iteration_loop S E params rep fullpath (logname_of fullpath rep) rest w1
    /\ dirs w1 = dirs w
    /\ user w1 = state_after S params rep pre (user w)
    /\ files w1
       = <[logname_of fullpath rep
            := text +:+ join_all (map (log_line E) (results S params rep pre (user w)))]>
           (files w)
    /\ ticks w1 = ticks w
    /\ exists evs,
        trace w1 = trace w ++ evs
        /\ iterated evs = map (fun it => (params, rep, it)) pre
        /\ saved evs = map (fun it => (params, rep, it)) pre
        /\ forall t, opened (report_name E fullpath t) evs = [].
Proof.
  induction pre as [|it pre IH]; intros rest text w HR HN Hlog Hs Hfail Hsp Hsf.
  - exists w. cbn [List.app map join_all results]. rewrite app_nil_r.
    split; [reflexivity|]. split; [reflexivity|]. split; [reflexivity|].
    split; [|split; [reflexivity|]].
    + symmetry. now apply insert_id.
    + exists []. rewrite List.app_nil_r. repeat split; reflexivity.
  - cbn [List.app]. cbn [failure results save_failures] in Hfail, Hsp, Hsf.
    cbn [results]. rewrite Hs in Hsf.
    destruct (fst (iterate S params rep it (user w))) as [dic|exc] eqn:Hit; [|discriminate].
    inversion Hsp as [|d ds Hd Hds]; subst.
    apply List.app_eq_nil in Hsf as [Hsv Hsf].
    destruct (turn_with_save it (pre ++ rest) text dic w HR HN Hlog Hs Hit Hd)
      as (w0 & Heq & Hd0 & Hu0 & Hf0 & Ht0 & Htr0).
    destruct (fst (save_state S params rep it (snd (iterate S params rep it (user w)))))
      as [exc|]; [discriminate|].
    assert (HR0 : Ready w0 fullpath) by (split; [apply HR | rewrite Hd0; apply HR]).
    assert (HN0 : NoSubdir w0 fullpath) by (intros q Hq; rewrite Hd0; now apply HN).
    rewrite <- Hu0 in Hfail, Hds, Hsf.
    destruct (IH rest (text +:+ log_line E dic) w0 HR0 HN0) as
      (w1 & Heq1 & Hd1 & Hu1 & Hf1 & Ht1 & evs1 & Htr1 & Hi1 & Hsa1 & Ho1); auto.
    { rewrite Hf0. apply lookup_insert_eq. }
    exists w1. split; [now rewrite Heq|]. split; [congruence|].
    split; [|split; [|split; [congruence|]]].
    + rewrite Hu1, Hu0. reflexivity.
    + rewrite Hf1, Hf0, insert_insert_eq, <- Hu0. cbn [map join_all].
      now rewrite app_assoc.
    + exists ([EvChdir fullpath; EvIterate params rep it; EvSave params rep it] ++ evs1).
      split; [rewrite Htr1, Htr0, List.app_nil_r; now rewrite <- List.app_assoc|].
      rewrite iterated_app, saved_app, Hi1, Hsa1. repeat split; try reflexivity.
      intros t. rewrite opened_app, Ho1. reflexivity.
Qed.

(** [save_state] raises once: the turns before, the turn, the turns after *)
Lemma save_failures_single its : forall u j exc,
  restore_supported S = true ->
  failure S params rep its u = None ->
  save_failures S params rep its u = [(j, exc)] ->
  exists pre post dic,
    its = pre ++ j :: post
    /\ failure S params rep pre u = None
    /\ save_failures S params rep pre u = []
    /\ results S params rep its u
       = results S params rep pre u
           ++ dic :: results S params rep post (state_after S params rep (pre ++ [j]) u)
    /\ fst (iterate S params rep j (state_after S params rep pre u)) = inl dic
    /\ fst (save_state S params rep j
              (snd (iterate S params rep j (state_after S params rep pre u)))) = Some exc
    /\ failure S params rep post (state_after S params rep (pre ++ [j]) u) = None
    /\ save_failures S params rep post (state_after S params rep (pre ++ [j]) u) = [].
Proof.
  induction its as [|it its IH]; intros u j exc Hs Hfail Hsf; [discriminate|].
  cbn [failure save_failures results] in Hfail, Hsf |- *. rewrite Hs in Hsf.
  destruct (fst (iterate S params rep it u)) as [dic|e] eqn:Hit; [|discriminate].
  destruct (fst (save_state S params rep it (snd (iterate S params rep it u))))
    as [e|] eqn:Hsv.
  - cbn [List.app] in Hsf. injection Hsf as -> -> Hsf.
    exists [], its, dic. cbn [List.app state_after fold_left results failure save_failures].
    repeat split; auto.
  - cbn [List.app] in Hsf.
    destruct (IH _ j exc Hs Hfail Hsf)
      as (pre & post & dic' & -> & Hf1 & Hs1 & Hres & Hit' & Hsv' & Hf2 & Hs2).
    exists (it :: pre), post, dic'.
    cbn [List.app state_after fold_left results failure save_failures].
    rewrite Hit, Hsv, Hs. cbn [List.app].
    split; [reflexivity|]. split; [exact Hf1|]. split; [exact Hs1|].
    split; [now rewrite Hres|]. split; [exact Hit'|]. split; [exact Hsv'|].
    split; [exact Hf2 | exact Hs2].
Qed.

Lemma run_from_fresh n (w : World U) :
  PyDict.get params "iterations" = Some (VInt n) ->
  Ready w fullpath -> NoSubdir w fullpath ->
  run_from S E params rep fullpath (logname_of fullpath rep) 0 w
  = bind (iteration_loop S E params rep fullpath (logname_of fullpath rep) (xrange 0 n))
         (fun _ => ret RetNone)
         (mkWorld (<[logname_of fullpath rep := ""]> (files w)) (dirs w) (cwd w)
                  (reset S params rep (user w)) (key_warning_issued w) (ticks w)
                  (trace w ++ [EvReset params rep; EvOpen (logname_of fullpath rep) ModeW])).
Proof.
  intros Hn HR HN.
  destruct (logfile_writable rep fullpath w HR HN) as [Hres Hw].
  unfold run_from. unfold bind at 1. unfold call_reset, modify.
  cbn [Z.eqb negb]. unfold bind at 1. unfold FS.open_w.
  destruct w as [f d c u k t tr]. unfold FS.resolve, FS.writable in *. cbn in *.
  rewrite Hres, Hw.
  unfold bind at 1. unfold getitem. rewrite Hn. unfold ret at 1.
  unfold bind at 1. cbn [as_int]. unfold ret at 1.
  unfold emit, set_files, set_user. cbn. rewrite <- List.app_assoc. reflexivity.
Qed.

End SaveState.

(** X14. An exception of [save_state] does not end the repetition.  Take a
    subclass that restores, an experiment path that is absolute and has no
    slash at its end, whose directory exists and holds no directory, and a
    repetition without a log.  When [iterate], called in turn from the
    state [reset] leaves, returns for every index results without a space
    in a key, and [save_state], called after each of them, raises at the
    index [j] only, then a crash report with the text of the exception is
    written into the directory, the line of [j] is logged all the same, the
    loop goes on to [iterations-1], and [iterate] and [save_state] are each
    called once for every index, in order. *)
Theorem save_state_failure_is_reported_and_passed_over
  {U} (S : Suite U) (E : Env) (options : Options) (w : World U)
  (params : Dict) (rep : Z) (name path : string) (n j : Z) (exc : HookExn) :
  let fullpath := Path.join path name in
  let log := logname_of fullpath rep in
  let u0 := start_state S params rep 0 (user w) in
  let out := results S params rep (xrange 0 n) u0 in
  ParamsOf params name path n ->
  Ready w fullpath ->
  NoSubdir w fullpath ->
  files w !! log = None ->
  restore_supported S = true ->
  failure S params rep (xrange 0 n) u0 = None ->
  Forall (fun d => spaceless d = true) out ->
  save_failures S params rep (xrange 0 n) u0 = [(j, exc)] ->
  exists w' t,
    run_rep S E options params rep w = (Ok RetNone, w')
    /\ 0 <= j < n
    /\ files w' !! log = Some (Str.join_all (map (log_line E) out))
    /\ length out = length (xrange 0 n)
    /\ files w' !! report_name E fullpath t = Some (report_text exc)
    /\ exists evs,
        trace w' = trace w ++ evs
        /\ iterated evs = map (fun it => (params, rep, it)) (xrange 0 n)
        /\ saved evs = map (fun it => (params, rep, it)) (xrange 0 n)
        /\ opened (report_name E fullpath t) evs = [ModeW].
Proof.
  intros fullpath log u0 out HP HR HN Hf Hs Hfail Hsp Hsf.
  assert (Hcl : Path.clean fullpath) by apply HR.
  assert (Hn : PyDict.get params "iterations" = Some (VInt n)) by apply HP.
  assert (Hd : log ∉ dirs w).
  { apply nosub_inside; auto using log_base_rel, log_base_no_slash. }
  pose proof (resume_point_fresh S E options params rep fullpath w) as Hrp.
  rewrite resolve_abs in Hrp by (apply log_abs, Hcl). specialize (Hrp Hf Hd).
  rewrite (run_rep_from S E options _ _ _ _ _ _ _ _ HP Hrp).
  fold fullpath. rewrite (run_from_fresh S E params rep fullpath n w Hn HR HN). fold log.
  set (w0 := mkWorld _ _ _ _ _ _ _).
  assert (HR0 : Ready w0 fullpath) by exact HR.
  assert (HN0 : NoSubdir w0 fullpath) by exact HN.
  assert (Hl0 : files w0 !! log = Some "") by apply lookup_insert_eq.
  assert (Hu0 : user w0 = u0) by reflexivity.
  destruct (save_failures_single S params rep _ _ _ _ Hs Hfail Hsf)
    as (pre & post & dic & Hsplit & Hf1 & Hs1 & Hres & Hit & Hsv & Hf2 & Hs2).
  destruct (xrange_at _ _ _ _ _ Hsplit) as [Hj _].
  fold out in Hres. rewrite Hres in Hsp.
  apply Forall_app in Hsp as [Hsp1 Hsp2].
  inversion Hsp2 as [|d ds Hdic Hsp3]; subst d ds.
  rewrite Hsplit.
  destruct (turns_with_save S E params rep fullpath pre (j :: post) "" w0 HR0 HN0 Hl0 Hs)
    as (w1 & Heq1 & Hd1 & Hu1 & Hf1' & Ht1 & evs1 & Htr1 & Hi1 & Hsa1 & Ho1);
    try (first [rewrite Hu0; assumption | assumption]).
  fold log in Heq1, Hf1'. rewrite Hu0 in Hu1, Hf1'.
  assert (HR1 : Ready w1 fullpath) by (split; [exact Hcl | rewrite Hd1; apply HR]).
  assert (HN1 : NoSubdir w1 fullpath) by (intros q Hq; rewrite Hd1; now apply HN).
  assert (Hl1 : files w1 !! log
                = Some ("" +:+ Str.join_all (map (log_line E) (results S params rep pre u0))))
    by (rewrite Hf1'; apply lookup_insert_eq).
  destruct (turn_with_save S E params rep fullpath j post _ dic w1 HR1 HN1 Hl1 Hs)
    as (w2 & Heq2 & Hd2 & Hu2 & Hf2' & Ht2 & Htr2);
    try (first [rewrite Hu1; assumption | assumption]).
  fold log in Heq2, Hf2'. rewrite Hu1, Hsv in Hf2', Ht2, Htr2.
  assert (Hst : user w2 = state_after S params rep (pre ++ [j]) u0).
  { rewrite Hu2, Hu1. unfold state_after. now rewrite fold_left_app. }
  assert (HR2 : Ready w2 fullpath) by (split; [exact Hcl | rewrite Hd2, Hd1; apply HR]).
  assert (HN2 : NoSubdir w2 fullpath) by (intros q Hq; rewrite Hd2, Hd1; now apply HN).
  assert (Hl2 : files w2 !! log
                = Some (("" +:+ Str.join_all (map (log_line E) (results S params rep pre u0)))
                          +:+ log_line E dic))
    by (rewrite Hf2'; apply lookup_insert_eq).
  pose proof (turns_with_save S E params rep fullpath post [] _ w2 HR2 HN2 Hl2 Hs) as H3.
  rewrite List.app_nil_r in H3.
  destruct H3 as (w3 & Heq3 & Hd3 & Hu3 & Hf3 & Ht3 & evs3 & Htr3 & Hi3 & Hsa3 & Ho3);
    try (first [rewrite Hst; assumption | assumption]).
  fold log in Heq3, Hf3. rewrite Hst in Hf3.
  exists w3, (ticks w1). split; [|split; [exact Hj|split; [|split; [|split]]]].
  - unfold bind. rewrite Heq1, Heq2, Heq3. reflexivity.
  - rewrite Hf3, lookup_insert_eq. f_equal. rewrite Hres.
    rewrite !map_app, !StrFacts.join_all_app. cbn [map Str.join_all].
    rewrite StrFacts.app_nil_l, !StrFacts.app_assoc. reflexivity.
  - destruct (failure_none S params rep _ _ Hfail) as [_ H]. rewrite <- Hsplit. exact H.
  - assert (Hne : report_name E fullpath (ticks w1) <> log)
      by (apply crash_not_log, Hcl).
    rewrite Hf3, lookup_insert_ne by congruence.
    rewrite Hf2', lookup_insert_ne by congruence.
    apply lookup_insert_eq.
  - exists ([EvReset params rep; EvOpen log ModeW] ++ evs1
              ++ ([EvChdir fullpath; EvIterate params rep j; EvSave params rep j]
                    ++ [EvOpen (report_name E fullpath (ticks w1)) ModeW]) ++ evs3).
    split; [|split; [|split]].
    + rewrite Htr3, Htr2, Htr1. unfold w0. cbn [trace]. now rewrite <- !List.app_assoc.
    + rewrite !iterated_app, Hi1, Hi3. cbn. now rewrite map_app.
    + rewrite !saved_app, Hsa1, Hsa3. cbn. now rewrite map_app.
    + rewrite !opened_app, Ho1, Ho3. unfold opened. cbn [flat_map List.app].
      rewrite String.eqb_refl.
      replace (String.eqb log (report_name E fullpath (ticks w1))) with false; [reflexivity|].
      symmetry. apply String.eqb_neq. apply not_eq_sym, crash_not_log, Hcl.
Qed.

Lemma save_state_failure_is_reported_and_passed_over_witness :
  exists w',
    run_rep (unsaved_suite 1) env0 (options0 None) (params_exp "/data" 3) 0 world_fresh
    = (Ok RetNone, w')
    /\ files w' !! "/data/exp/0.log" = Some log3
    /\ files w' !! "/data/exp/exception-2012_08_27__09_05_07.stderr" = Some (report_text boom).
Proof.
  destruct (save_state_failure_is_reported_and_passed_over (unsaved_suite 1) env0 (options0 None)
              world_fresh (params_exp "/data" 3) 0 "exp" "/data" 3 1 boom)
    as (w' & t & H1 & _ & H2 & _ & H3 & _).
  - repeat split; reflexivity.
  - repeat split; reflexivity.
  - no_subdir.
  - reflexivity.
  - reflexivity.
  - reflexivity.
  - repeat constructor.
  - reflexivity.
  - exists w'. split; [exact H1|]. split; [exact H2|].
    assert (Hw : snd (run_rep (unsaved_suite 1) env0 (options0 None) (params_exp "/data" 3) 0
                        world_fresh) = w') by now rewrite H1.
    rewrite <- Hw. reflexivity.
Defined.

Section Trees.

Lemma DirTree_induction (P : DirTree -> Prop) :
  (forall fn subs, (forall ns, In ns subs -> P (snd ns)) -> P (Dir fn subs)) ->
  forall t, P t.
Proof.
  intros H. fix IH 1. intros [fn subs]. apply H.
  induction subs as [|[n s] r IHr]; intros ns Hin; [destruct Hin|].
  destruct Hin as [<-|Hin]; [apply IH | now apply IHr].
Qed.

Lemma height_sub fn subs ns :
  In ns subs -> (height (snd ns) < height (Dir fn subs))%nat.
Proof.
  intros Hin. cbn [height]. apply Nat.lt_succ_r.
  induction subs as [|a r IH]; [destruct Hin|]. cbn [fold_right].
  destruct Hin as [->|Hin]; [lia|]. specialize (IH Hin). lia.
Qed.

Lemma walk_height path t dp node :
  In (dp, node) (walk path t) -> (height node <= height t)%nat.
Proof.
  revert path. induction t as [fn subs IH] using DirTree_induction. intros path Hin.
  cbn [walk] in Hin. destruct Hin as [Heq|Hin].
  - injection Heq as _ <-. lia.
  - apply in_flat_map in Hin as (ns & Hns & Hin).
    specialize (IH ns Hns _ Hin). pose proof (height_sub fn subs ns Hns). lia.
Qed.

Lemma holds_exp_walk path t :
  holds_exp t = true <-> exists dp node, In (dp, node) (walk path t) /\ is_leaf_exp node = true.
Proof.
  revert path. induction t as [fn subs IH] using DirTree_induction. intros path. split.
  - intros H. destruct (existsb (fun ns => holds_exp (snd ns)) subs) eqn:Hsub.
    + apply existsb_exists in Hsub as (ns & Hns & Hh).
      apply (IH ns Hns (Path.join path (fst ns))) in Hh as (dp & node & Hin & Hleaf).
      exists dp, node. split; [|exact Hleaf]. cbn [walk]. right.
      apply in_flat_map. exists ns. now split.
    + cbn [holds_exp] in H. rewrite Hsub, orb_false_r in H.
      exists path, (Dir fn subs). split; [now left|].
      cbn [is_leaf_exp]. rewrite H. cbn [andb]. apply forallb_forall. intros ns Hns.
      apply negb_true_iff. destruct (holds_exp (snd ns)) eqn:Hh; [|reflexivity].
      assert (existsb (fun ns => holds_exp (snd ns)) subs = true)
        by (apply existsb_exists; eauto). congruence.
  - intros (dp & node & Hin & Hleaf). cbn [walk] in Hin. destruct Hin as [Heq|Hin].
    + injection Heq as _ <-. cbn [is_leaf_exp] in Hleaf. apply andb_true_iff in Hleaf as [Hc _].
      cbn [holds_exp]. now rewrite Hc.
    + apply in_flat_map in Hin as (ns & Hns & Hin).
      cbn [holds_exp]. apply orb_true_iff. right. apply existsb_exists. exists ns.
      split; [exact Hns|]. apply (IH ns Hns (Path.join path (fst ns))). eauto.
Qed.

Lemma flat_map_nil {A B} (f : A -> list B) l :
  flat_map f l = [] <-> forall x, In x l -> f x = [].
Proof.
  induction l as [|a r IH]; cbn [flat_map]; split.
  - intros _ x [].
  - reflexivity.
  - intros H. apply app_eq_nil in H as [Ha Hr]. intros x [<-|Hx]; [exact Ha | now apply IH].
  - intros H. rewrite (H a (or_introl eq_refl)).
    apply IH. intros x Hx. apply H. now right.
Qed.

Lemma flat_map_select {A B} (f : A -> B) (p : A -> bool) l :
  flat_map (fun x => if p x then [f x] else []) l = map f (List.filter p l).
Proof.
  induction l as [|a r IH]; [reflexivity|]. cbn [flat_map List.filter].
  destruct (p a); cbn; now rewrite IH.
Qed.

Lemma flat_map_same {A B} (f g : A -> list B) l :
  (forall x, In x l -> f x = g x) -> flat_map f l = flat_map g l.
Proof.
  induction l as [|a r IH]; intros H; [reflexivity|]. cbn [flat_map].
  rewrite (H a (or_introl eq_refl)), IH; [reflexivity|]. intros x Hx. apply H. now right.
Qed.

Lemma forallb_same {A} (f g : A -> bool) l :
  (forall x, In x l -> f x = g x) -> forallb f l = forallb g l.
Proof.
  induction l as [|a r IH]; intros H; [reflexivity|]. cbn [forallb].
  rewrite (H a (or_introl eq_refl)), IH; [reflexivity|]. intros x Hx. apply H. now right.
Qed.

(** with fuel for the height of the tree, [get_exps] lists the leaves *)
Lemma get_exps_leaves fuel :
  forall path t,
    (height t <= fuel)%nat ->
    get_exps fuel path t
    = map fst (List.filter (fun node => is_leaf_exp (snd node)) (walk path t)).
Proof.
  induction fuel as [|k IH]; intros path t Hh.
  - destruct t. cbn [height] in Hh. lia.
  - cbn [get_exps]. rewrite <- (flat_map_select fst).
    apply flat_map_same. intros [dp [fn subs]] Hin. cbn [fst snd is_leaf_exp].
    pose proof (walk_height path t dp _ Hin) as Hn.
    replace (forallb (fun ns => is_nil (get_exps k (Path.join dp (fst ns)) (snd ns))) subs)
      with (forallb (fun ns => negb (holds_exp (snd ns))) subs); [reflexivity|].
    apply forallb_same. intros ns Hns.
    pose proof (height_sub fn subs ns Hns) as Hlt.
    rewrite IH by lia.
    destruct (holds_exp (snd ns)) eqn:Hh'.
    + apply (holds_exp_walk (Path.join dp (fst ns))) in Hh' as (dp' & node' & Hin' & Hleaf).
      cbn [negb]. symmetry.
      destruct (map fst (List.filter (fun node => is_leaf_exp (snd node))
                                     (walk (Path.join dp (fst ns)) (snd ns)))) eqn:Hm;
        [|reflexivity].
      apply map_eq_nil in Hm.
      assert (Hf : In (dp', node') (List.filter (fun node => is_leaf_exp (snd node))
                                               (walk (Path.join dp (fst ns)) (snd ns))))
        by (apply filter_In; now split).
      rewrite Hm in Hf. destruct Hf.
    + cbn [negb]. symmetry.
      destruct (map fst (List.filter (fun node => is_leaf_exp (snd node))
                                     (walk (Path.join dp (fst ns)) (snd ns)))) eqn:Hm;
        [reflexivity|].
      assert (Hex : exists x, In x (List.filter (fun node => is_leaf_exp (snd node))
                                                (walk (Path.join dp (fst ns)) (snd ns)))).
      { destruct (List.filter (fun node => is_leaf_exp (snd node))
                              (walk (Path.join dp (fst ns)) (snd ns))) as [|x r];
          [discriminate | exists x; now left]. }
      destruct Hex as ([dp' node'] & Hf). apply filter_In in Hf as [Hin' Hleaf].
      assert (holds_exp (snd ns) = true)
        by (apply (holds_exp_walk (Path.join dp (fst ns))); eauto).
      congruence.
Qed.

End Trees.

(** X15. [get_exps], on a directory tree without symbolic links and with fuel
    for its height: the result lists, in the order of the walk, exactly the
    directories that hold [experiment.cfg] and have no directory with an
    [experiment.cfg] anywhere below them.  A directory whose snapshot is the
    one of an unexpanded set, above its sub-experiments, is not listed.  The
    result is empty exactly when the tree holds no snapshot, and more fuel
    does not change it. *)
Theorem get_exps_lists_the_innermost_experiments
  (fuel : nat) (path : string) (t : DirTree) :
  (height t <= fuel)%nat ->
  get_exps fuel path t
  = map fst (List.filter (fun node => is_leaf_exp (snd node)) (walk path t))
  /\ (forall dp, In dp (get_exps fuel path t)
                 <-> exists node, In (dp, node) (walk path t) /\ is_leaf_exp node = true)
  /\ (get_exps fuel path t = [] <-> holds_exp t = false)
  /\ (forall more, get_exps (fuel + more) path t = get_exps fuel path t).
Proof.
  intros Hh. pose proof (get_exps_leaves fuel path t Hh) as Heq.
  assert (Hmem : forall dp, In dp (get_exps fuel path t)
                   <-> exists node, In (dp, node) (walk path t) /\ is_leaf_exp node = true).
  { intros dp. rewrite Heq, in_map_iff. split.
    - intros ([dp' node] & <- & Hin). apply filter_In in Hin as [Hin Hleaf].
      exists node. now split.
    - intros (node & Hin & Hleaf). exists (dp, node). split; [reflexivity|].
      apply filter_In. now split. }
  split; [exact Heq|]. split; [exact Hmem|]. split.
  - split.
    + intros Hnil. destruct (holds_exp t) eqn:Hhold; [|reflexivity].
      apply (holds_exp_walk path) in Hhold as (dp & node & Hin & Hleaf).
      assert (Hdp : In dp (get_exps fuel path t)) by (apply Hmem; eauto).
      rewrite Hnil in Hdp. destruct Hdp.
    + intros Hhold. destruct (get_exps fuel path t) as [|dp r] eqn:Hg; [reflexivity|].
      assert (Hdp : In dp (dp :: r)) by now left.
      apply Hmem in Hdp as (node & Hin & Hleaf).
      assert (holds_exp t = true) by (apply (holds_exp_walk path); eauto). congruence.
  - intros more. rewrite Heq. apply get_exps_leaves. lia.
Qed.

Lemma get_exps_lists_the_innermost_experiments_witness :
  get_exps 3 "." tree_grid = ["./exp/alpha0.10"; "./exp/alpha0.20"].
Proof.
  destruct (get_exps_lists_the_innermost_experiments 3 "." tree_grid) as (H & _).
  - vm_compute. lia.
  - rewrite H. reflexivity.
Defined.

Module WordFacts.
Import Str StrFacts Words.

Lemma split_space c t : is_space c = true -> split (String c t) = split t.
Proof. intros H. cbn [split]. now rewrite H. Qed.

(** a word in front of a text that is empty or starts with white space *)
Lemma split_word w t :
  has_space w = false -> w <> "" ->
  (t = "" \/ exists c r, t = String c r /\ is_space c = true) ->
  split (w +:+ t) = w :: split t.
Proof.
  intros Hw Hne Ht. induction w as [|c w IH]; [congruence|].
  cbn [has_space] in Hw. apply orb_false_iff in Hw as [Hc Hw].
  rewrite app_cons. cbn [split]. rewrite Hc.
  destruct w as [|c' w'].
  - rewrite app_nil_l. destruct Ht as [->|(d & r & -> & Hd)]; [reflexivity|].
    now rewrite Hd.
  - rewrite app_cons. rewrite <- app_cons.
    cbn [has_space] in Hw. apply orb_false_iff in Hw as [Hc' Hw'].
    rewrite Hc'. rewrite IH; [reflexivity| |discriminate].
    cbn [has_space]. now rewrite Hc', Hw'.
Qed.

Lemma split_words ws :
  Forall (fun w => has_space w = false /\ w <> "") ws ->
  split (join_with " " ws +:+ of_char nl) = ws.
Proof.
  induction 1 as [|w ws [Hw Hne] Hws IH]; [reflexivity|].
  destruct ws as [|w' ws'].
  - cbn [join_with]. rewrite split_word; auto.
    right. exists nl, "". split; reflexivity.
  - change (join_with " " (w :: w' :: ws')) with (w +:+ " " +:+ join_with " " (w' :: ws')).
    rewrite !app_assoc. rewrite split_word; auto.
    + f_equal. change (" " +:+ join_with " " (w' :: ws') +:+ of_char nl)
        with (String " " (join_with " " (w' :: ws') +:+ of_char nl)).
      rewrite split_space by reflexivity. exact IH.
    + right. exists " "%char, (join_with " " (w' :: ws') +:+ of_char nl). split; reflexivity.
Qed.

Lemma cut_pair k s : has_char ":" k = false -> cut (k +:+ ":" +:+ s) = Some (k, s).
Proof.
  induction k as [|c k IH]; intros H.
  - reflexivity.
  - cbn [has_char] in H. apply orb_false_iff in H as [Hc Hk].
    rewrite app_cons. cbn [cut]. rewrite Hc. now rewrite IH.
Qed.

Lemma tag_val_pair k s :
  has_char ":" k = false -> has_char ":" s = false -> tag_val (k +:+ ":" +:+ s) = Some (k, s).
Proof. intros Hk Hs. unfold tag_val. now rewrite cut_pair, Hs. Qed.

Lemma has_space_app a b : has_space (a +:+ b) = has_space a || has_space b.
Proof.
  induction a as [|c a IH]; [reflexivity|]. rewrite app_cons. cbn [has_space].
  now rewrite IH, orb_assoc.
Qed.

End WordFacts.


Section Scan.
Context {U V : Type}.
Variable py_eval : Locals V -> string -> Evaluated V.
Variable of_text : string -> V.
Variable E : Env.
Variable ev : string -> V.
Variables (exp : string) (rep : Z) (tags : Tags) (params : Dict).
Import Str StrFacts Words WordFacts DictFacts.

Lemma hist_record (results : list (string * list V)) tag (v : V) k :
  recorded (record results tag v) k = recorded results k ++ (if String.eqb tag k then [v] else []).
Proof.
  unfold recorded, record. destruct (String.eqb tag k) eqn:H.
  - apply String.eqb_eq in H. subst k.
    destruct (PyDict.get results tag); now rewrite get_set_eq.
  - apply String.eqb_neq in H.
    destruct (PyDict.get results tag); rewrite get_set_ne by exact H;
      now rewrite List.app_nil_r.
Qed.

Lemma Inv_record (results : list (string * list V)) tag (v : V) :
  tidy tags results -> wanted tags tag = true -> tidy tags (record results tag v).
Proof.
  intros HI Hw k l Hg. unfold record in Hg.
  destruct (String.eqb_spec tag k) as [<-|Hne].
  - split; [|exact Hw].
    destruct (PyDict.get results tag); rewrite get_set_eq in Hg; injection Hg as <-;
      [now destruct l0 | discriminate].
  - destruct (PyDict.get results tag); rewrite get_set_ne in Hg by exact Hne; now apply HI.
Qed.

(** the pairs of a line written for a result whose keys and values are
    words: every pair of a wanted tag whose text [eval] takes for [ev] *)
Lemma scan_pairs_items line kvs (results : list (string * list V)) :
  tidy tags results ->
  forallb (fun kv => word (fst kv) && word (PyText.str (float_text E) (snd kv))) kvs = true ->
  (forall kv loc, In kv kvs -> wanted tags (fst kv) = true ->
                  value_of py_eval of_text loc (PyText.str (float_text E) (snd kv))
                  = Got (ev (PyText.str (float_text E) (snd kv)))) ->
  exists results',
    scan_pairs py_eval of_text exp rep tags params line (map (pair_text E) kvs) results
    = Got results'
    /\ tidy tags results'
    /\ forall k, recorded results' k
                 = recorded results k
                   ++ (if wanted tags k
                       then flat_map (fun kv => if String.eqb (fst kv) k
                                                then [ev (PyText.str (float_text E) (snd kv))]
                                                else []) kvs
                       else []).
Proof.
  revert results. induction kvs as [|[k0 v0] kvs IH]; intros results HI Hw Hev.
  - exists results. split; [reflexivity|]. split; [exact HI|]. intros k.
    cbn [flat_map]. destruct (wanted tags k); now rewrite List.app_nil_r.
  - cbn [forallb fst snd] in Hw. apply andb_true_iff in Hw as [Hw0 Hw].
    apply andb_true_iff in Hw0 as [Hk0 Hs0].
    unfold word in Hk0, Hs0.
    apply andb_true_iff in Hk0 as [_ Hk0]. apply andb_true_iff in Hs0 as [_ Hs0].
    apply negb_true_iff in Hk0, Hs0.
    cbn [map scan_pairs]. unfold pair_text at 1. cbn [fst snd].
    rewrite (tag_val_pair _ _ Hk0 Hs0).
    destruct (wanted tags k0) eqn:Hwant.
    + rewrite (Hev (k0, v0) _ (or_introl eq_refl) Hwant). cbn [snd].
      destruct (IH (record results k0 (ev (PyText.str (float_text E) v0))))
        as (results' & Hscan & HI' & Hh).
      { now apply Inv_record. }
      { exact Hw. }
      { intros kv loc Hin. apply Hev. now right. }
      exists results'. split; [exact Hscan|]. split; [exact HI'|]. intros k.
      rewrite Hh, hist_record. cbn [flat_map fst snd].
      destruct (String.eqb_spec k0 k) as [->|Hne].
      * rewrite Hwant. now rewrite <- List.app_assoc.
      * rewrite List.app_nil_r. cbn [List.app]. reflexivity.
    + destruct (IH results HI Hw) as (results' & Hscan & HI' & Hh).
      { intros kv loc Hin. apply Hev. now right. }
      exists results'. split; [exact Hscan|]. split; [exact HI'|]. intros k.
      rewrite Hh. cbn [flat_map fst snd].
      destruct (String.eqb_spec k0 k) as [->|Hne]; [now rewrite Hwant | reflexivity].
Qed.

End Scan.

Section Lines.
Context {U V : Type}.
Variable get_params : string -> R U Dict.
Variable py_eval : Locals V -> string -> Evaluated V.
Variable of_text : string -> V.
Variable E : Env.
Variable ev : string -> V.
Import Str StrFacts Words WordFacts DictFacts.

Lemma nl_is_space s : has_space s = false -> has_char nl s = false.
Proof.
  induction s as [|c s IH]; [reflexivity|]. cbn [has_space has_char].
  intros H. apply orb_false_iff in H as [Hc Hs]. rewrite (IH Hs), orb_false_r.
  destruct (Ascii.eqb_spec c nl) as [->|_]; [discriminate Hc | reflexivity].
Qed.

Lemma pair_text_word kv :
  word (fst kv) && word (PyText.str (float_text E) (snd kv)) = true ->
  has_space (pair_text E kv) = false /\ pair_text E kv <> "".
Proof.
  intros H. apply andb_true_iff in H as [Hk Hs]. unfold word in Hk, Hs.
  apply andb_true_iff in Hk as [Hk _]. apply andb_true_iff in Hs as [Hs _].
  apply negb_true_iff in Hk, Hs. unfold pair_text. split.
  - now rewrite !has_space_app, Hk, Hs.
  - destruct (fst kv); [discriminate|]. rewrite app_cons. discriminate.
Qed.

Lemma split_line d :
  wordy E d = true ->
  split (outstr E d +:+ of_char nl) = map (pair_text E) (sorted_items d).
Proof.
  intros Hw. unfold outstr. change (fun kv : string * PyVal => fst kv +:+ ":" +:+ PyText.str (float_text E) (snd kv))
    with (pair_text E).
  apply split_words. apply List.Forall_forall. intros x Hx.
  apply in_map_iff in Hx as (kv & <- & Hin).
  apply pair_text_word. unfold wordy in Hw. rewrite forallb_forall in Hw. now apply Hw.
Qed.

Lemma scan_lines_results exp rep tags params ds (results : list (string * list V)) :
  tidy tags results ->
  forallb (wordy E) ds = true ->
  (forall d kv loc, In d ds -> In kv (sorted_items d) ->
                    value_of py_eval of_text loc (PyText.str (float_text E) (snd kv))
                    = Got (ev (PyText.str (float_text E) (snd kv)))) ->
  exists results',
    scan_lines py_eval of_text exp rep tags params
               (map (fun d => outstr E d +:+ of_char nl) ds) results
    = Got results'
    /\ tidy tags results'
    /\ forall k, recorded results' k
                 = recorded results k ++ (if wanted tags k then logged_values E ev k ds else []).
Proof.
  revert results. induction ds as [|d ds IH]; intros results HI Hw Hev.
  - exists results. split; [reflexivity|]. split; [exact HI|]. intros k.
    cbn. destruct (wanted tags k); now rewrite List.app_nil_r.
  - cbn [forallb] in Hw. apply andb_true_iff in Hw as [Hd Hw].
    cbn [map scan_lines]. rewrite (split_line d Hd).
    destruct (scan_pairs_items py_eval of_text E ev exp rep tags params
                (outstr E d +:+ of_char nl) (sorted_items d) results HI Hd)
      as (r1 & Hs1 & HI1 & Hh1).
    { intros kv loc Hin _. apply (Hev d); [now left | exact Hin]. }
    rewrite Hs1.
    destruct (IH r1 HI1 Hw) as (r2 & Hs2 & HI2 & Hh2).
    { intros d' kv loc Hin. apply Hev. now right. }
    exists r2. split; [exact Hs2|]. split; [exact HI2|]. intros k.
    rewrite Hh2, Hh1. unfold logged_values. cbn [flat_map].
    destruct (wanted tags k); now rewrite <- ?List.app_assoc, ?List.app_nil_r.
Qed.

Lemma join_lines_readlines ds :
  forallb (wordy E) ds = true ->
  readlines (join_all (map (fun d => outstr E d +:+ of_char nl) ds))
  = map (fun d => outstr E d +:+ of_char nl) ds.
Proof.
  intros Hw.
  pose proof (LineFacts.readlines_lines (map (outstr E) ds)) as H. rewrite map_map in H.
  apply H. apply List.Forall_forall. intros x Hx. apply in_map_iff in Hx as (d & <- & Hin).
  rewrite forallb_forall in Hw. specialize (Hw d Hin).
  assert (Hall : Forall (fun w => has_char nl w = false) (map (pair_text E) (sorted_items d))).
  { apply List.Forall_forall. intros y Hy. apply in_map_iff in Hy as (kv & <- & Hkv).
    apply nl_is_space.
    apply pair_text_word. unfold wordy in Hw. rewrite forallb_forall in Hw. now apply Hw. }
  unfold outstr.
  change (fun kv : string * PyVal => fst kv +:+ ":" +:+ PyText.str (float_text E) (snd kv))
    with (pair_text E).
  clear - Hall. induction Hall as [|a l Ha Hl IH]; [reflexivity|].
  destruct l as [|b l']; [exact Ha|].
  change (join_with " " (a :: b :: l')) with (a +:+ " " +:+ join_with " " (b :: l')).
  rewrite !has_char_app, Ha, IH. reflexivity.
Qed.

End Lines.

(** X16. [get_history] reads back what [run_rep] writes.  For a log whose lines
    are those of results [ds] all of whose keys and value texts are free of
    white space and colons, and an [eval] that takes every value text [s]
    for [ev s]: the history of one tag [t] is the list of the values logged
    under [t], in the order of the lines (the same for the string [t] and
    for the one-item list [[t]]); the history of ['all'] is a dictionary
    that holds for every tag that occurs the values logged under it and
    nothing for a tag that does not occur; [get_history_tags] returns its
    keys, that is the tags that occur. *)
Theorem get_history_reads_back_the_lines
  {U V} (get_params : string -> R U Dict) (py_eval : Locals V -> string -> Evaluated V)
  (of_text : string -> V) (E : Env) (ev : string -> V)
  (w w1 : World U) (exp : string) (rep : Z) (params : Dict) (ds : list Dict) :
  get_params exp w = (Got params, w1) ->
  files w1 !! FS.resolve w1 (logname_of exp rep)
    = Some (Str.join_all (map (fun d => outstr E d +:+ Str.of_char Str.nl) ds)) ->
  forallb (wordy E) ds = true ->
  (forall d kv loc, In d ds -> In kv (sorted_items d) ->
                    value_of py_eval of_text loc (PyText.str (float_text E) (snd kv))
                    = Got (ev (PyText.str (float_text E) (snd kv)))) ->
  (forall t, t <> "all" ->
             fst (get_history get_params py_eval of_text exp rep (TagStr t) w)
             = Got (HList (logged_values E ev t ds))
             /\ fst (get_history get_params py_eval of_text exp rep (TagSeq [t]) w)
                = Got (HList (logged_values E ev t ds)))
  /\ (exists d,
         fst (get_history get_params py_eval of_text exp rep (TagStr "all") w) = Got (HDict d)
         /\ (forall k, PyDict.get d k
                       = if is_nil (logged_values E ev k ds) then None
                         else Some (logged_values E ev k ds))
         /\ fst (get_history_tags get_params py_eval of_text exp rep w) = Got (PyDict.keys d)
         /\ (forall k, In k (PyDict.keys d) <-> logged_values E ev k ds <> [])).
Proof.
  intros Hgp Hf Hw Hev.
  assert (Hrl : FS.read_lines (Path.join exp (Str.of_Z rep +:+ ".log")) w1
                = (Ok (map (fun d => outstr E d +:+ Str.of_char Str.nl) ds),
                   emit (EvOpen (FS.resolve w1 (logname_of exp rep)) ModeR) w1)).
  { change (Path.join exp (Str.of_Z rep +:+ ".log")) with (logname_of exp rep).
    rewrite (read_lines_file w1 _ _ Hf). now rewrite (join_lines_readlines E ds Hw). }
  assert (Hscan : forall tags,
             exists results,
               scan_lines py_eval of_text exp rep tags params
                          (map (fun d => outstr E d +:+ Str.of_char Str.nl) ds) []
               = Got results
               /\ tidy tags results
               /\ forall k, recorded results k
                            = if wanted tags k then logged_values E ev k ds else []).
  { intros tags.
    destruct (scan_lines_results py_eval of_text E ev exp rep tags params ds []) as
      (r & H1 & H2 & H3); auto.
    - intros k l Hk. discriminate Hk.
    - exists r. split; [exact H1|]. split; [exact H2|]. intros k. now rewrite H3. }
  assert (Hone : forall t tags,
             t <> "all" -> listed tags = TagSeq [t] ->
             fst (get_history get_params py_eval of_text exp rep tags w)
             = Got (HList (logged_values E ev t ds))).
  { intros t tags Ht Hl. unfold get_history, rbind. rewrite Hgp, Hl, Hrl.
    destruct (Hscan (TagSeq [t])) as (r & -> & HI & Hh).
    specialize (Hh t). cbn [wanted existsb] in Hh. rewrite String.eqb_refl in Hh.
    cbn [orb] in Hh.
    destruct r as [|[k0 l0] r'].
    - cbn. f_equal. f_equal. rewrite <- Hh. reflexivity.
    - cbn [len_tags length Nat.eqb fst].
      assert (Hg : PyDict.get ((k0, l0) :: r') k0 = Some l0)
        by (apply (DictFacts.get_first _ k0 l0 r'); reflexivity).
      destruct (HI k0 l0 Hg) as [_ Hwant]. cbn [wanted existsb] in Hwant.
      rewrite orb_false_r in Hwant. apply String.eqb_eq in Hwant. subst k0.
      unfold recorded in Hh. rewrite Hg in Hh. cbn in Hh. now rewrite Hh. }
  split.
  - intros t Ht. split; apply Hone; auto.
    cbn [listed]. apply String.eqb_neq in Ht. now rewrite Ht.
  - destruct (Hscan (TagStr "all")) as (r & Hs & HI & Hh).
    assert (Hget : forall k, PyDict.get r k
                     = if is_nil (logged_values E ev k ds) then None
                       else Some (logged_values E ev k ds)).
    { intros k. specialize (Hh k). cbn [wanted] in Hh. rewrite String.eqb_refl in Hh.
      cbn [orb] in Hh. unfold recorded in Hh.
      destruct (PyDict.get r k) as [l|] eqn:Hg.
      - destruct (HI k l Hg) as [Hne _]. cbn in Hh. subst l.
        destruct (logged_values E ev k ds); [congruence | reflexivity].
      - cbn in Hh. now rewrite <- Hh. }
    assert (Hall : fst (get_history get_params py_eval of_text exp rep (TagStr "all") w)
                   = Got (HDict r)).
    { unfold get_history, rbind. rewrite Hgp. cbn [listed String.eqb Ascii.eqb Bool.eqb].
      rewrite Hrl, Hs. destruct r as [|[k0 l0] r']; reflexivity. }
    exists r. split; [exact Hall|]. split; [exact Hget|]. split.
    + unfold get_history_tags, rbind.
      destruct (get_history get_params py_eval of_text exp rep (TagStr "all") w) as [h w2].
      cbn [fst] in Hall. subst h. reflexivity.
    + intros k. rewrite DictFacts.In_keys_get, Hget.
      destruct (logged_values E ev k ds); cbn [is_nil]; split.
      * intros [? ?]. discriminate.
      * congruence.
      * discriminate.
      * eauto.
Qed.

Lemma get_history_reads_back_the_lines_witness :
  fst (get_history get_params_none eval_int VStr "/data/exp" 0 (TagStr "iteration") world_done)
  = Got (HList [VInt 0; VInt 1; VInt 2]).
Proof.
  destruct (get_history_reads_back_the_lines get_params_none eval_int VStr env0 decoded
              world_done world_done "/data/exp" 0 [] [step0 0 0; step0 0 1; step0 0 2])
    as [H _].
  - reflexivity.
  - reflexivity.
  - reflexivity.
  - intros d kv loc _ _. unfold value_of, eval_int, decoded.
    destruct (NilZero.int_of_string (PyText.str (float_text env0) (snd kv))) as [i|];
      [|reflexivity].
    destruct (String.eqb (Str.of_Z (Z.of_int i)) (PyText.str (float_text env0) (snd kv)));
      reflexivity.
  - destruct (H "iteration") as [H1 _]; [discriminate|]. rewrite H1. reflexivity.
Defined.

Section Picking.
Context {U V : Type}.
Variable get_params : string -> R U Dict.
Variable py_eval : Locals V -> string -> Evaluated V.
Variable of_text : string -> V.
Variable py_min : list V -> V.
Variable py_max : list V -> V.

Lemma index_inside {A} (l : list A) i :
  0 <= i < Z.of_nat (length l) ->
  exists x, nth_error l (Z.to_nat i) = Some x /\ index l i = Got x.
Proof.
  intros Hi. unfold index.
  replace (0 <=? i) with true by (symmetry; apply Z.leb_le; lia).
  replace (i <? 0) with false by (symmetry; apply Z.ltb_ge; lia).
  destruct (nth_error l (Z.to_nat i)) as [x|] eqn:Hn; [eauto|].
  apply nth_error_None in Hn. lia.
Qed.

Lemma index_from_end {A} (l : list A) i :
  - Z.of_nat (length l) <= i < 0 -> index l i = index l (Z.of_nat (length l) + i).
Proof.
  intros Hi. unfold index.
  replace (0 <=? i) with false by (symmetry; apply Z.leb_gt; lia).
  replace (0 <=? Z.of_nat (length l) + i) with true by (symmetry; apply Z.leb_le; lia).
  reflexivity.
Qed.

Lemma index_outside {A} (l : list A) i :
  i < - Z.of_nat (length l) \/ Z.of_nat (length l) <= i -> index l i = Failed IndexError.
Proof.
  intros Hi. unfold index. destruct (Z.leb_spec 0 i).
  - replace (i <? 0) with false by (symmetry; apply Z.ltb_ge; lia).
    destruct (nth_error l (Z.to_nat i)) as [x|] eqn:Hn; [|reflexivity].
    assert (Hlt : (Z.to_nat i < length l)%nat) by (apply nth_error_Some; congruence). lia.
  - replace (Z.of_nat (length l) + i <? 0) with true by (symmetry; apply Z.ltb_lt; lia).
    reflexivity.
Qed.

Lemma index_last {A} (l : list A) x : index (l ++ [x]) (-1) = Got x.
Proof.
  unfold index. cbn [Z.leb Z.compare]. rewrite List.length_app. cbn [length].
  replace (Z.of_nat (length l + 1) + -1) with (Z.of_nat (length l)) by lia.
  replace (Z.of_nat (length l) <? 0) with false by (symmetry; apply Z.ltb_ge; lia).
  rewrite Nat2Z.id.
  rewrite nth_error_app2 by lia. now rewrite Nat.sub_diag.
Qed.

End Picking.

(** X17. [get_value] on what [get_history] returns.  An empty history gives
    [None] whatever [which] is.  For the list of one tag: ['last'] and the
    index [-1] give the last value, ['min'] and ['max'] the minimum and the
    maximum, an index [i] inside the list the value at [i], the same as the
    index [i - len] counted from the end, an index outside raises
    [IndexError], and any other [which] gives [None].  For a dictionary of
    several tags an unknown [which] returns the dictionary of lists as it
    is. *)
Theorem get_value_picks_from_the_history
  {U V} (get_params : string -> R U Dict) (py_eval : Locals V -> string -> Evaluated V)
  (of_text : string -> V) (py_min py_max : list V -> V)
  (w w1 : World U) (exp : string) (rep : Z) (tags : Tags) (h : History V) :
  get_history get_params py_eval of_text exp rep tags w = (Got h, w1) ->
  let value which := get_value get_params py_eval of_text py_min py_max exp rep tags which w in
  (h = HList [] \/ h = HDict [] -> forall which, value which = (Got PNone, w1))
  /\ (forall l x, h = HList (l ++ [x]) ->
        value WLast = (Got (PValue x), w1)
        /\ value (WIndex (-1)) = (Got (PValue x), w1)
        /\ value WMin = (Got (PValue (py_min (l ++ [x]))), w1)
        /\ value WMax = (Got (PValue (py_max (l ++ [x]))), w1)
        /\ value WOther = (Got PNone, w1)
        /\ (forall i, 0 <= i < Z.of_nat (length (l ++ [x])) ->
              exists y, nth_error (l ++ [x]) (Z.to_nat i) = Some y
                        /\ value (WIndex i) = (Got (PValue y), w1)
                        /\ value (WIndex (i - Z.of_nat (length (l ++ [x]))))
                           = (Got (PValue y), w1))
        /\ (forall i, i < - Z.of_nat (length (l ++ [x])) \/ Z.of_nat (length (l ++ [x])) <= i ->
              value (WIndex i) = (Failed IndexError, w1)))
  /\ (forall d, h = HDict d -> d <> [] -> value WOther = (Got (PHistories d), w1)).
Proof.
  intros Hh value.
  assert (Hv : forall which,
             value which
             = match h with
               | HList [] | HDict [] => rret PNone
               | HDict d =>
                   match which with
                   | WOther => rret (PHistories d)
                   | _ => match pick_all py_min py_max which d with
                          | Got d' => rret (PDict d')
                          | Failed e => rlift (Failed e)
                          end
                   end
               | HList l =>
                   match pick py_min py_max which l with
                   | Got (Some x) => rret (PValue x)
                   | Got None => rret PNone
                   | Failed e => rlift (Failed e)
                   end
               end w1).
  { intros which. unfold value, get_value, rbind. now rewrite Hh. }
  split; [|split].
  - intros [-> | ->] which; rewrite Hv; reflexivity.
  - intros l x ->.
    assert (Hne : forall which,
               value which
               = match pick py_min py_max which (l ++ [x]) with
                 | Got (Some y) => rret (PValue y)
                 | Got None => rret PNone
                 | Failed e => rlift (Failed e)
                 end w1).
    { intros which. rewrite Hv. destruct l; reflexivity. }
    split; [|split; [|split; [|split; [|split; [|split]]]]].
    + rewrite Hne. cbn [pick]. now rewrite index_last.
    + rewrite Hne. cbn [pick]. now rewrite index_last.
    + rewrite Hne. reflexivity.
    + rewrite Hne. reflexivity.
    + rewrite Hne. reflexivity.
    + intros i Hi. destruct (index_inside (l ++ [x]) i Hi) as (y & Hn & Hy).
      exists y. split; [exact Hn|]. split.
      * rewrite Hne. cbn [pick]. now rewrite Hy.
      * rewrite Hne. cbn [pick]. rewrite index_from_end by lia.
        replace (Z.of_nat (length (l ++ [x])) + (i - Z.of_nat (length (l ++ [x])))) with i by lia.
        now rewrite Hy.
    + intros i Hi. rewrite Hne. cbn [pick]. now rewrite index_outside.
  - intros d -> Hd. rewrite Hv. destruct d; [congruence | reflexivity].
Qed.

Lemma get_value_picks_from_the_history_witness :
  get_value get_params_none eval_int VStr (fun _ => VNone) (fun _ => VNone)
            "/data/exp" 0 (TagStr "iteration") WLast world_done
  = (Got (PValue (VInt 2)), add_events [EvOpen "/data/exp/0.log" ModeR] world_done).
Proof.
  destruct (get_value_picks_from_the_history get_params_none eval_int VStr
              (fun _ => VNone) (fun _ => VNone) world_done
              (add_events [EvOpen "/data/exp/0.log" ModeR] world_done)
              "/data/exp" 0 (TagStr "iteration") (HList [VInt 0; VInt 1; VInt 2]))
    as (_ & H & _).
  - reflexivity.
  - destruct (H [VInt 0; VInt 1] (VInt 2) eq_refl) as (H1 & _). exact H1.
Defined.

(** X18. [get_history] calls [get_params] first: an exception of it (no
    snapshot that can be read, for one) leaves [get_history] whatever the
    log holds.  When the snapshot is read and the log cannot be opened the
    result is empty and has the shape the tags ask for: the list [[]] for
    one tag, given as a string or as a one-item sequence, the dictionary
    [{}] for ['all'], the empty sequence and sequences of two or more tags.
    [get_history_tags] then returns [[]] and [get_value] returns [None]. *)
Theorem get_history_needs_the_snapshot_not_the_log
  {U V} (get_params : string -> R U Dict) (py_eval : Locals V -> string -> Evaluated V)
  (of_text : string -> V) (py_min py_max : list V -> V)
  (w : World U) (exp : string) (rep : Z) :
  (forall e w1 tags,
      get_params exp w = (Failed e, w1) ->
      get_history get_params py_eval of_text exp rep tags w = (Failed e, w1))
  /\ (forall params w1,
         get_params exp w = (Got params, w1) ->
         files w1 !! FS.resolve w1 (logname_of exp rep) = None ->
         (forall t, t <> "all" ->
                    get_history get_params py_eval of_text exp rep (TagStr t) w
                    = (Got (HList []), w1))
         /\ (forall l, get_history get_params py_eval of_text exp rep (TagSeq l) w
                       = (Got (match l with [_] => HList [] | _ => HDict [] end), w1))
         /\ get_history get_params py_eval of_text exp rep (TagStr "all") w = (Got (HDict []), w1)
         /\ get_history_tags get_params py_eval of_text exp rep w = (Got [], w1)
         /\ (forall tags which,
                get_value get_params py_eval of_text py_min py_max exp rep tags which w
                = (Got PNone, w1))).
Proof.
  split.
  - intros e w1 tags Hgp. unfold get_history, rbind. now rewrite Hgp.
  - intros params w1 Hgp Hf.
    assert (Hrl : FS.read_lines (Path.join exp (Str.of_Z rep +:+ ".log")) w1
                  = (Raise (IOError (FS.resolve w1 (logname_of exp rep))), w1)).
    { unfold FS.read_lines. change (Path.join exp (Str.of_Z rep +:+ ".log"))
        with (logname_of exp rep). now rewrite Hf. }
    assert (Hno : forall tags,
               get_history get_params py_eval of_text exp rep tags w
               = (Got (no_history (listed tags)), w1)).
    { intros tags. unfold get_history, rbind. now rewrite Hgp, Hrl. }
    split; [|split; [|split; [|split]]].
    + intros t Ht. rewrite Hno. cbn [listed]. apply String.eqb_neq in Ht. now rewrite Ht.
    + intros l. rewrite Hno. cbn [listed]. unfold no_history. cbn [len_tags].
      destruct l as [|a [|b l']]; reflexivity.
    + rewrite Hno. reflexivity.
    + unfold get_history_tags, rbind. rewrite Hno. reflexivity.
    + intros tags which. unfold get_value, rbind. rewrite Hno. unfold no_history.
      destruct (Nat.eqb (len_tags (listed tags)) 1); reflexivity.
Qed.

Lemma get_history_needs_the_snapshot_not_the_log_witness :
  get_history get_params_none eval_int VStr "/data/exp" 7 (TagSeq ["a"; "b"]) world_done
  = (Got (HDict []), world_done).
Proof.
  destruct (get_history_needs_the_snapshot_not_the_log get_params_none eval_int VStr
              (fun _ => VNone) (fun _ => VNone) world_done "/data/exp" 7) as [_ H].
  destruct (H [] world_done eq_refl eq_refl) as (_ & H2 & _).
  exact (H2 ["a"; "b"]).
Defined.

Section Finished.
Context {U V : Type}.
Variable get_params : string -> R U Dict.
Variable py_eval : Locals V -> string -> Evaluated V.
Variable of_text : string -> V.
Variable E : Env.
Variable ev : string -> V.

Lemma insert_sorted_perm kv l : Permutation (insert_sorted kv l) (kv :: l).
Proof.
  induction l as [|a l IH]; [reflexivity|]. cbn [insert_sorted].
  destruct (String.leb (fst kv) (fst a)); [reflexivity|].
  rewrite IH. apply perm_swap.
Qed.

Lemma sorted_items_perm d : Permutation (sorted_items d) d.
Proof.
  unfold sorted_items. induction d as [|a d IH]; [reflexivity|]. cbn [fold_right].
  rewrite insert_sorted_perm. now constructor.
Qed.

(** a key that occurs once gives one value *)
Lemma select_one (f : PyVal -> V) (d : Dict) t v :
  NoDup (PyDict.keys d) -> PyDict.get d t = Some v ->
  flat_map (fun kv => if String.eqb (fst kv) t then [f (snd kv)] else []) d = [f v].
Proof.
  unfold PyDict.keys. induction d as [|[k x] d IH]; intros Hnd Hg; [discriminate|].
  cbn [map fst] in Hnd. apply NoDup_cons in Hnd as [Hk Hnd].
  cbn [PyDict.get] in Hg. cbn [flat_map fst snd].
  destruct (String.eqb k t) eqn:Hkt.
  - injection Hg as ->. apply String.eqb_eq in Hkt. subst k. cbn [List.app]. f_equal.
    apply flat_map_nil. intros [k' x'] Hin. cbn [fst snd].
    destruct (String.eqb_spec k' t) as [->|]; [|reflexivity].
    exfalso. apply Hk. apply list_elem_of_In. apply in_map_iff. now exists (t, x').
  - cbn [List.app]. now apply IH.
Qed.

Lemma logged_one (d : Dict) t v :
  NoDup (PyDict.keys d) -> PyDict.get d t = Some v ->
  logged_values E ev t [d] = [ev (PyText.str (float_text E) v)].
Proof.
  intros Hnd Hg. unfold logged_values. cbn [flat_map]. rewrite List.app_nil_r.
  pose proof (select_one (fun x => ev (PyText.str (float_text E) x)) d t v Hnd Hg) as Hsel.
  apply Permutation_singleton_r.
  rewrite <- Hsel. apply Permutation_flat_map. apply sorted_items_perm.
Qed.

End Finished.

Section OneTag.
Context {U V : Type}.
Variable get_params : string -> R U Dict.
Variable py_eval : Locals V -> string -> Evaluated V.
Variable of_text : string -> V.
Variable E : Env.
Variable ev : string -> V.

(** the history of one tag, for a log of results that are made of words *)
Lemma get_history_one_tag (w w1 : World U) exp rep params ds t :
  get_params exp w = (Got params, w1) ->
  files w1 !! FS.resolve w1 (logname_of exp rep)
    = Some (Str.join_all (map (fun d => outstr E d +:+ Str.of_char Str.nl) ds)) ->
  forallb (wordy E) ds = true ->
  (forall d kv loc, In d ds -> In kv (sorted_items d) ->
                    value_of py_eval of_text loc (PyText.str (float_text E) (snd kv))
                    = Got (ev (PyText.str (float_text E) (snd kv)))) ->
  t <> "all" ->
  get_history get_params py_eval of_text exp rep (TagStr t) w
  = (Got (HList (logged_values E ev t ds)),
     emit (EvOpen (FS.resolve w1 (logname_of exp rep)) ModeR) w1).
Proof.
  intros Hgp Hf Hw Hev Ht.
  assert (Hrl : FS.read_lines (Path.join exp (Str.of_Z rep +:+ ".log")) w1
                = (Ok (map (fun d => outstr E d +:+ Str.of_char Str.nl) ds),
                   emit (EvOpen (FS.resolve w1 (logname_of exp rep)) ModeR) w1)).
  { change (Path.join exp (Str.of_Z rep +:+ ".log")) with (logname_of exp rep).
    rewrite (read_lines_file w1 _ _ Hf). now rewrite (join_lines_readlines E ds Hw). }
  unfold get_history, rbind. rewrite Hgp. cbn [listed].
  apply String.eqb_neq in Ht. rewrite Ht, Hrl.
  destruct (scan_lines_results py_eval of_text E ev exp rep (TagSeq [t]) params ds [])
    as (r & -> & HI & Hh); auto.
  { intros k l Hk. discriminate Hk. }
  specialize (Hh t). cbn [wanted existsb] in Hh. rewrite String.eqb_refl in Hh.
  cbn [orb] in Hh. change (recorded [] t) with (@nil V) in Hh. cbn [List.app] in Hh.
  destruct r as [|[k0 l0] r'].
  - cbn. f_equal. f_equal. rewrite <- Hh. reflexivity.
  - cbn [len_tags length Nat.eqb fst].
    assert (Hg : PyDict.get ((k0, l0) :: r') k0 = Some l0)
      by (apply (DictFacts.get_first _ k0 l0 r'); reflexivity).
    destruct (HI k0 l0 Hg) as [_ Hwant]. cbn [wanted existsb] in Hwant.
    rewrite orb_false_r in Hwant. apply String.eqb_eq in Hwant. subst k0.
    unfold recorded in Hh. rewrite Hg in Hh. cbn in Hh. now rewrite Hh.
Qed.

Lemma logged_values_app t ds1 ds2 :
  logged_values E ev t (ds1 ++ ds2) = logged_values E ev t ds1 ++ logged_values E ev t ds2.
Proof. unfold logged_values. apply flat_map_app. Qed.

Lemma logged_each t ds (vals : list PyVal) :
  Forall2 (fun d v => NoDup (PyDict.keys d) /\ PyDict.get d t = Some v) ds vals ->
  logged_values E ev t ds = map (fun v => ev (PyText.str (float_text E) v)) vals.
Proof.
  induction 1 as [|d v ds vals [Hnd Hg] _ IH]; [reflexivity|].
  cbn [map]. change (d :: ds) with ([d] ++ ds).
  rewrite logged_values_app.
  pose proof (logged_one E ev d t v Hnd Hg) as H1.
  change (ev (PyText.str (float_text E) v)
            :: map (fun v0 => ev (PyText.str (float_text E) v0)) vals)
    with ([ev (PyText.str (float_text E) v)]
            ++ map (fun v0 => ev (PyText.str (float_text E) v0)) vals).
  f_equal; [exact H1 | exact IH].
Qed.

End OneTag.

(** X19. Writer and reader together.  Take an experiment path that is
    absolute and has no slash at its end, whose directory exists and holds
    no directory, a repetition without a log, at least one iteration, a
    [get_params] that returns for the directory, and an [eval] that maps
    every value text [s] to [ev s].  When [iterate], called in turn from
    the state [reset] leaves, returns for every index a result with
    distinct keys, made of words (no white space or colon in a key or in
    the text of a value, so no space in a key), in which the tag [t] (other
    than [all]) occurs, then after [run_rep] has run the repetition to its
    end [get_history] for [t] on the directory of the experiment returns
    one value for every iteration, in order: what [eval] makes of the [str]
    text of the value [iterate] returned under [t].  [get_value] with
    ['last'] returns the value of the last iteration, with index 0 the
    value of the first. *)
Theorem history_of_a_finished_repetition
  {U V} (S : Suite U) (E : Env) (options : Options)
  (get_params : string -> R U Dict) (py_eval : Locals V -> string -> Evaluated V)
  (of_text : string -> V) (py_min py_max : list V -> V) (ev : string -> V)
  (w : World U) (params : Dict) (rep : Z) (name path : string) (n : Z)
  (t : string) (vals : list PyVal) :
  let fullpath := Path.join path name in
  let log := logname_of fullpath rep in
  let u0 := start_state S params rep 0 (user w) in
  let out := results S params rep (xrange 0 n) u0 in
  let shown := fun v => ev (PyText.str (float_text E) v) in
  ParamsOf params name path n ->
  Ready w fullpath ->
  NoSubdir w fullpath ->
  files w !! log = None ->
  0 < n ->
  failure S params rep (xrange 0 n) u0 = None ->
  Forall2 (fun d v => spaceless d = true /\ wordy E d = true
                      /\ NoDup (PyDict.keys d) /\ PyDict.get d t = Some v) out vals ->
  t <> "all" ->
  (forall w0 : World U, exists p, get_params fullpath w0 = (Got p, w0)) ->
  (forall loc s, value_of py_eval of_text loc s = Got (ev s)) ->
  exists w',
    run_rep S E options params rep w = (Ok RetNone, w')
    /\ Z.of_nat (length vals) = n
    /\ fst (get_history get_params py_eval of_text fullpath rep (TagStr t) w')
       = Got (HList (map shown vals))
    /\ (forall v, last vals = Some v ->
          fst (get_value get_params py_eval of_text py_min py_max fullpath rep (TagStr t)
                         WLast w')
          = Got (PValue (shown v)))
    /\ (forall v, head vals = Some v ->
          fst (get_value get_params py_eval of_text py_min py_max fullpath rep (TagStr t)
                         (WIndex 0) w')
          = Got (PValue (shown v))).
Proof.
  intros fullpath log u0 out shown HP HR HN Hf Hn Hfail Hres Ht Hgp Hev.
  assert (Hcl : Path.clean fullpath) by apply HR.
  assert (Hsp : Forall (fun d => spaceless d = true) out).
  { clear - Hres. induction Hres as [|d v ds vs [H _] _ IH]; constructor; assumption. }
  destruct (fresh_run_log S E options params rep name path n w HP HR HN Hf Hfail Hsp)
    as (w' & Hrun & [_ Hl _ _] & _).
  cbn [Z.eqb] in Hl. rewrite StrFacts.app_nil_l in Hl. fold fullpath log u0 out in Hl.
  destruct (Hgp w') as (p & Hp).
  assert (Hfile : files w' !! FS.resolve w' (logname_of fullpath rep)
                  = Some (Str.join_all (map (fun d => outstr E d +:+ Str.of_char Str.nl) out))).
  { rewrite resolve_abs by (apply log_abs, Hcl). fold log. rewrite Hl. f_equal. f_equal.
    apply map_ext_in. intros d Hd. apply log_line_spaceless.
    rewrite List.Forall_forall in Hsp. now apply Hsp. }
  assert (Hw : forallb (wordy E) out = true).
  { clear - Hres. induction Hres as [|d v ds vs (_ & H & _) _ IH]; [reflexivity|].
    cbn [forallb]. now rewrite H, IH. }
  pose proof (get_history_one_tag get_params py_eval of_text E ev w' w' fullpath rep p out t
                Hp Hfile Hw (fun d kv loc _ _ => Hev loc _) Ht) as Hh.
  assert (Hlog : logged_values E ev t out = map shown vals).
  { apply logged_each. eapply Forall2_impl; [exact Hres|]. now intros d v (_ & _ & H1 & H2). }
  rewrite Hlog in Hh.
  exists w'. split; [exact Hrun|]. split; [|split; [now rewrite Hh|]].
  { rewrite <- (Forall2_length _ _ _ Hres).
    destruct (failure_none S params rep _ _ Hfail) as [_ H]. fold u0 out in H.
    rewrite H, length_xrange. lia. }
  unfold get_value, rbind. rewrite Hh. split.
  - intros v Hv. apply last_Some in Hv as (l' & ->). rewrite map_app. cbn [map].
    set (l := map shown l').
    replace (match l ++ [shown v] with
             | [] => rret PNone
             | _ :: _ =>
                 match pick py_min py_max WLast (l ++ [shown v]) with
                 | Got (Some x) => rret (PValue x)
                 | Got None => rret PNone
                 | Failed e => rlift (Failed e)
                 end
             end)
      with (rret (U:=U) (PValue (shown v))); [reflexivity|].
    cbn [pick]. rewrite index_last. now destruct l.
  - intros v Hv. destruct vals as [|v0 vals']; [discriminate|]. injection Hv as ->.
    cbn [map]. reflexivity.
Qed.

Lemma history_of_a_finished_repetition_witness :
  exists w',
    run_rep base_suite env0 (options0 None) (params_exp "/data" 3) 0 world_fresh = (Ok RetNone, w')
    /\ fst (get_history get_params_none eval_int VStr "/data/exp" 0 (TagStr "iteration") w')
       = Got (HList [VInt 0; VInt 1; VInt 2])
    /\ fst (get_value get_params_none eval_int VStr (fun _ => VNone) (fun _ => VNone)
                      "/data/exp" 0 (TagStr "iteration") WLast w')
       = Got (PValue (VInt 2)).
Proof.
  destruct (history_of_a_finished_repetition base_suite env0 (options0 None)
              get_params_none eval_int VStr (fun _ => VNone) (fun _ => VNone) decoded
              world_fresh (params_exp "/data" 3) 0 "exp" "/data" 3 "iteration"
              [VInt 0; VInt 1; VInt 2])
    as (w' & H1 & _ & H2 & H3 & _).
  - repeat split; reflexivity.
  - repeat split; reflexivity.
  - no_subdir.
  - reflexivity.
  - lia.
  - reflexivity.
  - repeat constructor; apply (bool_decide_unpack _); vm_compute; exact I.
  - discriminate.
  - intros w0. exists []. reflexivity.
  - intros loc s. unfold value_of, eval_int, decoded.
    destruct (NilZero.int_of_string s) as [i|]; [|reflexivity].
    destruct (String.eqb (Str.of_Z (Z.of_int i)) s); reflexivity.
  - exists w'. split; [exact H1|]. split; [exact H2 | exact (H3 _ eq_refl)].
Defined.

Lemma contains_prefix (p s : string) : Str.startswith p s = true -> Str.contains p s = true.
Proof. intros H. destruct s; cbn [Str.contains]; now rewrite H. Qed.

(** X20. Take a subclass that restores, no forced rerun, an experiment path
    that is absolute and has no slash at its end, whose directory exists
    and holds no directory, and a log that a crash at the iteration
    [k >= 1] left: [k] lines and the token [exception:error] after them.
    When [iterate], called in turn from the state [restore_state] leaves,
    returns for [k .. n-1] results that give one line of text each (no
    space in a key, no line break), the next [run_rep] restores at [k] and
    appends the lines of these results: the token is not removed, it stays
    glued to the front of the line of [k], and the log has [n] lines.
    When the last line is not the glued one and holds no token of its own
    the repetition counts as complete and [haserror] is false; when the
    crash was at the last iteration the log, although full, still ends in
    a line with the token, so [haserror] stays true and the repetition is
    not taken as complete. *)
Theorem resuming_a_crash_keeps_the_token
  {U} (S : Suite U) (E : Env) (options : Options) (w : World U)
  (params : Dict) (rep : Z) (name path : string) (n : Z) (olds : list string) :
  let fullpath := Path.join path name in
  let log := logname_of fullpath rep in
  let k := Z.of_nat (length olds) in
  let old_lines := map (fun x => x +:+ Str.of_char Str.nl) olds in
  let crashed := Str.join_all old_lines +:+ sentinel in
  let u0 := start_state S params rep k (user w) in
  let out := results S params rep (xrange k n) u0 in
  let news := map (log_line E) out in
  ParamsOf params name path n ->
  Ready w fullpath ->
  NoSubdir w fullpath ->
  restore_supported S = true ->
  truthy (rerun options) = false ->
  files w !! log = Some crashed ->
  Forall (fun x => Str.has_char Str.nl x = false) olds ->
  1 <= k < n ->
  failure S params rep (xrange k n) u0 = None ->
  Forall (fun d => spaceless d = true /\ Str.has_char Str.nl (outstr E d) = false) out ->
  exists w' first rest,
    run_rep S E options params rep w = (Ok RetNone, w')
    /\ restored (trace w') = restored (trace w) ++ [(params, rep, k)]
    /\ iterated (trace w') = iterated (trace w) ++ map (fun it => (params, rep, it)) (xrange k n)
    /\ files w' !! log = Some (crashed +:+ Str.join_all news)
    /\ news = first :: rest
    /\ Str.readlines (crashed +:+ Str.join_all news)
       = old_lines ++ [sentinel +:+ first] ++ rest
    /\ Z.of_nat (length (Str.readlines (crashed +:+ Str.join_all news))) = n
    /\ (k < n - 1 -> (forall l, last rest = Some l -> Str.contains sentinel l = false) ->
        is_complete w' (params, rep) = true /\ fst (haserror params rep w') = Ok false)
    /\ (k = n - 1 ->
        is_complete w' (params, rep) = false /\ fst (haserror params rep w') = Ok true).
Proof.
  intros fullpath log k old_lines crashed u0 out news HP HR HN Hs Hr Hf Holds Hk Hfail Hline.
  assert (Hcl : Path.clean fullpath) by apply HR.
  assert (Hn : PyDict.get params "iterations" = Some (VInt n)) by apply HP.
  assert (Hres : forall v : World U, FS.resolve v log = log)
    by (intros; apply resolve_abs, log_abs, Hcl).
  assert (Hsp : Forall (fun d => spaceless d = true) out)
    by exact (one_line_spaceless E _ Hline).
  assert (Hlout : Z.of_nat (length out) = n - k).
  { destruct (failure_none S params rep _ _ Hfail) as [_ H]. fold u0 out in H.
    rewrite H, length_xrange. lia. }
  (* the lines of the crashed log *)
  assert (Hrl0 : Str.readlines crashed = old_lines ++ [sentinel]).
  { unfold crashed, old_lines. now rewrite readlines_lines_app. }
  assert (Hcr0 : ends_in_crash (Str.readlines crashed) = true).
  { rewrite Hrl0. unfold ends_in_crash. now rewrite last_snoc. }
  assert (Hlen0 : Z.of_nat (length (strip_error_line (Str.readlines crashed))) = k).
  { rewrite length_strip, Hcr0, Hrl0, List.length_app. unfold old_lines.
    rewrite length_map. cbn [length]. lia. }
  pose proof (resume_point_auto S E options params rep fullpath n Hn crashed w) as Hrp.
  fold log in Hrp. rewrite Hres, Hlen0 in Hrp. specialize (Hrp Hf Hs Hr ltac:(lia)).
  destruct (run_from_returns S E params rep fullpath n Hn k
              (emit (EvOpen log ModeR) w) (Ready_emit _ _ _ HR) HN)
    as (w' & Hrun & [_ Hl _ (evs & Ht & Hi & Hre & _)] & _).
  { destruct w; exact Hfail. }
  { destruct w; exact Hsp. }
  replace (user (emit (EvOpen log ModeR) w)) with (user w) in Hl by now destruct w.
  fold log in Hl. fold u0 out news in Hl.
  replace (k =? 0) with false in * by (symmetry; apply Z.eqb_neq; lia).
  assert (Hlog' : files w' !! log = Some (crashed +:+ Str.join_all news)).
  { rewrite Hl. destruct w; simpl in *. now rewrite Hf. }
  (* the first of the new lines *)
  destruct out as [|d0 ds] eqn:Hout; [cbn [length] in Hlout; lia|].
  inversion Hline as [|x xs [Hs0 Hnl0] Hrest]; subst x xs.
  assert (Hfirst : log_line E d0 = outstr E d0 +:+ Str.of_char Str.nl)
    by now apply log_line_spaceless.
  (* the lines of the log after the resumed run *)
  assert (Hrl : Str.readlines (crashed +:+ Str.join_all news)
                = old_lines ++ [sentinel +:+ log_line E d0] ++ map (log_line E) ds).
  { unfold crashed, news, old_lines. cbn [map Str.join_all].
    rewrite !StrFacts.app_assoc.
    rewrite readlines_lines_app by exact Holds.
    f_equal.
    rewrite <- !StrFacts.app_assoc.
    replace (sentinel +:+ log_line E d0)
      with ((sentinel +:+ outstr E d0) +:+ Str.of_char Str.nl)
      by (rewrite Hfirst; now rewrite StrFacts.app_assoc).
    rewrite StrFacts.readlines_app by apply LineFacts.ends_with_nl.
    rewrite LineFacts.readlines_line.
    - cbn [List.app]. f_equal. now apply readlines_log_lines.
    - rewrite StrFacts.has_char_app. rewrite Hnl0. reflexivity. }
  assert (Hlen : Z.of_nat (length (Str.readlines (crashed +:+ Str.join_all news))) = n).
  { rewrite Hrl, !List.length_app. unfold old_lines. rewrite !length_map.
    cbn [length] in *. lia. }
  assert (Hf' : files w' !! FS.resolve w' log = Some (crashed +:+ Str.join_all news))
    by now rewrite Hres.
  assert (Hcomplete : is_complete w' (params, rep)
                      = negb (ends_in_crash (Str.readlines (crashed +:+ Str.join_all news)))).
  { unfold is_complete. cbn [fst snd]. destruct HP as (-> & -> & ->).
    fold fullpath log. rewrite Hf', Hlen, Z.eqb_refl. reflexivity. }
  assert (Hhas : fst (haserror params rep w')
                 = Ok (ends_in_crash (Str.readlines (crashed +:+ Str.join_all news)))).
  { now rewrite (haserror_spec params rep name path n _ w' HP Hf'). }
  exists w', (log_line E d0), (map (log_line E) ds).
  split; [|split; [|split; [|split; [|split; [|split; [|split; [|split]]]]]]].
  - rewrite (run_rep_from S E options _ _ _ _ _ _ _ _ HP Hrp). exact Hrun.
  - rewrite Ht. cbn [trace emit]. rewrite !restored_app, Hre. cbn. now rewrite List.app_nil_r.
  - rewrite Ht. cbn [trace emit]. rewrite !iterated_app, Hi. cbn. now rewrite List.app_nil_r.
  - exact Hlog'.
  - reflexivity.
  - exact Hrl.
  - exact Hlen.
  - intros Hlt Hclean. rewrite Hcomplete, Hhas.
    assert (Hend : ends_in_crash (Str.readlines (crashed +:+ Str.join_all news)) = false).
    { rewrite Hrl. unfold ends_in_crash.
      destruct (map (log_line E) ds) as [|l ls _] eqn:Hds using rev_ind.
      - apply (f_equal (@length string)) in Hds. rewrite length_map in Hds.
        cbn [length] in *. lia.
      - rewrite !List.app_assoc, last_snoc. apply Hclean. apply last_snoc. }
    now rewrite Hend.
  - intros Hlast. rewrite Hcomplete, Hhas.
    assert (Hend : ends_in_crash (Str.readlines (crashed +:+ Str.join_all news)) = true).
    { rewrite Hrl. destruct ds as [|d1 ds']; [|cbn [length] in Hlout; lia].
      cbn [map]. rewrite List.app_nil_r. unfold ends_in_crash. rewrite last_snoc.
      apply contains_prefix. now apply StrFacts.startswith_app. }
    now rewrite Hend.
Qed.

Lemma resuming_a_crash_keeps_the_token_witness :
  exists w',
    run_rep resumable_suite env0 (options0 None) (params_exp "/data" 3) 0 world_crashed
    = (Ok RetNone, w')
    /\ files w' !! "/data/exp/0.log"
       = Some (ln "iteration:0 repetition:0" +:+ sentinel
                 +:+ ln "iteration:1 repetition:0" +:+ ln "iteration:2 repetition:0")
    /\ is_complete w' (params_exp "/data" 3, 0) = true.
Proof.
  destruct (resuming_a_crash_keeps_the_token resumable_suite env0 (options0 None) world_crashed
              (params_exp "/data" 3) 0 "exp" "/data" 3 ["iteration:0 repetition:0"])
    as (w' & first & rest & H1 & _ & _ & H2 & Hnews & _ & _ & H3 & _).
  - repeat split; reflexivity.
  - repeat split; reflexivity.
  - no_subdir.
  - reflexivity.
  - reflexivity.
  - reflexivity.
  - repeat constructor.
  - cbn. lia.
  - reflexivity.
  - repeat constructor.
  - exists w'. split; [exact H1|]. split; [exact H2|].
    apply H3; [cbn; lia|].
    vm_compute in Hnews. injection Hnews as _ <-.
    intros l Hl. vm_compute in Hl. injection Hl as <-. reflexivity.
Defined.



